(* ===== verification/_CoqProject ===== *)
-Q . S2P
Prelude.v
Util.v
Bitmap.v
RingBuffer.v
Memory.v
Paging.v
PageTables.v
PagingInit.v
PageOps.v
Pma.v
Vma.v
Alloc.v
Scheduler.v
CString.v
Stdio.v
Printf.v
Vga.v
Io.v
TypedPorts.v
Pic.v
Crc32.v
LowMemory.v
Dma.v
Floppy.v
Filesystem.v
FloppyDisk.v
Keyboard.v
Serial.v
Console.v
Minishell.v
Terminal.v
HashMap.v
HashMapOwner.v
Mutex.v
Handles.v
Timing.v
Descriptors.v
Interrupts.v
Reports.v
Boot.v
PageDump.v
Optional.v
Elf.v
Cast.v
Thunk.v
PageLookup.v
Dumps.v
HeapMessages.v
Syscalls.v
Firmware.v
Startup.v
Drivers.v
KList.v
UniquePtr.v
SmallString.v
