(* ===== verification/Prelude.v ===== *)
(** * tyleros: a formal model of the kernel, its libraries and drivers

    tyleros is a 64-bit kernel in C++ with its own container library (src/libadt),
    C library (src/libc) and BIOS boot loader (src/boot).  This development
    translates the kernel's own logic into executable definitions and proves what
    makes each part correct.  File names below are relative to src/src.

    ** Conventions

    A machine integer is a [Z] with its wrap-around written out ([u32], [s64], ...).
    A computation has type [outcome A]: a value, or the fault it stops with: a
    panic, a failed assertion, an access outside an array or block, behaviour C++
    leaves undefined, or a loop without end ([Diverges]).  State is passed
    explicitly.  Drivers are programs in the monad [io] over a machine [D] (Io.v);
    the hardware they talk to is not part of the program: a class states what the
    driver relies on ([Ports], [Pic8259], [FloppyController], [Ps2Controller],
    [Uart16550], [Rtc], [Board]), the theorems hold for every machine with that behaviour, and
    each class has a concrete instance that the witnesses run on.

    ** Files, parts and correspondence

    - This file: integers, outcomes, arrays indexed by [Z], the tactics [inv_ok],
      [bool_to_prop], [case_if], [zdiv], [zlen_lia] and the hint databases
      [terminates], [zbits], [arrays]; the C strings as byte lists ([chars]).
    - Util.v: kernel/util.h, kernel/util/algorithm.h.
    - Bitmap.v: libadt/intrusive_bitmap.h.  RingBuffer.v: libadt/ring_buffer.h.
      HashMap.v: libadt/hash_map.h.  Each operation is a definition of the source's
      name over a record of the object's fields.  HashMapOwner.v: copies and moves
      of whole maps, as programs over objects that own their tables.
    - Optional.v, UniquePtr.v, SmallString.v, KList.v, Cast.v, Thunk.v:
      libadt/optional.h, unique_ptr.h, small_string.h, kernel/util/list.h,
      util/cast.h, kernel/thunk.h, each with the lifetime or ownership it manages.
    - Memory.v: kernel/memory.cpp, the memory map of the boot loader.
    - Paging.v: kernel/paging.h and paging.cpp: the words of the tables, the
      iterator and every operation.  PageTables.v: the abstract map from virtual
      pages to entries, the tree invariant and the semantics of the iterator.
      PagingInit.v: the boot tables.  PageOps.v: correctness of the operations.
      PageLookup.v: the older direct lookup of paging.h, compared with [get].
      PageDump.v: the dump of the page map into a file.
    - Pma.v, Vma.v, Alloc.v: kernel/pma.cpp (physical pages, on Bitmap.v),
      kernel/vma.cpp (virtual ranges, a linked free list in one page),
      kernel/alloc.cpp (the heap, on both and on Paging.v, which keeps the lines
      [alloc] and [free] print); HeapMessages.v brings those lines to the console.
    - Scheduler.v: kernel/scheduler.cpp, which uses the heap through the class
      [KernelHeap] that Alloc.v's operations implement.
    - Boot.v: kernel/main.h and the memory part of [kmain]; paging::finish_init and
      memory::finish_init, which join the three allocators and the page tables.
      Startup.v: [kmain] (kernel/main.cpp) from serial::init to the timer, with its
      messages, on a machine that has all its chips (class [Board]).  Drivers.v: the
      rest of it, from the floppy drive to task switching, on a machine with the
      drive next to the line (class [DriverBoard]); Minishell.v has what follows.
    - Syscalls.v: kernel/syscalls.cpp, libc/platform_specific.h and stdlib.cpp: the
      wrappers, the dispatch behind the interrupt, and the kernel's answers.
    - Elf.v: kernel/elf.h and dwarf.cpp, the header accessors and LEB128.
    - CString.v, Stdio.v: libc/string.cpp and ctype.cpp over a byte-addressed
      memory; libc/stdio.cpp ([vsnprintf]) and [itoa].  Printf.v: formats as lists
      of pieces, and what [vsnprintf] makes of them.
    - Vga.v, Serial.v, Console.v: kernel/vga.cpp, kernel/serial.cpp and debug.cpp,
      and the way of a printed text from [printf]'s buffer to both.  Reports.v: the
      reports of the fault routines (kernel/interrupts.cpp, panic.cpp).  Dumps.v: the
      dumps of the memory map and the free list, [debug::printf], and the start-up
      of screen and serial line.  Firmware.v: kernel/cmos.cpp and acpi.cpp.
    - Io.v, Pic.v, Timing.v, Descriptors.v, Interrupts.v: kernel/util/io.h,
      kernel/pic.cpp, kernel/timing.cpp and pit.cpp, kernel/gdt.cpp and idt.cpp
      with the vector table of kernel/interrupts.cpp, and the routines behind it.
    - LowMemory.v, Dma.v, Floppy.v, Filesystem.v: kernel/low_memory_allocator.cpp,
      kernel/dma.cpp, kernel/floppy.cpp, kernel/filesystem.cpp.  The file system
      reads through the class [BlockDevice]; [floppy_device] is the kernel's, and
      FloppyDisk.v joins the three: DMA controller, floppy controller and disk (class
      [FloppyDrive]), on which the driver implements the device of the file system.
    - Keyboard.v, Minishell.v: kernel/input.cpp and kernel/minishell.cpp; Terminal.v:
      both, under any schedule of interrupts and turns of the dispatcher.  The shell
      reaches the rest of the kernel through the class [ShellServices]; its
      instance [fs_services] joins it to Filesystem.v.
    - Mutex.v: kernel/mutex.h, as interleaved atomic steps.  Handles.v:
      [managed_by_mutex], its handles and optionals of handles, on Mutex.v.
    - Crc32.v: kernel/crc32.cpp.

    ** What the theorems show

    - Memory: the page operations change exactly the entries they name, keep the
      tree invariant and translate every byte as asked, below 2 TiB and in the highest
      2 TiB; the boot tables do too, and the dump lists the pages in order.
      The physical and virtual allocators never hand out a page or range twice,
      for every history of calls; [alloc] backs a fresh range page by page.  A
      [kmain] past its integrity check hands over a heap in which all of them agree
      and lie apart in memory, though eight bytes of low memory, perhaps the image's,
      have been changed on the way; the system call interface keeps [alloc]'s promise
      for user tasks, and the lines about it reach the serial line.
    - Start: [kmain] up to its tasks does to the memory what the operations above do,
      stops only where they stop, sends the whole boot log in order, and leaves the
      interrupt controllers and the clock chip set up; behind the timer the floppy
      drive, the file system, the keyboard and task switching come up, or stop where
      the memory and the disk make them stop or the drive reports an error.
    - Tasks: round-robin choice and exchange of frames by [task_switch], creation of
      tasks, and that a task once switched out, ended or faulting leaves no way on;
      mutual exclusion for every interleaving of operations on mutexes, guards and
      handles.
    - Strings and output: [memmove] for every overlap, the bound on [vsnprintf],
      numbers read back, every format printed as its pieces say, and that printing
      stays inside the static buffer and reaches screen and serial line; every write
      to the screen stays on it; fault reports and dumps arrive whole.
    - Containers: the ring buffer is a bounded deque, what an [optional] holds an
      option (but seldom a constructed object), a block owned by a [unique_ptr] or a hash map is freed once, a string keeps its text.
    - Devices: interrupts arrive at their routines; a command is sent to the floppy
      controller and its results read under the protocol of the chip; the driver's
      start leaves it ready, and a request gives the sectors asked for or the error
      reported; sectors and cylinders correspond one to one; the clock's count.
    - Files: path lookup, the FAT12 decoding, and that reading a file ends, whatever
      is on the disk, and returns the sectors of its chain; on the floppy driver it
      stops instead only where the controller reports an error for one of its reads.
    - Input: no key is missed between the interrupt and the subscribers; a command
      typed at the keyboard refines an abstract line editor whose line Enter runs.
    - Defects are theorems too, each where its code is modelled: for instance
      [HashMap.hash_map_stores_nothing], [Vma.free_drops_tail],
      [Scheduler.exit_stops], [Filesystem.nested_fragment_blank],
      [Minishell.backspace_on_full_line], [Pma.page_map_overlaps_first_page],
      [PageLookup.missing_table_exists], [KList.list_keeps_last_two],
      [HashMapOwner.self_assignment_loses], [Syscalls.aligned_alloc_swapped],
      [Interrupts.inner_scope_ends_outer], [Firmware.rsdp_valid_reads_on],
      [Startup.scheduler_start_undefined], [FloppyDisk.dma_buffer_crosses],
      [FloppyDisk.strict_drive_panics], [Paging.set_protection_bits_spec],
      [Printf.least_integer_undefined].

    ** Bounds and fuel

    Loops that are not structural carry fuel.  Where the loop ends, the fuel is a
    bound computed from the state (the number of entries, the room of a block, the
    size of the memory), and the theorem shows that the result is not [Diverges].
    [step_up] takes 4 units (there are four levels), [DIGIT_FUEL] 64 (a number has
    at most 22 digits, a padded one 32), [DISPATCH_FUEL] 257 (the queue holds 256
    events), the walk over a free list one more than its page has nodes, the polling
    loops of the drivers any number beyond the delay that the class of the device
    allows.  [tables_needed] bounds the tables a range may take: three for its first
    page and three for each 2 MiB boundary it crosses.  The claims of divergence
    in HashMap.v hold for every fuel.

    ** Not modelled

    The boot loader and the assembly stubs (assembly); compute_crc32.cpp beyond its
    checksum (file input and output of a build tool); the instructions that load
    tables or flush the TLB; [malloc_lock] (each heap operation is one step); the
    messages of [get_physical_address], of [read_file] and of a floppy command that
    is given up; the traits that have no code at run time (type_traits.h, elf and DWARF
    structures nobody reads), and views that only hold a pointer (range, buffer).  A
    floppy controller that is not ready for the next byte is left out as well: the
    class [FloppyController] has one that always is. *)
From Stdlib Require Export ZArith Lia Btauto.
From stdpp Require Export base option list gmap strings sorting.

Declare Scope kernel_scope.
Delimit Scope kernel_scope with kernel.
Open Scope Z_scope.

(** ** Machine integers

    A C++ integer of width [w] is a [Z] kept in range by an explicit
    wrap-around at every operation whose mathematical result may leave it. *)

Definition wrap (w : Z) (x : Z) : Z := x `mod` 2 ^ w.
Definition swrap (w : Z) (x : Z) : Z :=
  (x + 2 ^ (w - 1)) `mod` 2 ^ w - 2 ^ (w - 1).

Abbreviation u8 := (wrap 8).
Abbreviation u16 := (wrap 16).
Abbreviation u32 := (wrap 32).
Abbreviation u64 := (wrap 64).
Abbreviation s8 := (swrap 8).
Abbreviation s16 := (swrap 16).
Abbreviation s32 := (swrap 32).
Abbreviation s64 := (swrap 64).

(** [~x] at width [w]. *)
Definition wnot (w x : Z) : Z := wrap w (Z.lnot x).

(** ** Faults and outcomes

    A kernel operation returns a value or stops the machine: [kstd::panic],
    a failed [assert] (which calls [panic]), an access outside an array, an
    operation the C++ standard leaves undefined, or a loop that does not end. *)

Inductive fault :=
| Panic (msg : string)
| AssertFailed (msg : string)
| OutOfBounds
| Undefined (what : string)
| Diverges.

Inductive outcome (A : Type) :=
| Ok (a : A)
| Fail (f : fault).
Arguments Ok {A} a.
Arguments Fail {A} f.

#[export] Instance outcome_ret : MRet outcome := fun A a => Ok a.
#[export] Instance outcome_bind : MBind outcome := fun A B f m =>
  match m with Ok a => f a | Fail e => Fail e end.
#[export] Instance outcome_fmap : FMap outcome := fun A B f m =>
  match m with Ok a => Ok (f a) | Fail e => Fail e end.

(** The macro [assert(c && "msg")] of libc/assert.h in a build without
    [NDEBUG]. *)
Definition assert_ (c : bool) (msg : string) : outcome unit :=
  if c then Ok tt else Fail (AssertFailed msg).

Definition of_option {A} (f : fault) (o : option A) : outcome A :=
  match o with Some a => Ok a | None => Fail f end.

Definition is_ok {A} (m : outcome A) : bool :=
  match m with Ok _ => true | Fail _ => false end.

Lemma bind_Ok {A B} (m : outcome A) (f : A -> outcome B) b :
  (m ≫= f) = Ok b <-> exists a, m = Ok a /\ f a = Ok b.
Proof. destruct m; simpl; naive_solver. Qed.

(** The two rules of the error monad, to rewrite with: computing a bind in place
    would have the kernel compare the formatting of the texts. *)
Lemma bind_ok {A B} (a : A) (g : A -> outcome B) : mbind g (Ok a) = g a.
Proof. reflexivity. Qed.
Lemma bind_fail {A B} e (g : A -> outcome B) : mbind g (Fail e) = Fail e.
Proof. reflexivity. Qed.

Lemma assert_Ok c msg u : assert_ c msg = Ok u <-> c = true.
Proof. destruct c, u; simpl; naive_solver. Qed.

Lemma of_option_Ok {A} f (o : option A) a : of_option f o = Ok a <-> o = Some a.
Proof. destruct o; simpl; naive_solver. Qed.

(** [inv_ok] opens every hypothesis [m = Ok _] built from the combinators
    above. *)
Ltac inv_ok :=
  repeat match goal with
  | H : (_ ≫= _) = Ok _ |- _ =>
      let a := fresh "a" in let Ha := fresh "Ha" in
      apply bind_Ok in H; destruct H as (a & Ha & H)
  | H : mbind _ _ = Ok _ |- _ =>
      let a := fresh "a" in let Ha := fresh "Ha" in
      apply bind_Ok in H; destruct H as (a & Ha & H)
  | H : assert_ _ _ = Ok _ |- _ => apply assert_Ok in H
  | H : of_option _ _ = Ok _ |- _ => apply of_option_Ok in H
  | H : Ok _ = Ok _ |- _ => injection H as H; subst
  | H : mret _ = Ok _ |- _ => injection H as H; subst
  | H : Fail _ = Ok _ |- _ => discriminate H
  | u : unit |- _ => destruct u
  end.

(** A computation with fuel enough: it may fail, but not for want of fuel. *)
Definition terminates {A} (m : outcome A) : Prop := m <> Fail Diverges.

Lemma terminates_bind {A B} (m : outcome A) (f : A -> outcome B) :
  terminates m -> (forall a, m = Ok a -> terminates (f a)) -> terminates (m ≫= f).
Proof. unfold terminates. destruct m as [a|e]; simpl; [naive_solver|congruence]. Qed.

Lemma terminates_Ok {A} (a : A) : terminates (Ok a).
Proof. done. Qed.

Lemma terminates_assert c msg : terminates (assert_ c msg).
Proof. by destruct c. Qed.

Lemma terminates_of_option {A} f (o : option A) : f <> Diverges -> terminates (of_option f o).
Proof. unfold terminates. destruct o; simpl; congruence. Qed.

Create HintDb terminates.
#[export] Hint Resolve terminates_Ok terminates_assert : terminates.
#[export] Hint Resolve terminates_bind : terminates.
#[export] Hint Extern 1 (terminates (of_option _ _)) => apply terminates_of_option; discriminate : terminates.

(** Decide every boolean comparison on [Z] in sight, then use [lia]. *)
Ltac bool_to_prop :=
  repeat match goal with
  | H : (_ && _)%bool = true |- _ => apply andb_true_iff in H; destruct H
  | H : (_ || _)%bool = false |- _ => apply orb_false_iff in H; destruct H
  | H : negb _ = true |- _ => apply negb_true_iff in H
  | H : negb _ = false |- _ => apply negb_false_iff in H
  | H : (_ =? _) = true |- _ => apply Z.eqb_eq in H
  | H : (_ =? _) = false |- _ => apply Z.eqb_neq in H
  | H : (_ <? _) = true |- _ => apply Z.ltb_lt in H
  | H : (_ <? _) = false |- _ => apply Z.ltb_ge in H
  | H : (_ <=? _) = true |- _ => apply Z.leb_le in H
  | H : (_ <=? _) = false |- _ => apply Z.leb_gt in H
  end.

Ltac case_if :=
  match goal with
  | |- context [if ?b then _ else _] =>
      let E := fresh "E" in destruct b eqn:E; bool_to_prop
  | _ : context [if ?b then _ else _] |- _ =>
      let E := fresh "E" in destruct b eqn:E; bool_to_prop
  end.

(** Linear arithmetic with division and modulo by constants. *)
Ltac zdiv := Z.div_mod_to_equations; lia.

(** ** Wrap-around *)

Lemma wrap_range w x : 0 <= w -> 0 <= wrap w x < 2 ^ w.
Proof. intros. apply Z.mod_pos_bound. lia. Qed.

Lemma wrap_small w x : 0 <= x < 2 ^ w -> wrap w x = x.
Proof. apply Z.mod_small. Qed.

Lemma wrap_idemp w x : 0 <= w -> wrap w (wrap w x) = wrap w x.
Proof. intros. apply wrap_small, wrap_range; lia. Qed.

Lemma wrap_add_l w x y : wrap w (wrap w x + y) = wrap w (x + y).
Proof. unfold wrap. apply Zplus_mod_idemp_l. Qed.

Lemma wrap_add_r w x y : wrap w (x + wrap w y) = wrap w (x + y).
Proof. unfold wrap. apply Zplus_mod_idemp_r. Qed.

Lemma wrap_sub_l w x y : wrap w (wrap w x - y) = wrap w (x - y).
Proof. unfold wrap. apply Zminus_mod_idemp_l. Qed.

Lemma wrap_sub_r w x y : wrap w (x - wrap w y) = wrap w (x - y).
Proof. unfold wrap. apply Zminus_mod_idemp_r. Qed.

Lemma swrap_small w x :
  0 < w -> - 2 ^ (w - 1) <= x < 2 ^ (w - 1) -> swrap w x = x.
Proof.
  intros Hw Hx. unfold swrap.
  assert (2 ^ w = 2 * 2 ^ (w - 1)) as Hp
    by (rewrite <- Z.pow_succ_r by lia; f_equal; lia).
  rewrite Z.mod_small; lia.
Qed.

Lemma wrap_testbit w x i :
  0 <= w -> 0 <= i -> Z.testbit (wrap w x) i = (i <? w) && Z.testbit x i.
Proof.
  intros Hw Hi. unfold wrap. destruct (i <? w) eqn:E; bool_to_prop.
  - rewrite Z.mod_pow2_bits_low by lia. done.
  - rewrite Z.mod_pow2_bits_high by lia. done.
Qed.

Lemma wnot_testbit w x i :
  0 <= w -> 0 <= i -> Z.testbit (wnot w x) i = (i <? w) && negb (Z.testbit x i).
Proof. intros. unfold wnot. rewrite wrap_testbit, Z.lnot_spec by lia. done. Qed.

Lemma testbit_high w x i : 0 <= x < 2 ^ w -> w <= i -> Z.testbit x i = false.
Proof.
  intros Hx Hi. destruct (Z.lt_ge_cases w 0) as [?|Hw].
  - rewrite Z.pow_neg_r in Hx by lia. lia.
  - rewrite <- (Z.mod_small x (2 ^ w)) by lia. apply Z.mod_pow2_bits_high. lia.
Qed.

Lemma range_of_bits w x :
  0 <= w -> 0 <= x -> (forall i, w <= i -> Z.testbit x i = false) -> x < 2 ^ w.
Proof.
  intros Hw H0 Hx. destruct (Z.eq_dec x 0) as [->|Hne]; [lia|].
  apply Z.log2_lt_pow2; [lia|].
  destruct (Z.lt_ge_cases (Z.log2 x) w) as [|Hge]; [done|].
  specialize (Hx _ Hge). rewrite Z.bit_log2 in Hx by lia. done.
Qed.

Lemma land_range w x y : 0 <= w -> 0 <= x < 2 ^ w -> 0 <= y -> 0 <= Z.land x y < 2 ^ w.
Proof.
  intros Hw Hx Hy. assert (0 <= Z.land x y) by (apply Z.land_nonneg; lia).
  split; [done|]. apply range_of_bits; [lia..|]. intros i Hi.
  rewrite Z.land_spec, (testbit_high w x) by lia. done.
Qed.

Lemma lor_range w x y :
  0 <= w -> 0 <= x < 2 ^ w -> 0 <= y < 2 ^ w -> 0 <= Z.lor x y < 2 ^ w.
Proof.
  intros Hw Hx Hy. assert (0 <= Z.lor x y) by (apply Z.lor_nonneg; lia).
  split; [done|]. apply range_of_bits; [lia..|]. intros i Hi.
  rewrite Z.lor_spec, (testbit_high w x), (testbit_high w y) by lia. done.
Qed.

Lemma pow2_testbit n i : 0 <= n -> 0 <= i -> Z.testbit (2 ^ n) i = (i =? n).
Proof.
  intros Hn Hi. destruct (i =? n) eqn:E; bool_to_prop.
  - subst. apply Z.pow2_bits_true. lia.
  - apply Z.pow2_bits_false. lia.
Qed.

(** A bit test against a one-bit mask, the idiom [(x & (1 << n)) != 0]. *)
Lemma land_pow2 x n : 0 <= n -> Z.land x (2 ^ n) = (if Z.testbit x n then 2 ^ n else 0).
Proof.
  intros Hn. apply Z.bits_inj'. intros i Hi.
  rewrite Z.land_spec, pow2_testbit by lia.
  destruct (i =? n) eqn:E; bool_to_prop.
  - subst. destruct (Z.testbit x n); rewrite ?Z.pow2_bits_true, ?Z.testbit_0_l by lia; done.
  - destruct (Z.testbit x n); rewrite ?Z.pow2_bits_false, ?Z.testbit_0_l by lia; btauto.
Qed.

(** Disjoint bit fields are added. *)
Lemma lor_shiftl a b k : 0 <= k -> 0 <= b < 2 ^ k -> Z.lor (Z.shiftl a k) b = a * 2 ^ k + b.
Proof.
  intros Hk Hb. rewrite <- Z.shiftl_mul_pow2 by lia.
  assert (Z.land (Z.shiftl a k) b = 0) as H0.
  { apply Z.bits_inj'. intros i Hi. rewrite Z.land_spec, Z.testbit_0_l.
    destruct (Z.lt_ge_cases i k).
    - by rewrite Z.shiftl_spec_low by lia.
    - rewrite (testbit_high k b) by lia. btauto. }
  by rewrite Z.add_nocarry_lxor, Z.lxor_lor by done.
Qed.

#[export] Hint Rewrite Z.land_spec Z.lor_spec Z.lxor_spec Z.ldiff_spec
  Z.lnot_spec Z.shiftl_spec Z.shiftr_spec Z.testbit_0_l
  wrap_testbit wnot_testbit pow2_testbit using lia : zbits.

(** The characters of a string literal. *)
Definition chars (s : string) : list Z := (fun a => Z.of_N (Ascii.N_of_ascii a)) <$> String.list_ascii_of_string s.

(** ** Arrays indexed by machine integers *)

Definition zget {A} (l : list A) (i : Z) : option A :=
  if i <? 0 then None else l !! Z.to_nat i.
Definition zset {A} (l : list A) (i : Z) (x : A) : list A :=
  if i <? 0 then l else <[Z.to_nat i := x]> l.
Definition zlen {A} (l : list A) : Z := Z.of_nat (length l).

(** [a[i]] and [a[i] = x] on a C++ array: outside the array the access is
    undefined. *)
Definition aget {A} (l : list A) (i : Z) : outcome A := of_option OutOfBounds (zget l i).
Definition aset {A} (l : list A) (i : Z) (x : A) : outcome (list A) :=
  if (0 <=? i) && (i <? zlen l) then Ok (zset l i x) else Fail OutOfBounds.

Lemma zget_Some {A} (l : list A) i x : zget l i = Some x -> 0 <= i < zlen l.
Proof.
  unfold zget, zlen. case_if; [done|]. intros H%lookup_lt_Some. lia.
Qed.

Lemma zget_is_Some {A} (l : list A) i : 0 <= i < zlen l -> is_Some (zget l i).
Proof.
  unfold zget, zlen. intros. case_if; [lia|]. apply lookup_lt_is_Some. lia.
Qed.

Lemma zget_zset_eq {A} (l : list A) i x : 0 <= i < zlen l -> zget (zset l i x) i = Some x.
Proof.
  unfold zget, zset, zlen. intros. case_if; [lia|].
  apply list_lookup_insert_eq. lia.
Qed.

Lemma zget_zset_ne {A} (l : list A) i j x : i <> j -> zget (zset l i x) j = zget l j.
Proof.
  unfold zget, zset. intros. destruct (j <? 0) eqn:Ej; [done|]. case_if; [done|].
  bool_to_prop. apply list_lookup_insert_ne. lia.
Qed.

Lemma zlen_zset {A} (l : list A) i x : zlen (zset l i x) = zlen l.
Proof. unfold zlen, zset. case_if; [done|]. by rewrite length_insert. Qed.

Lemma aget_Ok {A} (l : list A) i x : aget l i = Ok x <-> zget l i = Some x.
Proof. apply of_option_Ok. Qed.

Lemma aset_Ok {A} (l l' : list A) i x :
  aset l i x = Ok l' <-> 0 <= i < zlen l /\ l' = zset l i x.
Proof. unfold aset. case_if; split; intros; inv_ok; naive_solver lia. Qed.

Lemma zget_ext {A} (l l' : list A) : (forall i, zget l i = zget l' i) -> l = l'.
Proof.
  intros H. apply list_eq. intros i. specialize (H (Z.of_nat i)). unfold zget in H.
  rewrite Nat2Z.id in H. destruct (Z.of_nat i <? 0) eqn:E; bool_to_prop; [lia|done].
Qed.

Lemma zlen_cons {A} (x : A) l : zlen (x :: l) = 1 + zlen l.
Proof. unfold zlen. simpl. lia. Qed.

Lemma zlen_app {A} (l r : list A) : zlen (l ++ r) = zlen l + zlen r.
Proof. unfold zlen. rewrite length_app. lia. Qed.

Lemma zlen_nonneg {A} (l : list A) : 0 <= zlen l.
Proof. unfold zlen. lia. Qed.

Lemma zget_middle {A} (l : list A) x r : zget (l ++ x :: r) (zlen l) = Some x.
Proof.
  unfold zget, zlen. destruct (_ <? 0) eqn:E; bool_to_prop; [lia|]. rewrite Nat2Z.id.
  by apply list_lookup_middle.
Qed.

Lemma zset_middle {A} (l : list A) x y r : zset (l ++ x :: r) (zlen l) y = l ++ y :: r.
Proof.
  unfold zset, zlen. destruct (_ <? 0) eqn:E; bool_to_prop; [lia|]. rewrite Nat2Z.id.
  rewrite insert_app_r_alt by lia. by rewrite Nat.sub_diag.
Qed.

#[export] Hint Rewrite @zlen_zset @zlen_cons @zlen_app : arrays.

Ltac zlen_nil :=
  repeat match goal with
  | |- context [@zlen ?A nil] => change (@zlen A nil) with 0
  | H : context [@zlen ?A nil] |- _ => change (@zlen A nil) with 0 in H
  end.

(** Linear arithmetic over the lengths of arrays. *)
Ltac zlen_lia := autorewrite with arrays in *; zlen_nil;
  repeat match goal with
  | l : list _ |- _ => lazymatch goal with
      | _ : 0 <= zlen l |- _ => fail
      | _ => pose proof (zlen_nonneg l) end
  end; lia.

(** ** A key above every key of a map *)

Definition next_block {A} (t : gmap Z A) : Z := 1 + map_fold (fun p _ m => Z.max p m) 0 t.

Lemma below_next_block {A} (t : gmap Z A) p x : t !! p = Some x -> p < next_block t.
Proof.
  assert (forall p x, t !! p = Some x -> p <= map_fold (fun p _ m => Z.max p m) 0 t) as Hle.
  { apply (map_fold_weak_ind (fun r t => forall p x, t !! p = Some x -> p <= r)).
    - intros q y Hx. by rewrite lookup_empty in Hx.
    - intros i y t' r Hi IH q z Hx. apply lookup_insert_Some in Hx as [[-> _]|[_ Hx]]; [lia|]. specialize (IH q z Hx). lia. }
  intros Hx. specialize (Hle p x Hx). unfold next_block. lia.
Qed.

Lemma next_block_fresh {A} (t : gmap Z A) : t !! next_block t = None.
Proof. destruct (t !! next_block t) eqn:E; [|done]. apply below_next_block in E. lia. Qed.
