(* ===== verification/Util.v ===== *)
(** * Kernel utilities: kernel/util.h and kernel/util/algorithm.h

    Integer helpers ([align_to], [div_ceil], [sign_extend]) on 64-bit words and
    the two array algorithms the kernel uses ([transform], [insertion_sort]). *)
From S2P Require Import Prelude.

(** ** Integer helpers *)

(** [(val + align.val - 1) / align.val * align.val] on [uint64_t]; a zero
    alignment divides by zero. *)
Definition align_to (val align : Z) : outcome Z :=
  if align =? 0 then Fail (Undefined "division by zero")
  else Ok (u64 (u64 (val + align - 1) / align * align)).

(** Every caller passes a non-zero constant divisor. *)
Definition div_ceil (a b : Z) : Z :=
  a / b + (if a `mod` b =? 0 then 0 else 1).

(** [int64_t(v << (64 - n)) >> (64 - n)]. *)
Definition sign_extend (v num_source_bits : Z) : Z :=
  Z.shiftr (s64 (u64 (Z.shiftl v (64 - num_source_bits)))) (64 - num_source_bits).

Lemma div_ceil_spec a b : 0 < b -> a <= div_ceil a b * b < a + b.
Proof.
  intros Hb. unfold div_ceil.
  pose proof (Z.div_mod a b ltac:(lia)). pose proof (Z.mod_pos_bound a b Hb).
  case_if; nia.
Qed.

Lemma div_ceil_bound a b n : 0 < b -> a <= n * b <-> div_ceil a b <= n.
Proof.
  intros Hb. unfold div_ceil.
  pose proof (Z.div_mod a b ltac:(lia)). pose proof (Z.mod_pos_bound a b Hb).
  case_if; split; nia.
Qed.

Lemma div_ceil_nonneg a b : 0 <= a -> 0 < b -> 0 <= div_ceil a b.
Proof.
  intros. unfold div_ceil. pose proof (Z.div_pos a b ltac:(lia) ltac:(lia)).
  case_if; lia.
Qed.

(** Below the wrap-around [align_to] is the least multiple above its argument. *)
Lemma align_to_spec val align r :
  0 <= val -> 0 < align -> val + align - 1 < 2 ^ 64 ->
  align_to val align = Ok r ->
  val <= r < val + align /\ r `mod` align = 0.
Proof.
  unfold align_to. intros Hv Ha Hmax H. case_if; [lia|]. inv_ok.
  rewrite (wrap_small 64 (val + align - 1)) by lia.
  pose proof (Z.div_mod (val + align - 1) align ltac:(lia)).
  pose proof (Z.mod_pos_bound (val + align - 1) align Ha).
  rewrite wrap_small by nia. split; [nia|]. apply Z.mod_mul. lia.
Qed.

Lemma align_to_Ok val align :
  0 <= val -> 0 < align -> val + align - 1 < 2 ^ 64 ->
  exists r, align_to val align = Ok r.
Proof. unfold align_to. intros. case_if; [lia|]. eauto. Qed.

Lemma align_to_aligned val align :
  0 < align -> 0 <= val -> val + align - 1 < 2 ^ 64 -> val `mod` align = 0 ->
  align_to val align = Ok val.
Proof.
  intros Ha Hv Hb Hm. destruct (align_to_Ok val align Hv Ha Hb) as [r Hr].
  rewrite Hr. f_equal. destruct (align_to_spec _ _ _ Hv Ha Hb Hr) as [H1 H2].
  apply Z.mod_divide in Hm, H2; [|lia..]. destruct Hm as [k ->], H2 as [k' ->].
  assert (k <= k' < k + 1) by (split; [|apply Z.lt_succ_r]; nia). f_equal. lia.
Qed.

(** [sign_extend] keeps a value that already fits the source width as a
    two's complement number, and only depends on the low [n] bits. *)
Lemma sign_extend_swrap v n : 0 < n <= 64 -> sign_extend v n = swrap n v.
Proof.
  intros Hn. unfold sign_extend, swrap, wrap.
  assert (2 ^ 64 = 2 ^ n * 2 ^ (64 - n)) as Hp by (rewrite <- Z.pow_add_r by lia; f_equal; lia).
  assert (2 ^ (64 - 1) = 2 ^ (n - 1) * 2 ^ (64 - n)) as Hp1
    by (rewrite <- Z.pow_add_r by lia; f_equal; lia).
  rewrite Z.shiftl_mul_pow2, Z.shiftr_div_pow2 by lia.
  rewrite Zplus_mod_idemp_l, Hp1.
  replace (v * 2 ^ (64 - n) + 2 ^ (n - 1) * 2 ^ (64 - n))
    with ((v + 2 ^ (n - 1)) * 2 ^ (64 - n)) by ring.
  rewrite Hp, Zmult_mod_distr_r, <- Z.mul_sub_distr_r, Z.div_mul by lia. done.
Qed.

(** ** [kstd::transform]: visit the elements in order until the callback
    returns [true]. *)
Fixpoint transform {E} (transform_element : E -> E * bool) (a : list E) : list E :=
  match a with
  | [] => []
  | x :: a' =>
      let '(x', stop) := transform_element x in
      if stop then x' :: a' else x' :: transform transform_element a'
  end.

(** ** [kstd::insertion_sort] *)
Section insertion_sort.
Context {E : Type} (less : E -> E -> bool).

(** The inner loop [for (; j >= 0 && !less(a[j], v); --j) a[j + 1] = a[j];]
    followed by [a[j + 1] = v], with [k = j + 1]. *)
Fixpoint shift_down (a : list E) (v : E) (k : nat) : list E :=
  match k with
  | O => <[0%nat := v]> a
  | S j =>
      match a !! j with
      | Some aj => if less aj v then <[k := v]> a else shift_down (<[k := aj]> a) v j
      | None => a
      end
  end.

(** The outer loop [for (auto i = 1; i < n; ++i)]. *)
Fixpoint sort_from (a : list E) (i : nat) (rounds : nat) : list E :=
  match rounds with
  | O => a
  | S r =>
      match a !! i with
      | Some v => sort_from (shift_down a v i) (S i) r
      | None => a
      end
  end.

Definition insertion_sort (a : list E) (n : Z) : list E :=
  sort_from a 1 (Z.to_nat (n - 1)).

(** Filling the hole at [length p] shifts the tail of [p] that is not
    better than [v]. *)
Lemma shift_down_split p h q v :
  exists p1 p2, p = p1 ++ p2 /\
    shift_down (p ++ h :: q) v (length p) = p1 ++ v :: p2 ++ q /\
    Forall (fun x => less x v = false) p2 /\
    (forall x, last p1 = Some x -> less x v = true).
Proof.
  revert h q. induction p as [|x p IH] using rev_ind; intros h q.
  - exists [], []. simpl. split_and!; by try constructor.
  - rewrite length_app, Nat.add_1_r. simpl.
    rewrite <- (app_assoc p [x]). simpl. rewrite (list_lookup_middle p _ x) by done.
    destruct (less x v) eqn:Hx.
    + exists (p ++ [x]), []. rewrite app_nil_r. split_and!; [done| |by constructor|].
      * rewrite insert_app_r_alt by lia.
        replace (S (length p) - length p)%nat with 1%nat by lia.
        rewrite <- app_assoc. done.
      * intros y. rewrite last_snoc. naive_solver.
    + destruct (IH x (x :: q)) as (p1 & p2 & -> & Hs & Hf & Hl).
      exists p1, (p2 ++ [x]). rewrite app_assoc. split_and!; [done| | |done].
      * replace (<[S (length (p1 ++ p2)) := x]> ((p1 ++ p2) ++ x :: h :: q))
          with ((p1 ++ p2) ++ x :: x :: q).
        { rewrite Hs, <- !app_assoc. done. }
        simpl. rewrite insert_app_r_alt by lia.
        replace (S (length (p1 ++ p2)) - length (p1 ++ p2))%nat with 1%nat by lia. done.
      * apply Forall_app. split; [done|]. by constructor.
Qed.

Hypothesis less_asym : forall x y, less x y = true -> less y x = false.
Hypothesis less_trans : forall x y z,
  less y x = false -> less z y = false -> less z x = false.

Definition not_after (x y : E) : Prop := less y x = false.

Lemma sort_step p v q :
  StronglySorted not_after p ->
  exists p', shift_down (p ++ v :: q) v (length p) = p' ++ q /\
    length p' = S (length p) /\ p' ≡ₚ v :: p /\ StronglySorted not_after p'.
Proof.
  intros Hs. destruct (shift_down_split p v q v) as (p1 & p2 & -> & Heq & Hf & Hl).
  exists (p1 ++ v :: p2). rewrite Heq, <- app_assoc. split_and!; [done| | |].
  - rewrite !length_app. simpl. lia.
  - symmetry. apply Permutation_middle.
  - apply StronglySorted_app in Hs as (Hx & Hs1 & Hs2).
    assert (forall x, x ∈ p1 -> not_after x v) as Hp1.
    { intros x Hin. destruct (last p1) as [y|] eqn:Hy.
      - assert (not_after y v) as Hyv by (apply less_asym; auto).
        apply last_Some in Hy as [p1' ->].
        apply elem_of_app in Hin as [Hin|Hin]; [|set_solver].
        apply StronglySorted_app in Hs1 as (Hxx & _ & _).
        eapply less_trans; [|exact Hyv]. apply Hxx; set_solver.
      - apply last_None in Hy as ->. set_solver. }
    apply StronglySorted_app. split_and!; [|done|].
    + intros x y Hxi [->|Hyi]%elem_of_cons; auto.
    + constructor; [done|]. done.
Qed.

Lemma sort_from_spec r p q rest :
  r = length q -> StronglySorted not_after p ->
  exists a', sort_from (p ++ q ++ rest) (length p) r = a' ++ rest /\
    a' ≡ₚ p ++ q /\ StronglySorted not_after a'.
Proof.
  revert p q. induction r as [|r IH]; intros p q Hr Hs; simpl.
  - destruct q; [|done]. exists p. rewrite app_nil_r. done.
  - destruct q as [|v q]; [done|]. simpl. rewrite list_lookup_middle by done.
    destruct (sort_step p v (q ++ rest) Hs) as (p' & -> & Hlen & Hperm & Hs').
    rewrite <- Hlen. simpl in Hr.
    destruct (IH p' q ltac:(lia) Hs') as (a' & -> & Hp & Hss). exists a'.
    split_and!; [done| |done]. rewrite Hp, Hperm. apply Permutation_middle.
Qed.

(** Sorting the first [n] elements of an array permutes and orders them and
    leaves the rest alone. *)
Lemma insertion_sort_correct a rest :
  exists a', insertion_sort (a ++ rest) (zlen a) = a' ++ rest /\
    a' ≡ₚ a /\ StronglySorted not_after a'.
Proof.
  unfold insertion_sort, zlen. destruct a as [|x a].
  - exists []. simpl. split_and!; [done..|constructor].
  - apply (sort_from_spec _ [x] a); [simpl; lia|]. constructor; constructor.
Qed.
End insertion_sort.
