(* ===== verification/Bitmap.v ===== *)
(** * libadt/intrusive_bitmap.h: the bitmap behind the physical page allocator

    The storage is an array of 64-bit limbs.  [bit_at] is the abstract view, a
    bit per index; every operation is related to it. *)
From S2P Require Import Prelude Util.

Definition BYTES_PER_LIMB : Z := 8.
Definition BITS_PER_LIMB : Z := 64.

Record bitmap := Bitmap {
  num_limbs : Z;      (* uint32_t *)
  total_size : Z;     (* uint32_t *)
  limbs : list Z      (* uint64_t limbs[] *)
}.

Definition make (num_bits : Z) : bitmap :=
  let n := u32 (div_ceil num_bits BITS_PER_LIMB) in
  {| num_limbs := n;
     total_size := u32 (n * BYTES_PER_LIMB);
     limbs := replicate (Z.to_nat n) 0 |}.

Definition size_required (num_bits : Z) : Z :=
  u64 (div_ceil num_bits BITS_PER_LIMB * BYTES_PER_LIMB).

Definition size (b : bitmap) : Z := total_size b.

(** [1ULL << (idx % BITS_PER_LIMB)] *)
Definition limb_mask (idx : Z) : Z := 2 ^ (idx `mod` BITS_PER_LIMB).

Definition test (b : bitmap) (idx : Z) : outcome bool :=
  limb ← aget (limbs b) (idx / BITS_PER_LIMB);
  Ok (negb (Z.land limb (limb_mask idx) =? 0)).

Definition set_limbs (b : bitmap) (l : list Z) : bitmap :=
  {| num_limbs := num_limbs b; total_size := total_size b; limbs := l |}.

Definition set (b : bitmap) (idx : Z) : outcome bitmap :=
  limb ← aget (limbs b) (idx / BITS_PER_LIMB);
  l ← aset (limbs b) (idx / BITS_PER_LIMB) (Z.lor limb (limb_mask idx));
  Ok (set_limbs b l).

Definition reset (b : bitmap) (idx : Z) : outcome bitmap :=
  limb ← aget (limbs b) (idx / BITS_PER_LIMB);
  l ← aset (limbs b) (idx / BITS_PER_LIMB) (Z.land limb (wnot 64 (limb_mask idx)));
  Ok (set_limbs b l).

(** [const limb_type empty = v ? 0 : ~0;] *)
Definition empty_limb (v : bool) : Z := if v then 0 else 2 ^ 64 - 1.

(** [1 << bit] in [find_first] is a shift of an [int]: it is undefined from
    bit 32 on, and bit 31 is the sign bit. *)
Definition int_one_shl (bit : Z) : outcome Z :=
  if bit <? 32 then Ok (s32 (2 ^ bit)) else Fail (Undefined "int shift out of range").

Fixpoint find_bit (limb : Z) (v : bool) (bit : Z) (remaining : nat) : outcome (option Z) :=
  match remaining with
  | O => Ok None
  | S r =>
      m ← int_one_shl bit;
      if Bool.eqb (negb (Z.land limb (u64 m) =? 0)) v then Ok (Some bit)
      else find_bit limb v (bit + 1) r
  end.

Fixpoint find_limb (b : bitmap) (v : bool) (i : Z) (remaining : nat) : outcome Z :=
  match remaining with
  | O => Ok (-1)
  | S r =>
      limb ← aget (limbs b) i;
      if limb =? empty_limb v then find_limb b v (i + 1) r
      else
        found ← find_bit limb v 0 64;
        match found with
        | Some bit => Ok (s32 (u64 (BITS_PER_LIMB * i + bit)))
        | None => find_limb b v (i + 1) r
        end
  end.

Definition find_first (b : bitmap) (v : bool) : outcome Z :=
  find_limb b v 0 (Z.to_nat (num_limbs b)).

(** The inner loop of [find_first_n]: [inr s] is the [return s] inside it. *)
Fixpoint run_in_limb (b : bitmap) (v : bool) (n i j : Z) (remaining : nat)
    (num_contiguous start_idx : Z) : outcome (Z * Z + Z) :=
  match remaining with
  | O => Ok (inl (num_contiguous, start_idx))
  | S r =>
      if u32 (i + j) <? size b then
        t ← test b (u32 (i + j));
        if negb (Bool.eqb t v) then run_in_limb b v n i (j + 1) r 0 (-1)
        else
          let num := u32 (num_contiguous + 1) in
          let start := if start_idx =? -1 then s32 (u32 (i + j)) else start_idx in
          if n <=? num then Ok (inr start)
          else run_in_limb b v n i (j + 1) r num start
      else Ok (inl (num_contiguous, start_idx))
  end.

Fixpoint find_first_n_loop (fuel : nat) (b : bitmap) (v : bool) (n i : Z)
    (num_contiguous start_idx : Z) : outcome Z :=
  match fuel with
  | O => Fail Diverges
  | S f =>
      if i <? size b then
        if n <=? num_contiguous then Ok start_idx
        else
          limb ← aget (limbs b) (i / BITS_PER_LIMB);
          if limb =? empty_limb v then
            find_first_n_loop f b v n (u32 (u32 (i + (BITS_PER_LIMB - 1)) + 1)) 0 (-1)
          else if limb =? wnot 64 (empty_limb v) then
            let i' := u32 (i + (BITS_PER_LIMB - 1)) in
            find_first_n_loop f b v n (u32 (i' + 1))
              (u32 (num_contiguous + BITS_PER_LIMB))
              (if start_idx =? -1 then s32 i' else start_idx)
          else
            let j := i `mod` BITS_PER_LIMB in
            r ← run_in_limb b v n i j (Z.to_nat (BITS_PER_LIMB - j)) num_contiguous start_idx;
            match r with
            | inr s => Ok s
            | inl (num, start) =>
                find_first_n_loop f b v n
                  (u32 (u32 (i + (BITS_PER_LIMB - i `mod` BITS_PER_LIMB - 1)) + 1)) num start
            end
      else Ok (-1)
  end.

(** One iteration per limb at most: [S (size b)] rounds are never used up. *)
Definition find_first_n (b : bitmap) (v : bool) (n : Z) : outcome Z :=
  find_first_n_loop (S (Z.to_nat (size b))) b v n 0 0 (-1).

(** ** The abstract view *)

Definition bit_at (b : bitmap) (idx : Z) : bool :=
  Z.testbit (default 0 (zget (limbs b) (idx / BITS_PER_LIMB))) (idx `mod` BITS_PER_LIMB).

Definition num_bits (b : bitmap) : Z := BITS_PER_LIMB * num_limbs b.

(** Well-formed: the header agrees with the storage, the limbs are words, and
    an index fits the [int] the searches return. *)
Record wf (b : bitmap) : Prop := {
  wf_len : num_limbs b = zlen (limbs b);
  wf_size : total_size b = BYTES_PER_LIMB * num_limbs b;
  wf_limbs : forall i l, zget (limbs b) i = Some l -> 0 <= l < 2 ^ 64;
  wf_bound : num_bits b < 2 ^ 31
}.

Lemma limb_index b idx :
  wf b -> 0 <= idx < num_bits b ->
  exists l, zget (limbs b) (idx / BITS_PER_LIMB) = Some l /\ 0 <= l < 2 ^ 64 /\
    bit_at b idx = Z.testbit l (idx `mod` BITS_PER_LIMB) /\
    0 <= idx / BITS_PER_LIMB < zlen (limbs b).
Proof.
  intros Hw Hi. pose proof (wf_len b Hw). unfold num_bits, BITS_PER_LIMB in *.
  assert (0 <= idx / 64 < zlen (limbs b)) as Hr by zdiv.
  destruct (zget_is_Some _ _ Hr) as [l Hl]. exists l.
  unfold bit_at, BITS_PER_LIMB. rewrite Hl. split_and!; eauto using (wf_limbs b Hw).
  all: pose proof (wf_limbs b Hw _ _ Hl); lia.
Qed.

Lemma land_mask_nz l idx :
  negb (Z.land l (limb_mask idx) =? 0) = Z.testbit l (idx `mod` BITS_PER_LIMB).
Proof.
  unfold limb_mask. rewrite land_pow2 by (apply Z.mod_pos_bound; done).
  destruct (Z.testbit _ _); [|done].
  destruct (2 ^ _ =? 0) eqn:E; [|done]. bool_to_prop.
  pose proof (Z.mod_pos_bound idx BITS_PER_LIMB ltac:(done)). lia.
Qed.

Lemma test_spec b idx : wf b -> 0 <= idx < num_bits b -> test b idx = Ok (bit_at b idx).
Proof.
  intros Hw Hi. destruct (limb_index b idx Hw Hi) as (l & Hl & _ & -> & _).
  unfold test, aget. rewrite Hl. simpl. by rewrite land_mask_nz.
Qed.

(** Replacing the limb of [idx] by one that differs from it only in that bit. *)
Lemma write_limb_spec b idx l l' v :
  wf b -> 0 <= idx < num_bits b ->
  zget (limbs b) (idx / BITS_PER_LIMB) = Some l -> 0 <= l' < 2 ^ 64 ->
  (forall k, 0 <= k < 64 ->
    Z.testbit l' k = if k =? idx `mod` BITS_PER_LIMB then v else Z.testbit l k) ->
  let b' := set_limbs b (zset (limbs b) (idx / BITS_PER_LIMB) l') in
  wf b' /\ (forall j, 0 <= j -> bit_at b' j = if j =? idx then v else bit_at b j).
Proof.
  intros Hw Hi Hl Hl' Hk b'. pose proof (zget_Some _ _ _ Hl) as Hr. split.
  - split; simpl; rewrite ?zlen_zset; try apply Hw. intros i m Hm.
    destruct (Z.eq_dec i (idx / BITS_PER_LIMB)) as [->|Hne].
    + rewrite zget_zset_eq in Hm by done. naive_solver.
    + rewrite zget_zset_ne in Hm by done. eapply wf_limbs; eauto.
  - intros j Hj. unfold bit_at, b'. simpl.
    destruct (Z.eq_dec (j / BITS_PER_LIMB) (idx / BITS_PER_LIMB)) as [Heq|Hne].
    + rewrite Heq, zget_zset_eq, Hl by done. simpl.
      rewrite Hk by (apply Z.mod_pos_bound; done). unfold BITS_PER_LIMB in *.
      destruct (j =? idx) eqn:E1, (j `mod` 64 =? idx `mod` 64) eqn:E2;
        bool_to_prop; try done; exfalso; zdiv.
    + rewrite zget_zset_ne by done. case_if; [congruence|done].
Qed.

Lemma set_spec b idx :
  wf b -> 0 <= idx < num_bits b ->
  exists b', set b idx = Ok b' /\ wf b' /\ num_limbs b' = num_limbs b /\
    (forall j, 0 <= j -> bit_at b' j = if j =? idx then true else bit_at b j).
Proof.
  intros Hw Hi. destruct (limb_index b idx Hw Hi) as (l & Hl & Hr & _ & Hb).
  pose proof (Z.mod_pos_bound idx BITS_PER_LIMB ltac:(done)) as Hm.
  destruct (write_limb_spec b idx l (Z.lor l (limb_mask idx)) true Hw Hi Hl) as [Hw' Hbits].
  - apply lor_range; [lia..|]. unfold limb_mask, BITS_PER_LIMB in *. split; [lia|].
    apply Z.pow_lt_mono_r; lia.
  - intros k Hk. unfold limb_mask. rewrite Z.lor_spec, pow2_testbit by lia.
    destruct (k =? _); btauto.
  - eexists. unfold set, aget. rewrite Hl. simpl. unfold aset.
    case_if; [|apply andb_false_iff in E as [?|?]; bool_to_prop; lia].
    split_and!; [done..|]. exact Hbits.
Qed.

Lemma reset_spec b idx :
  wf b -> 0 <= idx < num_bits b ->
  exists b', reset b idx = Ok b' /\ wf b' /\ num_limbs b' = num_limbs b /\
    (forall j, 0 <= j -> bit_at b' j = if j =? idx then false else bit_at b j).
Proof.
  intros Hw Hi. destruct (limb_index b idx Hw Hi) as (l & Hl & Hr & _ & Hb).
  pose proof (Z.mod_pos_bound idx BITS_PER_LIMB ltac:(done)) as Hm.
  destruct (write_limb_spec b idx l (Z.land l (wnot 64 (limb_mask idx))) false Hw Hi Hl)
    as [Hw' Hbits].
  - apply land_range; [lia..|]. apply wrap_range. lia.
  - intros k Hk. unfold limb_mask. rewrite Z.land_spec, wnot_testbit, pow2_testbit by lia.
    destruct (k <? 64) eqn:E; [|bool_to_prop; lia]. destruct (k =? _); btauto.
  - eexists. unfold reset, aget. rewrite Hl. simpl. unfold aset.
    case_if; [|apply andb_false_iff in E as [?|?]; bool_to_prop; lia].
    split_and!; [done..|]. exact Hbits.
Qed.

Lemma make_spec nb :
  0 <= nb -> nb + 64 < 2 ^ 31 ->
  wf (make nb) /\ nb <= num_bits (make nb) < nb + 64 /\
  (forall j, 0 <= j -> bit_at (make nb) j = false).
Proof.
  intros H0 H1. pose proof (div_ceil_spec nb BITS_PER_LIMB ltac:(done)) as Hd.
  pose proof (div_ceil_nonneg nb BITS_PER_LIMB H0 ltac:(done)) as Hn.
  assert (div_ceil nb BITS_PER_LIMB < 2 ^ 28) by (unfold BITS_PER_LIMB in *; lia).
  unfold make. rewrite (wrap_small 32 (div_ceil _ _)) by lia.
  rewrite (wrap_small 32 (_ * _)) by (unfold BYTES_PER_LIMB; lia).
  split_and!.
  - split; simpl; unfold zlen; rewrite ?length_replicate; unfold num_bits; simpl;
      unfold BITS_PER_LIMB, BYTES_PER_LIMB in *; try lia.
    intros i l Hl. unfold zget in Hl. case_if; [done|].
    apply lookup_replicate in Hl as [-> _]. lia.
  - unfold num_bits; simpl. unfold BITS_PER_LIMB in *; lia.
  - unfold num_bits; simpl. unfold BITS_PER_LIMB in *; lia.
  - intros j Hj. unfold bit_at, zget. simpl. case_if; [apply Z.testbit_0_l|].
    destruct (_ !! _) as [l|] eqn:El; simpl; [|apply Z.testbit_0_l].
    apply lookup_replicate in El as [-> _]. apply Z.testbit_0_l.
Qed.

(** ** [find_first(false)]: the search for a free bit *)

(** What the [int] mask of [find_bit] can see in a limb: a clear bit below 31,
    or bit 31 when nothing above it is set. *)
Definition finds_free (l : Z) : Prop :=
  (exists k, 0 <= k < 31 /\ Z.testbit l k = false) \/ l < 2 ^ 31.

Lemma find_bit_low l bit r :
  0 <= bit < 31 ->
  find_bit l false bit (S r) =
    if Z.testbit l bit then find_bit l false (bit + 1) r else Ok (Some bit).
Proof.
  intros Hb. simpl. unfold int_one_shl. case_if; [|lia]. simpl.
  assert (0 < 2 ^ bit < 2 ^ 31) as Hp by (split; [|apply Z.pow_lt_mono_r]; lia).
  rewrite swrap_small by (simpl; lia). rewrite wrap_small by lia.
  rewrite land_pow2 by lia.
  destruct (Z.testbit l bit); [|done].
  destruct (2 ^ bit =? 0) eqn:E'; bool_to_prop; [lia|done].
Qed.

Lemma find_bit_31 l r :
  0 <= l < 2 ^ 64 ->
  find_bit l false 31 (S (S r)) =
    if l <? 2 ^ 31 then Ok (Some 31) else Fail (Undefined "int shift out of range").
Proof.
  intros Hl. simpl. change (u64 (s32 (2 ^ 31))) with (2 ^ 64 - 2 ^ 31).
  destruct (l <? 2 ^ 31) eqn:E; bool_to_prop.
  - replace (Z.land l (2 ^ 64 - 2 ^ 31)) with 0; [done|].
    symmetry. apply Z.bits_inj'. intros i Hi. rewrite Z.land_spec, Z.testbit_0_l.
    change (2 ^ 64 - 2 ^ 31) with (Z.shiftl (Z.ones 33) 31).
    destruct (Z.lt_ge_cases i 31).
    + rewrite Z.shiftl_spec_low by lia. btauto.
    + rewrite (testbit_high 31 l) by lia. done.
  - destruct (Z.land l (2 ^ 64 - 2 ^ 31) =? 0) eqn:E0; [|done]. exfalso. bool_to_prop.
    enough (l < 2 ^ 31) by lia. apply range_of_bits; [lia..|]. intros i Hi.
    assert (Z.testbit (Z.land l (2 ^ 64 - 2 ^ 31)) i = false) as Hb
      by (rewrite E0; apply Z.testbit_0_l).
    destruct (Z.lt_ge_cases i 64) as [Hi'|Hi']; [|by apply (testbit_high 64)].
    rewrite Z.land_spec in Hb. change (2 ^ 64 - 2 ^ 31) with (Z.shiftl (Z.ones 33) 31) in Hb.
    rewrite Z.shiftl_spec, Z.ones_spec_low in Hb by lia. by rewrite andb_true_r in Hb.
Qed.

#[local] Arguments find_bit : simpl never.

Lemma find_bit_spec l n bit :
  0 <= l < 2 ^ 64 -> 0 <= bit -> bit + Z.of_nat n = 31 ->
  (forall j, 0 <= j < bit -> Z.testbit l j = true) ->
  (exists k, find_bit l false bit (n + 33) = Ok (Some k) /\ 0 <= k < 64 /\
     Z.testbit l k = false /\ (forall j, 0 <= j < k -> Z.testbit l j = true) /\ finds_free l)
  \/ (find_bit l false bit (n + 33) = Fail (Undefined "int shift out of range")
      /\ ~ finds_free l).
Proof.
  intros Hl. revert bit. induction n as [|n IH]; intros bit Hb Hn Hlow.
  - replace bit with 31 in * by lia. change (0 + 33)%nat with (S (S 31)).
    rewrite find_bit_31 by done. case_if.
    + left. exists 31. split_and!; [done..| |done|by right].
      apply (testbit_high 31); lia.
    + right. split; [done|]. intros [(k & Hk & Hkf)|]; [|lia].
      rewrite Hlow in Hkf by lia. done.
  - change (S n + 33)%nat with (S (n + 33)). rewrite find_bit_low by lia. case_if.
    + apply IH; [lia..|]. intros j Hj. destruct (Z.eq_dec j bit) as [->|]; [done|].
      apply Hlow. lia.
    + left. exists bit. split_and!; [done|lia..|done|done|].
      left. exists bit. split; [lia|done].
Qed.

Definition full_limb : Z := 2 ^ 64 - 1.

Lemma full_limb_bits l :
  0 <= l < 2 ^ 64 -> l = full_limb <-> (forall k, 0 <= k < 64 -> Z.testbit l k = true).
Proof.
  intros Hl. change full_limb with (Z.ones 64). split.
  - intros -> k Hk. apply Z.ones_spec_low. lia.
  - intros H. apply Z.bits_inj'. intros i Hi. destruct (Z.lt_ge_cases i 64).
    + rewrite H, Z.ones_spec_low by lia. done.
    + rewrite (testbit_high 64 l), Z.ones_spec_high by lia. done.
Qed.

(** The first limb that is not full, if any, is one the search can see into. *)
Definition searchable (b : bitmap) : Prop :=
  forall i l, zget (limbs b) i = Some l ->
    (forall i' l', i' < i -> zget (limbs b) i' = Some l' -> l' = full_limb) ->
    l <> full_limb -> finds_free l.

Definition first_free (b : bitmap) (r : Z) : Prop :=
  (r = -1 /\ forall j, 0 <= j < num_bits b -> bit_at b j = true) \/
  (0 <= r < num_bits b /\ bit_at b r = false /\
   forall j, 0 <= j < r -> bit_at b j = true).

Lemma find_limb_spec b n i :
  wf b -> 0 <= i -> i + Z.of_nat n = num_limbs b ->
  (forall i' l', i' < i -> zget (limbs b) i' = Some l' -> l' = full_limb) ->
  (exists r, find_limb b false i n = Ok r /\ first_free b r /\ searchable b) \/
  (find_limb b false i n = Fail (Undefined "int shift out of range") /\ ~ searchable b).
Proof.
  intros Hw. revert i. induction n as [|n IH]; intros i Hi Hn Hfull; simpl.
  - left. exists (-1). split_and!; [done| |].
    + left. split; [done|]. intros j Hj.
      destruct (limb_index b j Hw Hj) as (l & Hl & Hr & -> & ?).
      pose proof (wf_len b Hw). apply (full_limb_bits l Hr).
      * eapply Hfull; [|exact Hl]. lia.
      * apply Z.mod_pos_bound. done.
    + intros i' l' Hl' _ Hne. pose proof (zget_Some _ _ _ Hl'). pose proof (wf_len b Hw).
      exfalso. apply Hne. eapply Hfull; [|exact Hl']. lia.
  - pose proof (wf_len b Hw). pose proof (wf_bound b Hw) as Hbd.
    destruct (zget_is_Some (limbs b) i ltac:(lia)) as [l Hl].
    pose proof (wf_limbs b Hw _ _ Hl) as Hr. unfold aget. rewrite Hl. simpl.
    destruct (l =? 2 ^ 64 - 1) eqn:E; bool_to_prop.
    + apply IH; [lia..|]. intros i' l' Hi' Hl'.
      destruct (Z.eq_dec i' i) as [->|]; [unfold full_limb; congruence|].
      eapply Hfull; [|done]. lia.
    + destruct (find_bit_spec l 31 0) as [(k & Hk & Hk64 & Hkf & Hlow & Hff)|[Hf Hnf]];
        [done|lia..| |].
      * left. change (31 + 33)%nat with 64%nat in Hk. rewrite Hk. simpl.
        unfold num_bits, BITS_PER_LIMB in *.
        rewrite wrap_small by lia. rewrite swrap_small by (simpl; lia).
        eexists. split_and!; [done| |].
        -- right. assert ((64 * i + k) / 64 = i) as Hd by zdiv.
           assert ((64 * i + k) `mod` 64 = k) as Hm by zdiv.
           split_and!; [unfold num_bits, BITS_PER_LIMB; lia..| |].
           ++ unfold bit_at, BITS_PER_LIMB. rewrite Hd, Hm, Hl. done.
           ++ intros j Hj. destruct (limb_index b j Hw) as (lj & Hlj & Hrj & -> & ?);
                [unfold num_bits, BITS_PER_LIMB; lia|].
              destruct (Z.eq_dec (j / BITS_PER_LIMB) i) as [Heq|Hne].
              ** rewrite Heq in Hlj. simplify_eq. apply Hlow.
                 unfold BITS_PER_LIMB in *; zdiv.
              ** apply (full_limb_bits lj Hrj); [|apply Z.mod_pos_bound; done].
                 eapply Hfull; [|exact Hlj]. unfold BITS_PER_LIMB in *; zdiv.
        -- intros i' l' Hl' Hfull' Hne. destruct (Z.lt_trichotomy i' i) as [?|[->|?]].
           ++ exfalso. apply Hne. eauto.
           ++ simplify_eq. done.
           ++ exfalso. apply E. eapply (Hfull' i); eauto.
      * right. change (31 + 33)%nat with 64%nat in Hf. rewrite Hf. simpl. split; [done|].
        intros Hs. apply Hnf. eapply Hs; [exact Hl|exact Hfull|exact E].
Qed.

(** The search for a free bit in full: it returns the least free index (or -1
    when every bit is taken) exactly when the first limb that is not full is
    searchable, and is undefined otherwise. *)
Lemma find_first_spec b :
  wf b ->
  (exists r, find_first b false = Ok r /\ first_free b r /\ searchable b) \/
  (find_first b false = Fail (Undefined "int shift out of range") /\ ~ searchable b).
Proof.
  intros Hw. pose proof (wf_len b Hw). apply find_limb_spec; [done|lia| |].
  - unfold zlen in *. lia.
  - intros i' l' Hi' Hl'. apply zget_Some in Hl'. lia.
Qed.

(** ** [find_first_n]: the search for a run *)

Definition run (b : bitmap) (v : bool) (s n : Z) : Prop :=
  forall j, s <= j < s + n -> bit_at b j = v.

(** What a returned start index means.  A run that begins with a whole limb
    is reported by the index of the {e last} bit of that limb. *)
Definition run_start (b : bitmap) (v : bool) (n s : Z) : Prop :=
  0 <= s /\ (run b v s n \/ (s `mod` 64 = 63 /\ run b v (s - 63) n)).

(** Loop invariant at bit position [pos]: the counted run ends at [pos]. *)
Definition counted (b : bitmap) (v : bool) (pos num start : Z) : Prop :=
  (num = 0 /\ start = -1) \/
  (exists rb, 0 <= rb /\ 0 < num /\ num = pos - rb /\ run b v rb num /\
     (start = rb \/ (start = rb + 63 /\ rb `mod` 64 = 0))).

Lemma counted_return b v pos num start n :
  0 < n -> n <= num -> counted b v pos num start -> run_start b v n start.
Proof.
  intros Hn Hle [[-> ->]|(rb & H0 & Hp & -> & Hr & Hs)]; [lia|].
  destruct Hs as [->|[-> Hm]]; (split; [lia|]).
  - left. intros j Hj. apply Hr. lia.
  - right. split; [zdiv|]. intros j Hj. apply Hr. lia.
Qed.

Lemma counted_step b v pos num start :
  0 <= pos -> bit_at b pos = v -> counted b v pos num start ->
  counted b v (pos + 1) (num + 1) (if start =? -1 then pos else start).
Proof.
  intros Hp Hb [[-> ->]|(rb & H0 & Hn & -> & Hr & Hs)]; right.
  - exists pos. split_and!; [lia..| |by left].
    intros j Hj. replace j with pos by lia. done.
  - exists rb. split_and!; [lia..| |].
    + intros j Hj. destruct (Z.eq_dec j pos) as [->|]; [done|]. apply Hr. lia.
    + case_if; [lia|]. done.
Qed.

Lemma counted_limb b v pos num start :
  0 <= pos -> pos `mod` 64 = 0 -> run b v pos 64 -> counted b v pos num start ->
  counted b v (pos + 64) (num + 64) (if start =? -1 then pos + 63 else start).
Proof.
  intros Hp Hm Hl [[-> ->]|(rb & H0 & Hn & -> & Hr & Hs)]; right.
  - exists pos. split_and!; [lia..|done|]. right. done.
  - exists rb. split_and!; [lia..| |].
    + intros j Hj. destruct (Z.lt_ge_cases j pos); [apply Hr|apply Hl]; lia.
    + case_if; [lia|]. done.
Qed.

Lemma counted_bound b v pos num start :
  counted b v pos num start -> 0 <= pos -> 0 <= num <= pos /\ (start = -1 \/ 0 <= start).
Proof. intros [[-> ->]|(rb & H0 & Hn & -> & Hr & Hs)]; lia. Qed.

Lemma run_in_limb_spec b v n i r j num start :
  wf b -> 0 < n -> 0 <= i -> 0 <= j -> j + Z.of_nat r = 64 ->
  i + 64 <= num_bits b -> counted b v (i + j) num start ->
  (exists s, run_in_limb b v n i j r num start = Ok (inr s) /\ run_start b v n s) \/
  (exists num' start', run_in_limb b v n i j r num start = Ok (inl (num', start')) /\
     (size b <= i + 63 \/ counted b v (i + 64) num' start')).
Proof.
  intros Hw Hn Hi. pose proof (wf_bound b Hw) as Hbd.
  revert j num start. induction r as [|r IH]; intros j num start Hj Hr Hlim Hc; simpl.
  - right. do 2 eexists. split; [done|]. right. by replace (i + 64) with (i + j) by lia.
  - rewrite (wrap_small 32 (i + j)) by lia.
    destruct (i + j <? size b) eqn:E; bool_to_prop.
    2: { right. do 2 eexists. split; [done|]. left. lia. }
    rewrite test_spec by (done || lia). simpl.
    destruct (Bool.eqb (bit_at b (i + j)) v) eqn:Eb; simpl.
    + apply eqb_prop in Eb. pose proof (counted_bound _ _ _ _ _ Hc ltac:(lia)).
      rewrite (wrap_small 32 (num + 1)) by lia.
      rewrite swrap_small by (simpl; lia).
      pose proof (counted_step b v (i + j) num start ltac:(lia) Eb Hc) as Hc'.
      destruct (n <=? num + 1) eqn:En; bool_to_prop.
      * left. eexists. split; [done|]. eapply counted_return; [done|exact En|exact Hc'].
      * apply IH; [lia..|]. by replace (i + (j + 1)) with (i + j + 1) by lia.
    + apply IH; [lia..|]. by left.
Qed.

Lemma whole_limb_run b i l v :
  wf b -> 0 <= i -> i `mod` 64 = 0 -> zget (limbs b) (i / 64) = Some l ->
  l = wnot 64 (empty_limb v) -> run b v i 64.
Proof.
  intros Hw Hi Hm Hl -> j Hj. unfold bit_at, BITS_PER_LIMB.
  assert (j / 64 = i / 64) as -> by zdiv. rewrite Hl. simpl.
  pose proof (Z.mod_pos_bound j 64 ltac:(lia)).
  rewrite wnot_testbit by lia.
  destruct (_ <? 64) eqn:E; [|bool_to_prop; lia]. destruct v.
  - change (empty_limb true) with 0. by rewrite Z.testbit_0_l.
  - change (empty_limb false) with (Z.ones 64). rewrite Z.ones_spec_low by lia. done.
Qed.

Lemma find_first_n_loop_spec b v n fuel i num start :
  wf b -> 0 < n -> 0 <= i -> i `mod` 64 = 0 -> i <= size b + 63 ->
  size b + 64 <= i + 64 * Z.of_nat fuel -> counted b v i num start ->
  exists s, find_first_n_loop fuel b v n i num start = Ok s /\
    (s = -1 \/ run_start b v n s).
Proof.
  intros Hw Hn. pose proof (wf_bound b Hw) as Hbd. pose proof (wf_len b Hw) as Hlen.
  pose proof (wf_size b Hw) as Hsz. unfold size, num_bits, BYTES_PER_LIMB, BITS_PER_LIMB in *.
  assert (0 <= zlen (limbs b)) by (unfold zlen; lia).
  revert i num start. induction fuel as [|f IH]; intros i num start Hi Hm Hle Hf Hc; [lia|].
  cbn [find_first_n_loop]. unfold size, BITS_PER_LIMB. change (64 - 1) with 63.
  destruct (i <? total_size b) eqn:E; bool_to_prop; [|by eauto].
  destruct (n <=? num) eqn:En; bool_to_prop.
  { exists start. split; [done|]. right. eapply counted_return; eauto. }
  destruct (zget_is_Some (limbs b) (i / 64) ltac:(zdiv)) as [l Hl].
  unfold aget. rewrite Hl. cbn [of_option mbind outcome_bind].
  pose proof (counted_bound _ _ _ _ _ Hc Hi).
  assert (i + 64 <= 64 * num_limbs b) as Hin by zdiv.
  assert ((i + 64) `mod` 64 = 0) as Hm' by zdiv.
  rewrite (wrap_small 32 (i + 63)) by lia. rewrite (wrap_small 32 (i + 63 + 1)) by lia.
  replace (i + 63 + 1) with (i + 64) by lia.
  destruct (l =? empty_limb v); [|destruct (l =? _) eqn:Ew; bool_to_prop].
  - apply IH; [lia..|]. by left.
  - rewrite (wrap_small 32 (num + 64)) by lia. rewrite swrap_small by (simpl; lia).
    apply IH; [lia..|]. apply counted_limb; [done..| |done].
    eapply whole_limb_run; eauto.
  - destruct (run_in_limb_spec b v n i 64 0 num start) as [(s & Hs & Hrs)|(nu & st & Hs & Hd)];
      [done..|lia|unfold num_bits, BITS_PER_LIMB; lia|by rewrite Z.add_0_r| |].
    + rewrite Hm. change (Z.to_nat (64 - 0)) with 64%nat. rewrite Hs. simpl. eauto.
    + rewrite Hm. change (Z.to_nat (64 - 0)) with 64%nat. rewrite Hs. simpl.
      change (64 - 0 - 1) with 63.
      rewrite (wrap_small 32 (i + 63)) by lia. rewrite (wrap_small 32 (i + 63 + 1)) by lia.
      replace (i + 63 + 1) with (i + 64) by lia.
      destruct Hd as [Hd|Hd]; [|apply IH; [lia..|done]].
      destruct f; [lia|]. simpl. unfold size in *.
      destruct (i + 64 <? total_size b) eqn:E'; bool_to_prop; [lia|eauto].
Qed.

Lemma find_first_n_spec b v n :
  wf b -> 0 < n ->
  exists s, find_first_n b v n = Ok s /\ (s = -1 \/ run_start b v n s).
Proof.
  intros Hw Hn. pose proof (wf_size b Hw) as Hs. pose proof (wf_len b Hw).
  unfold find_first_n, size, BYTES_PER_LIMB, zlen in *.
  apply find_first_n_loop_spec; unfold size; [done|done|lia|done|lia|lia|by left].
Qed.

(** The index is an [int]. *)
Lemma run_in_limb_bound b v n i r : forall j num start res,
  start < 2 ^ 31 -> run_in_limb b v n i j r num start = Ok res ->
  match res with inl (_, st) => st < 2 ^ 31 | inr st => st < 2 ^ 31 end.
Proof.
  induction r as [|r IH]; intros j num start res Hs H; cbn [run_in_limb] in H; [by simplify_eq|].
  destruct (u32 (i + j) <? size b); [|by simplify_eq].
  apply bind_Ok in H as (t & _ & H). destruct (negb _); [by eapply (IH _ _ (-1))|].
  assert ((if start =? -1 then s32 (u32 (i + j)) else start) < 2 ^ 31) as Hst.
  { case_if; [|done]. unfold swrap. simpl. zdiv. }
  destruct (n <=? _); [by simplify_eq|by eapply IH].
Qed.

Lemma find_first_n_bound b v n res : find_first_n b v n = Ok res -> res < 2 ^ 31.
Proof.
  unfold find_first_n. generalize (S (Z.to_nat (size b))) as fuel.
  enough (forall fuel i num start, start < 2 ^ 31 ->
    find_first_n_loop fuel b v n i num start = Ok res -> res < 2 ^ 31) as He
    by (intros; eapply He; [|done]; lia).
  induction fuel as [|f IH]; intros i num start Hs H; cbn [find_first_n_loop] in H; [done|].
  destruct (i <? size b); [|simplify_eq; lia]. destruct (n <=? num); [by simplify_eq|].
  apply bind_Ok in H as (l & _ & H). destruct (l =? empty_limb v); [by eapply (IH _ _ (-1))|].
  destruct (l =? _).
  - eapply IH; [|exact H]. case_if; [|done]. unfold swrap. simpl. zdiv.
  - apply bind_Ok in H as (r & Hr & H). apply run_in_limb_bound in Hr; [|done].
    destruct r as [[nu st]|st]; [by eapply IH|by simplify_eq].
Qed.

(** A bit that was set lies in the map. *)
Lemma set_Ok b idx b' : wf b -> 0 <= idx -> set b idx = Ok b' -> idx < num_bits b.
Proof.
  intros Hw Hi H. unfold set in H. apply bind_Ok in H as (l & Hl & _).
  unfold aget in Hl. destruct (zget _ _) as [x|] eqn:E; [|done]. apply zget_Some in E.
  rewrite <- (wf_len b Hw) in E. unfold num_bits, BITS_PER_LIMB in *. zdiv.
Qed.
