(* ===== verification/RingBuffer.v ===== *)
(** * libadt/ring_buffer.h: the statically sized ring buffer

    [ring_buffer] keeps [capacity] slots, two indices and a count.  The abstract
    object is a bounded double-ended queue, a list of at most [capacity]
    elements; [run_refines] relates any sequence of operations on the two.  The
    kernel instantiates it in kernel/input.cpp (key events and subscribers). *)
From S2P Require Import Prelude.

Section ring_buffer.
(** [T], the value [T{}] that fills a fresh [adt::array], and [N]. *)
Context {T : Type} (T0 : T) (capacity : Z).

Record ring_buffer := RingBuffer {
  storage : list T;
  _begin : Z;
  _end : Z;
  count : Z
}.

(** [adt::array<T, N>()]: every element is [T{}]. *)
Definition array_init : list T := replicate (Z.to_nat capacity) T0.

Definition new : ring_buffer := RingBuffer array_init 0 0 0.

(** [ring_buffer(const elem_type (&input)[M])], with its [static_assert]. *)
Definition of_array (input : list T) : outcome ring_buffer :=
  let m := zlen input in
  if m <=? capacity then
    Ok (RingBuffer (input ++ drop (length input) array_init) 0
          (if m =? capacity then 0 else m) m)
  else Fail (Undefined "input array too big!").

Definition clear (b : ring_buffer) : ring_buffer :=
  RingBuffer (storage b) 0 0 0.

Definition forward_wrap (i : Z) : Z := if i + 1 <? capacity then i + 1 else 0.
Definition backward_wrap (i : Z) : Z := if 0 <? i then i - 1 else capacity - 1.

Definition size (b : ring_buffer) : Z := count b.
Definition empty (b : ring_buffer) : bool := size b =? 0.
Definition full (b : ring_buffer) : bool := size b =? capacity.

Definition push_back (b : ring_buffer) (val : T) : outcome (bool * ring_buffer) :=
  if full b then Ok (false, b)
  else
    s ← aset (storage b) (_end b) val;
    Ok (true, RingBuffer s (_begin b) (forward_wrap (_end b)) (count b + 1)).

Definition push_front (b : ring_buffer) (val : T) : outcome (bool * ring_buffer) :=
  if full b then Ok (false, b)
  else
    let bg := backward_wrap (_begin b) in
    s ← aset (storage b) bg val;
    Ok (true, RingBuffer s bg (_end b) (count b + 1)).

Definition pop_front (b : ring_buffer) : outcome (option T * ring_buffer) :=
  if empty b then Ok (None, b)
  else
    ret ← aget (storage b) (_begin b);
    Ok (Some ret, RingBuffer (storage b) (forward_wrap (_begin b)) (_end b) (count b - 1)).

Definition pop_back (b : ring_buffer) : outcome (option T * ring_buffer) :=
  if empty b then Ok (None, b)
  else
    let e := backward_wrap (_end b) in
    ret ← aget (storage b) e;
    Ok (Some ret, RingBuffer (storage b) (_begin b) e (count b - 1)).

Definition front (b : ring_buffer) : outcome T := aget (storage b) (_begin b).
Definition back (b : ring_buffer) : outcome T := aget (storage b) (backward_wrap (_end b)).

(** [for (auto &e : b)]: the iterator starts at [_begin], [++] is
    [forward_wrap], and the loop stops when the index equals [_end]. *)
Fixpoint iterate_from (fuel : nat) (b : ring_buffer) (idx : Z) : outcome (list T) :=
  if idx =? _end b then Ok []
  else
    match fuel with
    | O => Fail Diverges
    | S f =>
        e ← aget (storage b) idx;
        rest ← iterate_from f b (forward_wrap idx);
        Ok (e :: rest)
    end.
Definition iterate (b : ring_buffer) : outcome (list T) :=
  iterate_from (Z.to_nat capacity) b (_begin b).

(** ** Well-formedness and the abstract queue *)

Record wf (b : ring_buffer) : Prop := {
  wf_storage : zlen (storage b) = capacity;
  wf_begin : 0 <= _begin b < capacity;
  wf_count : 0 <= count b <= capacity;
  wf_end : _end b = (_begin b + count b) `mod` capacity
}.

Definition slot (b : ring_buffer) (k : Z) : Z := (_begin b + k) `mod` capacity.

Definition contents (b : ring_buffer) : list T :=
  (fun k => default T0 (zget (storage b) (slot b k))) <$> seqZ 0 (count b).

Hypothesis capacity_pos : 0 < capacity.

Lemma forward_wrap_mod i : 0 <= i < capacity -> forward_wrap i = (i + 1) `mod` capacity.
Proof.
  intros. unfold forward_wrap. case_if; [rewrite Z.mod_small; lia|].
  replace (i + 1) with capacity by lia. by rewrite Z.mod_same by lia.
Qed.

Lemma backward_wrap_mod i : 0 <= i < capacity -> backward_wrap i = (i - 1) `mod` capacity.
Proof.
  intros. unfold backward_wrap. case_if; [rewrite Z.mod_small; lia|].
  replace (i - 1) with (-1) by lia. rewrite <- (Z.mod_add (-1) 1) by lia.
  rewrite Z.mod_small; lia.
Qed.

Lemma slot_range b k : 0 <= slot b k < capacity.
Proof. apply Z.mod_pos_bound. lia. Qed.

Lemma mod_inj a j k :
  0 <= j < capacity -> 0 <= k < capacity ->
  (a + j) `mod` capacity = (a + k) `mod` capacity -> j = k.
Proof.
  intros Hj Hk H. pose proof (Z.div_mod (a + j) capacity ltac:(lia)).
  pose proof (Z.div_mod (a + k) capacity ltac:(lia)).
  destruct (Z.lt_trichotomy ((a + j) / capacity) ((a + k) / capacity)) as [?|[Heq|?]];
    [nia|rewrite Heq in *; lia|nia].
Qed.

Lemma length_contents b : wf b -> zlen (contents b) = count b.
Proof.
  intros Hw. unfold zlen, contents. rewrite length_fmap, length_seqZ.
  pose proof (wf_count b Hw). lia.
Qed.

Lemma contents_lookup b k :
  wf b -> 0 <= k < count b -> zget (contents b) k = zget (storage b) (slot b k).
Proof.
  intros Hw Hk. unfold contents, zget at 1. case_if; [lia|].
  rewrite list_lookup_fmap, lookup_seqZ_lt by lia. simpl.
  rewrite Z2Nat.id, Z.add_0_l by lia. pose proof (slot_range b k).
  destruct (zget_is_Some (storage b) (slot b k)) as [x Hx];
    [rewrite (wf_storage b Hw); lia|]. by rewrite Hx.
Qed.

(** The contents are determined by their length and their slots. *)
Lemma contents_eq b l :
  wf b -> zlen l = count b ->
  (forall k, 0 <= k < count b -> zget (storage b) (slot b k) = zget l k) ->
  contents b = l.
Proof.
  intros Hw Hl H. apply zget_ext. intros k.
  destruct (decide (0 <= k < count b)) as [Hk|Hk].
  - rewrite contents_lookup by done. auto.
  - destruct (zget (contents b) k) as [x|] eqn:E1.
    { apply zget_Some in E1. rewrite length_contents in E1 by done. lia. }
    destruct (zget l k) as [x|] eqn:E2; [|done]. apply zget_Some in E2. lia.
Qed.

Lemma zget_snoc (l : list T) x k :
  0 <= k <= zlen l -> zget (l ++ [x]) k = if k =? zlen l then Some x else zget l k.
Proof.
  intros Hk. unfold zget, zlen in *. case_if; [lia|]. case_if.
  - subst. rewrite Nat2Z.id. apply list_lookup_middle. done.
  - apply lookup_app_l. lia.
Qed.

Lemma zget_cons (l : list T) x k :
  0 <= k -> zget (x :: l) k = if k =? 0 then Some x else zget l (k - 1).
Proof.
  intros Hk. unfold zget. case_if; [lia|]. case_if; [by subst|]. case_if; [lia|].
  replace (Z.to_nat k) with (S (Z.to_nat (k - 1))) by lia. done.
Qed.

Lemma new_spec : wf new /\ contents new = [].
Proof.
  split; [|done]. split; simpl; [|lia..|].
  - unfold zlen, array_init. rewrite length_replicate. lia.
  - by rewrite Z.mod_0_l by lia.
Qed.

Lemma push_back_spec b x :
  wf b ->
  exists ok b', push_back b x = Ok (ok, b') /\ wf b' /\
    if decide (zlen (contents b) = capacity)
    then ok = false /\ contents b' = contents b
    else ok = true /\ contents b' = contents b ++ [x].
Proof.
  intros Hw. pose proof (wf_count b Hw). pose proof (wf_begin b Hw).
  rewrite length_contents by done. unfold push_back, full, size.
  destruct (count b =? capacity) eqn:E; bool_to_prop; case_decide; try lia; [by eauto 6|].
  pose proof (Z.mod_pos_bound (_begin b + count b) capacity ltac:(lia)) as He.
  rewrite (wf_end b Hw). unfold aset. rewrite (wf_storage b Hw).
  destruct ((_ <=? _) && _) eqn:Eb; [|apply andb_false_iff in Eb as [?|?]; bool_to_prop; lia].
  simpl. do 2 eexists. split; [done|].
  set (b' := RingBuffer _ _ _ _).
  assert (wf b') as Hw'.
  { split; simpl; rewrite ?zlen_zset; [by apply Hw|lia..|].
    rewrite forward_wrap_mod by done. rewrite Zplus_mod_idemp_l. f_equal. lia. }
  split_and!; [done..|]. apply contents_eq; [done| |].
  - simpl. unfold zlen. rewrite length_app. simpl. pose proof (length_contents b Hw).
    unfold zlen in *. lia.
  - simpl. intros k Hk. rewrite zget_snoc by (rewrite length_contents by done; lia).
    rewrite length_contents by done. unfold slot; simpl. case_if.
    + subst. apply zget_zset_eq. rewrite (wf_storage b Hw). lia.
    + rewrite contents_lookup by (done || lia). unfold slot.
      apply zget_zset_ne. intros Heq. apply mod_inj in Heq; lia.
Qed.

Lemma push_front_spec b x :
  wf b ->
  exists ok b', push_front b x = Ok (ok, b') /\ wf b' /\
    if decide (zlen (contents b) = capacity)
    then ok = false /\ contents b' = contents b
    else ok = true /\ contents b' = x :: contents b.
Proof.
  intros Hw. pose proof (wf_count b Hw). pose proof (wf_begin b Hw).
  rewrite length_contents by done. unfold push_front, full, size.
  destruct (count b =? capacity) eqn:E; bool_to_prop; case_decide; try lia; [by eauto 6|].
  rewrite backward_wrap_mod by done.
  pose proof (Z.mod_pos_bound (_begin b - 1) capacity ltac:(lia)) as He.
  unfold aset. rewrite (wf_storage b Hw).
  destruct ((_ <=? _) && _) eqn:Eb; [|apply andb_false_iff in Eb as [?|?]; bool_to_prop; lia].
  simpl. do 2 eexists. split; [done|].
  set (b' := RingBuffer _ _ _ _).
  assert (wf b') as Hw'.
  { split; simpl; rewrite ?zlen_zset; [by apply Hw|lia..|].
    rewrite Zplus_mod_idemp_l, (wf_end b Hw). f_equal. lia. }
  split_and!; [done..|]. apply contents_eq; [done| |].
  - simpl. unfold zlen. simpl. pose proof (length_contents b Hw). unfold zlen in *. lia.
  - simpl. intros k Hk. rewrite zget_cons by lia. unfold slot; simpl.
    rewrite Zplus_mod_idemp_l. case_if.
    + subst. rewrite Z.add_0_r. apply zget_zset_eq. rewrite (wf_storage b Hw). lia.
    + rewrite contents_lookup by (done || lia). unfold slot.
      replace (_begin b - 1 + k) with (_begin b + (k - 1)) by lia.
      apply zget_zset_ne. intros Heq.
      replace (_begin b - 1) with (_begin b + (capacity - 1) - 1 * capacity) in Heq by lia.
      rewrite <- Z.add_opp_r, <- Z.mul_opp_l, Z.mod_add in Heq by lia.
      apply mod_inj in Heq; lia.
Qed.

Lemma pop_front_spec b :
  wf b ->
  exists r b', pop_front b = Ok (r, b') /\ wf b' /\
    contents b = match r with Some x => x :: contents b' | None => [] end /\
    (r = None -> b' = b).
Proof.
  intros Hw. pose proof (wf_count b Hw). pose proof (wf_begin b Hw).
  unfold pop_front, empty, size. destruct (count b =? 0) eqn:E; bool_to_prop.
  { do 2 eexists. split_and!; [done..| |done]. unfold contents. by rewrite E. }
  destruct (zget_is_Some (storage b) (_begin b)) as [x Hx]; [rewrite (wf_storage b Hw); lia|].
  unfold aget. rewrite Hx. simpl. do 2 eexists. split; [done|].
  set (b' := RingBuffer _ _ _ _).
  assert (wf b') as Hw'.
  { split; simpl; [by apply Hw| |lia|]; rewrite forward_wrap_mod by done.
    - apply Z.mod_pos_bound; lia.
    - rewrite Zplus_mod_idemp_l, (wf_end b Hw). f_equal. lia. }
  split_and!; [done| |done]. apply contents_eq; [done| |].
  - unfold zlen. simpl. pose proof (length_contents b' Hw'). unfold zlen in *. simpl in *. lia.
  - intros k Hk. rewrite zget_cons by lia. case_if.
    + subst. unfold slot. rewrite Z.add_0_r, Z.mod_small by lia. done.
    + rewrite contents_lookup by (done || (simpl; lia)). unfold slot; simpl.
      rewrite forward_wrap_mod by done. rewrite Zplus_mod_idemp_l. f_equal. f_equal. lia.
Qed.

Lemma pop_back_spec b :
  wf b ->
  exists r b', pop_back b = Ok (r, b') /\ wf b' /\
    contents b = match r with Some x => contents b' ++ [x] | None => [] end /\
    (r = None -> b' = b).
Proof.
  intros Hw. pose proof (wf_count b Hw). pose proof (wf_begin b Hw).
  unfold pop_back, empty, size. destruct (count b =? 0) eqn:E; bool_to_prop.
  { do 2 eexists. split_and!; [done..| |done]. unfold contents. by rewrite E. }
  pose proof (Z.mod_pos_bound (_begin b + count b) capacity ltac:(lia)) as He.
  rewrite (wf_end b Hw), backward_wrap_mod, Zminus_mod_idemp_l by done.
  pose proof (Z.mod_pos_bound (_begin b + count b - 1) capacity ltac:(lia)) as He'.
  destruct (zget_is_Some (storage b) ((_begin b + count b - 1) `mod` capacity)) as [x Hx];
    [rewrite (wf_storage b Hw); lia|].
  unfold aget. rewrite Hx. simpl. do 2 eexists. split; [done|].
  set (b' := RingBuffer _ _ _ _).
  assert (wf b') as Hw'.
  { split; simpl; [by apply Hw|lia..|]. f_equal. lia. }
  split_and!; [done| |done]. apply contents_eq; [done| |].
  - unfold zlen. rewrite length_app. simpl. pose proof (length_contents b' Hw').
    unfold zlen in *. simpl in *. lia.
  - intros k Hk. rewrite zget_snoc by (rewrite length_contents by done; simpl; lia).
    rewrite length_contents by done. simpl. case_if.
    + subst. rewrite <- Hx. unfold slot. f_equal. f_equal. lia.
    + rewrite contents_lookup by (done || (simpl; lia)). done.
Qed.

Lemma of_array_spec l :
  zlen l <= capacity -> exists b, of_array l = Ok b /\ wf b /\ contents b = l.
Proof.
  intros Hl. unfold of_array. destruct (_ <=? _) eqn:E; bool_to_prop; [|lia].
  eexists. split; [done|]. set (b := RingBuffer _ _ _ _).
  assert (zlen (storage b) = capacity) as Hs.
  { unfold zlen in *. simpl. rewrite length_app, length_drop.
    unfold array_init. rewrite length_replicate. lia. }
  assert (wf b) as Hw.
  { split; simpl; [done|lia|unfold zlen in *; lia|]. case_if.
    - rewrite E0, Z.mod_same by lia. done.
    - rewrite Z.mod_small by (unfold zlen in *; lia). done. }
  split; [done|]. apply contents_eq; [done..|]. intros k Hk. simpl in *.
  unfold slot; simpl. rewrite Z.add_0_l, Z.mod_small by lia. unfold zget, zlen in *.
  case_if; [lia|]. apply lookup_app_l. lia.
Qed.

Lemma clear_spec b : wf b -> wf (clear b) /\ contents (clear b) = [].
Proof.
  intros Hw. split; [|done]. split; simpl; [by apply Hw|lia..|].
  by rewrite Z.mod_0_l by lia.
Qed.

(** ** Iteration *)

Lemma iterate_from_spec b n k :
  wf b -> 0 <= k -> k + Z.of_nat n = count b -> count b < capacity ->
  forall fuel, (n <= fuel)%nat ->
  iterate_from fuel b (slot b k) = Ok (drop (Z.to_nat k) (contents b)).
Proof.
  intros Hw. revert k. induction n as [|n IH]; intros k Hk Hn Hlt fuel Hf.
  - assert (slot b k =? _end b = true) as E.
    { apply Z.eqb_eq. rewrite (wf_end b Hw). unfold slot. f_equal. lia. }
    rewrite drop_ge by (pose proof (length_contents b Hw); unfold zlen in *; lia).
    destruct fuel; simpl; by rewrite E.
  - destruct fuel as [|f]; [lia|]. simpl.
    destruct (slot b k =? _end b) eqn:E; bool_to_prop.
    { exfalso. rewrite (wf_end b Hw) in E. unfold slot in E. apply mod_inj in E; lia. }
    pose proof (contents_lookup b k Hw ltac:(lia)) as Hc.
    destruct (zget_is_Some (contents b) k) as [x Hx]; [rewrite length_contents by done; lia|].
    unfold aget. rewrite <- Hc, Hx. simpl.
    replace (forward_wrap (slot b k)) with (slot b (k + 1)).
    2: { unfold slot. rewrite forward_wrap_mod by apply slot_range.
         rewrite Zplus_mod_idemp_l. f_equal. lia. }
    rewrite (IH (k + 1)) by lia. simpl. f_equal.
    unfold zget in Hx. case_if; [done|].
    replace (Z.to_nat (k + 1)) with (S (Z.to_nat k)) by lia. symmetry. by apply drop_S.
Qed.

(** A range-for loop visits the contents in order, unless the buffer is full:
    then [begin() == end()] and it visits nothing. *)
Lemma iterate_spec b :
  wf b -> iterate b = Ok (if full b then [] else contents b).
Proof.
  intros Hw. pose proof (wf_count b Hw). pose proof (wf_begin b Hw).
  unfold iterate. replace (_begin b) with (slot b 0)
    by (unfold slot; rewrite Z.add_0_r, Z.mod_small; lia).
  unfold full, size. destruct (count b =? capacity) eqn:E; bool_to_prop.
  - assert (slot b 0 =? _end b = true) as Ee.
    { apply Z.eqb_eq. rewrite (wf_end b Hw), E. unfold slot.
      rewrite Z.add_0_r. replace (_begin b + capacity) with (_begin b + 1 * capacity) by lia.
      by rewrite Z.mod_add by lia. }
    destruct (Z.to_nat capacity); simpl; by rewrite Ee.
  - rewrite (iterate_from_spec b (Z.to_nat (count b))) by (done || lia). done.
Qed.

(** ** Refinement of a bounded double-ended queue *)

Inductive op := PushBack (x : T) | PushFront (x : T) | PopFront | PopBack | Clear.
Inductive reply := Pushed (ok : bool) | Popped (r : option T) | Cleared.

Definition step (b : ring_buffer) (o : op) : outcome (reply * ring_buffer) :=
  match o with
  | PushBack x => '(ok, b') ← push_back b x; Ok (Pushed ok, b')
  | PushFront x => '(ok, b') ← push_front b x; Ok (Pushed ok, b')
  | PopFront => '(r, b') ← pop_front b; Ok (Popped r, b')
  | PopBack => '(r, b') ← pop_back b; Ok (Popped r, b')
  | Clear => Ok (Cleared, clear b)
  end.

(** The specification: a list that refuses to grow beyond [capacity]. *)
Definition spec_step (q : list T) (o : op) : reply * list T :=
  match o with
  | PushBack x =>
      if decide (zlen q = capacity) then (Pushed false, q) else (Pushed true, q ++ [x])
  | PushFront x =>
      if decide (zlen q = capacity) then (Pushed false, q) else (Pushed true, x :: q)
  | PopFront => match q with [] => (Popped None, []) | x :: q' => (Popped (Some x), q') end
  | PopBack =>
      match last q with
      | None => (Popped None, [])
      | Some x => (Popped (Some x), removelast q)
      end
  | Clear => (Cleared, [])
  end.

Fixpoint run (b : ring_buffer) (ops : list op) : outcome (list reply * ring_buffer) :=
  match ops with
  | [] => Ok ([], b)
  | o :: ops' =>
      '(r, b') ← step b o;
      '(rs, b'') ← run b' ops';
      Ok (r :: rs, b'')
  end.

Fixpoint spec_run (q : list T) (ops : list op) : list reply * list T :=
  match ops with
  | [] => ([], q)
  | o :: ops' =>
      let '(r, q') := spec_step q o in
      let '(rs, q'') := spec_run q' ops' in
      (r :: rs, q'')
  end.

Lemma step_refines b o :
  wf b -> exists r b', step b o = Ok (r, b') /\ wf b' /\
    spec_step (contents b) o = (r, contents b').
Proof.
  intros Hw. destruct o as [x|x| | |]; simpl.
  - destruct (push_back_spec b x Hw) as (ok & b' & -> & Hw' & Hc). simpl.
    do 2 eexists. split_and!; [done..|]. case_decide; destruct Hc as [-> ->]; done.
  - destruct (push_front_spec b x Hw) as (ok & b' & -> & Hw' & Hc). simpl.
    do 2 eexists. split_and!; [done..|]. case_decide; destruct Hc as [-> ->]; done.
  - destruct (pop_front_spec b Hw) as (r & b' & -> & Hw' & Hc & Hn). simpl.
    do 2 eexists. split_and!; [done..|]. destruct r; rewrite Hc; [done|].
    rewrite Hn, Hc by done. done.
  - destruct (pop_back_spec b Hw) as (r & b' & -> & Hw' & Hc & Hn). simpl.
    do 2 eexists. split_and!; [done..|]. destruct r; rewrite Hc.
    + rewrite last_snoc, removelast_last. done.
    + rewrite Hn, Hc by done. done.
  - do 2 eexists. split_and!; [done|by apply clear_spec|done].
Qed.

Lemma run_spec b ops :
  wf b -> exists rs b', run b ops = Ok (rs, b') /\ wf b' /\
    spec_run (contents b) ops = (rs, contents b').
Proof.
  revert b. induction ops as [|o ops IH]; intros b Hw; simpl; [by eauto 6|].
  destruct (step_refines b o Hw) as (r & b1 & -> & Hw1 & ->). simpl.
  destruct (IH b1 Hw1) as (rs & b2 & -> & Hw2 & ->). simpl. eauto 6.
Qed.

(** [C12] Every sequence of ring-buffer operations on a fresh buffer runs
    without an out-of-bounds access, keeps the buffer well formed, and returns
    exactly the replies of a bounded double-ended queue of the same capacity,
    whose list the buffer then holds. *)
Theorem run_refines ops :
  exists rs b', run new ops = Ok (rs, b') /\ wf b' /\
    spec_run [] ops = (rs, contents b').
Proof. destruct new_spec as [Hw <-]. by apply run_spec. Qed.

(** After any sequence of operations a range-for loop over the buffer
    terminates and visits the queue front to back, except on a full buffer,
    where the begin and end iterators coincide and it visits nothing. *)
Theorem iterate_after_run ops rs b :
  run new ops = Ok (rs, b) ->
  iterate b = Ok (let q := (spec_run [] ops).2 in
                  if decide (zlen q = capacity) then [] else q).
Proof.
  intros Hr. destruct new_spec as [Hw0 Hc0].
  destruct (run_spec new ops Hw0) as (rs' & b' & Hr' & Hw & Hs).
  rewrite Hr in Hr'. injection Hr' as <- <-. rewrite Hc0 in Hs. rewrite Hs. simpl.
  rewrite iterate_spec, length_contents by done. unfold full, size. f_equal.
  case_decide; case_if; done || lia.
Qed.
End ring_buffer.

Arguments op : clear implicits.
Arguments ring_buffer : clear implicits.

Lemma run_refines_witness :
  0 < 2 /\
  exists rs b', run 2 (new 0 2) [PushBack 7; PushFront 8; PushBack 9; PopBack] = Ok (rs, b') /\
    wf 2 b' /\ spec_run 2 [] [PushBack 7; PushFront 8; PushBack 9; PopBack] = (rs, contents 0 2 b').
Proof.
  split; [lia|]. apply run_refines. lia.
Defined.

Lemma iterate_after_run_witness :
  exists rs b, run 2 (new 0 2) [PushBack 7; PushBack 8] = Ok (rs, b) /\ iterate 2 b = Ok [].
Proof.
  eexists _, _. split; [reflexivity|].
  apply (iterate_after_run 0 2 ltac:(lia) [PushBack 7; PushBack 8] _ _ eq_refl).
Defined.
