(* ===== verification/Memory.v ===== *)
(** * kernel/memory.h and kernel/memory.cpp: the physical memory map

    The address-space constants, the bootloader's memory map and
    [memory::early_init], which copies the map, sorts it so that the largest
    usable region comes first, and carves out the memory the kernel owns. *)
From S2P Require Import Prelude Util.

Definition PAGE_SIZE : Z := 0x1000.
Definition KERNEL_SIZE : Z := 0x100 * PAGE_SIZE.
(** A [ptrdiff_t], so the constant [0xFFFFFFFF80000000] is negative. *)
Definition KERNEL_VMA_OFFSET : Z := s64 0xFFFFFFFF80000000.
Definition KERNEL_LMA_START : Z := 0x100000.
Definition KERNEL_VMA_START : Z := u64 (KERNEL_LMA_START + KERNEL_VMA_OFFSET).
Definition KERNEL_VMA_END : Z := u64 (KERNEL_VMA_START + KERNEL_SIZE).

Definition usable : Z := 1.

Record memory_map_entry := MemoryMapEntry {
  mm_base : Z;               (* uintptr_t *)
  mm_length : Z;             (* uint64_t *)
  mm_type : Z;               (* enum type : uint32_t *)
  extended_attributes : Z    (* uint32_t *)
}.

#[export] Instance memory_map_entry_eq_dec : EqDecision memory_map_entry.
Proof. solve_decision. Defined.

Definition type_str (e : memory_map_entry) : string :=
  match mm_type e with
  | 1 => "usable"
  | 2 => "reserved"
  | 3 => "reclaimable"
  | 4 => "nvs"
  | 5 => "badmemory"
  | _ => "<error>"
  end.

Definition MAX_MEMORY_MAP_ENTRIES : Z := 16.

(** [memory_map g_memory_map;] before anything is copied into it. *)
Definition g_memory_map0 : list memory_map_entry :=
  replicate (Z.to_nat MAX_MEMORY_MAP_ENTRIES) (MemoryMapEntry 0 0 0 1).

Record memory_state := MemoryState {
  g_num_of_memory_map_entries : Z;
  g_memory_map : list memory_map_entry
}.

Definition entry_is_usable (e : memory_map_entry) : bool := mm_type e =? usable.

(** The comparison lambda of [sort_memory_map]. *)
Definition entry_less (lhs rhs : memory_map_entry) : bool :=
  if negb (entry_is_usable lhs) then false
  else if negb (entry_is_usable rhs) then true
  else mm_length rhs <? mm_length lhs.

(** The element lambda of [mark_unusable(start, end)]. *)
Definition mark_entry (start end_ : Z) (e : memory_map_entry) : memory_map_entry * bool :=
  if (start <=? mm_base e) && (mm_base e <? end_) then
    (MemoryMapEntry end_ (u64 (mm_length e - u64 (end_ - mm_base e)))
       (mm_type e) (extended_attributes e), true)
  else (e, false).

Definition mark_unusable (start end_ : Z) (s : memory_state) : memory_state :=
  let n := Z.to_nat (g_num_of_memory_map_entries s) in
  MemoryState (g_num_of_memory_map_entries s)
    (transform (mark_entry start end_) (take n (g_memory_map s)) ++ drop n (g_memory_map s)).

Definition sort_memory_map (s : memory_state) : memory_state :=
  let sorted := MemoryState (g_num_of_memory_map_entries s)
    (insertion_sort entry_less (g_memory_map s) (g_num_of_memory_map_entries s)) in
  mark_unusable 0x100000 0x300000 (mark_unusable 0x0 0x500 sorted).

(** [boot_map] is the array the bootloader left at [memory_map_base]. *)
Definition early_init (boot_map : list memory_map_entry) (num_memory_map_entries : Z)
    : outcome memory_state :=
  _ ← assert_ (num_memory_map_entries <? MAX_MEMORY_MAP_ENTRIES)
        "too many memory map entries!";
  let n := Z.to_nat num_memory_map_entries in
  if (n <=? length boot_map)%nat then
    Ok (sort_memory_map
          (MemoryState num_memory_map_entries (take n boot_map ++ drop n g_memory_map0)))
  else Fail OutOfBounds.

Definition get_memory_map (s : memory_state) : outcome (list memory_map_entry) :=
  _ ← assert_ (negb (g_num_of_memory_map_entries s =? 0)) "memory map not initialized!";
  Ok (g_memory_map s).

(** ** The order on regions *)

Lemma entry_less_asym x y : entry_less x y = true -> entry_less y x = false.
Proof.
  unfold entry_less. destruct (entry_is_usable x), (entry_is_usable y); simpl; try done.
  intros. bool_to_prop. apply Z.ltb_ge. lia.
Qed.

Lemma entry_less_trans x y z :
  entry_less y x = false -> entry_less z y = false -> entry_less z x = false.
Proof.
  unfold entry_less.
  destruct (entry_is_usable x), (entry_is_usable y), (entry_is_usable z); simpl; try done.
  intros. bool_to_prop. apply Z.ltb_ge. lia.
Qed.

(** Region [x] is at least as good as [y]: usable and no shorter. *)
Definition best_usable (x : memory_map_entry) (l : list memory_map_entry) : Prop :=
  forall y, y ∈ l -> entry_is_usable y = true ->
    entry_is_usable x = true /\ mm_length y <= mm_length x.

Lemma sorted_head_best x l :
  StronglySorted (not_after entry_less) (x :: l) -> best_usable x (x :: l).
Proof.
  intros Hs y Hy Hu. inversion Hs as [|? ? _ Hall]; subst.
  apply elem_of_cons in Hy as [->|Hy]; [split; [done|lia]|].
  apply list_elem_of_In in Hy. rewrite List.Forall_forall in Hall.
  specialize (Hall y Hy). unfold not_after, entry_less in Hall. rewrite Hu in Hall.
  simpl in Hall. destruct (entry_is_usable x); simpl in Hall; [|done].
  bool_to_prop. split; [done|lia].
Qed.

(** What carving [[start, end_)] out of a region that begins inside it does. *)
Lemma mark_entry_trims start end_ e :
  0 <= start <= mm_base e -> mm_base e < end_ -> end_ < 2 ^ 64 ->
  0 <= mm_length e < 2 ^ 64 -> end_ - mm_base e <= mm_length e ->
  exists e', mark_entry start end_ e = (e', true) /\
    mm_base e' = end_ /\ mm_base e' + mm_length e' = mm_base e + mm_length e /\ mm_type e' = mm_type e.
Proof.
  intros. unfold mark_entry.
  destruct ((_ <=? _) && _) eqn:E; [|apply andb_false_iff in E as [?|?]; bool_to_prop; lia].
  eexists. split_and!; [done..| |done]. simpl.
  rewrite (wrap_small 64 (end_ - mm_base e)) by lia. rewrite wrap_small by lia. lia.
Qed.

Lemma transform_skip {X} (f : X -> X * bool) l :
  (forall x, x ∈ l -> f x = (x, false)) -> transform f l = l.
Proof.
  induction l as [|x l IH]; [done|]. intros H. simpl. rewrite H by set_solver.
  rewrite IH; [done|]. set_solver.
Qed.

(** [mark_unusable] keeps the number of regions, their types and everything
    after the first region it trims. *)
Lemma transform_spec {X} (f : X -> X * bool) l :
  (forall x, (f x).2 = false -> (f x).1 = x) ->
  transform f l = l \/
  exists p x q, l = p ++ x :: q /\ transform f l = p ++ (f x).1 :: q /\
    (f x).2 = true /\ (forall y, y ∈ p -> (f y).2 = false).
Proof.
  intros Hf. induction l as [|x l IH]; [by left|]. simpl.
  destruct (f x) as [x' stop] eqn:E. destruct stop.
  - right. exists [], x, l. rewrite E. simpl. split_and!; [done..|set_solver].
  - pose proof (Hf x) as Hx. rewrite E in Hx. simpl in Hx. rewrite Hx by done.
    destruct IH as [->|(p & y & q & -> & -> & Hy & Hp)]; [by left|].
    right. exists (x :: p), y, q. split_and!; [done..|].
    intros z [->|Hz]%elem_of_cons; [by rewrite E|auto].
Qed.

Lemma mark_entry_id start end_ e :
  (mark_entry start end_ e).2 = false -> (mark_entry start end_ e).1 = e.
Proof. unfold mark_entry. case_if; done. Qed.

Lemma early_init_sorts boot n :
  0 <= n < MAX_MEMORY_MAP_ENTRIES -> (Z.to_nat n <= length boot)%nat ->
  exists sorted, sorted ≡ₚ take (Z.to_nat n) boot /\
    StronglySorted (not_after entry_less) sorted /\
    early_init boot n = Ok (mark_unusable 0x100000 0x300000
      (mark_unusable 0x0 0x500
        (MemoryState n (sorted ++ drop (Z.to_nat n) g_memory_map0)))).
Proof.
  intros Hn Hl. unfold early_init, MAX_MEMORY_MAP_ENTRIES in *.
  destruct (n <? 16) eqn:E; bool_to_prop; [|lia]. simpl.
  destruct (_ <=? length boot)%nat eqn:El; [|apply Nat.leb_gt in El; lia].
  destruct (insertion_sort_correct entry_less entry_less_asym entry_less_trans
    (take (Z.to_nat n) boot) (drop (Z.to_nat n) g_memory_map0)) as (a' & Heq & Hp & Hs).
  exists a'. split_and!; [done..|]. unfold sort_memory_map. simpl.
  assert (zlen (take (Z.to_nat n) boot) = n) as Hz
    by (unfold zlen; rewrite length_take_le; lia).
  rewrite Hz in Heq. by rewrite Heq.
Qed.

Lemma mark_unusable_app start end_ n l rest :
  n = zlen l ->
  mark_unusable start end_ (MemoryState n (l ++ rest)) =
  MemoryState n (transform (mark_entry start end_) l ++ rest).
Proof.
  intros ->. unfold mark_unusable, zlen. simpl. rewrite Nat2Z.id, take_app_length, drop_app_length.
  done.
Qed.

(** The kernel's own region is the strictly largest usable one, begins inside
    [[0x100000, 0x300000)] and reaches past it. *)
Definition kernel_region (r : memory_map_entry) (l : list memory_map_entry) : Prop :=
  r ∈ l /\ entry_is_usable r = true /\
  (forall y, y ∈ l -> entry_is_usable y = true -> y = r \/ mm_length y < mm_length r) /\
  0x100000 <= mm_base r < 0x300000 /\ 0x300000 - mm_base r <= mm_length r < 2 ^ 64.

Lemma transform_head {X} (f : X -> X * bool) x l :
  exists l', transform f (x :: l) = (f x).1 :: l' /\ length l' = length l /\
    ((f x).2 = true -> l' = l).
Proof.
  assert (forall l : list X, length (transform f l) = length l) as Hlen.
  { clear l. induction l as [|y l IH]; [done|]. simpl. destruct (f y) as [? []]; simpl; lia. }
  simpl. destruct (f x) as [x' []]; simpl; eexists; (split_and!; [done|done|done]).
Qed.

(** When the kernel was loaded into the largest usable region, the region
    [pma::early_init] takes (entry 0) is that region with the kernel's memory
    below 0x300000 cut off: still usable, starting at 0x300000, ending where
    the bootloader said. *)
Theorem early_init_entry0 boot n r :
  0 <= n < MAX_MEMORY_MAP_ENTRIES -> (Z.to_nat n <= length boot)%nat ->
  kernel_region r (take (Z.to_nat n) boot) ->
  exists s e, early_init boot n = Ok s /\ g_memory_map s !! 0%nat = Some e /\
    entry_is_usable e = true /\ mm_base e = 0x300000 /\
    mm_base e + mm_length e = mm_base r + mm_length r.
Proof.
  intros Hn Hl (Hr & Hu & Hmax & Hb & Hlen).
  destruct (early_init_sorts boot n Hn Hl) as (sorted & Hp & Hs & ->).
  assert (n = zlen sorted) as Hz.
  { unfold zlen. rewrite (Permutation_length Hp), length_take_le; lia. }
  rewrite mark_unusable_app by done.
  destruct sorted as [|x l]; [rewrite <- Hp in Hr; by apply not_elem_of_nil in Hr|].
  assert (x = r) as ->.
  { destruct (sorted_head_best x l Hs r) as [Hxu Hxl]; [by rewrite Hp|done|].
    destruct (Hmax x) as [|?]; [rewrite <- Hp; set_solver|done..|lia]. }
  destruct (transform_head (mark_entry 0x0 0x500) r l) as (l1 & Ht1 & Hl1 & _).
  assert (mark_entry 0x0 0x500 r = (r, false)) as Hm1.
  { unfold mark_entry. case_if; [lia|done]. }
  rewrite Ht1, Hm1. simpl. unfold zlen in Hz. simpl in Hz.
  change (r :: l1 ++ ?x) with ((r :: l1) ++ x).
  rewrite mark_unusable_app by (unfold zlen; simpl; lia).
  destruct (transform_head (mark_entry 0x100000 0x300000) r l1) as (l2 & -> & _ & _).
  destruct (mark_entry_trims 0x100000 0x300000 r) as (e & -> & Heb & Hee & Het); [lia..|].
  simpl. do 2 eexists. split_and!; [done..| |done|done].
  unfold entry_is_usable in *. by rewrite Het.
Qed.

(** A QEMU-like map: low memory, a reserved hole and 127 MiB above 1 MiB. *)
Definition sample_map : list memory_map_entry :=
  [MemoryMapEntry 0 0x9FC00 1 1; MemoryMapEntry 0x9FC00 0x400 2 1;
   MemoryMapEntry 0xF0000 0x10000 2 1; MemoryMapEntry 0x100000 0x7EE0000 1 1].

Lemma early_init_entry0_witness :
  exists s e, early_init sample_map 4 = Ok s /\ g_memory_map s !! 0%nat = Some e /\
    entry_is_usable e = true /\ mm_base e = 0x300000 /\ mm_base e + mm_length e = 0x7FE0000.
Proof.
  apply (early_init_entry0 sample_map 4 (MemoryMapEntry 0x100000 0x7EE0000 1 1));
    [done|simpl; lia|].
  split_and!; [set_solver|done| |done|done|done|done].
  intros y Hy. simpl in Hy. rewrite !elem_of_cons in Hy.
  destruct Hy as [->|[->|[->|[->|Hy]]]]; simpl; try (by left); try (by right); try done.
  by apply not_elem_of_nil in Hy.
Defined.

(** Carving the kernel's memory out of a region shorter than the carved
    part wraps around: entry 0 then claims almost 2^64 bytes. *)
Theorem early_init_underflow :
  exists s e, early_init [MemoryMapEntry 0x100000 0x100000 1 1] 1 = Ok s /\
    g_memory_map s !! 0%nat = Some e /\ entry_is_usable e = true /\
    mm_length e = 2 ^ 64 - 0x100000.
Proof. do 2 eexists. split_and!; vm_compute; reflexivity. Qed.
