(* ===== verification/Paging.v ===== *)
(** * kernel/paging.h and kernel/paging.cpp: four-level page tables

    The state is the memory words of the page tables, keyed by the kernel
    virtual address of each entry, and the two pools the tables come from.  The
    iterator, [find], [get], [map_page], [map_range], [unmap_page] and
    [get_physical_address] are translated as they are; [PageTables.v] proves
    that they implement a map from virtual pages to entries.  The TLB is not
    modelled, so [invlpg] and the reloads of [cr3] have no effect here. *)
From S2P Require Import Prelude Util Memory.

Definition LOG2_PAGE_TABLE_SIZE : Z := 9.
Definition LOG2_PAGE_ALIGN : Z := 12.
Definition PREFIX_MASK : Z := 2 ^ LOG2_PAGE_TABLE_SIZE - 1.
Definition ADDRESS_MASK : Z := 0x000FFFFFFFFFF000.

(** [paging::attributes::vals] *)
Definition NONE : Z := 0.
Definition PRESENT : Z := 2 ^ 0.
Definition RW : Z := 2 ^ 1.
Definition USER : Z := 2 ^ 2.
Definition XD : Z := 2 ^ 63.
Definition ALL_MASK : Z := Z.lor (Z.lor (Z.lor PRESENT RW) USER) XD.

Definition NUM_PAGE_TABLE_ENTRIES : Z := 512.
Definition MAX_STATIC_TABLES : Z := 8.
Definition MAX_DYNAMIC_TABLES : Z := 512.

(** The kernel's page tables and table pools.  [root] is
    [kernel_page_tables.base], [allocate_set] whether
    [kernel_page_tables.allocate] is set, [static_tables] the address of the
    array of that name. *)
Record paging := Paging {
  mem : gmap Z Z;
  root : Z;
  allocate_set : bool;
  static_tables : Z;
  num_static_tables_left : Z;
  dynamic_tables : Z;
  num_dynamic_tables_left : Z
}.

Definition with_mem (s : paging) (m : gmap Z Z) : paging :=
  Paging m (root s) (allocate_set s) (static_tables s) (num_static_tables_left s)
    (dynamic_tables s) (num_dynamic_tables_left s).

(** Page-table storage is zero-initialised. *)
Definition load (m : gmap Z Z) (a : Z) : Z := default 0 (m !! a).

(** Address of element [idx] of a table. *)
Definition entry_addr (table idx : Z) : Z := table + 8 * idx.

(** [allocate_page_level] *)
Definition allocate_page_level (s : paging) : outcome (Z * paging) :=
  if 0 <? num_static_tables_left s then
    let n := num_static_tables_left s - 1 in
    Ok (u64 (static_tables s + PAGE_SIZE * n - KERNEL_VMA_OFFSET),
        Paging (mem s) (root s) (allocate_set s) (static_tables s) n
          (dynamic_tables s) (num_dynamic_tables_left s))
  else
    _ ← assert_ (negb (dynamic_tables s =? 0))
          "ran out of static tables before dynamic tables could be initialized!";
    if 0 <? num_dynamic_tables_left s then
      let n := num_dynamic_tables_left s - 1 in
      Ok (u64 (dynamic_tables s + PAGE_SIZE * n - KERNEL_VMA_OFFSET),
          Paging (mem s) (root s) (allocate_set s) (static_tables s)
            (num_static_tables_left s) (dynamic_tables s) n)
    else Fail (Panic "no more page tables!").

(** ** [page_tables::_iterator] *)

Record iterator := Iterator {
  tables : list Z;      (* table_ty *tables[4] *)
  indices : list Z;     (* unsigned indices[4] *)
  _level : Z            (* unsigned _level *)
}.

Definition lget (l : list Z) (i : Z) : Z := default 0 (zget l i).

Definition level (it : iterator) : Z := _level it + 1.
Definition table (it : iterator) : Z := lget (tables it) (_level it).
Definition index (it : iterator) : Z := lget (indices it) (_level it).

Definition iterator_begin (base : Z) : iterator := Iterator [0; 0; 0; base] [0; 0; 0; 0] 3.

(** The index of [addr] at a level, the loop body of the constructor. *)
Definition prefix (addr lvl : Z) : Z :=
  Z.land (Z.shiftr (Z.shiftr addr LOG2_PAGE_ALIGN) (LOG2_PAGE_TABLE_SIZE * (lvl - 1))) PREFIX_MASK.

Definition iterator_at (base addr : Z) : iterator :=
  Iterator [0; 0; 0; base] [prefix addr 1; prefix addr 2; prefix addr 3; prefix addr 4] 3.

Definition iterator_end (lvl : Z) : iterator :=
  Iterator [0; 0; 0; 0] (zset [0; 0; 0; 0] (lvl - 1) NUM_PAGE_TABLE_ENTRIES) (lvl - 1).

(** [operator*]: the entry the iterator refers to. *)
Definition entry_ref (it : iterator) : outcome Z :=
  _ ← assert_ (negb (table it =? 0)) "empty page table!";
  _ ← assert_ (index it <? NUM_PAGE_TABLE_ENTRIES) "index into page tables out of bounds!";
  Ok (entry_addr (table it) (index it)).

Definition it_load (s : paging) (it : iterator) : outcome Z :=
  a ← entry_ref it; Ok (load (mem s) a).

Definition it_store (s : paging) (it : iterator) (v : Z) : outcome paging :=
  a ← entry_ref it; Ok (with_mem s (<[a := v]> (mem s))).

Definition exists_ (it : iterator) : bool := negb (table it =? 0).

Definition present_bit (e : Z) : bool := negb (Z.land e PRESENT =? 0).

Definition present (s : paging) (it : iterator) : outcome bool :=
  e ← it_load s it; Ok (present_bit e).

Definition physical_page_address (s : paging) (it : iterator) : outcome Z :=
  _ ← assert_ (level it =? 1) "can't get physical addr of non level 1 page!";
  e ← it_load s it; Ok (Z.land e ADDRESS_MASK).

Definition virtual_page_address (it : iterator) : Z :=
  u64 (sign_extend
    (Z.lor (Z.lor (Z.lor (Z.shiftl (lget (indices it) 3) 39) (Z.shiftl (lget (indices it) 2) 30))
       (Z.shiftl (lget (indices it) 1) 21)) (Z.shiftl (lget (indices it) 0) 12)) 42).

(** [(entry & ~PREFIX_MASK) + KERNEL_VMA_OFFSET]: the table an entry points to. *)
Definition entry_table_phys (e : Z) : Z := Z.land e (wnot 64 PREFIX_MASK).
Definition kernel_ptr (phys : Z) : Z := u64 (phys + KERNEL_VMA_OFFSET).

Definition down_to (it : iterator) (t : Z) : iterator :=
  Iterator (zset (tables it) (_level it - 1) t) (indices it) (_level it - 1).

Definition descend (s : paging) (it : iterator) : outcome (bool * iterator) :=
  if (level it =? 1) || (NUM_PAGE_TABLE_ENTRIES <=? index it) || negb (exists_ it) then
    Ok (false, it)
  else
    p ← present s it;
    if negb p then Ok (false, it)
    else
      e ← it_load s it;
      Ok (true, down_to it (kernel_ptr (entry_table_phys e))).

Definition allocate_and_descend (s : paging) (it : iterator) : outcome (iterator * paging) :=
  _ ← assert_ (1 <? level it) "can't allocate and descend on level 1 page iterator!";
  _ ← assert_ (index it <? NUM_PAGE_TABLE_ENTRIES) "can't allocate on end iterator!";
  addr0 ← (if negb (table it =? 0) then e ← it_load s it; Ok (entry_table_phys e) else Ok 0);
  '(addr, s1) ←
    (if addr0 =? 0 then
       '(addr, s1) ← allocate_page_level s;
       s2 ← it_store s1 it (Z.lor (Z.lor addr RW) PRESENT);
       Ok (addr, s2)
     else Ok (addr0, s));
  _ ← assert_ (addr `mod` PAGE_SIZE =? 0) "address isn't page-aligned?";
  Ok (down_to it (kernel_ptr addr), s1).

Definition ascend (it : iterator) : outcome iterator :=
  _ ← assert_ (level it <? 4) "can't ascend from level 4 page iterator";
  Ok (Iterator (tables it) (zset (indices it) (_level it) 0) (_level it + 1)).

Definition advance (it : iterator) (n : Z) : outcome iterator :=
  _ ← assert_ (index it + n <=? NUM_PAGE_TABLE_ENTRIES) "advanced out of bounds!";
  Ok (Iterator (tables it) (zset (indices it) (_level it) (index it + n)) (_level it)).

Definition iterator_eqb (lhs rhs : iterator) : bool :=
  (_level lhs =? _level rhs) &&
  (lget (indices lhs) (_level lhs) =? lget (indices rhs) (_level lhs)).

(** ** [page_tables] *)

(** [while (cursor.descend());] descends three times at most. *)
Fixpoint descend_all (fuel : nat) (s : paging) (it : iterator) : outcome iterator :=
  match fuel with
  | O => Fail Diverges
  | S f =>
      '(moved, it') ← descend s it;
      if (moved : bool) then descend_all f s it' else Ok it'
  end.

Definition find (s : paging) (page : Z) : outcome iterator :=
  cursor ← descend_all 4 s (iterator_at (root s) page);
  if negb (level cursor =? 1) then Ok (iterator_end 4) else Ok cursor.

Definition get (s : paging) (page : Z) : outcome (iterator * paging) :=
  _ ← assert_ (allocate_set s) "tried to allocate before table allocator was initialized!";
  '(c1, s1) ← allocate_and_descend s (iterator_at (root s) page);
  '(c2, s2) ← allocate_and_descend s1 c1;
  '(c3, s3) ← allocate_and_descend s2 c2;
  _ ← assert_ (level c3 =? 1) "didn't find a level 1 page?";
  Ok (c3, s3).

Definition map_page_at (s : paging) (physical_page : Z) (it : iterator) (attrs : Z)
    : outcome (Z * paging) :=
  let virtual_page := virtual_page_address it in
  _ ← assert_ (virtual_page `mod` PAGE_SIZE =? 0) "virtual address must be page-aligned!";
  _ ← assert_ (physical_page `mod` PAGE_SIZE =? 0) "physical address must be page-aligned!";
  _ ← assert_ (level it =? 1) "iterator must point to a page table entry!";
  _ ← assert_ (negb (iterator_eqb it (iterator_end 4)) && exists_ it) "lookup/allocation failed?";
  p ← present s it;
  if (p : bool) then Fail (Panic "Tried to map already-present page!")
  else
    s' ← it_store s it (Z.lor (Z.lor physical_page attrs) PRESENT);
    Ok (virtual_page, s').

Definition map_page (s : paging) (physical_page virtual_page attrs : Z) : outcome (Z * paging) :=
  _ ← assert_ (virtual_page `mod` PAGE_SIZE =? 0) "virtual address must be page-aligned!";
  '(it, s1) ← get s virtual_page;
  map_page_at s1 physical_page it attrs.

(** [while (++it == end(it.level())) it.ascend();] *)
Fixpoint step_up (fuel : nat) (it : iterator) : outcome iterator :=
  match fuel with
  | O => Fail Diverges
  | S f =>
      it1 ← advance it 1;
      if iterator_eqb it1 (iterator_end (level it1)) then it2 ← ascend it1; step_up f it2
      else Ok it1
  end.

(** [while (it.level() != 1) it.allocate_and_descend(allocate);] *)
Fixpoint step_down (fuel : nat) (s : paging) (it : iterator) : outcome (iterator * paging) :=
  if level it =? 1 then Ok (it, s)
  else
    match fuel with
    | O => Fail Diverges
    | S f => '(it', s') ← allocate_and_descend s it; step_down f s' it'
    end.

Fixpoint map_range_loop (fuel : nat) (s : paging) (it : iterator)
    (p v physical_end attrs : Z) : outcome paging :=
  if p <? physical_end then
    match fuel with
    | O => Fail Diverges
    | S f =>
        _ ← assert_ (virtual_page_address it =? v) "iterator and virtual address out of sync!";
        '(_, s1) ← map_page_at s p it attrs;
        it1 ← step_up 4 it;
        '(it2, s2) ← step_down 3 s1 it1;
        map_range_loop f s2 it2 (u64 (p + PAGE_SIZE)) (u64 (v + PAGE_SIZE)) physical_end attrs
    end
  else Ok s.

Definition map_range (s : paging) (physical_start physical_end virtual_start virtual_end attrs : Z)
    : outcome (Z * paging) :=
  _ ← assert_ ((virtual_start `mod` PAGE_SIZE =? 0) && (virtual_end `mod` PAGE_SIZE =? 0))
        "virtual addresses must be page-aligned!";
  _ ← assert_ ((physical_start `mod` PAGE_SIZE =? 0) && (physical_end `mod` PAGE_SIZE =? 0))
        "physical addresses must be page-aligned!";
  _ ← assert_ (u64 (physical_end - physical_start) =? u64 (virtual_end - virtual_start))
        "physical and virtual address range sizes must match!";
  '(it, s1) ← get s virtual_start;
  s2 ← map_range_loop (Z.to_nat ((physical_end - physical_start) / PAGE_SIZE)) s1 it
         physical_start virtual_start physical_end attrs;
  Ok (virtual_start, s2).

Definition map_range_size (s : paging) (physical_start virtual_start size attrs : Z)
    : outcome (Z * paging) :=
  size' ← align_to size PAGE_SIZE;
  map_range s physical_start (u64 (physical_start + size')) virtual_start
    (u64 (virtual_start + size')) attrs.

Definition unmap_page (s : paging) (virtual_page : Z) : outcome paging :=
  _ ← assert_ (virtual_page `mod` PAGE_SIZE =? 0) "virtual address should be page-aligned!";
  entry ← find s virtual_page;
  if iterator_eqb entry (iterator_end 4) || negb (exists_ entry) then
    Fail (Panic "Tried to unmap non-present page")
  else
    p ← present s entry;
    if negb p then Fail (Panic "Tried to unmap non-present page")
    else
      e ← it_load s entry;
      it_store s entry (Z.land e (wnot 64 PRESENT)).

Fixpoint unmap_range_loop (fuel : nat) (s : paging) (p virtual_end : Z) : outcome paging :=
  if p =? virtual_end then Ok s
  else
    match fuel with
    | O => Fail Diverges
    | S f => s' ← unmap_page s p; unmap_range_loop f s' (u64 (p + PAGE_SIZE)) virtual_end
    end.

Definition unmap_range (s : paging) (virtual_start virtual_end : Z) : outcome paging :=
  _ ← assert_ (virtual_start `mod` PAGE_SIZE =? 0) "virtual start address should be page-aligned!";
  _ ← assert_ (virtual_end `mod` PAGE_SIZE =? 0) "virtual end address should be page-aligned!";
  unmap_range_loop (Z.to_nat (u64 (virtual_end - virtual_start) / PAGE_SIZE))
    s virtual_start virtual_end.

Definition DEFAULT_ATTRS : Z := Z.lor RW XD.

Definition identity_map_page_range_into_kernel_space (s : paging) (address size attrs : Z)
    : outcome (Z * paging) :=
  map_range_size s address (kernel_ptr address) size attrs.

Definition identity_map_pages_into_kernel_space (s : paging) (starting_address n attrs : Z)
    : outcome (Z * paging) :=
  _ ← assert_ (0 <? n) "trying to map 0 pages?";
  identity_map_page_range_into_kernel_space s starting_address (u64 (n * PAGE_SIZE)) attrs.

Definition identity_map_page_into_kernel_space (s : paging) (address attrs : Z)
    : outcome (Z * paging) :=
  identity_map_pages_into_kernel_space s address 1 attrs.

(** [(uintptr_t)virtual_addr & -PAGE_SIZE] *)
Definition page_of (virtual_addr : Z) : Z := Z.land virtual_addr (u64 (- PAGE_SIZE)).

Definition get_physical_address (s : paging) (virtual_addr : Z) : outcome Z :=
  let page_addr := page_of virtual_addr in
  let offset_in_page := virtual_addr - page_addr in
  entry ← find s page_addr;
  _ ← assert_ (negb (iterator_eqb entry (iterator_end 4))) "couldn't find an entry for address!";
  p ← present s entry;
  _ ← assert_ p "entry not found!";
  phys ← physical_page_address s entry;
  Ok (u64 (phys + offset_in_page)).

(** ** [paging::early_init] *)

(** Link-time addresses of the static tables. *)
Record layout := Layout {
  kernel_pml4 : Z; kernel_pml3 : Z; kernel_pml2 : Z; kernel_pml1 : Z;
  identity_pml3 : Z; identity_pml2 : Z; identity_pml1 : Z;
  static_tables_addr : Z
}.

Definition table_entry (t : Z) : Z := Z.lor (Z.lor (u64 (t - KERNEL_VMA_OFFSET)) RW) PRESENT.

(** [for (unsigned i = lo; ...) t[i] = (i * PAGE_SIZE) | XD | PRESENT;] *)
Fixpoint fill_identity (m : gmap Z Z) (t i : Z) (n : nat) : gmap Z Z :=
  match n with
  | O => m
  | S n' =>
      fill_identity (<[entry_addr t i := Z.lor (Z.lor (i * PAGE_SIZE) XD) PRESENT]> m)
        t (i + 1) n'
  end.

Definition early_init (L : layout) : paging :=
  let m : gmap Z Z := ∅ in
  let m := <[entry_addr (kernel_pml4 L) 0x1FF := table_entry (kernel_pml3 L)]> m in
  let m := <[entry_addr (kernel_pml3 L) 0x1FE := table_entry (kernel_pml2 L)]> m in
  let m := <[entry_addr (kernel_pml2 L) 0 := table_entry (kernel_pml1 L)]> m in
  let m := fill_identity m (kernel_pml1 L) 0x100 0x100 in
  let m := <[entry_addr (kernel_pml4 L) 0 := table_entry (identity_pml3 L)]> m in
  let m := <[entry_addr (identity_pml3 L) 0 := table_entry (identity_pml2 L)]> m in
  let m := <[entry_addr (identity_pml2 L) 0 := table_entry (identity_pml1 L)]> m in
  let m := <[entry_addr (identity_pml1 L) 0 := NONE]> m in
  let m := fill_identity m (identity_pml1 L) 1 0x1FF in
  Paging m (kernel_pml4 L) true (static_tables_addr L) MAX_STATIC_TABLES 0 0.

(** ** [paging::enable_kernel_page_protection] *)

(** Linker symbols of kernel.ld. *)
Record segments := Segments {
  text_start : Z; text_end : Z; rodata_start : Z; rodata_end : Z;
  data_start : Z; data_end : Z; bss_start : Z; bss_end : Z
}.

(** The body of one of the loops [for (char *c = start; c != end; c += PAGE_SIZE)]:
    look the page up, assert what that loop asserts, rewrite the entry with [f]. *)
Definition protect_page (s : paging) (c : Z) (check_exists check_present : bool)
    (not_mapped not_present : string) (f : Z -> Z) : outcome paging :=
  entry ← find s c;
  _ ← assert_ (negb (iterator_eqb entry (iterator_end 4)) &&
               (negb check_exists || exists_ entry)) not_mapped;
  p ← (if check_present then present s entry else Ok true);
  _ ← assert_ p not_present;
  e ← it_load s entry;
  it_store s entry (f e).

Fixpoint protect_range (fuel : nat) (s : paging) (c end_ : Z) (check_exists check_present : bool)
    (not_mapped not_present : string) (f : Z -> Z) : outcome paging :=
  if c =? end_ then Ok s
  else
    match fuel with
    | O => Fail Diverges
    | S n =>
        s' ← protect_page s c check_exists check_present not_mapped not_present f;
        protect_range n s' (u64 (c + PAGE_SIZE)) end_ check_exists check_present
          not_mapped not_present f
    end.

Definition protect_segment (s : paging) (start end_ : Z) (check_exists check_present : bool)
    (not_mapped not_present : string) (f : Z -> Z) : outcome paging :=
  protect_range (Z.to_nat (u64 (end_ - start) / PAGE_SIZE)) s start end_
    check_exists check_present not_mapped not_present f.

Definition KERNEL_STACK_SIZE : Z := 0x10 * PAGE_SIZE.

(** The report printed at the end translates the bounds of each segment, and
    [get_physical_address] asserts that they are mapped. *)
Fixpoint translate_all (s : paging) (addrs : list Z) : outcome (list Z) :=
  match addrs with
  | [] => Ok []
  | a :: addrs' =>
      p ← get_physical_address s a;
      ps ← translate_all s addrs';
      Ok (p :: ps)
  end.

(** What the first statements work on: the model-specific register [EFER], the
    control register [cr0] and the bytes of low memory, which the boot loader maps
    where they are and without write protection. *)
Record processor := Processor { efer : Z; cr0 : Z; low_bytes : gmap Z Z }.

(** [or] of the eight bytes of [v] into memory at [a]. *)
Fixpoint or_bytes (n : nat) (m : gmap Z Z) (a v : Z) : gmap Z Z :=
  match n with
  | O => m
  | S n' => or_bytes n' (alter (fun b => Z.lor b (u8 v)) a m) (a + 1) (Z.shiftr v 8)
  end.

(** [efer | (1 << 11)], and the inline assembly behind it.  Its operand [%c1] is the
    bare constant [1 << 16], which in AT&T syntax is no immediate but an address:
    [or %0, %c1] changes the quadword there and leaves [%0], and so [cr0], alone. *)
Definition set_protection_bits (k : processor) : processor :=
  let tmp := cr0 k in
  Processor (Z.lor (efer k) (Z.shiftl 1 11)) tmp (or_bytes 8 (low_bytes k) (Z.shiftl 1 16) tmp).

(** The rest of the function on the page tables; the final load of [cr3] acts on the
    TLB.  The segment bounds are page aligned (kernel.ld), so the number of pages
    between them is enough fuel for each loop. *)
Definition protect_kernel_pages (s : paging) (g : segments) (kernel_stack_base : Z)
    : outcome paging :=
  s ← protect_segment s (text_start g) (text_end g) true true
        "no text page mapped?" "text page not present?"
        (fun e => Z.land e (wnot 64 (Z.lor XD RW)));
  s ← protect_segment s (rodata_start g) (rodata_end g) true true
        "no rodata page mapped?" "rodata page not present?"
        (fun e => Z.land (Z.lor e XD) (wnot 64 RW));
  s ← protect_segment s (data_start g) (data_end g) true true
        "no data page mapped?" "data page not present?"
        (fun e => Z.lor e (Z.lor XD RW));
  s ← protect_segment s (bss_start g) (bss_end g) false true
        "no bss page mapped?" "bss page not present?"
        (fun e => Z.lor e (Z.lor XD RW));
  let kernel_stack_top := u64 (kernel_stack_base - KERNEL_STACK_SIZE) in
  _ ← assert_ (bss_end g <? kernel_stack_top) "bss and stack overlap!";
  s ← protect_segment s kernel_stack_top kernel_stack_base true false
        "no stack page mapped?" "stack page"
        (fun e => Z.lor e (Z.lor (Z.lor XD RW) PRESENT));
  s ← protect_page s (u64 (kernel_stack_base - KERNEL_STACK_SIZE - PAGE_SIZE)) true true
        "no stack page mapped?" "stack page not present?"
        (fun e => Z.land e (wnot 64 PRESENT));
  _ ← translate_all s [text_start g; text_end g; rodata_start g; rodata_end g;
                        data_start g; data_end g; bss_start g; bss_end g];
  Ok s.

Definition enable_kernel_page_protection (k : processor) (s : paging) (g : segments) (kernel_stack_base : Z)
    : outcome (processor * paging) :=
  let k := set_protection_bits k in
  s ← protect_kernel_pages s g kernel_stack_base;
  Ok (k, s).

Lemma or_bytes_lookup n m a v x :
  or_bytes n m a v !! x =
    if decide (a <= x < a + Z.of_nat n) then (fun b => Z.lor b (u8 (Z.shiftr v (8 * (x - a))))) <$> m !! x else m !! x.
Proof.
  revert m a v. induction n as [|n IH]; intros m a v; cbn [or_bytes]; [by rewrite decide_False by lia|].
  rewrite IH. destruct (Z.eq_dec x a) as [->|Hx].
  - rewrite decide_False, decide_True by lia. by rewrite lookup_alter_eq, Z.sub_diag.
  - rewrite lookup_alter_ne by done. destruct (decide (a <= x < a + Z.of_nat (S n))).
    + rewrite decide_True, Z.shiftr_shiftr by lia. by replace (8 + 8 * (x - (a + 1))) with (8 * (x - a)) by lia.
    + by rewrite decide_False by lia.
Qed.

(** Execute protection is enabled and write protection is not; instead the eight
    bytes from 0x10000 on change. *)
Lemma set_protection_bits_spec k :
  Z.testbit (efer (set_protection_bits k)) 11 = true /\ cr0 (set_protection_bits k) = cr0 k /\
  forall x, low_bytes (set_protection_bits k) !! x =
    if decide (0x10000 <= x < 0x10008) then (fun b => Z.lor b (u8 (Z.shiftr (cr0 k) (8 * (x - 0x10000))))) <$> low_bytes k !! x
    else low_bytes k !! x.
Proof.
  split; [|split; [done|]].
  - cbn [efer set_protection_bits]. rewrite Z.lor_spec. change (Z.testbit (Z.shiftl 1 11) 11) with true. apply orb_true_r.
  - intros x. exact (or_bytes_lookup 8 (low_bytes k) 0x10000 (cr0 k) x).
Qed.
