(* ===== verification/PageTables.v ===== *)
(** * The page tables implement a map from virtual pages to entries

    [pte] is the abstract view: the level-1 entry a page walk reaches (0 when a
    level is missing).  Under the tree invariant [wf] (no table is shared, inner
    entries are empty or lead to a table, the pools hold zeroed tables nobody
    points to) every operation of [Paging.v] changes the entry of its own page
    and of no other. *)
From S2P Require Import Prelude Util Memory Paging.

#[local] Arguments Z.land : simpl never.
#[local] Arguments Z.lor : simpl never.
#[local] Arguments wrap : simpl never.

Definition idx (i : Z) : Prop := 0 <= i < NUM_PAGE_TABLE_ENTRIES.

Definition next_table (e : Z) : Z := kernel_ptr (entry_table_phys e).

(** The page walk from table [t] along a list of indices. *)
Fixpoint walk (m : gmap Z Z) (t : Z) (p : list Z) : option Z :=
  match p with
  | [] => Some t
  | i :: p' =>
      let e := load m (entry_addr t i) in
      if present_bit e then walk m (next_table e) p' else None
  end.

Definition path (va : Z) : list Z := [prefix va 4; prefix va 3; prefix va 2].

Definition pte (s : paging) (va : Z) : Z :=
  match walk (mem s) (root s) (path va) with
  | Some t => load (mem s) (entry_addr t (prefix va 1))
  | None => 0
  end.

(** The tables still available, in the order [allocate_page_level] hands them out. *)
Definition table_pool (t n : Z) : list Z := (fun k => t + PAGE_SIZE * k) <$> reverse (seqZ 0 n).
Definition pool (s : paging) : list Z :=
  table_pool (static_tables s) (num_static_tables_left s) ++
  (if dynamic_tables s =? 0 then []
   else table_pool (dynamic_tables s) (num_dynamic_tables_left s)).

Definition aligned_table (t : Z) : Prop := 0 < t < 2 ^ 64 /\ t `mod` PAGE_SIZE = 0.

Definition reach (s : paging) (p : list Z) (t : Z) : Prop :=
  walk (mem s) (root s) p = Some t /\ (length p <= 3)%nat /\ Forall idx p.

(** The tables of a state, in use or in the pool; [within s s'] when the step
    from [s] to [s'] brings in no other table. *)
Definition owned (s : paging) (t : Z) : Prop := (exists p, reach s p t) \/ t ∈ pool s.
Definition within (s s' : paging) : Prop := forall t, owned s' t -> owned s t.

#[export] Instance within_preorder : PreOrder within.
Proof. split; [by intros ??|]. intros x y z H1 H2 t Ht. by apply H1, H2. Qed.

Record wf (s : paging) : Prop := {
  wf_alloc : allocate_set s = true;
  wf_uniq : forall p q t, reach s p t -> reach s q t -> p = q;
  wf_table : forall p t, reach s p t -> aligned_table t;
  wf_inner : forall p t i, reach s p t -> (length p <= 2)%nat -> idx i ->
    let e := load (mem s) (entry_addr t i) in
    e = 0 \/ (present_bit e = true /\ entry_table_phys e <> 0 /\
              entry_table_phys e `mod` PAGE_SIZE = 0);
  wf_nodup : NoDup (pool s);
  wf_pool : forall t, t ∈ pool s ->
    aligned_table t /\ t <> 0xFFFFFFFF80000000 /\ (forall p, ~ reach s p t) /\
    (forall i, idx i -> load (mem s) (entry_addr t i) = 0)
}.

(** ** Arithmetic of entries and indices *)

Lemma entry_addr_inj t i t' i' :
  aligned_table t -> aligned_table t' -> idx i -> idx i' ->
  entry_addr t i = entry_addr t' i' -> t = t' /\ i = i'.
Proof.
  unfold aligned_table, idx, entry_addr, PAGE_SIZE, NUM_PAGE_TABLE_ENTRIES.
  intros [? Ht] [? Ht'] ? ? Heq. assert (t = t') by zdiv. lia.
Qed.

Lemma present_bit_testbit e : present_bit e = Z.testbit e 0.
Proof.
  unfold present_bit, PRESENT. rewrite land_pow2 by lia. by destruct (Z.testbit e 0).
Qed.

Lemma present_bit_0 : present_bit 0 = false.
Proof. done. Qed.

Lemma prefix_div va l :
  1 <= l -> prefix va l = (va / 2 ^ (12 + 9 * (l - 1))) `mod` 512.
Proof.
  intros Hl. unfold prefix. change PREFIX_MASK with (Z.ones 9).
  unfold LOG2_PAGE_ALIGN, LOG2_PAGE_TABLE_SIZE.
  rewrite Z.shiftr_shiftr, Z.shiftr_div_pow2, Z.land_ones by lia. done.
Qed.

Lemma prefix_idx va l : 1 <= l -> idx (prefix va l).
Proof. intros. rewrite prefix_div by done. by apply Z.mod_pos_bound. Qed.

Lemma path_idx va : Forall idx (path va).
Proof. repeat constructor; apply prefix_idx; lia. Qed.

(** Two addresses share all four indices when bits 12 to 47 agree. *)
Definition page48 (va : Z) : Z := (va / 2 ^ 12) `mod` 2 ^ 36.

Lemma path_page48 va va' :
  path va = path va' /\ prefix va 1 = prefix va' 1 <-> page48 va = page48 va'.
Proof.
  unfold path, page48. rewrite !prefix_div by lia.
  change (2 ^ (12 + 9 * (4 - 1))) with (2 ^ 12 * 2 ^ 27).
  change (2 ^ (12 + 9 * (3 - 1))) with (2 ^ 12 * 2 ^ 18).
  change (2 ^ (12 + 9 * (2 - 1))) with (2 ^ 12 * 2 ^ 9).
  change (2 ^ (12 + 9 * (1 - 1))) with (2 ^ 12).
  rewrite <- !Z.div_div by lia.
  set (x := va / 2 ^ 12). set (y := va' / 2 ^ 12). clearbody x y.
  assert (forall z, z `mod` 2 ^ 36 =
    z `mod` 512 + 512 * ((z / 2 ^ 9) `mod` 512) + 2 ^ 18 * ((z / 2 ^ 18) `mod` 512)
    + 2 ^ 27 * ((z / 2 ^ 27) `mod` 512)) as Hd by (intros; zdiv).
  split.
  - intros [H1 H2]. injection H1 as H1 H3 H4. rewrite (Hd x), (Hd y). congruence.
  - intros H. rewrite (Hd x), (Hd y) in H.
    assert (forall z, 0 <= z `mod` 512 < 512) as Hb by (intros; apply Z.mod_pos_bound; lia).
    pose proof (Hb x). pose proof (Hb y).
    pose proof (Hb (x / 2 ^ 9)). pose proof (Hb (y / 2 ^ 9)).
    pose proof (Hb (x / 2 ^ 18)). pose proof (Hb (y / 2 ^ 18)).
    pose proof (Hb (x / 2 ^ 27)). pose proof (Hb (y / 2 ^ 27)).
    split; [|lia]. f_equal; [lia|]. f_equal; [lia|]. f_equal; lia.
Qed.

(** The virtual address an iterator reports: [va] read as a 42-bit number. *)
Lemma virtual_page_address_at ts lvl va :
  va `mod` PAGE_SIZE = 0 -> 0 <= va < 2 ^ 64 ->
  virtual_page_address
    (Iterator ts [prefix va 1; prefix va 2; prefix va 3; prefix va 4] lvl) = u64 (swrap 42 va).
Proof.
  intros Ha Hv. unfold virtual_page_address. rewrite sign_extend_swrap by lia.
  unfold lget, zget. simpl.
  pose proof (prefix_idx va 1 ltac:(lia)). pose proof (prefix_idx va 2 ltac:(lia)).
  pose proof (prefix_idx va 3 ltac:(lia)). pose proof (prefix_idx va 4 ltac:(lia)).
  unfold idx, NUM_PAGE_TABLE_ENTRIES in *.
  rewrite <- !Z.lor_assoc, (Z.shiftl_mul_pow2 (prefix va 1)) by lia.
  rewrite (lor_shiftl (prefix va 2)), (lor_shiftl (prefix va 3)),
    (lor_shiftl (prefix va 4)) by lia.
  rewrite !prefix_div by lia. unfold swrap. f_equal. f_equal.
  unfold PAGE_SIZE in *. simpl (12 + _). zdiv.
Qed.

(** ** Walks and writes *)

Lemma load_insert m a v a' : load (<[a := v]> m) a' = if decide (a = a') then v else load m a'.
Proof. unfold load. rewrite lookup_insert. by case_decide. Qed.

Lemma walk_app m t p q : walk m t (p ++ q) = walk m t p ≫= fun u => walk m u q.
Proof.
  revert t. induction p as [|i p IH]; intros t; simpl; [done|].
  destruct (present_bit _); [apply IH|done].
Qed.

Lemma reach_prefix s p q t : reach s (p ++ q) t -> exists u, reach s p u /\ walk (mem s) u q = Some t.
Proof.
  intros (Hw & Hl & Hf). rewrite walk_app in Hw. apply bind_Some in Hw as (u & Hu & Hq).
  rewrite length_app in Hl. apply Forall_app in Hf as [Hf _].
  exists u. split; [|done]. split_and!; [done|lia|done].
Qed.

Lemma reach_snoc s p t i :
  reach s p t -> (length p <= 2)%nat -> idx i ->
  present_bit (load (mem s) (entry_addr t i)) = true ->
  reach s (p ++ [i]) (next_table (load (mem s) (entry_addr t i))).
Proof.
  intros (Hw & Hl & Hf) Hl2 Hi Hp. split_and!.
  - rewrite walk_app, Hw. simpl. by rewrite Hp.
  - rewrite length_app. simpl. lia.
  - apply Forall_app. split; [done|]. by apply Forall_singleton.
Qed.

(** A write to entry [i] of the table at [p0] changes no walk that does not
    pass through that entry. *)
Lemma walk_write s p0 t i v q :
  wf s -> reach s p0 t -> idx i -> (length q <= 3)%nat -> Forall idx q ->
  ~ (p0 ++ [i]) `prefix_of` q ->
  walk (<[entry_addr t i := v]> (mem s)) (root s) q = walk (mem s) (root s) q.
Proof.
  intros Hw Hr Hi Hl Hq Hnp.
  enough (forall q r u, reach s r u -> (length (r ++ q) <= 3)%nat -> Forall idx q ->
    ~ (p0 ++ [i]) `prefix_of` r ++ q ->
    walk (<[entry_addr t i := v]> (mem s)) u q = walk (mem s) u q) as H.
  { apply (H q [] (root s)); [|done..]. split_and!; [done|simpl; lia|constructor]. }
  clear q Hl Hq Hnp. induction q as [|j q IH]; intros r u Hru Hl Hq Hnp; [done|].
  inversion Hq as [|? ? Hj Hq']; subst. rewrite length_app in Hl. simpl in Hl.
  assert (load (<[entry_addr t i := v]> (mem s)) (entry_addr u j)
          = load (mem s) (entry_addr u j)) as Heq.
  { rewrite load_insert. case_decide as Ha; [|done].
    destruct (entry_addr_inj t i u j) as [<- <-]; eauto using wf_table.
    assert (p0 = r) as -> by eauto using wf_uniq. exfalso. apply Hnp.
    exists q. by rewrite <- app_assoc. }
  simpl. rewrite Heq. destruct (present_bit _) eqn:Ep; [|done].
  apply (IH (r ++ [j])); [|rewrite !length_app; simpl; lia|done|by rewrite <- app_assoc].
  apply reach_snoc; [done|lia|done|done].
Qed.

Definition write (s : paging) (t i v : Z) : paging :=
  with_mem s (<[entry_addr t i := v]> (mem s)).

(** ** Writing a level-1 entry *)

Lemma prefix_length_contra (p0 : list Z) i q :
  length p0 = 3%nat -> (length q <= 3)%nat -> ~ (p0 ++ [i]) `prefix_of` q.
Proof. intros Hl Hq Hp. apply prefix_length in Hp. rewrite length_app in Hp. simpl in Hp. lia. Qed.

Lemma leaf_reach s p0 t i v q u :
  wf s -> reach s p0 t -> length p0 = 3%nat -> idx i ->
  reach (write s t i v) q u <-> reach s q u.
Proof.
  intros Hw Hr Hl Hi. unfold reach. simpl.
  split; intros (Hq & Hlq & Hf); (split_and!; [|done..]);
    rewrite ?(walk_write s p0) in *; eauto using prefix_length_contra.
Qed.

Lemma leaf_write_wf s p0 t i v :
  wf s -> reach s p0 t -> length p0 = 3%nat -> idx i -> wf (write s t i v).
Proof.
  intros Hw Hr Hl Hi. split.
  - apply Hw.
  - intros p q u. rewrite !(leaf_reach s p0) by done. by apply Hw.
  - intros p u. rewrite (leaf_reach s p0) by done. by apply Hw.
  - intros p u j. rewrite (leaf_reach s p0) by done. intros Hp Hl2 Hj. simpl.
    rewrite load_insert. case_decide as Ha; [|by eapply Hw].
    destruct (entry_addr_inj t i u j) as [<- <-]; eauto using wf_table.
    assert (p0 = p) as -> by eauto using wf_uniq. lia.
  - apply Hw.
  - intros u Hu. destruct (wf_pool s Hw u Hu) as (Ha & Hne & Hnr & Hz).
    split_and!; [done..| |].
    + intros p. rewrite (leaf_reach s p0) by done. auto.
    + intros j Hj. simpl. rewrite load_insert. case_decide as He; [|auto].
      destruct (entry_addr_inj t i u j) as [<- <-]; eauto using wf_table. by apply Hnr in Hr.
Qed.

Lemma leaf_within s p0 t i v :
  wf s -> reach s p0 t -> length p0 = 3%nat -> idx i -> within s (write s t i v).
Proof.
  intros Hw Hr Hl Hi u [[q Hq]|Hu]; [|by right]. left. exists q. by eapply leaf_reach.
Qed.

Lemma path_length va : length (path va) = 3%nat.
Proof. done. Qed.

Lemma leaf_write_pte s va t v va' :
  wf s -> reach s (path va) t ->
  pte (write s t (prefix va 1) v) va' = if decide (page48 va = page48 va') then v else pte s va'.
Proof.
  intros Hw Hr. unfold pte.
  change (mem (write ?s ?t ?i ?v)) with (<[entry_addr t i := v]> (mem s)).
  change (root (write ?s ?t ?i ?v)) with (root s).
  assert (idx (prefix va 1)) as Hi by (apply prefix_idx; lia).
  rewrite (walk_write s (path va)) by
    (eauto using path_idx, prefix_length_contra || (rewrite path_length; lia)).
  destruct (walk (mem s) (root s) (path va')) as [u|] eqn:Eu.
  - assert (reach s (path va') u) as Hru by (split_and!; [done|simpl; lia|apply path_idx]).
    rewrite load_insert. case_decide as Ha; case_decide as Hp; try done.
    + destruct (entry_addr_inj t (prefix va 1) u (prefix va' 1)) as [<- Hpre];
        eauto using wf_table, prefix_idx with lia.
      exfalso. apply Hp, path_page48. split; [|done]. exact (wf_uniq s Hw _ _ _ Hr Hru).
    + apply path_page48 in Hp as [Hp1 Hp2]. rewrite <- Hp1 in Hru.
      destruct Hr as [Hr _], Hru as [Hru _]. exfalso. apply Ha. congruence.
  - case_decide as Hp; [|done]. apply path_page48 in Hp as [Hp1 _].
    destruct Hr as [Hr _]. congruence.
Qed.

(** ** Allocating a table for an inner entry *)

(** Dropping the head of the pool, as [allocate_page_level] does. *)
Lemma table_pool_cons t n : 0 < n -> table_pool t n = (t + PAGE_SIZE * (n - 1)) :: table_pool t (n - 1).
Proof.
  intros Hn. unfold table_pool.
  replace n with ((n - 1) + 1) at 1 by lia.
  rewrite seqZ_app by lia. rewrite reverse_app, fmap_app. done.
Qed.

Lemma table_pool_nonpos t n : n <= 0 -> table_pool t n = [].
Proof. intros Hn. unfold table_pool. by rewrite seqZ_nil. Qed.

(** The allocator pops the pool or stops the machine when it is empty. *)
Lemma allocate_page_level_spec s :
  match allocate_page_level s with
  | Ok (addr, s') => exists t, pool s = t :: pool s' /\ addr = u64 (t - KERNEL_VMA_OFFSET) /\
      mem s' = mem s /\ root s' = root s /\ allocate_set s' = allocate_set s
  | Fail _ => pool s = []
  end.
Proof.
  unfold allocate_page_level, pool. destruct (0 <? _) eqn:E; bool_to_prop.
  - eexists. simpl. rewrite (table_pool_cons _ (num_static_tables_left s)) by done.
    split_and!; done.
  - rewrite (table_pool_nonpos _ (num_static_tables_left s)) by lia. simpl.
    destruct (dynamic_tables s =? 0) eqn:Ed; simpl; [done|].
    destruct (0 <? num_dynamic_tables_left s) eqn:En; bool_to_prop.
    + eexists. simpl. rewrite (table_pool_nonpos _ (num_static_tables_left s)) by lia. simpl.
      destruct (dynamic_tables s =? 0) eqn:Ed'; bool_to_prop; [lia|].
      rewrite (table_pool_cons _ (num_dynamic_tables_left s)) by done. split_and!; done.
    + by rewrite table_pool_nonpos by lia.
Qed.

Lemma pool_table_entry t :
  aligned_table t -> t <> 0xFFFFFFFF80000000 ->
  let addr := u64 (t - KERNEL_VMA_OFFSET) in
  let e := Z.lor (Z.lor addr RW) PRESENT in
  addr <> 0 /\ addr `mod` PAGE_SIZE = 0 /\ kernel_ptr addr = t /\
  present_bit e = true /\ entry_table_phys e = addr.
Proof.
  intros [Ht Ha] Hne addr e. unfold PAGE_SIZE in *.
  assert (KERNEL_VMA_OFFSET = - 2 ^ 31) as Hoff by done.
  assert (addr = if t <? 2 ^ 64 - 2 ^ 31 then t + 2 ^ 31 else t - (2 ^ 64 - 2 ^ 31)) as Haddr.
  { unfold addr, wrap. rewrite Hoff. case_if; zdiv. }
  assert (0 <= addr < 2 ^ 64) as Hr by (apply wrap_range; lia).
  assert (addr `mod` 0x1000 = 0) as Hm by (rewrite Haddr; case_if; zdiv).
  split_and!.
  - rewrite Haddr. case_if; lia.
  - done.
  - unfold kernel_ptr, addr. rewrite wrap_add_l. rewrite wrap_small; lia.
  - rewrite present_bit_testbit. unfold e. rewrite Z.lor_spec. apply orb_true_r.
  - unfold entry_table_phys, e. apply Z.bits_inj'. intros i Hi.
    change RW with (2 ^ 1). change PRESENT with (2 ^ 0).
    rewrite !Z.land_spec, !Z.lor_spec, !pow2_testbit, wnot_testbit by lia.
    change PREFIX_MASK with (Z.ones 9).
    assert (i < 12 -> Z.testbit addr i = false) as Hlow.
    { intros. change 0x1000 with (2 ^ 12) in Hm. rewrite <- Z.land_ones in Hm by lia.
      assert (Z.testbit (Z.land addr (Z.ones 12)) i = false) as Hb
        by (rewrite Hm; apply Z.testbit_0_l).
      rewrite Z.land_spec, Z.ones_spec_low in Hb by lia. by rewrite andb_true_r in Hb. }
    destruct (Z.lt_ge_cases i 9).
    + rewrite Z.ones_spec_low, Hlow by lia. simpl. btauto.
    + rewrite Z.ones_spec_high by lia.
      destruct (i =? 1) eqn:E1, (i =? 0) eqn:E0, (i <? 64) eqn:E6; bool_to_prop; try lia; try btauto.
      rewrite (testbit_high 64 addr) by lia. done.
Qed.

Section grow.
Context (s s1 : paging) (p0 : list Z) (t i tn : Z).
Context (HSw : wf s) (HSr : reach s p0 t) (HSl : (length p0 <= 2)%nat) (HSi : idx i).
Context (HSz : load (mem s) (entry_addr t i) = 0) (HSp : pool s = tn :: pool s1).
Context (HSm : mem s1 = mem s) (HSroot : root s1 = root s) (HSa : allocate_set s1 = allocate_set s).

#[local] Definition new_entry : Z := Z.lor (Z.lor (u64 (tn - KERNEL_VMA_OFFSET)) RW) PRESENT.
#[local] Definition grown : paging := write s1 t i new_entry.

Lemma new_table_pool : aligned_table tn /\ tn <> 0xFFFFFFFF80000000 /\
  (forall p, ~ reach s p tn) /\ (forall j, idx j -> load (mem s) (entry_addr tn j) = 0).
Proof. apply (wf_pool s HSw). rewrite HSp. constructor. Qed.

Lemma new_table_ne : tn <> t.
Proof.
  intros Heq. destruct new_table_pool as (_ & _ & Hnr & _). apply (Hnr p0). by rewrite Heq.
Qed.

Lemma grown_load u j :
  aligned_table u -> idx j ->
  load (mem grown) (entry_addr u j) =
    if decide (u = t /\ j = i) then new_entry else load (mem s) (entry_addr u j).
Proof.
  intros Hu Hj. unfold grown. simpl. rewrite load_insert, HSm.
  case_decide as He; case_decide as Hd; try done.
  - apply entry_addr_inj in He as [-> ->]; eauto using wf_table. exfalso. auto.
  - destruct Hd as [-> ->]. done.
Qed.

Lemma grown_walk_other q :
  (length q <= 3)%nat -> Forall idx q -> ~ (p0 ++ [i]) `prefix_of` q ->
  walk (mem grown) (root s) q = walk (mem s) (root s) q.
Proof. intros. unfold grown. simpl. rewrite HSm. by apply (walk_write s p0). Qed.

Lemma grown_walk_base : walk (mem grown) (root s) p0 = Some t.
Proof.
  rewrite grown_walk_other; [apply HSr..|].
  intros Hpre%prefix_length. rewrite length_app in Hpre. simpl in Hpre. lia.
Qed.

Lemma grown_walk_through r :
  (length (p0 ++ i :: r) <= 3)%nat -> Forall idx r ->
  walk (mem grown) (root s) (p0 ++ i :: r) = if r then Some tn else None.
Proof.
  intros Hlr Hf. destruct new_table_pool as (Htn & Htn' & _ & Htz).
  destruct (pool_table_entry tn Htn Htn') as (_ & _ & Hk & Hpb & Hep).
  fold new_entry in Hpb, Hep.
  rewrite walk_app, grown_walk_base. cbn [mbind option_bind walk].
  assert (aligned_table t) by eauto using wf_table.
  rewrite grown_load by done. case_decide; [|naive_solver]. rewrite Hpb.
  unfold next_table. rewrite Hep, Hk. destruct r as [|j r]; [done|]. simpl.
  inversion Hf; subst. rewrite grown_load by done.
  case_decide as Hd; [destruct Hd as [Hd _]; by apply new_table_ne in Hd|].
  by rewrite Htz.
Qed.

Lemma old_walk_through r : walk (mem s) (root s) (p0 ++ i :: r) = None.
Proof. rewrite walk_app. destruct HSr as [-> _]. simpl. by rewrite HSz. Qed.

Lemma grown_reach q u :
  reach grown q u <-> reach s q u \/ (q = p0 ++ [i] /\ u = tn).
Proof.
  unfold reach. change (root grown) with (root s1). rewrite HSroot. split.
  - intros (Hq & Hlq & Hf). destruct (decide ((p0 ++ [i]) `prefix_of` q)) as [[r ->]|Hnp].
    + rewrite <- app_assoc in *. simpl in *. apply Forall_app in Hf as [_ Hf].
      inversion Hf; subst. rewrite grown_walk_through in Hq by done.
      destruct r; [|done]. right. naive_solver.
    + left. rewrite grown_walk_other in Hq by done. done.
  - intros [(Hq & Hlq & Hf)|[-> ->]].
    + split_and!; [|done..]. rewrite grown_walk_other; [done..|].
      intros [r ->]. rewrite <- app_assoc in Hq. simpl in Hq. by rewrite old_walk_through in Hq.
    + assert (length (p0 ++ [i]) <= 3)%nat by (rewrite length_app; simpl; lia).
      split_and!; [|done|apply Forall_app; split; [apply HSr|by apply Forall_singleton]].
      by rewrite grown_walk_through.
Qed.

Lemma grown_wf : wf grown.
Proof.
  destruct new_table_pool as (Htn & Htn' & Hnr & Htz).
  destruct (pool_table_entry tn Htn Htn') as (Hne & Hmod & _ & Hpb & Hep).
  fold new_entry in Hpb, Hep.
  pose proof (wf_nodup s HSw) as Hnd. rewrite HSp in Hnd. apply NoDup_cons in Hnd as [Hni Hnd].
  split.
  - simpl. rewrite HSa. apply HSw.
  - intros p q u. rewrite !grown_reach.
    intros [?|[-> ->]] [?|[-> ?]]; subst; eauto using wf_uniq; exfalso; naive_solver.
  - intros p u. rewrite grown_reach. intros [?|[-> ->]]; eauto using wf_table.
  - intros p u j. rewrite grown_reach. intros [Hpu|[-> ->]] Hl2 Hj.
    + rewrite grown_load by eauto using wf_table. case_decide.
      * right. by rewrite Hep.
      * by eapply wf_inner.
    + rewrite grown_load by done.
      case_decide as Hd; [destruct Hd as [Hd _]; by apply new_table_ne in Hd|].
      left. by apply Htz.
  - apply Hnd.
  - intros u Hu. change (pool grown) with (pool s1) in Hu.
    destruct (wf_pool s HSw u) as (Hua & Hune & Hunr & Huz); [rewrite HSp; by constructor|].
    split_and!; [apply Hua..|done| |].
    + intros p. rewrite grown_reach. intros [?|[-> ->]]; [by eapply Hunr|done].
    + intros j Hj. rewrite grown_load by done. case_decide as Hd; [|by apply Huz].
      destruct Hd as [-> _]. by apply Hunr in HSr.
Qed.

Lemma grown_within : within s grown.
Proof.
  intros u [[p Hp]|Hu].
  - apply grown_reach in Hp as [?|[_ ->]]; [left; by exists p|]. right. rewrite HSp. by constructor.
  - right. rewrite HSp. by constructor.
Qed.

Lemma grown_pte va : pte grown va = pte s va.
Proof.
  unfold pte. change (root grown) with (root s1). rewrite HSroot.
  destruct new_table_pool as (Htn & _ & _ & Htz).
  pose proof (path_idx va) as Hpi. pose proof (prefix_idx va 1 ltac:(lia)) as Hp1.
  destruct (decide ((p0 ++ [i]) `prefix_of` path va)) as [[r Hpr]|Hnp].
  - pose proof (path_length va) as Hpl. rewrite Hpr in *. rewrite <- app_assoc in *. simpl in *.
    apply Forall_app in Hpi as [_ Hpi]. inversion Hpi; subst.
    rewrite grown_walk_through, old_walk_through by (done || lia). destruct r; [|done].
    rewrite grown_load by done.
    case_decide as Hd; [destruct Hd as [Hd _]; by apply new_table_ne in Hd|]. by apply Htz.
  - rewrite grown_walk_other by done. destruct (walk _ _ (path va)) as [u|] eqn:Eu; [|done].
    assert (reach s (path va) u) as Hru by (split_and!; [done..|apply path_idx]).
    rewrite grown_load by eauto using wf_table. case_decide as Hd; [|done].
    destruct Hd as [-> ->].
    assert (path va = p0) as <- by (eapply (wf_uniq s HSw); eauto). rewrite path_length in HSl. lia.
Qed.
End grow.

(** ** Cursors: the iterator after [k] descents towards [va] *)

Record cursor (s : paging) (va : Z) (k : nat) (it : iterator) : Prop := {
  cursor_level : _level it = 3 - Z.of_nat k;
  cursor_indices : indices it = [prefix va 1; prefix va 2; prefix va 3; prefix va 4];
  cursor_tables : length (tables it) = 4%nat;
  cursor_reaches : forall j, (j <= k)%nat ->
    reach s (take j (path va)) (lget (tables it) (3 - Z.of_nat j))
}.

Lemma cursor_reach s va k it : cursor s va k it -> reach s (take k (path va)) (table it).
Proof. intros [Hl _ _ Hr]. unfold table. rewrite Hl. by apply Hr. Qed.

Lemma cursor_index s va k it :
  (k <= 3)%nat -> cursor s va k it -> index it = prefix va (4 - Z.of_nat k).
Proof.
  intros Hk [Hl Hi _ _]. unfold index. rewrite Hl, Hi.
  destruct k as [|[|[|[|]]]]; [done..|lia].
Qed.

Lemma cursor_idx s va k it : (k <= 3)%nat -> cursor s va k it -> idx (index it).
Proof. intros Hk Hc. erewrite cursor_index by done. apply prefix_idx. lia. Qed.

Lemma cursor_table s va k it : wf s -> cursor s va k it -> aligned_table (table it).
Proof. intros Hw Hc. eapply wf_table; [done|by apply cursor_reach with (va := va)]. Qed.

Lemma cursor_begin s va : wf s -> cursor s va 0 (iterator_at (root s) va).
Proof.
  intros Hw. split; [done..|]. intros j Hj. replace j with 0%nat by lia.
  split_and!; [done|simpl; lia|constructor].
Qed.

Lemma path_take_snoc va k :
  (k <= 2)%nat -> take (S k) (path va) = take k (path va) ++ [prefix va (4 - Z.of_nat k)].
Proof. intros Hk. destruct k as [|[|[|]]]; [done..|lia]. Qed.

Lemma path_take_length va k : (k <= 3)%nat -> length (take k (path va)) = k.
Proof. intros. rewrite length_take, path_length. lia. Qed.

(** The iterator's dereference never trips its assertions on a cursor. *)
Lemma cursor_entry_ref s va k it :
  wf s -> (k <= 3)%nat -> cursor s va k it -> entry_ref it = Ok (entry_addr (table it) (index it)).
Proof.
  intros Hw Hk Hc. unfold entry_ref.
  destruct (cursor_table _ _ _ _ Hw Hc) as [Ht _]. destruct (cursor_idx _ _ _ _ Hk Hc) as [_ Hi].
  assert ((table it =? 0) = false) as -> by (apply Z.eqb_neq; lia).
  apply Z.ltb_lt in Hi. by rewrite Hi.
Qed.

Lemma cursor_load s va k it :
  wf s -> (k <= 3)%nat -> cursor s va k it ->
  it_load s it = Ok (load (mem s) (entry_addr (table it) (index it))).
Proof. intros. unfold it_load. by erewrite cursor_entry_ref. Qed.

Lemma cursor_down s s' va k it t :
  (k <= 2)%nat -> cursor s va k it -> (forall q u, reach s q u -> reach s' q u) ->
  reach s' (take (S k) (path va)) t -> cursor s' va (S k) (down_to it t).
Proof.
  intros Hk [Hl Hi Ht Hrs] Hmono Hr. split; simpl.
  - lia.
  - done.
  - unfold zset. case_if; [done|]. by rewrite length_insert.
  - intros j Hj. unfold lget. rewrite Hl. destruct (decide (j = S k)) as [->|Hne].
    + replace (3 - Z.of_nat k - 1) with (3 - Z.of_nat (S k)) by lia.
      rewrite zget_zset_eq; [done|]. unfold zlen. lia.
    + rewrite zget_zset_ne by lia. apply Hmono, Hrs. lia.
Qed.

Definition same_entries (s s' : paging) : Prop := forall va, pte s' va = pte s va.

Lemma allocate_and_descend_spec s va k it :
  wf s -> (k <= 2)%nat -> cursor s va k it ->
  match allocate_and_descend s it with
  | Ok (it', s') => wf s' /\ cursor s' va (S k) it' /\ same_entries s s' /\ root s' = root s /\
      within s s' /\ exists l, pool s = l ++ pool s' /\ (length l <= 1)%nat
  | Fail _ => pool s = []
  end.
Proof.
  intros Hw Hk Hc. pose proof (cursor_table _ _ _ _ Hw Hc) as [Ht Hta].
  pose proof (cursor_idx s va k it ltac:(lia) Hc) as Hi.
  pose proof (cursor_load s va k it Hw ltac:(lia) Hc) as Hload.
  pose proof (path_take_length va k ltac:(lia)) as Hlen.
  unfold allocate_and_descend.
  assert ((1 <? level it) = true) as -> by
    (apply Z.ltb_lt; unfold level; rewrite (cursor_level _ _ _ _ Hc); lia).
  assert ((index it <? NUM_PAGE_TABLE_ENTRIES) = true) as -> by (apply Z.ltb_lt, Hi).
  assert ((table it =? 0) = false) as -> by (apply Z.eqb_neq; lia).
  simpl. rewrite Hload. simpl.
  destruct (wf_inner s Hw _ _ _ (cursor_reach _ _ _ _ Hc) ltac:(lia) Hi) as [Hz|(Hp & Hne & Ha)].
  - rewrite Hz. change (entry_table_phys 0 =? 0) with true. cbv iota.
    pose proof (allocate_page_level_spec s) as Hal.
    destruct (allocate_page_level s) as [[addr s1]|]; [|done].
    destruct Hal as (tn & Hpool & -> & Hm & Hroot & Hset). simpl.
    unfold it_store. rewrite (cursor_entry_ref s va k it Hw ltac:(lia) Hc). simpl.
    destruct (new_table_pool s s1 tn Hw Hpool) as (Htn & Htn' & _ & _).
    destruct (pool_table_entry tn Htn Htn') as (_ & Hmod & Hk' & _). rewrite Hmod, Hk'. simpl.
    change (with_mem s1 _) with (grown s1 (table it) (index it) tn).
    pose proof (cursor_reach _ _ _ _ Hc) as Hr.
    split_and!.
    + eapply grown_wf; [done|exact Hr|lia|done..].
    + eapply cursor_down; [done..| |].
      { intros. eapply grown_reach; [done|exact Hr|lia|done..|by left]. }
      eapply grown_reach; [done|exact Hr|lia|done..|]. right. rewrite path_take_snoc by done. by erewrite <- cursor_index by (done || lia).
    + intros va'. eapply grown_pte; [done|exact Hr|lia|done..].
    + done.
    + eapply grown_within; [done|exact Hr|lia|done..].
    + exists [tn]. done.
  - apply Z.eqb_neq in Hne as ->. simpl. rewrite Ha. simpl. split_and!; [done| |done..|].
    + eapply cursor_down; [done..|auto|]. rewrite path_take_snoc by done.
      erewrite <- cursor_index by (done || lia).
      apply reach_snoc; [by apply cursor_reach with (va := va)|lia|done|done].
    + exists []. simpl. split; [done|lia].
Qed.

(** [get] reaches the level-1 table of its page, allocating at most the three
    tables the walk is missing, and changes no entry of any page. *)
Lemma get_spec s va :
  wf s ->
  match get s va with
  | Ok (it, s') => wf s' /\ cursor s' va 3 it /\ same_entries s s' /\ root s' = root s /\
      within s s' /\ (length (pool s) <= length (pool s') + 3)%nat
  | Fail _ => (length (pool s) < 3)%nat
  end.
Proof.
  intros Hw. unfold get. rewrite (wf_alloc s Hw). cbn [assert_ mbind outcome_bind].
  pose proof (allocate_and_descend_spec s va 0 _ Hw ltac:(lia) (cursor_begin s va Hw)) as H1.
  destruct (allocate_and_descend s _) as [[c1 s1]|]; cbn [mbind outcome_bind]; [|rewrite H1; simpl; lia].
  destruct H1 as (Hw1 & Hc1 & He1 & Hr1 & Hi1 & l1 & Hp1 & Hl1).
  pose proof (allocate_and_descend_spec s1 va 1 _ Hw1 ltac:(lia) Hc1) as H2.
  destruct (allocate_and_descend s1 _) as [[c2 s2]|]; cbn [mbind outcome_bind];
    [|rewrite Hp1, H2, app_nil_r; lia].
  destruct H2 as (Hw2 & Hc2 & He2 & Hr2 & Hi2 & l2 & Hp2 & Hl2).
  pose proof (allocate_and_descend_spec s2 va 2 _ Hw2 ltac:(lia) Hc2) as H3.
  destruct (allocate_and_descend s2 _) as [[c3 s3]|]; cbn [mbind outcome_bind];
    [|rewrite Hp1, Hp2, H3, !length_app; simpl; lia].
  destruct H3 as (Hw3 & Hc3 & He3 & Hr3 & Hi3 & l3 & Hp3 & Hl3).
  unfold level. rewrite (cursor_level _ _ _ _ Hc3). simpl.
  split_and!; [done|done| |congruence| |].
  - intros v. by rewrite He3, He2, He1.
  - by trans s2; [trans s1|].
  - rewrite Hp1, Hp2, Hp3, !length_app. lia.
Qed.

(** ** Lookup *)

Lemma descend_spec s va k it :
  wf s -> (k <= 2)%nat -> cursor s va k it ->
  let e := load (mem s) (entry_addr (table it) (index it)) in
  if present_bit e then exists it', descend s it = Ok (true, it') /\ cursor s va (S k) it'
  else descend s it = Ok (false, it) /\ walk (mem s) (root s) (path va) = None.
Proof.
  intros Hw Hk Hc e. pose proof (cursor_table _ _ _ _ Hw Hc) as [Ht _].
  assert (k <= 3)%nat as Hk3 by lia.
  pose proof (cursor_idx _ _ _ _ Hk3 Hc) as Hi.
  pose proof (cursor_load _ _ _ _ Hw Hk3 Hc) as Hload. fold e in Hload.
  pose proof (path_take_length va k Hk3) as Hlen.
  unfold descend.
  assert ((level it =? 1) = false) as -> by
    (apply Z.eqb_neq; unfold level; rewrite (cursor_level _ _ _ _ Hc); lia).
  assert ((NUM_PAGE_TABLE_ENTRIES <=? index it) = false) as -> by (apply Z.leb_gt, Hi).
  unfold exists_, present. assert ((table it =? 0) = false) as -> by (apply Z.eqb_neq; lia).
  cbn [orb negb]. rewrite Hload. cbn [mbind outcome_bind].
  destruct (present_bit e) eqn:Ep; cbn [negb].
  - eexists. split; [done|]. eapply cursor_down; [done..|auto|]. rewrite path_take_snoc by done.
    erewrite <- cursor_index by done. apply reach_snoc; [by apply cursor_reach with (va := va)|lia|done|done].
  - split; [done|]. rewrite <- (take_drop (S k) (path va)), path_take_snoc by done.
    rewrite !walk_app. destruct (cursor_reach _ _ _ _ Hc) as [-> _]. cbn [mbind option_bind walk].
    erewrite <- cursor_index by done. fold e. by rewrite Ep.
Qed.

Lemma descend_bottom s va it : cursor s va 3 it -> descend s it = Ok (false, it).
Proof.
  intros Hc. unfold descend, level. by rewrite (cursor_level _ _ _ _ Hc).
Qed.

Lemma descend_all_spec s va k it n :
  wf s -> (k <= 3)%nat -> (n + k = 4)%nat -> cursor s va k it ->
  exists it' k', descend_all n s it = Ok it' /\ cursor s va k' it' /\ (k' <= 3)%nat /\
    (k' = 3%nat \/ walk (mem s) (root s) (path va) = None).
Proof.
  intros Hw. revert k it. induction n as [|n IH]; intros k it Hk Hn Hc; [lia|].
  cbn [descend_all]. destruct (decide (k = 3%nat)) as [->|Hne].
  - rewrite (descend_bottom _ _ _ Hc). cbn [mbind outcome_bind]. exists it, 3%nat. auto.
  - pose proof (descend_spec s va k it Hw ltac:(lia) Hc) as Hd. cbv zeta in Hd.
    destruct (present_bit _).
    + destruct Hd as (it' & -> & Hc'). cbn [mbind outcome_bind].
      apply (IH (S k)); [lia|lia|done].
    + destruct Hd as [-> Hnone]. cbn [mbind outcome_bind]. exists it, k. auto.
Qed.

Lemma find_spec s va :
  wf s ->
  match walk (mem s) (root s) (path va) with
  | Some t => exists it, find s va = Ok it /\ cursor s va 3 it /\ table it = t
  | None => find s va = Ok (iterator_end 4)
  end.
Proof.
  intros Hw.
  destruct (descend_all_spec s va 0 _ 4 Hw ltac:(lia) ltac:(lia) (cursor_begin s va Hw))
    as (it & k & Hd & Hc & Hk & Hor).
  unfold find. rewrite Hd. cbn [mbind outcome_bind]. unfold level.
  rewrite (cursor_level _ _ _ _ Hc). destruct (decide (k = 3%nat)) as [->|Hne].
  - pose proof (cursor_reach _ _ _ _ Hc) as [Hr _].
    change (take 3 (path va)) with (path va) in Hr. rewrite Hr. exists it. done.
  - destruct Hor as [?|Hnone]; [done|]. rewrite Hnone.
    assert ((3 - Z.of_nat k + 1 =? 1) = false) as -> by (apply Z.eqb_neq; lia). done.
Qed.

(** A cursor at level 1 reads and writes the entry of its page. *)
Lemma cursor_pte s va it :
  cursor s va 3 it -> load (mem s) (entry_addr (table it) (index it)) = pte s va.
Proof.
  intros Hc. unfold pte. pose proof (cursor_reach _ _ _ _ Hc) as [Hr _].
  change (take 3 (path va)) with (path va) in Hr. rewrite Hr.
  by rewrite (cursor_index _ _ _ _ ltac:(reflexivity) Hc).
Qed.

Lemma cursor_present s va it :
  wf s -> cursor s va 3 it -> present s it = Ok (present_bit (pte s va)).
Proof.
  intros Hw Hc. unfold present. erewrite cursor_load by (done || lia).
  cbn [mbind outcome_bind]. by erewrite cursor_pte.
Qed.

Lemma cursor_not_end s va it : cursor s va 3 it -> iterator_eqb it (iterator_end 4) = false.
Proof. intros Hc. unfold iterator_eqb. by rewrite (cursor_level _ _ _ _ Hc). Qed.

Lemma cursor_exists s va k it : wf s -> cursor s va k it -> exists_ it = true.
Proof.
  intros Hw Hc. destruct (cursor_table _ _ _ _ Hw Hc) as [? _].
  apply negb_true_iff, Z.eqb_neq. lia.
Qed.

(** [s'] is [s] with the entry of [va]'s page set to [v]. *)
Definition updates (s s' : paging) (va v : Z) : Prop :=
  wf s' /\ root s' = root s /\
  forall va', pte s' va' = if decide (page48 va = page48 va') then v else pte s va'.

Lemma cursor_store s va it v :
  wf s -> cursor s va 3 it ->
  exists s', it_store s it v = Ok s' /\ updates s s' va v /\ pool s' = pool s /\
    within s s'.
Proof.
  intros Hw Hc. unfold it_store. rewrite (cursor_entry_ref _ _ _ _ Hw ltac:(reflexivity) Hc).
  cbn [mbind outcome_bind]. eexists. split; [done|].
  pose proof (cursor_reach _ _ _ _ Hc) as Hr. change (take 3 (path va)) with (path va) in Hr.
  change (with_mem s _) with (write s (table it) (index it) v).
  rewrite (cursor_index _ _ _ _ ltac:(reflexivity) Hc).
  assert (idx (prefix va 1)) as Hi by (apply prefix_idx; lia).
  split; [|split; [done|by eapply leaf_within]]. split_and!; [by eapply leaf_write_wf|done|].
  intros va'. by apply leaf_write_pte.
Qed.
