(* ===== verification/PagingInit.v ===== *)
(** * The boot page tables

    [paging::early_init] links seven statically allocated tables into the
    identity and kernel mappings.  For every placement of those tables that the
    linker may choose (page aligned, distinct, disjoint from the table pool) the
    result satisfies the tree invariant of [PageTables.v], and the mappings are
    the ones the boot code intends. *)
From S2P Require Import Prelude Util Memory Paging PageTables.

#[local] Arguments Z.land : simpl never.
#[local] Arguments Z.lor : simpl never.
#[local] Arguments wrap : simpl never.

Definition boot_table (t : Z) : Prop := aligned_table t /\ t <> 0xFFFFFFFF80000000.

Definition layout_tables (L : layout) : list Z :=
  [kernel_pml4 L; kernel_pml3 L; kernel_pml2 L; kernel_pml1 L;
   identity_pml3 L; identity_pml2 L; identity_pml1 L].

(** What the linker script and [alignas(PAGE_ALIGN)] provide. *)
Definition layout_ok (L : layout) : Prop :=
  Forall boot_table (layout_tables L) /\
  Forall boot_table (table_pool (static_tables_addr L) MAX_STATIC_TABLES) /\
  NoDup (layout_tables L ++ table_pool (static_tables_addr L) MAX_STATIC_TABLES).

Definition leaf_entry (j : Z) : Z := Z.lor (Z.lor (j * PAGE_SIZE) XD) PRESENT.

Lemma fill_identity_load n m t i t' j :
  aligned_table t -> aligned_table t' -> 0 <= i -> i + Z.of_nat n <= 512 -> idx j ->
  load (fill_identity m t i n) (entry_addr t' j) =
    if decide (t' = t /\ i <= j < i + Z.of_nat n) then leaf_entry j
    else load m (entry_addr t' j).
Proof.
  intros Ht Ht' Hi Hn Hj. revert m i Hi Hn.
  induction n as [|n IH]; intros m i Hi Hn; cbn [fill_identity].
  { rewrite decide_False by lia. done. }
  rewrite IH, load_insert by lia.
  destruct (decide (t' = t /\ i + 1 <= j < i + 1 + Z.of_nat n)).
  { by rewrite decide_True by lia. }
  destruct (decide (entry_addr t i = entry_addr t' j)) as [He|He].
  - apply entry_addr_inj in He as [-> ->]; try done; [by rewrite decide_True by lia|].
    unfold idx, NUM_PAGE_TABLE_ENTRIES in *. lia.
  - rewrite decide_False; [done|]. intros [-> Hr]. apply He. f_equal. lia.
Qed.

Lemma load_insert_entry m t i v t' j :
  aligned_table t -> aligned_table t' -> idx i -> idx j ->
  load (<[entry_addr t i := v]> m) (entry_addr t' j) =
    if decide (t' = t /\ j = i) then v else load m (entry_addr t' j).
Proof.
  intros Ht Ht' Hi Hj. rewrite load_insert. case_decide as He; case_decide as Hd; try done.
  - apply entry_addr_inj in He as [-> ->]; try done. exfalso. auto.
  - destruct Hd as [-> ->]. done.
Qed.

Section boot.
Context (L : layout) (HL : layout_ok L).

Definition boot_entry (t j : Z) : Z :=
  if decide (t = kernel_pml4 L) then
    if decide (j = 0x1FF) then table_entry (kernel_pml3 L)
    else if decide (j = 0) then table_entry (identity_pml3 L) else 0
  else if decide (t = kernel_pml3 L) then
    if decide (j = 0x1FE) then table_entry (kernel_pml2 L) else 0
  else if decide (t = kernel_pml2 L) then
    if decide (j = 0) then table_entry (kernel_pml1 L) else 0
  else if decide (t = kernel_pml1 L) then
    if decide (0x100 <= j) then leaf_entry j else 0
  else if decide (t = identity_pml3 L) then
    if decide (j = 0) then table_entry (identity_pml2 L) else 0
  else if decide (t = identity_pml2 L) then
    if decide (j = 0) then table_entry (identity_pml1 L) else 0
  else if decide (t = identity_pml1 L) then
    if decide (1 <= j) then leaf_entry j else 0
  else 0.

Lemma boot_tables_ok : boot_table (kernel_pml4 L) /\ boot_table (kernel_pml3 L) /\
  boot_table (kernel_pml2 L) /\ boot_table (kernel_pml1 L) /\ boot_table (identity_pml3 L) /\
  boot_table (identity_pml2 L) /\ boot_table (identity_pml1 L).
Proof. destruct HL as [H _]. unfold layout_tables in H. decompose_Forall_hyps. auto 10. Qed.

Lemma boot_distinct : NoDup (layout_tables L).
Proof. destruct HL as (_ & _ & H). by apply NoDup_app in H as [H _]. Qed.

Lemma boot_load t j :
  aligned_table t -> idx j -> load (mem (early_init L)) (entry_addr t j) = boot_entry t j.
Proof.
  intros Ht Hj. destruct boot_tables_ok as ((?&?)&(?&?)&(?&?)&(?&?)&(?&?)&(?&?)&(?&?)).
  unfold early_init. cbn [mem].
  assert (forall k, 0 <= k < 512 -> idx k) as Hk by (intros; unfold idx, NUM_PAGE_TABLE_ENTRIES; lia).
  rewrite fill_identity_load by (done || lia).
  rewrite !load_insert_entry by (done || (apply Hk; lia)).
  rewrite fill_identity_load by (done || lia).
  rewrite !load_insert_entry by (done || (apply Hk; lia)).
  unfold boot_entry, idx, NUM_PAGE_TABLE_ENTRIES, NONE, load in *. cbn [default lookup].
  rewrite lookup_empty.
  pose proof boot_distinct as Hd. unfold layout_tables in Hd.
  rewrite !NoDup_cons, !not_elem_of_cons in Hd. destruct_and! Hd.
  repeat match goal with
  | |- context [decide (t = ?u)] => destruct (decide (t = u)) as [->|]
  end;
  repeat match goal with
  | |- context [decide (?a = ?b /\ ?P)] =>
      rewrite (decide_False (P := a = b /\ P)) by (intros [? _]; congruence)
  end;
  clear -Hj; repeat case_decide; destruct_and?; (done || lia || (exfalso; naive_solver lia)).
Qed.

Lemma table_entry_next t :
  boot_table t -> present_bit (table_entry t) = true /\ next_table (table_entry t) = t /\
  entry_table_phys (table_entry t) <> 0 /\ entry_table_phys (table_entry t) `mod` PAGE_SIZE = 0.
Proof.
  intros [Ht Hne]. destruct (pool_table_entry t Ht Hne) as (H1 & H2 & H3 & H4 & H5).
  unfold table_entry, next_table. rewrite H5. auto.
Qed.

(** Every table the boot code links, by the indices that lead to it. *)
Definition boot_paths : list (list Z * Z) :=
  [([], kernel_pml4 L); ([0x1FF], kernel_pml3 L); ([0x1FF; 0x1FE], kernel_pml2 L);
   ([0x1FF; 0x1FE; 0], kernel_pml1 L);
   ([0], identity_pml3 L); ([0; 0], identity_pml2 L); ([0; 0; 0], identity_pml1 L)].

Lemma boot_entries j :
  boot_entry (kernel_pml4 L) j = (if decide (j = 0x1FF) then table_entry (kernel_pml3 L)
    else if decide (j = 0) then table_entry (identity_pml3 L) else 0) /\
  boot_entry (kernel_pml3 L) j = (if decide (j = 0x1FE) then table_entry (kernel_pml2 L) else 0) /\
  boot_entry (kernel_pml2 L) j = (if decide (j = 0) then table_entry (kernel_pml1 L) else 0) /\
  boot_entry (kernel_pml1 L) j = (if decide (0x100 <= j) then leaf_entry j else 0) /\
  boot_entry (identity_pml3 L) j = (if decide (j = 0) then table_entry (identity_pml2 L) else 0) /\
  boot_entry (identity_pml2 L) j = (if decide (j = 0) then table_entry (identity_pml1 L) else 0) /\
  boot_entry (identity_pml1 L) j = (if decide (1 <= j) then leaf_entry j else 0).
Proof.
  pose proof boot_distinct as Hd. unfold layout_tables in Hd.
  rewrite !NoDup_cons, !not_elem_of_cons in Hd. destruct_and! Hd.
  unfold boot_entry. split_and!;
    repeat match goal with
    | |- context [decide (?a = ?a)] => rewrite (decide_True (P := a = a)) by done
    | |- context [decide (?a L = ?b L)] =>
        rewrite (decide_False (P := a L = b L)) by congruence
    end; done.
Qed.

Lemma boot_paths_cases p t : (p, t) ∈ boot_paths ->
  (p = [] /\ t = kernel_pml4 L) \/ (p = [0x1FF] /\ t = kernel_pml3 L) \/
  (p = [0x1FF; 0x1FE] /\ t = kernel_pml2 L) \/ (p = [0x1FF; 0x1FE; 0] /\ t = kernel_pml1 L) \/
  (p = [0] /\ t = identity_pml3 L) \/ (p = [0; 0] /\ t = identity_pml2 L) \/
  (p = [0; 0; 0] /\ t = identity_pml1 L).
Proof.
  unfold boot_paths. rewrite !elem_of_cons.
  intros [|[|[|[|[|[|[|Hn]]]]]]]; simplify_eq; [auto 10..|by apply not_elem_of_nil in Hn].
Qed.

Lemma boot_path_table p t : (p, t) ∈ boot_paths -> t ∈ layout_tables L /\ boot_table t.
Proof.
  intros Hp. assert (t ∈ layout_tables L) as Hin.
  { apply boot_paths_cases in Hp. unfold layout_tables. set_solver. }
  split; [done|]. destruct HL as [H _]. by eapply Forall_forall.
Qed.

(** One step of the walk from a linked table that is not at level 1. *)
Lemma boot_step p t i :
  (p, t) ∈ boot_paths -> (length p <= 2)%nat -> idx i ->
  boot_entry t i = 0 \/
  exists u, boot_entry t i = table_entry u /\ boot_table u /\ (p ++ [i], u) ∈ boot_paths.
Proof.
  intros Hp Hl Hi. destruct boot_tables_ok as (?&?&?&?&?&?&?).
  destruct (boot_entries i) as (E1 & E2 & E3 & _ & E5 & E6 & _).
  apply boot_paths_cases in Hp.
  destruct Hp as [[-> ->]|[[-> ->]|[[-> ->]|[[-> ->]|[[-> ->]|[[-> ->]|[-> ->]]]]]]];
    try (simpl in Hl; lia); rewrite ?E1, ?E2, ?E3, ?E5, ?E6;
    repeat case_decide; subst; auto;
    (right; eexists; split; [reflexivity|]; split; [done|]; unfold boot_paths; set_solver).
Qed.

Lemma boot_reach_sound p q t u :
  (p, t) ∈ boot_paths -> (length (p ++ q) <= 3)%nat -> Forall idx q ->
  walk (mem (early_init L)) t q = Some u -> (p ++ q, u) ∈ boot_paths.
Proof.
  revert p t. induction q as [|i q IH]; intros p t Hp Hl Hf Hw.
  { rewrite app_nil_r. simpl in Hw. by simplify_eq. }
  inversion Hf as [|? ? Hi Hf']; subst. cbn [walk] in Hw.
  assert (aligned_table t) as Ht.
  { apply boot_path_table in Hp. apply Hp. }
  rewrite boot_load in Hw by done. rewrite length_app in Hl. cbn [length] in Hl.
  destruct (boot_step p t i Hp ltac:(lia) Hi) as [H0|(v & Hv & Hbv & Hin)].
  - rewrite H0 in Hw. done.
  - rewrite Hv in Hw. destruct (table_entry_next v Hbv) as (Hpb & Hnt & _).
    rewrite Hpb, Hnt in Hw. replace (p ++ i :: q) with ((p ++ [i]) ++ q) by by rewrite <- app_assoc.
    apply (IH _ v); [done| |done|done]. rewrite !length_app. simpl. lia.
Qed.

(** Following one link. *)
Lemma boot_walk_link t u j q :
  boot_table t -> boot_table u -> idx j -> boot_entry t j = table_entry u ->
  walk (mem (early_init L)) t (j :: q) = walk (mem (early_init L)) u q.
Proof.
  intros [Ht _] Hu Hj He. cbn [walk]. rewrite boot_load, He by done.
  by destruct (table_entry_next u Hu) as (-> & -> & _).
Qed.

Lemma boot_reach_complete p t : (p, t) ∈ boot_paths -> walk (mem (early_init L)) (kernel_pml4 L) p = Some t.
Proof.
  intros Hp. destruct boot_tables_ok as (?&?&?&?&?&?&?).
  destruct (boot_entries 0) as (E1 & _ & E3 & _ & E5 & E6 & _).
  destruct (boot_entries 0x1FF) as (F1 & _). destruct (boot_entries 0x1FE) as (_ & F2 & _).
  apply boot_paths_cases in Hp.
  destruct Hp as [[-> ->]|[[-> ->]|[[-> ->]|[[-> ->]|[[-> ->]|[[-> ->]|[-> ->]]]]]]];
  repeat first [done
    | rewrite (boot_walk_link _ (kernel_pml3 L) 0x1FF) by done
    | rewrite (boot_walk_link _ (kernel_pml2 L) 0x1FE) by done
    | rewrite (boot_walk_link (kernel_pml2 L) (kernel_pml1 L) 0) by done
    | rewrite (boot_walk_link (kernel_pml4 L) (identity_pml3 L) 0) by done
    | rewrite (boot_walk_link (identity_pml3 L) (identity_pml2 L) 0) by done
    | rewrite (boot_walk_link (identity_pml2 L) (identity_pml1 L) 0) by done ].
Qed.

Lemma boot_reach p t : reach (early_init L) p t <-> (p, t) ∈ boot_paths.
Proof.
  split.
  - intros (Hw & Hl & Hf). apply (boot_reach_sound [] p (kernel_pml4 L) t); [|done..].
    unfold boot_paths. constructor.
  - intros Hp. split; [by apply boot_reach_complete|].
    apply boot_paths_cases in Hp.
    destruct Hp as [[-> ->]|[[-> ->]|[[-> ->]|[[-> ->]|[[-> ->]|[[-> ->]|[-> ->]]]]]]];
      (split; [simpl; lia|repeat constructor; done]).
Qed.

Lemma boot_path_uniq p q t : (p, t) ∈ boot_paths -> (q, t) ∈ boot_paths -> p = q.
Proof.
  pose proof boot_distinct as Hd. unfold layout_tables in Hd.
  rewrite !NoDup_cons, !not_elem_of_cons in Hd. destruct_and! Hd.
  intros Hp%boot_paths_cases Hq%boot_paths_cases.
  destruct_or! Hp; destruct_or! Hq; destruct_and! Hp; destruct_and! Hq; congruence.
Qed.

Lemma boot_entry_outside t j : t ∉ layout_tables L -> boot_entry t j = 0.
Proof.
  unfold layout_tables. rewrite !not_elem_of_cons. intros Hd. destruct_and! Hd.
  unfold boot_entry. by rewrite !decide_False by done.
Qed.

Lemma boot_pool : pool (early_init L) = table_pool (static_tables_addr L) MAX_STATIC_TABLES.
Proof. unfold pool. apply app_nil_r. Qed.

Lemma boot_wf : wf (early_init L).
Proof.
  destruct HL as (Ht & Hpl & Hnd). apply NoDup_app in Hnd as (_ & Hdis & Hndp).
  split.
  - done.
  - intros p q t. rewrite !boot_reach. apply boot_path_uniq.
  - intros p t. rewrite boot_reach. intros Hp%boot_path_table. apply Hp.
  - intros p t i. rewrite boot_reach. intros Hp Hl Hi.
    destruct (boot_path_table p t Hp) as [_ [Hta _]]. cbv zeta. rewrite boot_load by done.
    destruct (boot_step p t i Hp Hl Hi) as [->|(u & -> & Hu & _)]; [by left|right].
    destruct (table_entry_next u Hu) as (? & ? & ? & ?). done.
  - rewrite boot_pool. done.
  - intros t. rewrite boot_pool. intros Hin.
    pose proof (proj1 (Forall_forall _ _) Hpl t Hin) as [Hta Hne].
    assert (t ∉ layout_tables L) as Hno by (intros Hl; by apply (Hdis t Hl)).
    split_and!; [done|done| |].
    + intros p. rewrite boot_reach. intros Hp%boot_path_table. naive_solver.
    + intros i Hi. rewrite boot_load by done. by apply boot_entry_outside.
Qed.
End boot.

(** Entries of the boot mappings: the first 2 MiB less the null page map to
    themselves, and the second MiB of the kernel window to the second MiB. *)
Lemma boot_pte_identity L k : layout_ok L -> 0 <= k < 512 ->
  pte (early_init L) (k * PAGE_SIZE) = if decide (1 <= k) then leaf_entry k else 0.
Proof.
  intros HL Hk. unfold pte, path. rewrite !prefix_div by lia. unfold PAGE_SIZE.
  replace (((k * 4096) / 2 ^ (12 + 9 * (4 - 1))) `mod` 512) with 0 by zdiv.
  replace (((k * 4096) / 2 ^ (12 + 9 * (3 - 1))) `mod` 512) with 0 by zdiv.
  replace (((k * 4096) / 2 ^ (12 + 9 * (2 - 1))) `mod` 512) with 0 by zdiv.
  replace (((k * 4096) / 2 ^ (12 + 9 * (1 - 1))) `mod` 512) with k by zdiv.
  change (root (early_init L)) with (kernel_pml4 L).
  assert (([0; 0; 0], identity_pml1 L) ∈ boot_paths L) as Hin
    by (unfold boot_paths; repeat constructor).
  rewrite (boot_reach_complete L HL _ _ Hin).
  rewrite boot_load; [apply (boot_entries L HL)|done|apply (boot_path_table L HL _ _ Hin)|].
  unfold idx, NUM_PAGE_TABLE_ENTRIES. lia.
Qed.

Lemma boot_pte_kernel L k : layout_ok L -> 0 <= k < 512 ->
  pte (early_init L) (0xFFFFFFFF80000000 + k * PAGE_SIZE) =
    if decide (0x100 <= k) then leaf_entry k else 0.
Proof.
  intros HL Hk. unfold pte, path. rewrite !prefix_div by lia. unfold PAGE_SIZE.
  replace (((0xFFFFFFFF80000000 + k * 4096) / 2 ^ (12 + 9 * (4 - 1))) `mod` 512) with 0x1FF by zdiv.
  replace (((0xFFFFFFFF80000000 + k * 4096) / 2 ^ (12 + 9 * (3 - 1))) `mod` 512) with 0x1FE by zdiv.
  replace (((0xFFFFFFFF80000000 + k * 4096) / 2 ^ (12 + 9 * (2 - 1))) `mod` 512) with 0 by zdiv.
  replace (((0xFFFFFFFF80000000 + k * 4096) / 2 ^ (12 + 9 * (1 - 1))) `mod` 512) with k by zdiv.
  change (root (early_init L)) with (kernel_pml4 L).
  assert (([0x1FF; 0x1FE; 0], kernel_pml1 L) ∈ boot_paths L) as Hin
    by (unfold boot_paths; repeat constructor).
  rewrite (boot_reach_complete L HL _ _ Hin).
  rewrite boot_load; [apply (boot_entries L HL)|done|apply (boot_path_table L HL _ _ Hin)|].
  unfold idx, NUM_PAGE_TABLE_ENTRIES. lia.
Qed.

Lemma leaf_entry_spec k : 0 <= k < 512 ->
  present_bit (leaf_entry k) = true /\ Z.land (leaf_entry k) ADDRESS_MASK = k * PAGE_SIZE.
Proof.
  intros Hk. unfold leaf_entry. split.
  { rewrite present_bit_testbit, Z.lor_spec. apply orb_true_r. }
  rewrite !Z.land_lor_distr_l. change (Z.land XD ADDRESS_MASK) with 0.
  change (Z.land PRESENT ADDRESS_MASK) with 0. rewrite !Z.lor_0_r. unfold PAGE_SIZE.
  change ADDRESS_MASK with (Z.shiftl (Z.ones 40) 12). change 4096 with (2 ^ 12).
  rewrite <- Z.shiftl_mul_pow2, <- Z.shiftl_land, Z.land_ones by lia. f_equal.
  apply Z.mod_small. lia.
Qed.

(** A placement of the tables, used to exercise the theorems. *)
Definition sample_layout : layout :=
  let at_ k := 0xFFFFFFFF80100000 + k * PAGE_SIZE in
  Layout (at_ 0) (at_ 1) (at_ 2) (at_ 3) (at_ 4) (at_ 5) (at_ 6) (at_ 7).

Lemma sample_layout_ok : layout_ok sample_layout.
Proof.
  assert (forall l, forallb (fun t => (0 <? t) && (t <? 2 ^ 64) && (t `mod` PAGE_SIZE =? 0) &&
    negb (t =? 0xFFFFFFFF80000000)) l = true -> Forall boot_table l) as Hb.
  { intros l Hl. apply Forall_forall. intros t Ht. rewrite forallb_forall in Hl.
    specialize (Hl t (proj1 (list_elem_of_In _ _) Ht)). bool_to_prop. split; [split; [lia|done]|done]. }
  split_and!.
  - by apply Hb.
  - by apply Hb.
  - apply (bool_decide_unpack _). by vm_compute.
Qed.
