(* ===== verification/PageOps.v ===== *)
(** * Correctness of the paging operations

    [map_page], [map_range], [unmap_page], [unmap_range] and
    [get_physical_address] against the abstract map [pte] of [PageTables.v]:
    each changes the entries of its own pages and of no others, preserves the
    tree invariant, and fails exactly when the code's checks say so. *)
From S2P Require Import Prelude Util Memory Paging PageTables PagingInit.

#[local] Arguments Z.land : simpl never.
#[local] Arguments Z.lor : simpl never.
#[local] Arguments wrap : simpl never.

(** A page address of the 64-bit address space. *)
Definition page_addr (va : Z) : Prop := 0 <= va < 2 ^ 64 /\ va `mod` PAGE_SIZE = 0.

(** The addresses [virtual_page_address] gives back unchanged. *)
Definition canonical42 (va : Z) : Prop :=
  0 <= va < 2 ^ 41 \/ 2 ^ 64 - 2 ^ 41 <= va < 2 ^ 64.

Definition mapped_entry (phys attrs : Z) : Z := Z.lor (Z.lor phys attrs) PRESENT.

Lemma mapped_entry_present phys attrs : present_bit (mapped_entry phys attrs) = true.
Proof. unfold mapped_entry. rewrite present_bit_testbit, Z.lor_spec. apply orb_true_r. Qed.

Lemma canonical42_swrap va : canonical42 va -> u64 (swrap 42 va) = va.
Proof. unfold canonical42, wrap, swrap. intros [?|?]; zdiv. Qed.

Lemma swrap42_aligned va : va `mod` PAGE_SIZE = 0 -> u64 (swrap 42 va) `mod` PAGE_SIZE = 0.
Proof. unfold wrap, swrap, PAGE_SIZE. intros. zdiv. Qed.

Lemma cursor_virtual s va k it :
  page_addr va -> cursor s va k it -> virtual_page_address it = u64 (swrap 42 va).
Proof.
  intros [Hr Ha] Hc. destruct it as [ts ix lv]. pose proof (cursor_indices _ _ _ _ Hc) as Hi.
  simpl in Hi. subst ix. by apply virtual_page_address_at.
Qed.

(** [map_page(physical_page, iterator, attrs)] at a level-1 cursor. *)
Lemma map_page_at_spec s va it phys attrs :
  wf s -> cursor s va 3 it -> page_addr va -> phys `mod` PAGE_SIZE = 0 ->
  if present_bit (pte s va) then
    map_page_at s phys it attrs = Fail (Panic "Tried to map already-present page!")
  else exists s', map_page_at s phys it attrs = Ok (u64 (swrap 42 va), s') /\
    updates s s' va (mapped_entry phys attrs) /\ pool s' = pool s /\
    cursor s' va 3 it /\ within s s'.
Proof.
  intros Hw Hc Hva Hp. unfold map_page_at.
  rewrite (cursor_virtual _ _ _ _ Hva Hc), swrap42_aligned by apply Hva. rewrite Hp.
  unfold level. rewrite (cursor_level _ _ _ _ Hc), (cursor_not_end _ _ _ Hc),
    (cursor_exists _ _ _ _ Hw Hc), (cursor_present _ _ _ Hw Hc).
  change (0 =? 0) with true. cbn. destruct (present_bit (pte s va)); [done|].
  unfold it_store. rewrite (cursor_entry_ref s va 3 it Hw ltac:(reflexivity) Hc).
  pose proof (cursor_store s va it (mapped_entry phys attrs) Hw Hc) as (s' & Hs & Hu & Hpool & Hi).
  unfold it_store in Hs. rewrite (cursor_entry_ref s va 3 it Hw ltac:(reflexivity) Hc) in Hs.
  cbn in Hs |- *. unfold mapped_entry in *. injection Hs as <-. eexists.
  split; [done|]. split; [done|]. split; [done|]. split; [|exact Hi].
  destruct Hc as [Hl Hix Ht Hr]. split; [done..|]. intros j Hj.
  apply (leaf_reach s (path va) (table it) (index it)); [done| |done| |by apply Hr].
  - apply (cursor_reach s va 3). by split.
  - apply (cursor_idx s va 3); [reflexivity|by split].
Qed.

Lemma map_page_get s phys va attrs :
  wf s -> page_addr va -> phys `mod` PAGE_SIZE = 0 -> (3 <= length (pool s))%nat ->
  if present_bit (pte s va) then
    map_page s phys va attrs = Fail (Panic "Tried to map already-present page!")
  else exists s', map_page s phys va attrs = Ok (u64 (swrap 42 va), s') /\
    updates s s' va (mapped_entry phys attrs) /\ (length (pool s) <= length (pool s') + 3)%nat.
Proof.
  intros Hw Hva Hp Hpool. unfold map_page. destruct Hva as [Hr Ha]. rewrite Ha.
  change (0 =? 0) with true. cbn [assert_ mbind outcome_bind].
  pose proof (get_spec s va Hw) as Hg. destruct (get s va) as [[it s1]|]; [|lia].
  destruct Hg as (Hw1 & Hc1 & He1 & Hr1 & Hi1 & Hl1). cbn [mbind outcome_bind].
  pose proof (map_page_at_spec s1 va it phys attrs Hw1 Hc1 ltac:(by split) Hp) as Hm.
  rewrite He1 in Hm. destruct (present_bit (pte s va)); [done|].
  destruct Hm as (s' & Hm & (Hw' & Hr' & Hu) & Hpool' & _). exists s'.
  split; [done|]. split; [|by rewrite Hpool']. split_and!; [done|congruence|].
  intros va'. by rewrite Hu, He1.
Qed.

(** What a returned call of [map_page] tells. *)
Lemma map_page_Ok s phys va attrs r s' :
  wf s -> 0 <= va < 2 ^ 64 -> map_page s phys va attrs = Ok (r, s') ->
  va `mod` PAGE_SIZE = 0 /\ phys `mod` PAGE_SIZE = 0 /\ present_bit (pte s va) = false /\
  r = u64 (swrap 42 va) /\ updates s s' va (mapped_entry phys attrs).
Proof.
  intros Hw Hr H. unfold map_page in H. apply bind_Ok in H as (u & Ha & H).
  apply assert_Ok in Ha. bool_to_prop. apply bind_Ok in H as ([it s1] & Hg & H).
  pose proof (get_spec s va Hw) as Hgs. rewrite Hg in Hgs.
  destruct Hgs as (Hw1 & Hc1 & He1 & Hr1 & _ & _).
  assert (phys `mod` PAGE_SIZE = 0) as Hp.
  { unfold map_page_at in H. apply bind_Ok in H as (u1 & _ & H).
    apply bind_Ok in H as (u2 & Hp & _). apply assert_Ok in Hp. by bool_to_prop. }
  pose proof (map_page_at_spec s1 va it phys attrs Hw1 Hc1 (conj Hr Ha) Hp) as Hm.
  rewrite He1 in Hm. destruct (present_bit (pte s va)); [congruence|].
  destruct Hm as (s2 & Hm & (Hw2 & Hr2 & Hu) & _). rewrite Hm in H. simplify_eq.
  split; [done|]. split; [done|]. split; [done|]. split; [done|].
  split_and!; [done|congruence|]. intros va'. by rewrite Hu, He1.
Qed.

(** ** Moving to the next page *)

(** Adding a page to an address carries through its indices like an odometer. *)
Lemma prefix_next va :
  let a := prefix va 1 in let b := prefix va 2 in
  let c := prefix va 3 in let d := prefix va 4 in
  let va' := va + PAGE_SIZE in
  (prefix va' 1, prefix va' 2, prefix va' 3, prefix va' 4) =
    if a <? 511 then (a + 1, b, c, d)
    else if b <? 511 then (0, b + 1, c, d)
    else if c <? 511 then (0, 0, c + 1, d)
    else if d <? 511 then (0, 0, 0, d + 1) else (0, 0, 0, 0).
Proof.
  cbv zeta. rewrite !prefix_div by lia. unfold PAGE_SIZE.
  change (2 ^ (12 + 9 * (4 - 1))) with (0x1000 * 2 ^ 27).
  change (2 ^ (12 + 9 * (3 - 1))) with (0x1000 * 2 ^ 18).
  change (2 ^ (12 + 9 * (2 - 1))) with (0x1000 * 2 ^ 9).
  change (2 ^ (12 + 9 * (1 - 1))) with 0x1000.
  rewrite <- !Z.div_div by lia.
  replace (va + 0x1000) with (va + 1 * 0x1000) by lia. rewrite !Z.div_add by lia.
  set (x := va / 0x1000). clearbody x.
  repeat case_if; repeat apply (f_equal2 pair); zdiv.
Qed.

Lemma page48_last va :
  prefix va 1 = 511 -> prefix va 2 = 511 -> prefix va 3 = 511 -> prefix va 4 = 511 ->
  page48 va = 2 ^ 36 - 1.
Proof.
  rewrite !prefix_div by lia. unfold page48.
  change (2 ^ (12 + 9 * (4 - 1))) with (2 ^ 12 * 2 ^ 27).
  change (2 ^ (12 + 9 * (3 - 1))) with (2 ^ 12 * 2 ^ 18).
  change (2 ^ (12 + 9 * (2 - 1))) with (2 ^ 12 * 2 ^ 9).
  change (2 ^ (12 + 9 * (1 - 1))) with (2 ^ 12).
  rewrite <- !Z.div_div by lia. set (x := va / 2 ^ 12). clearbody x. intros. zdiv.
Qed.

Lemma lget_zset l i v : 0 <= i < zlen l -> lget (zset l i v) i = v.
Proof. intros. unfold lget. by rewrite zget_zset_eq. Qed.

Lemma lget_zset_ne l i j v : i <> j -> lget (zset l i v) j = lget l j.
Proof. intros. unfold lget. by rewrite zget_zset_ne. Qed.

(** One turn of [while (++it == end(it.level())) it.ascend();] *)
Lemma step_up_turn n ts ix lv :
  zlen ix = 4 -> 0 <= lv < 4 -> 0 <= lget ix lv <= 511 ->
  step_up (S n) (Iterator ts ix lv) =
    if lget ix lv <? 511 then Ok (Iterator ts (zset ix lv (lget ix lv + 1)) lv)
    else if lv <? 3 then
      step_up n (Iterator ts (zset (zset ix lv (lget ix lv + 1)) lv 0) (lv + 1))
    else Fail (AssertFailed "can't ascend from level 4 page iterator").
Proof.
  intros Hl Hlv Hi. cbn [step_up]. unfold advance, index, level. cbn [_level indices tables].
  assert ((lget ix lv + 1 <=? NUM_PAGE_TABLE_ENTRIES) = true) as ->
    by (apply Z.leb_le; unfold NUM_PAGE_TABLE_ENTRIES; lia).
  cbn [assert_ mbind outcome_bind _level]. unfold iterator_eqb, iterator_end. cbn [_level indices].
  replace (lv + 1 - 1) with lv by lia. rewrite Z.eqb_refl. cbn [andb].
  rewrite !lget_zset by (rewrite ?Hl; unfold zlen in *; simpl; lia).
  unfold NUM_PAGE_TABLE_ENTRIES. destruct (lget ix lv <? 511) eqn:E; bool_to_prop.
  - by assert ((lget ix lv + 1 =? 512) = false) as -> by (apply Z.eqb_neq; lia).
  - assert ((lget ix lv + 1 =? 512) = true) as -> by (apply Z.eqb_eq; lia).
    unfold ascend, level. cbn [_level indices tables].
    replace (lv + 1 <? 4) with (lv <? 3) by
      (destruct (lv <? 3) eqn:E3; symmetry; [apply Z.ltb_lt|apply Z.ltb_ge]; bool_to_prop; lia).
    by destruct (lv <? 3).
Qed.

Lemma prefix_bounds va l : 1 <= l -> 0 <= prefix va l <= 511.
Proof. intros. pose proof (prefix_idx va l ltac:(done)) as [??]. unfold NUM_PAGE_TABLE_ENTRIES in *. lia. Qed.

Lemma step_up_spec s va it :
  cursor s va 3 it -> page48 va <> 2 ^ 36 - 1 ->
  exists k it', step_up 4 it = Ok it' /\ (k <= 3)%nat /\ cursor s (va + PAGE_SIZE) k it' /\
    (k = 3%nat \/ prefix va 1 = 511).
Proof.
  intros [Hl Hi Ht Hr] Hlast. destruct it as [ts ix lv]. cbn in Hl, Hi, Ht, Hr. subst lv ix.
  pose proof (prefix_next va) as Hn. cbv zeta in Hn.
  pose proof (prefix_bounds va 1 ltac:(lia)) as Ba. pose proof (prefix_bounds va 2 ltac:(lia)) as Bb.
  pose proof (prefix_bounds va 3 ltac:(lia)) as Bc. pose proof (prefix_bounds va 4 ltac:(lia)) as Bd.
  assert (forall k lv ix' ts', ts' = ts -> lv = 3 - Z.of_nat k -> (k <= 3)%nat ->
    ix' = [prefix (va + PAGE_SIZE) 1; prefix (va + PAGE_SIZE) 2;
           prefix (va + PAGE_SIZE) 3; prefix (va + PAGE_SIZE) 4] ->
    take k (path (va + PAGE_SIZE)) = take k (path va) ->
    cursor s (va + PAGE_SIZE) k (Iterator ts' ix' lv)) as Hmk.
  { intros k lv ix' ts' -> -> Hk -> Hp. split; [done|done|done|]. intros j Hj.
    replace j with (min j k) by lia. rewrite <- take_take, Hp, take_take.
    replace (min j k) with j by lia. apply Hr. lia. }
  unfold path in Hmk. change (3 - Z.of_nat 3) with 0.
  rewrite step_up_turn by done. change (lget _ 0) with (prefix va 1).
  destruct (prefix va 1 <? 511) eqn:Ea.
  { eexists 3%nat, _. split; [reflexivity|]. split; [lia|]. split; [|by left].
    injection Hn as H1 H2 H3 H4. apply Hmk; [done|done|lia|..]; by rewrite ?H1, ?H2, ?H3, ?H4. }
  change (0 <? 3) with true. cbv iota. rewrite step_up_turn by done.
  change (lget _ (0 + 1)) with (prefix va 2).
  destruct (prefix va 2 <? 511) eqn:Eb.
  { eexists 2%nat, _. split; [reflexivity|]. split; [lia|].
    split; [|right; bool_to_prop; lia].
    injection Hn as H1 H2 H3 H4. apply Hmk; [done|done|lia|..]; by rewrite ?H1, ?H2, ?H3, ?H4. }
  change (0 + 1 <? 3) with true. cbv iota. rewrite step_up_turn by done.
  change (lget _ (0 + 1 + 1)) with (prefix va 3).
  destruct (prefix va 3 <? 511) eqn:Ec.
  { eexists 1%nat, _. split; [reflexivity|]. split; [lia|].
    split; [|right; bool_to_prop; lia].
    injection Hn as H1 H2 H3 H4. apply Hmk; [done|done|lia|..]; by rewrite ?H1, ?H2, ?H3, ?H4. }
  change (0 + 1 + 1 <? 3) with true. cbv iota. rewrite step_up_turn by done.
  change (lget _ (0 + 1 + 1 + 1)) with (prefix va 4).
  destruct (prefix va 4 <? 511) eqn:Ed.
  { eexists 0%nat, _. split; [reflexivity|]. split; [lia|].
    split; [|right; bool_to_prop; lia].
    injection Hn as H1 H2 H3 H4. apply Hmk; [done|done|lia|..]; by rewrite ?H1, ?H2, ?H3, ?H4. }
  bool_to_prop. exfalso. apply Hlast, page48_last; lia.
Qed.

(** At the last page of the address space the iterator cannot move on. *)
Lemma step_up_last s va it :
  cursor s va 3 it -> page48 va = 2 ^ 36 - 1 ->
  step_up 4 it = Fail (AssertFailed "can't ascend from level 4 page iterator").
Proof.
  intros [Hl Hi _ _] Hlast. destruct it as [ts ix lv]. cbn in Hl, Hi. subst lv ix.
  assert (prefix va 1 = 511 /\ prefix va 2 = 511 /\ prefix va 3 = 511 /\ prefix va 4 = 511)
    as (H1 & H2 & H3 & H4).
  { unfold page48 in Hlast. rewrite !prefix_div by lia.
    change (2 ^ (12 + 9 * (4 - 1))) with (2 ^ 12 * 2 ^ 27).
    change (2 ^ (12 + 9 * (3 - 1))) with (2 ^ 12 * 2 ^ 18).
    change (2 ^ (12 + 9 * (2 - 1))) with (2 ^ 12 * 2 ^ 9).
    change (2 ^ (12 + 9 * (1 - 1))) with (2 ^ 12).
    rewrite <- !Z.div_div by lia. set (x := va / 2 ^ 12) in *. clearbody x. split_and!; zdiv. }
  rewrite H1, H2, H3, H4. reflexivity.
Qed.

Lemma step_down_spec n s va k it :
  wf s -> (k <= 3)%nat -> (3 <= n + k)%nat -> cursor s va k it -> (3 <= k + length (pool s))%nat ->
  exists it' s', step_down n s it = Ok (it', s') /\ wf s' /\ cursor s' va 3 it' /\
    same_entries s s' /\ root s' = root s /\ within s s' /\
    (length (pool s) + k <= length (pool s') + 3)%nat.
Proof.
  revert s k it. induction n as [|n IH]; intros s k it Hw Hk Hn Hc Hp; cbn [step_down];
    unfold level; rewrite (cursor_level _ _ _ _ Hc); destruct (_ =? 1) eqn:E; bool_to_prop.
  1,3: assert (k = 3%nat) as -> by lia; exists it, s; split_and!; [done..|lia].
  { lia. }
  pose proof (allocate_and_descend_spec s va k it Hw ltac:(lia) Hc) as Ha.
  destruct (allocate_and_descend s it) as [[it1 s1]|]; [|rewrite Ha in Hp; simpl in Hp; lia].
  destruct Ha as (Hw1 & Hc1 & He1 & Hr1 & Hi1 & l & Hl & Hll). cbn [mbind outcome_bind].
  apply (f_equal length) in Hl. rewrite length_app in Hl.
  destruct (IH s1 (S k) it1) as (it' & s' & -> & Hw' & Hc' & He' & Hr' & Hi' & Hp');
    [done|lia..|done|lia|].
  exists it', s'. split_and!; [done..| |congruence|by trans s1|lia]. intros v. by rewrite He', He1.
Qed.

(** ** [map_range] *)

(** The level-1 tables the iterator enters after the first one while it maps
    [n] pages, and the tables that can be missing on the way. *)
Definition crossings (va n : Z) : Z :=
  (va / PAGE_SIZE + n) / NUM_PAGE_TABLE_ENTRIES - va / PAGE_SIZE / NUM_PAGE_TABLE_ENTRIES.
Definition tables_needed (va n : Z) : Z := 3 * (1 + crossings va n).

Lemma crossings_step va n :
  0 <= n -> crossings va (n + 1) =
    (if decide (prefix va 1 = 511) then 1 else 0) + crossings (va + PAGE_SIZE) n.
Proof.
  intros Hn. unfold crossings. rewrite prefix_div by lia.
  change (2 ^ (12 + 9 * (1 - 1))) with PAGE_SIZE. unfold NUM_PAGE_TABLE_ENTRIES, PAGE_SIZE.
  replace (va + 4096) with (va + 1 * 4096) by lia. rewrite Z.div_add by lia.
  set (x := va / 4096). clearbody x. case_decide; zdiv.
Qed.

Lemma crossings_nonneg va n : 0 <= n -> 0 <= crossings va n.
Proof. intros. unfold crossings, NUM_PAGE_TABLE_ENTRIES. zdiv. Qed.

(** [n] pages from [va] on, all of which [virtual_page_address] gives back
    unchanged, and not ending at the very top of the address space. *)
Definition canonical_range (va n : Z) : Prop :=
  0 <= va /\ 0 <= n /\
  (va + n * PAGE_SIZE <= 2 ^ 41 \/
   (2 ^ 64 - 2 ^ 41 <= va /\ va + n * PAGE_SIZE < 2 ^ 64)).

Lemma canonical_range_at va n k :
  canonical_range va n -> va `mod` PAGE_SIZE = 0 -> 0 <= k < n ->
  canonical42 (va + k * PAGE_SIZE) /\ page_addr (va + k * PAGE_SIZE) /\
  page48 (va + k * PAGE_SIZE) = page48 va + k /\ page48 (va + k * PAGE_SIZE) < 2 ^ 36 - 1.
Proof.
  unfold canonical_range, canonical42, page_addr, page48, PAGE_SIZE.
  intros (? & ? & Hc) Ha Hk.
  destruct Hc; (split; [lia|]; split; [split; [lia|zdiv]|]; split; zdiv).
Qed.

Lemma canonical_range_tail va n :
  canonical_range va (n + 1) -> 0 <= n -> canonical_range (va + PAGE_SIZE) n.
Proof. unfold canonical_range, PAGE_SIZE. lia. Qed.

(** [s'] is [s] with the [n] pages from [va] on mapped to the [n] physical
    pages from [phys] on. *)
Definition maps_range (s s' : paging) (phys va n attrs : Z) : Prop :=
  wf s' /\ root s' = root s /\
  forall va', let k := page48 va' - page48 va in
    pte s' va' = if decide (0 <= k < n) then mapped_entry (phys + k * PAGE_SIZE) attrs
                 else pte s va'.

Definition unmapped_range (s : paging) (va n : Z) : Prop :=
  forall k, 0 <= k < n -> present_bit (pte s (va + k * PAGE_SIZE)) = false.

Lemma maps_range_0 s s' phys va attrs :
  wf s' -> root s' = root s -> same_entries s s' -> maps_range s s' phys va 0 attrs.
Proof. intros Hw Hr He. split_and!; [done..|]. intros va' k. case_decide; [lia|apply He]. Qed.

(** Mapping one page, then moving the iterator, then the rest. *)
Lemma maps_range_step s s1 s2 s3 phys va n attrs :
  va `mod` PAGE_SIZE = 0 -> canonical_range va (n + 1) -> 0 <= n ->
  updates s s1 va (mapped_entry phys attrs) -> same_entries s1 s2 -> root s2 = root s1 ->
  maps_range s2 s3 (phys + PAGE_SIZE) (va + PAGE_SIZE) n attrs ->
  maps_range s s3 phys va (n + 1) attrs.
Proof.
  intros Ha Hc Hn (Hw1 & Hr1 & Hu) He Hr2 (Hw3 & Hr3 & Hm). split_and!; [done|congruence|].
  intros va'. cbv zeta in *. rewrite Hm, He, Hu.
  assert (n = 0 \/ page48 (va + PAGE_SIZE) = page48 va + 1) as Hnext.
  { destruct (decide (n = 0)) as [|Hne]; [by left|right].
    replace (va + PAGE_SIZE) with (va + 1 * PAGE_SIZE) by lia.
    apply (canonical_range_at va (n + 1)); [done|done|lia]. }
  destruct Hnext as [->|Hnext].
  - case_decide; [lia|]. destruct (decide (page48 va = page48 va')) as [Heq|Hne].
    + rewrite Heq, Z.sub_diag. rewrite decide_True by lia. f_equal. lia.
    + rewrite decide_False by lia. done.
  - rewrite Hnext. destruct (decide (page48 va = page48 va')) as [Heq|Hne].
    + rewrite Heq, Z.sub_diag. rewrite decide_False, decide_True by lia. f_equal. lia.
    + repeat case_decide; (lia || done || (f_equal; lia)).
Qed.

Lemma unmapped_range_step s s1 s2 va n v :
  va `mod` PAGE_SIZE = 0 -> canonical_range va (n + 1) -> 0 <= n ->
  updates s s1 va v -> same_entries s1 s2 ->
  unmapped_range s va (n + 1) -> unmapped_range s2 (va + PAGE_SIZE) n.
Proof.
  intros Ha Hc Hn (_ & _ & Hu) He Hun k Hk. rewrite He, Hu.
  replace (va + PAGE_SIZE + k * PAGE_SIZE) with (va + (k + 1) * PAGE_SIZE) by lia.
  destruct (canonical_range_at va (n + 1) (k + 1) Hc Ha ltac:(lia)) as (_ & _ & -> & _).
  rewrite decide_False by lia. apply Hun. lia.
Qed.

Lemma map_range_loop_spec n s it phys va attrs :
  wf s -> cursor s va 3 it -> va `mod` PAGE_SIZE = 0 -> phys `mod` PAGE_SIZE = 0 ->
  0 <= phys -> phys + Z.of_nat n * PAGE_SIZE < 2 ^ 64 ->
  canonical_range va (Z.of_nat n) -> unmapped_range s va (Z.of_nat n) ->
  3 * crossings va (Z.of_nat n) <= zlen (pool s) ->
  exists s', map_range_loop n s it phys va (phys + Z.of_nat n * PAGE_SIZE) attrs = Ok s' /\
    maps_range s s' phys va (Z.of_nat n) attrs /\ within s s' /\
    zlen (pool s) <= zlen (pool s') + 3 * crossings va (Z.of_nat n).
Proof.
  revert s it phys va.
  induction n as [|n IH]; intros s it phys va Hw Hc Hva Hp Hp0 Hpn Hcr Hun Hpool;
    cbn [map_range_loop].
  { destruct (phys <? _) eqn:E; bool_to_prop; [lia|]. exists s. split; [done|].
    split; [by apply maps_range_0|]. split; [done|]. pose proof (crossings_nonneg va (Z.of_nat 0)). lia. }
  unfold zlen in *. rewrite Nat2Z.inj_succ in *. unfold Z.succ in *.
  assert (0 <= Z.of_nat n) as Hn0 by lia. unfold PAGE_SIZE in Hpn.
  assert ((phys <? phys + (Z.of_nat n + 1) * PAGE_SIZE) = true) as ->
    by (apply Z.ltb_lt; unfold PAGE_SIZE; lia).
  destruct (canonical_range_at va _ 0 Hcr Hva ltac:(lia)) as (Hc42 & Hpa & _ & Hlast).
  rewrite Z.add_0_r in *. rewrite crossings_step in * by done.
  pose proof (crossings_nonneg (va + PAGE_SIZE) (Z.of_nat n) Hn0) as Hcn.
  rewrite (cursor_virtual _ _ _ _ Hpa Hc), canonical42_swrap, Z.eqb_refl by done.
  cbn [assert_ mbind outcome_bind].
  pose proof (map_page_at_spec s va it phys attrs Hw Hc Hpa Hp) as Hm.
  specialize (Hun 0 ltac:(lia)) as Hun0. rewrite Z.add_0_r in Hun0. rewrite Hun0 in Hm.
  destruct Hm as (s1 & -> & Hu & Hpl1 & Hc1 & Hi1). cbn [mbind outcome_bind].
  destruct (step_up_spec s1 va it Hc1 ltac:(lia)) as (k & it1 & -> & Hk & Hc1' & Hk3).
  cbn [mbind outcome_bind].
  destruct (step_down_spec 3 s1 (va + PAGE_SIZE) k it1)
    as (it2 & s2 & -> & Hw2 & Hc2 & He2 & Hr2 & Hi2 & Hpl2); [apply Hu|done|lia|done|rewrite Hpl1; case_decide; lia|].
  cbn [mbind outcome_bind].
  rewrite (wrap_small 64 (phys + PAGE_SIZE)) by (unfold PAGE_SIZE; lia).
  assert (u64 (va + PAGE_SIZE) = va + PAGE_SIZE) as ->
    by (apply wrap_small; unfold canonical_range, PAGE_SIZE in *; lia).
  replace (phys + (Z.of_nat n + 1) * PAGE_SIZE)
    with (phys + PAGE_SIZE + Z.of_nat n * PAGE_SIZE) by lia.
  destruct (IH s2 it2 (phys + PAGE_SIZE) (va + PAGE_SIZE)) as (s3 & Hl & Hr3 & Hi3 & Hpl3).
  - done.
  - done.
  - unfold PAGE_SIZE in *. zdiv.
  - unfold PAGE_SIZE in *. zdiv.
  - unfold PAGE_SIZE. lia.
  - unfold PAGE_SIZE. lia.
  - by apply canonical_range_tail.
  - eapply (unmapped_range_step s s1 s2); eauto.
  - rewrite Hpl1 in Hpl2. case_decide; lia.
  - exists s3. split; [done|]. split; [eapply (maps_range_step s s1 s2 s3); eauto|].
    split; [by trans s2; [trans s1|]|].
    rewrite Hpl1 in Hpl2. case_decide; lia.
Qed.

(** ** Calls that returned

    What a returned call of [map_range] tells without assuming that its pages
    were free or that there were tables enough. *)

(** The invariant is kept and no table from elsewhere is linked in. *)
Definition sound (s s' : paging) : Prop := wf s' /\ within s s'.

Lemma sound_trans s1 s2 s3 : sound s1 s2 -> sound s2 s3 -> sound s1 s3.
Proof. intros [_ H1] [Hw H2]. split; [done|by trans s2]. Qed.

Lemma sound_refl s : wf s -> sound s s.
Proof. by split. Qed.

(** Nothing that was present changes either. *)
Definition keeps_tables (s s' : paging) : Prop :=
  wf s' /\ within s s' /\ forall va, present_bit (pte s va) = true -> pte s' va = pte s va.

Lemma keeps_tables_refl s : wf s -> keeps_tables s s.
Proof. intros Hw. split; [done|]. by split. Qed.

Lemma keeps_tables_trans s1 s2 s3 : keeps_tables s1 s2 -> keeps_tables s2 s3 -> keeps_tables s1 s3.
Proof.
  intros (_ & Hi1 & H1) (Hw & Hi2 & H2). split_and!; [done|by trans s2|].
  intros va Hp. rewrite H2; rewrite H1; done.
Qed.

Lemma keeps_tables_same s s' : wf s' -> within s s' -> same_entries s s' -> keeps_tables s s'.
Proof. intros Hw Hi He. split_and!; [done..|]. intros va _. apply He. Qed.

Lemma keeps_tables_sound s s' : keeps_tables s s' -> sound s s'.
Proof. intros (Hw & Hi & _). by split. Qed.

Lemma get_Ok s va it s' :
  wf s -> get s va = Ok (it, s') -> keeps_tables s s' /\ cursor s' va 3 it.
Proof.
  intros Hw H. pose proof (get_spec s va Hw) as Hg. rewrite H in Hg.
  destruct Hg as (Hw' & Hc & He & _ & Hi & _). split; [|done]. by apply keeps_tables_same.
Qed.

Lemma map_page_at_Ok s va it phys attrs r s' :
  wf s -> cursor s va 3 it -> page_addr va -> map_page_at s phys it attrs = Ok (r, s') ->
  keeps_tables s s' /\ cursor s' va 3 it.
Proof.
  intros Hw Hc Hva H. assert (phys `mod` PAGE_SIZE = 0) as Hp.
  { unfold map_page_at in H. apply bind_Ok in H as (u1 & _ & H).
    apply bind_Ok in H as (u2 & Hp & _). apply assert_Ok in Hp. by bool_to_prop. }
  pose proof (map_page_at_spec s va it phys attrs Hw Hc Hva Hp) as Hm.
  destruct (present_bit (pte s va)) eqn:E; [congruence|].
  destruct Hm as (s1 & Hm & (Hw1 & _ & Hu) & _ & Hc1 & Hi). rewrite Hm in H. simplify_eq.
  split; [|done]. split_and!; [done..|]. intros va' Hp'. rewrite Hu. case_decide as Hd; [|done].
  assert (pte s va = pte s va') as Heq.
  { apply path_page48 in Hd as [H1 H2]. unfold pte. by rewrite H1, H2. }
  congruence.
Qed.

Lemma map_page_keeps s phys va attrs r s' :
  wf s -> 0 <= va < 2 ^ 64 -> map_page s phys va attrs = Ok (r, s') -> keeps_tables s s'.
Proof.
  intros Hw Hr H. unfold map_page in H. apply bind_Ok in H as (u & Ha & H).
  apply assert_Ok in Ha. bool_to_prop. apply bind_Ok in H as ([it s1] & Hg & H).
  destruct (get_Ok s va it s1 Hw Hg) as [Hk Hc]. eapply keeps_tables_trans; [exact Hk|].
  eapply map_page_at_Ok; [apply Hk|exact Hc|by split|exact H].
Qed.

Lemma step_down_Ok n s va k it it' s' :
  wf s -> (k <= 3)%nat -> cursor s va k it -> step_down n s it = Ok (it', s') ->
  keeps_tables s s' /\ cursor s' va 3 it'.
Proof.
  revert s k it. induction n as [|n IH]; intros s k it Hw Hk Hc H; cbn [step_down] in H;
    unfold level in H; rewrite (cursor_level _ _ _ _ Hc) in H; destruct (_ =? 1) eqn:E; bool_to_prop.
  1,3: assert (k = 3%nat) as -> by lia; simplify_eq; split; [by apply keeps_tables_refl|done].
  { done. }
  apply bind_Ok in H as ([it1 s1] & Ha & H).
  pose proof (allocate_and_descend_spec s va k it Hw ltac:(lia) Hc) as Hs. rewrite Ha in Hs.
  destruct Hs as (Hw1 & Hc1 & He1 & _ & Hi1 & _).
  destruct (IH s1 (S k) it1 Hw1 ltac:(lia) Hc1 H) as [Hk1 Hc'].
  split; [|done]. eapply keeps_tables_trans; [by apply keeps_tables_same|done].
Qed.

Lemma map_range_loop_Ok n s it p v va end_ attrs s' :
  wf s -> cursor s va 3 it -> page_addr va -> map_range_loop n s it p v end_ attrs = Ok s' ->
  keeps_tables s s'.
Proof.
  revert s it p v va. induction n as [|n IH]; intros s it p v va Hw Hc Hva H;
    cbn [map_range_loop] in H; destruct (p <? end_); simplify_eq; try by apply keeps_tables_refl.
  apply bind_Ok in H as (u & _ & H). apply bind_Ok in H as ([r s1] & Hm & H).
  apply bind_Ok in H as (it1 & Hu & H). apply bind_Ok in H as ([it2 s2] & Hd & H).
  destruct (map_page_at_Ok s va it p attrs r s1 Hw Hc Hva Hm) as [Hk1 Hc1].
  destruct (decide (page48 va = 2 ^ 36 - 1)) as [Hl|Hl].
  { rewrite (step_up_last _ _ _ Hc1 Hl) in Hu. done. }
  destruct (step_up_spec s1 va it Hc1 Hl) as (k & it1' & Hu' & Hk & Hc1' & _).
  rewrite Hu in Hu'. simplify_eq.
  destruct (step_down_Ok 3 s1 _ k it1' it2 s2 ltac:(apply Hk1) Hk Hc1' Hd) as [Hk2 Hc2].
  eapply keeps_tables_trans; [exact Hk1|]. eapply keeps_tables_trans; [exact Hk2|].
  eapply IH; [apply Hk2|exact Hc2| |exact H].
  destruct Hva as [Hr Ha]. unfold page48, page_addr, PAGE_SIZE in *. split; zdiv.
Qed.

Lemma map_range_Ok s ps pe vs ve attrs r s' :
  wf s -> 0 <= vs < 2 ^ 64 -> map_range s ps pe vs ve attrs = Ok (r, s') -> keeps_tables s s' /\ r = vs.
Proof.
  intros Hw Hv H. unfold map_range in H. apply bind_Ok in H as (u1 & Ha & H).
  apply assert_Ok, andb_true_iff in Ha as [Ha _]. bool_to_prop.
  apply bind_Ok in H as (u2 & _ & H). apply bind_Ok in H as (u3 & _ & H).
  apply bind_Ok in H as ([it s1] & Hg & H). apply bind_Ok in H as (s2 & Hl & H). simplify_eq.
  destruct (get_Ok s r it s1 Hw Hg) as [Hk Hc]. split; [|done].
  eapply keeps_tables_trans; [exact Hk|].
  eapply map_range_loop_Ok; [apply Hk|exact Hc|by split|exact Hl].
Qed.

Lemma identity_map_range_Ok s phys size attrs r s' :
  wf s -> identity_map_page_range_into_kernel_space s phys size attrs = Ok (r, s') ->
  keeps_tables s s' /\ r = kernel_ptr phys.
Proof.
  intros Hw H. unfold identity_map_page_range_into_kernel_space, map_range_size in H.
  apply bind_Ok in H as (size' & _ & H). eapply map_range_Ok; [done| |exact H]. apply wrap_range. lia.
Qed.

Lemma identity_map_Ok s phys n attrs r s' :
  wf s -> identity_map_pages_into_kernel_space s phys n attrs = Ok (r, s') ->
  keeps_tables s s' /\ r = kernel_ptr phys.
Proof.
  intros Hw H. unfold identity_map_pages_into_kernel_space in H. apply bind_Ok in H as (u & _ & H).
  by eapply identity_map_range_Ok.
Qed.

(** Rewriting attributes of pages, as [enable_kernel_page_protection] does. *)
Lemma protect_page_Ok s c b1 b2 m1 m2 f s' :
  wf s -> protect_page s c b1 b2 m1 m2 f = Ok s' -> sound s s'.
Proof.
  intros Hw H. unfold protect_page in H. apply bind_Ok in H as (it & Hf & H).
  apply bind_Ok in H as (u1 & Ha & H). apply assert_Ok, andb_true_iff in Ha as [Ha _].
  apply bind_Ok in H as (p & _ & H). apply bind_Ok in H as (u2 & _ & H).
  apply bind_Ok in H as (e & _ & H).
  pose proof (find_spec s c Hw) as Hs. destruct (walk _ _ _).
  - destruct Hs as (it' & Hf' & Hc & _). rewrite Hf in Hf'. simplify_eq.
    destruct (cursor_store s c it' (f e) Hw Hc) as (s1 & Hst & (Hw1 & _) & _ & Hi).
    rewrite Hst in H. simplify_eq. by split.
  - rewrite Hf in Hs. by simplify_eq.
Qed.

Lemma protect_range_Ok n s c end_ b1 b2 m1 m2 f s' :
  wf s -> protect_range n s c end_ b1 b2 m1 m2 f = Ok s' -> sound s s'.
Proof.
  revert s c. induction n as [|n IH]; intros s c Hw H; cbn [protect_range] in H;
    destruct (c =? end_); simplify_eq; try by split.
  apply bind_Ok in H as (s1 & Hp & H). apply protect_page_Ok in Hp; [|done].
  eapply sound_trans; [exact Hp|]. eapply IH; [apply Hp|exact H].
Qed.

Lemma protect_kernel_pages_Ok s g base s' :
  wf s -> protect_kernel_pages s g base = Ok s' -> sound s s'.
Proof.
  intros Hw H. unfold protect_kernel_pages, protect_segment in H.
  apply bind_Ok in H as (s1 & H1 & H). apply protect_range_Ok in H1; [|done].
  apply bind_Ok in H as (s2 & H2 & H). apply protect_range_Ok in H2; [|apply H1].
  apply bind_Ok in H as (s3 & H3 & H). apply protect_range_Ok in H3; [|apply H2].
  apply bind_Ok in H as (s4 & H4 & H). apply protect_range_Ok in H4; [|apply H3].
  apply bind_Ok in H as (u & _ & H).
  apply bind_Ok in H as (s5 & H5 & H). apply protect_range_Ok in H5; [|apply H4].
  apply bind_Ok in H as (s6 & H6 & H). apply protect_page_Ok in H6; [|apply H5].
  apply bind_Ok in H as (l & _ & H). simplify_eq.
  do 5 (eapply sound_trans; [eassumption|]). exact H6.
Qed.

(** ** Lookup and removal *)

Lemma pte_page48 s va va' : page48 va = page48 va' -> pte s va = pte s va'.
Proof. intros H. apply path_page48 in H as [H1 H2]. unfold pte. by rewrite H1, H2. Qed.

(** An entry with the present bit is found at level 1. *)
Lemma find_present s va :
  wf s -> present_bit (pte s va) = true -> exists it, find s va = Ok it /\ cursor s va 3 it.
Proof.
  intros Hw Hp. pose proof (find_spec s va Hw) as Hf. unfold pte in Hp.
  destruct (walk (mem s) (root s) (path va)); [naive_solver|done].
Qed.

(** Without it, lookup ends at a level-1 entry that is not present or at the
    end iterator. *)
Lemma find_absent s va :
  wf s -> present_bit (pte s va) = false ->
  find s va = Ok (iterator_end 4) \/ exists it, find s va = Ok it /\ cursor s va 3 it.
Proof.
  intros Hw Hp. pose proof (find_spec s va Hw) as Hf.
  destruct (walk (mem s) (root s) (path va)); [naive_solver|by left].
Qed.

Lemma unmap_page_cases s va :
  wf s -> va `mod` PAGE_SIZE = 0 ->
  if present_bit (pte s va) then
    exists s', unmap_page s va = Ok s' /\
      updates s s' va (Z.land (pte s va) (wnot 64 PRESENT)) /\ pool s' = pool s
  else unmap_page s va = Fail (Panic "Tried to unmap non-present page").
Proof.
  intros Hw Ha. unfold unmap_page. rewrite Ha. change (0 =? 0) with true.
  cbn [assert_ mbind outcome_bind]. destruct (present_bit (pte s va)) eqn:Ep.
  - destruct (find_present s va Hw Ep) as (it & -> & Hc). cbn [mbind outcome_bind].
    rewrite (cursor_not_end _ _ _ Hc), (cursor_exists _ _ _ _ Hw Hc),
      (cursor_present _ _ _ Hw Hc), Ep. cbn [orb negb mbind outcome_bind].
    rewrite (cursor_load s va 3 it Hw ltac:(reflexivity) Hc). cbn [mbind outcome_bind].
    rewrite (cursor_pte _ _ _ Hc).
    destruct (cursor_store s va it (Z.land (pte s va) (wnot 64 PRESENT)) Hw Hc) as (s' & Hs & Hu & Hp & _).
    by exists s'.
  - destruct (find_absent s va Hw Ep) as [->|(it & -> & Hc)]; cbn [mbind outcome_bind]; [done|].
    by rewrite (cursor_not_end _ _ _ Hc), (cursor_exists _ _ _ _ Hw Hc),
      (cursor_present _ _ _ Hw Hc), Ep.
Qed.

Lemma page_of_spec va : 0 <= va < 2 ^ 64 -> page_of va = va - va `mod` PAGE_SIZE.
Proof.
  intros Hv. unfold page_of, PAGE_SIZE.
  assert (u64 (- (0x1000)) = Z.shiftl (Z.ones 52) 12) as -> by done.
  replace va with (Z.lor (Z.shiftl (va / 2 ^ 12) 12) (va `mod` 2 ^ 12)) at 1.
  2: { rewrite lor_shiftl by (zdiv || lia). zdiv. }
  rewrite Z.land_comm, Z.land_lor_distr_r, <- Z.shiftl_land.
  rewrite (Z.land_comm (Z.ones 52)), Z.land_ones by lia.
  replace (Z.land (Z.shiftl (Z.ones 52) 12) (va `mod` 2 ^ 12)) with 0.
  - rewrite Z.lor_0_r, Z.shiftl_mul_pow2 by lia. zdiv.
  - symmetry. apply Z.bits_inj'. intros i Hi. rewrite Z.land_spec, Z.testbit_0_l.
    destruct (Z.lt_ge_cases i 12).
    + rewrite Z.shiftl_spec_low by lia. done.
    + rewrite Z.mod_pow2_bits_high by lia. apply andb_false_r.
Qed.

Lemma page_of_page48 va : 0 <= va < 2 ^ 64 -> page48 (page_of va) = page48 va.
Proof. intros. rewrite page_of_spec by done. unfold page48, PAGE_SIZE. zdiv. Qed.

(** [get_physical_address] on every branch. *)
Lemma get_physical_address_cases s va :
  wf s -> 0 <= va < 2 ^ 64 ->
  if present_bit (pte s va) then
    get_physical_address s va = Ok (u64 (Z.land (pte s va) ADDRESS_MASK + va `mod` PAGE_SIZE))
  else exists msg, get_physical_address s va = Fail (AssertFailed msg).
Proof.
  intros Hw Hv. unfold get_physical_address.
  assert (va - page_of va = va `mod` PAGE_SIZE) as -> by (rewrite page_of_spec; lia).
  rewrite <- (pte_page48 s (page_of va) va (page_of_page48 va Hv)).
  set (pg := page_of va). destruct (present_bit (pte s pg)) eqn:Ep.
  - destruct (find_present s pg Hw Ep) as (it & -> & Hc). cbn [mbind outcome_bind].
    rewrite (cursor_not_end _ _ _ Hc), (cursor_present _ _ _ Hw Hc), Ep.
    cbn [negb assert_ mbind outcome_bind]. unfold physical_page_address, level.
    rewrite (cursor_level _ _ _ _ Hc), (cursor_load s pg 3 it Hw ltac:(reflexivity) Hc),
      (cursor_pte _ _ _ Hc). done.
  - destruct (find_absent s pg Hw Ep) as [->|(it & -> & Hc)]; cbn [mbind outcome_bind].
    + by eexists.
    + rewrite (cursor_not_end _ _ _ Hc), (cursor_present _ _ _ Hw Hc), Ep. by eexists.
Qed.

(** The address bits of an entry built by [map_page] are the physical page. *)
Lemma mapped_entry_address phys attrs :
  0 <= phys < 2 ^ 52 -> phys `mod` PAGE_SIZE = 0 -> Z.land attrs ADDRESS_MASK = 0 ->
  Z.land (mapped_entry phys attrs) ADDRESS_MASK = phys.
Proof.
  intros Hp Ha Hat. unfold mapped_entry. rewrite !Z.land_lor_distr_l, Hat.
  change (Z.land PRESENT ADDRESS_MASK) with 0. rewrite !Z.lor_0_r.
  change ADDRESS_MASK with (Z.shiftl (Z.ones 40) 12).
  unfold PAGE_SIZE in Ha.
  replace phys with (Z.shiftl (phys / 2 ^ 12) 12) at 1
    by (rewrite Z.shiftl_mul_pow2 by lia; zdiv).
  rewrite <- Z.shiftl_land, Z.land_ones, Z.shiftl_mul_pow2 by lia. zdiv.
Qed.

(** ** [unmap_range] *)

Definition unmaps_range (s s' : paging) (va n : Z) : Prop :=
  wf s' /\ root s' = root s /\
  forall va', let k := page48 va' - page48 va in
    pte s' va' = if decide (0 <= k < n) then Z.land (pte s va') (wnot 64 PRESENT)
                 else pte s va'.

Definition mapped_range (s : paging) (va n : Z) : Prop :=
  forall k, 0 <= k < n -> present_bit (pte s (va + k * PAGE_SIZE)) = true.

Lemma unmap_range_loop_spec n s va :
  wf s -> va `mod` PAGE_SIZE = 0 -> canonical_range va (Z.of_nat n) ->
  mapped_range s va (Z.of_nat n) ->
  exists s', unmap_range_loop n s va (va + Z.of_nat n * PAGE_SIZE) = Ok s' /\
    unmaps_range s s' va (Z.of_nat n) /\ pool s' = pool s.
Proof.
  revert s va. induction n as [|n IH]; intros s va Hw Hva Hcr Hmp; cbn [unmap_range_loop].
  { rewrite Z.add_0_r, Z.eqb_refl. exists s. split_and!; [done| |done].
    split_and!; [done..|]. intros va' k. case_decide; [lia|done]. }
  rewrite Nat2Z.inj_succ in *. unfold Z.succ in *.
  assert (0 <= Z.of_nat n) as Hn0 by lia.
  assert ((va =? va + (Z.of_nat n + 1) * PAGE_SIZE) = false) as ->
    by (apply Z.eqb_neq; unfold PAGE_SIZE; lia).
  pose proof (unmap_page_cases s va Hw Hva) as Hu.
  specialize (Hmp 0 ltac:(lia)) as Hp0. rewrite Z.add_0_r in Hp0. rewrite Hp0 in Hu.
  destruct Hu as (s1 & -> & (Hw1 & Hr1 & Hu) & Hpl). cbn [mbind outcome_bind].
  assert (u64 (va + PAGE_SIZE) = va + PAGE_SIZE) as ->
    by (apply wrap_small; unfold canonical_range, PAGE_SIZE in *; lia).
  replace (va + (Z.of_nat n + 1) * PAGE_SIZE)
    with (va + PAGE_SIZE + Z.of_nat n * PAGE_SIZE) by lia.
  assert (forall k, 0 <= k < Z.of_nat n ->
    page48 (va + PAGE_SIZE + k * PAGE_SIZE) = page48 va + k + 1) as Hpg.
  { intros k Hk. replace (va + PAGE_SIZE + k * PAGE_SIZE) with (va + (k + 1) * PAGE_SIZE) by lia.
    destruct (canonical_range_at va _ (k + 1) Hcr Hva ltac:(lia)) as (_ & _ & -> & _). lia. }
  destruct (IH s1 (va + PAGE_SIZE)) as (s2 & Hl & (Hw2 & Hr2 & Hm) & Hpl2).
  - done.
  - unfold PAGE_SIZE in *. zdiv.
  - by apply canonical_range_tail.
  - intros k Hk. rewrite Hu, (Hpg k Hk), decide_False by lia.
    replace (va + PAGE_SIZE + k * PAGE_SIZE) with (va + (k + 1) * PAGE_SIZE) by lia.
    apply Hmp. lia.
  - exists s2. split; [done|]. split; [|congruence]. split_and!; [done|congruence|].
    intros va'. cbv zeta in *. rewrite Hm, Hu.
    destruct (decide (n = 0%nat)) as [->|Hne].
    + rewrite decide_False by lia. destruct (decide (page48 va = page48 va')) as [Heq|].
      * rewrite Heq, Z.sub_diag, decide_True by lia. by rewrite (pte_page48 s va va').
      * by rewrite decide_False by lia.
    + specialize (Hpg 0 ltac:(lia)). rewrite Z.add_0_r in Hpg. rewrite Hpg.
      destruct (decide (page48 va = page48 va')) as [Heq|].
      * rewrite Heq, Z.sub_diag, decide_False, decide_True by lia. by rewrite (pte_page48 s va va').
      * repeat case_decide; (lia || done).
Qed.

Lemma map_range_spec s phys va n attrs :
  wf s -> va `mod` PAGE_SIZE = 0 -> phys `mod` PAGE_SIZE = 0 ->
  0 <= phys -> phys + n * PAGE_SIZE < 2 ^ 64 -> canonical_range va n ->
  unmapped_range s va n -> tables_needed va n <= zlen (pool s) ->
  exists s', map_range s phys (phys + n * PAGE_SIZE) va (va + n * PAGE_SIZE) attrs = Ok (va, s') /\
    maps_range s s' phys va n attrs /\ within s s' /\
    zlen (pool s) <= zlen (pool s') + tables_needed va n.
Proof.
  intros Hw Hva Hp Hp0 Hpn Hcr Hun Hpool. assert (0 <= n) as Hn by apply Hcr.
  unfold map_range. rewrite Hva, Hp.
  assert ((va + n * PAGE_SIZE) `mod` PAGE_SIZE = 0) as -> by (unfold PAGE_SIZE in *; zdiv).
  assert ((phys + n * PAGE_SIZE) `mod` PAGE_SIZE = 0) as -> by (unfold PAGE_SIZE in *; zdiv).
  rewrite !Z.add_simpl_l, !Z.eqb_refl. cbn [andb assert_ mbind outcome_bind].
  pose proof (crossings_nonneg va n Hn) as Hcn. unfold tables_needed, zlen in *.
  pose proof (get_spec s va Hw) as Hg. destruct (get s va) as [[it s1]|]; [|lia].
  destruct Hg as (Hw1 & Hc1 & He1 & Hr1 & Hi1 & Hl1). cbn [mbind outcome_bind].
  assert (n * PAGE_SIZE / PAGE_SIZE = n) as -> by (unfold PAGE_SIZE; zdiv).
  destruct (map_range_loop_spec (Z.to_nat n) s1 it phys va attrs) as (s' & Hl & Hm & Hi & Hpl);
    rewrite ?Z2Nat.id by done; try done.
  - intros k Hk. rewrite He1. by apply Hun.
  - unfold zlen. lia.
  - rewrite Z2Nat.id in Hl, Hm, Hpl by done. rewrite Hl. exists s'. split; [done|].
    destruct Hm as (Hw' & Hr' & Hm). split; [|split; [by trans s1|unfold zlen in *; lia]]. split_and!; [done|congruence|].
    intros va'. cbv zeta in *. by rewrite Hm, He1.
Qed.

Lemma unmap_range_spec s va n :
  wf s -> va `mod` PAGE_SIZE = 0 -> canonical_range va n -> mapped_range s va n ->
  exists s', unmap_range s va (va + n * PAGE_SIZE) = Ok s' /\
    unmaps_range s s' va n /\ pool s' = pool s.
Proof.
  intros Hw Hva Hcr Hmp. assert (0 <= n) as Hn by apply Hcr.
  unfold unmap_range. rewrite Hva.
  assert ((va + n * PAGE_SIZE) `mod` PAGE_SIZE = 0) as -> by (unfold PAGE_SIZE in *; zdiv).
  rewrite Z.eqb_refl, Z.add_simpl_l. cbn [assert_ mbind outcome_bind].
  rewrite wrap_small by (unfold canonical_range, PAGE_SIZE in *; lia).
  assert (n * PAGE_SIZE / PAGE_SIZE = n) as -> by (unfold PAGE_SIZE; zdiv).
  destruct (unmap_range_loop_spec (Z.to_nat n) s va) as (s' & Hl & Hm & Hpl);
    rewrite ?Z2Nat.id by done; try done.
  rewrite Z2Nat.id in Hl, Hm by done. eauto.
Qed.

(** Translating inside a page the state maps. *)
Lemma translate_mapped s va phys attrs :
  wf s -> 0 <= va < 2 ^ 64 -> 0 <= phys < 2 ^ 52 -> phys `mod` PAGE_SIZE = 0 ->
  Z.land attrs ADDRESS_MASK = 0 -> pte s va = mapped_entry phys attrs ->
  get_physical_address s va = Ok (phys + va `mod` PAGE_SIZE).
Proof.
  intros Hw Hv Hp Ha Hat He. pose proof (get_physical_address_cases s va Hw Hv) as Hg.
  rewrite He, mapped_entry_present, mapped_entry_address in Hg by done. rewrite Hg. f_equal.
  apply wrap_small. pose proof (Z.mod_pos_bound va PAGE_SIZE ltac:(done)).
  unfold PAGE_SIZE in *. lia.
Qed.

(** A mapped range translates byte by byte. *)
Lemma maps_range_translates s s' phys va n attrs off :
  maps_range s s' phys va n attrs -> va `mod` PAGE_SIZE = 0 -> phys `mod` PAGE_SIZE = 0 ->
  0 <= phys -> phys + n * PAGE_SIZE <= 2 ^ 52 -> canonical_range va n ->
  Z.land attrs ADDRESS_MASK = 0 -> 0 <= off < n * PAGE_SIZE ->
  get_physical_address s' (va + off) = Ok (phys + off).
Proof.
  intros (Hw' & _ & Hmap) Hva Hp Hp0 Hpn Hcr Hat Hoff.
  set (k := off / PAGE_SIZE).
  assert (0 <= k < n /\ 0 <= k * PAGE_SIZE <= off /\
    (va + off) `mod` PAGE_SIZE = off - k * PAGE_SIZE) as (Hk & Hko & Hmod)
    by (unfold k, PAGE_SIZE in *; zdiv).
  assert (page48 (va + off) = page48 va + k) as Hpg.
  { destruct (canonical_range_at va n k Hcr Hva Hk) as (_ & _ & <- & _).
    unfold page48, k, PAGE_SIZE in *. zdiv. }
  replace (phys + off) with ((phys + k * PAGE_SIZE) + (va + off) `mod` PAGE_SIZE) by lia.
  apply translate_mapped with (attrs := attrs); try done.
  - unfold canonical_range, PAGE_SIZE in *. lia.
  - unfold PAGE_SIZE in *. lia.
  - unfold PAGE_SIZE in *. zdiv.
  - rewrite Hmap, Hpg. cbv zeta. rewrite decide_True by lia. f_equal. lia.
Qed.

(** ** Properties *)

Definition boot : paging := early_init sample_layout.

Lemma boot_state_wf : wf boot.
Proof. apply boot_wf, sample_layout_ok. Qed.

(** [C3] [map_page] on a page of the range the iterator can report: it panics
    when the page is already present; otherwise it returns the virtual address,
    the page's entry becomes [phys | attrs | PRESENT], the entry of every other
    page is unchanged, the tree invariant still holds and at most three tables
    are taken from the pool. *)
Theorem map_page_correct s phys va attrs
    (Hw : wf s) (Hva : page_addr va) (Hc : canonical42 va) (Hp : phys `mod` PAGE_SIZE = 0)
    (Hpool : 3 <= zlen (pool s)) :
  if present_bit (pte s va) then
    map_page s phys va attrs = Fail (Panic "Tried to map already-present page!")
  else exists s', map_page s phys va attrs = Ok (va, s') /\ wf s' /\ root s' = root s /\
    (forall va', pte s' va' =
       if decide (page48 va = page48 va') then mapped_entry phys attrs else pte s va') /\
    zlen (pool s) <= zlen (pool s') + 3.
Proof.
  unfold zlen in *. pose proof (map_page_get s phys va attrs Hw Hva Hp ltac:(lia)) as Hm.
  rewrite canonical42_swrap in Hm by done. destruct (present_bit _); [done|].
  destruct Hm as (s' & Hm & (Hw' & Hr' & Hu) & Hl). exists s'. split_and!; try done. lia.
Qed.

Lemma map_page_correct_witness :
  exists s', map_page boot 0x200000 0x40000000 (Z.lor RW XD) = Ok (0x40000000, s') /\ wf s'.
Proof.
  pose proof (map_page_correct boot 0x200000 0x40000000 (Z.lor RW XD) boot_state_wf
    ltac:(split; [lia|reflexivity]) ltac:(left; lia) ltac:(reflexivity)
    ltac:(vm_compute; discriminate)) as H.
  replace (present_bit (pte boot 0x40000000)) with false in H by (vm_compute; reflexivity).
  destruct H as (s' & H1 & H2 & _). exists s'. split; assumption.
Defined.

(** [C1] [map_range] over [n] unmapped pages of a canonical range, the lowest or the
    highest 2 TiB of the address space without its last page, to page-aligned physical
    memory that ends below 2^64, with as many tables left in the pool as the range can
    need ([tables_needed], three for each 512 pages entered): it maps exactly those
    pages, page [k] of the virtual range to page [k] of the physical range, every
    other entry and the tree invariant are kept, and the virtual start is returned;
    the loop ends, and no assertion in it fires.  Between 2 and 4 TiB, where the
    address-space allocator hands out addresses too, an assertion does fire:
    [map_above_2TiB]. *)
Theorem map_range_correct s phys va n attrs
    (Hw : wf s) (Hva : va `mod` PAGE_SIZE = 0) (Hp : phys `mod` PAGE_SIZE = 0)
    (Hp0 : 0 <= phys) (Hpn : phys + n * PAGE_SIZE < 2 ^ 64)
    (Hcr : canonical_range va n) (Hun : unmapped_range s va n)
    (Hpool : tables_needed va n <= zlen (pool s)) :
  exists s', map_range s phys (phys + n * PAGE_SIZE) va (va + n * PAGE_SIZE) attrs = Ok (va, s') /\
    maps_range s s' phys va n attrs.
Proof.
  destruct (map_range_spec s phys va n attrs) as (s' & ? & ? & _); [done..|]. by exists s'.
Qed.

Lemma map_range_correct_witness :
  exists s', map_range boot 0x200000 0x201000 0x40000000 0x40001000 RW = Ok (0x40000000, s') /\
    maps_range boot s' 0x200000 0x40000000 1 RW.
Proof.
  apply (map_range_correct boot 0x200000 0x40000000 1 RW boot_state_wf); try done.
  - unfold canonical_range, PAGE_SIZE. lia.
  - intros k Hk. replace k with 0 by lia. vm_compute. reflexivity.
Defined.

(** [C2] Address translation after [map_range]: every byte address of the
    mapped range, and not only the start of each page, translates to the
    physical address at the same offset. *)
Theorem map_range_translates s phys va n attrs off
    (Hw : wf s) (Hva : va `mod` PAGE_SIZE = 0) (Hp : phys `mod` PAGE_SIZE = 0)
    (Hp0 : 0 <= phys) (Hpn : phys + n * PAGE_SIZE <= 2 ^ 52)
    (Hcr : canonical_range va n) (Hun : unmapped_range s va n)
    (Hat : Z.land attrs ADDRESS_MASK = 0)
    (Hpool : tables_needed va n <= zlen (pool s)) (Hoff : 0 <= off < n * PAGE_SIZE) :
  exists s', map_range s phys (phys + n * PAGE_SIZE) va (va + n * PAGE_SIZE) attrs = Ok (va, s') /\
    get_physical_address s' (va + off) = Ok (phys + off).
Proof.
  destruct (map_range_spec s phys va n attrs) as (s' & Hm & Hmap & _); try done.
  { unfold PAGE_SIZE in *. lia. }
  exists s'. split; [done|]. by apply (maps_range_translates s s' phys va n attrs).
Qed.

Lemma map_range_translates_witness :
  exists s', map_range boot 0x200000 0x201000 0x40000000 0x40001000 RW = Ok (0x40000000, s') /\
    get_physical_address s' 0x40000123 = Ok 0x200123.
Proof.
  apply (map_range_translates boot 0x200000 0x40000000 1 RW 0x123 boot_state_wf); try done.
  - unfold canonical_range, PAGE_SIZE. lia.
  - intros k Hk. replace k with 0 by lia. vm_compute. reflexivity.
Defined.

Lemma land_not_present e : present_bit (Z.land e (wnot 64 PRESENT)) = false.
Proof.
  rewrite present_bit_testbit, Z.land_spec, wnot_testbit by lia.
  change (Z.testbit PRESENT 0) with true. btauto.
Qed.

(** [C4] [unmap_page]: it panics when the page has no present entry; otherwise
    the page no longer translates, its entry keeps everything but the present
    bit, and every other entry and the table pool are unchanged. *)
Theorem unmap_page_correct s va (Hw : wf s) (Hva : page_addr va) :
  if present_bit (pte s va) then
    exists s', unmap_page s va = Ok s' /\ wf s' /\ pool s' = pool s /\
      (forall va', pte s' va' = if decide (page48 va = page48 va')
        then Z.land (pte s va) (wnot 64 PRESENT) else pte s va') /\
      (forall off, 0 <= off < PAGE_SIZE ->
         exists msg, get_physical_address s' (va + off) = Fail (AssertFailed msg))
  else unmap_page s va = Fail (Panic "Tried to unmap non-present page").
Proof.
  destruct Hva as [Hr Ha]. pose proof (unmap_page_cases s va Hw Ha) as Hu.
  destruct (present_bit (pte s va)); [|done].
  destruct Hu as (s' & -> & (Hw' & _ & Hu) & Hpl). exists s'. split_and!; try done.
  intros off Hoff. pose proof (get_physical_address_cases s' (va + off) Hw'
    ltac:(unfold PAGE_SIZE in *; zdiv)) as Hg.
  rewrite Hu, decide_True, land_not_present in Hg by (unfold page48, PAGE_SIZE in *; zdiv).
  done.
Qed.

Lemma unmap_page_correct_witness :
  exists s', unmap_page boot 0x1000 = Ok s' /\ pte s' 0x2000 = pte boot 0x2000.
Proof.
  pose proof (unmap_page_correct boot 0x1000 boot_state_wf ltac:(split; [lia|reflexivity])) as H.
  replace (present_bit (pte boot 0x1000)) with true in H by (vm_compute; reflexivity).
  destruct H as (s' & H1 & _ & _ & H2 & _). exists s'. split; [assumption|]. rewrite H2. reflexivity.
Defined.

Lemma mapped_after_map s s' phys va n attrs :
  va `mod` PAGE_SIZE = 0 -> canonical_range va n -> maps_range s s' phys va n attrs ->
  mapped_range s' va n.
Proof.
  intros Hva Hcr (_ & _ & Hm) k Hk. rewrite Hm. cbv zeta.
  destruct (canonical_range_at va n k Hcr Hva Hk) as (_ & _ & -> & _).
  rewrite decide_True by lia. apply mapped_entry_present.
Qed.

(** [C5] Mapping an unmapped canonical range (the lowest or the highest 2 TiB, not
    what lies between: [map_above_2TiB]) to physical memory that ends below 2^64, with
    as many tables left as the range can need, and unmapping it again succeeds, gives
    back a state in which no page of the range is present and every other page has the
    entry it started with; so the range can be mapped again. *)
Theorem map_unmap_range s phys va n attrs
    (Hw : wf s) (Hva : va `mod` PAGE_SIZE = 0) (Hp : phys `mod` PAGE_SIZE = 0)
    (Hp0 : 0 <= phys) (Hpn : phys + n * PAGE_SIZE < 2 ^ 64)
    (Hcr : canonical_range va n) (Hun : unmapped_range s va n)
    (Hpool : tables_needed va n <= zlen (pool s)) :
  exists s1 s2,
    map_range s phys (phys + n * PAGE_SIZE) va (va + n * PAGE_SIZE) attrs = Ok (va, s1) /\
    unmap_range s1 va (va + n * PAGE_SIZE) = Ok s2 /\ wf s2 /\ unmapped_range s2 va n /\
    (forall va', ~ (0 <= page48 va' - page48 va < n) -> pte s2 va' = pte s va').
Proof.
  destruct (map_range_spec s phys va n attrs) as (s1 & Hm & Hmaps & _); try done.
  pose proof (mapped_after_map _ _ _ _ _ _ Hva Hcr Hmaps) as Hmp.
  destruct Hmaps as (Hw1 & Hr1 & Hm1).
  destruct (unmap_range_spec s1 va n Hw1 Hva Hcr Hmp) as (s2 & Hu & (Hw2 & _ & Hm2) & _).
  exists s1, s2. split_and!; try done.
  - intros k Hk. rewrite Hm2. cbv zeta.
    destruct (canonical_range_at va n k Hcr Hva Hk) as (_ & _ & -> & _).
    rewrite decide_True by lia. apply land_not_present.
  - intros va' Hout. rewrite Hm2, Hm1. cbv zeta. by rewrite !decide_False.
Qed.

Lemma map_unmap_range_witness :
  exists s1 s2,
    map_range boot 0x200000 0x201000 0x40000000 0x40001000 RW = Ok (0x40000000, s1) /\
    unmap_range s1 0x40000000 0x40001000 = Ok s2 /\ wf s2.
Proof.
  destruct (map_unmap_range boot 0x200000 0x40000000 1 RW boot_state_wf
    ltac:(reflexivity) ltac:(reflexivity) ltac:(lia) ltac:(reflexivity)
    ltac:(unfold canonical_range, PAGE_SIZE; lia)
    ltac:(intros k Hk; replace k with 0 by lia; vm_compute; reflexivity)
    ltac:(vm_compute; discriminate)) as (s1 & s2 & H1 & H2 & H3 & _).
  exists s1, s2. split; [exact H1|]. split; [exact H2|exact H3].
Defined.

Lemma pte_in_page s base va :
  base `mod` PAGE_SIZE = 0 -> base <= va < base + PAGE_SIZE -> pte s va = pte s base.
Proof. intros Hb Hv. apply pte_page48. unfold page48, PAGE_SIZE in *. zdiv. Qed.

(** A page of a boot mapping translates byte by byte. *)
Lemma boot_translate L va k :
  layout_ok L -> 0 <= va < 2 ^ 64 -> 0 <= k < 512 -> pte (early_init L) va = leaf_entry k ->
  get_physical_address (early_init L) va = Ok (k * PAGE_SIZE + va `mod` PAGE_SIZE).
Proof.
  intros HL Hva Hk He. pose proof (get_physical_address_cases _ va (boot_wf L HL) Hva) as Hg.
  destruct (leaf_entry_spec _ Hk) as [H1 H2]. rewrite He, H1, H2 in Hg. rewrite Hg. f_equal.
  unfold PAGE_SIZE in *. rewrite wrap_small; zdiv.
Qed.

(** [C6] [paging::early_init] for every placement of the static tables: the
    result satisfies the tree invariant with all eight static tables left; the
    null page does not translate; the rest of the first 2 MiB translates to
    itself and the second MiB of the kernel window to the second MiB. *)
Theorem early_init_correct L (HL : layout_ok L) :
  wf (early_init L) /\ zlen (pool (early_init L)) = MAX_STATIC_TABLES /\
  (forall va, 0 <= va < PAGE_SIZE ->
     exists msg, get_physical_address (early_init L) va = Fail (AssertFailed msg)) /\
  (forall va, PAGE_SIZE <= va < 0x200000 -> get_physical_address (early_init L) va = Ok va) /\
  (forall off, 0x100000 <= off < 0x200000 ->
     get_physical_address (early_init L) (0xFFFFFFFF80000000 + off) = Ok off).
Proof.
  pose proof (boot_wf L HL) as Hw.
  split; [done|]. split; [by rewrite boot_pool by done|]. split; [|split].
  - intros va Hva. unfold PAGE_SIZE in Hva.
    pose proof (get_physical_address_cases _ va Hw ltac:(lia)) as Hg.
    rewrite (pte_in_page _ (0 * PAGE_SIZE)) in Hg; [|reflexivity|exact Hva].
    rewrite boot_pte_identity in Hg; [exact Hg|exact HL|lia].
  - intros va Hva. unfold PAGE_SIZE in Hva.
    assert (0 <= va / 4096 < 512 /\ 1 <= va / 4096) as [Hk Hk1] by zdiv.
    rewrite (boot_translate L va (va / 4096)); [|exact HL|lia|exact Hk|].
    + f_equal. unfold PAGE_SIZE. zdiv.
    + rewrite (pte_in_page _ (va / 4096 * PAGE_SIZE)) by (unfold PAGE_SIZE; zdiv).
      rewrite boot_pte_identity, decide_True; [reflexivity|exact Hk1|exact HL|exact Hk].
  - intros off Ho.
    assert (0 <= off / 4096 < 512 /\ 0x100 <= off / 4096) as [Hk Hk1] by zdiv.
    rewrite (boot_translate L _ (off / 4096)); [|exact HL|lia|exact Hk|].
    + f_equal. unfold PAGE_SIZE. zdiv.
    + rewrite (pte_in_page _ (0xFFFFFFFF80000000 + off / 4096 * PAGE_SIZE))
        by (unfold PAGE_SIZE; zdiv).
      rewrite boot_pte_kernel, decide_True; [reflexivity|exact Hk1|exact HL|exact Hk].
Qed.

Lemma early_init_correct_witness :
  layout_ok sample_layout /\ get_physical_address boot 0x1234 = Ok 0x1234.
Proof.
  split; [exact sample_layout_ok|].
  destruct (early_init_correct sample_layout sample_layout_ok) as (_ & _ & _ & H & _).
  exact (H 0x1234 ltac:(unfold PAGE_SIZE; lia)).
Defined.

(** A page between 2 TiB and 4 TiB: [virtual_page_address] takes bit 41 as
    the sign although the tables translate 48 bits, so [map_page] maps the
    page it was asked for and returns another address, and [map_range] stops at
    its own synchronisation assertion.  The address-space allocator hands out
    addresses up to 4 TiB. *)
Theorem map_above_2TiB s phys va attrs
    (Hw : wf s) (Hva : page_addr va) (Hr : 2 ^ 41 <= va < 2 ^ 42) (Hp : phys `mod` PAGE_SIZE = 0)
    (Hph : 0 <= phys < 2 ^ 64 - PAGE_SIZE)
    (Hun : present_bit (pte s va) = false) (Hpool : 3 <= zlen (pool s)) :
  (exists s', map_page s phys va attrs = Ok (2 ^ 64 - 2 ^ 42 + va, s') /\
     pte s' va = mapped_entry phys attrs) /\
  map_range s phys (phys + PAGE_SIZE) va (va + PAGE_SIZE) attrs
    = Fail (AssertFailed "iterator and virtual address out of sync!").
Proof.
  assert (u64 (swrap 42 va) = 2 ^ 64 - 2 ^ 42 + va) as Hsw by (unfold wrap, swrap; zdiv).
  unfold zlen in Hpool. split.
  - pose proof (map_page_get s phys va attrs Hw Hva Hp ltac:(lia)) as Hm. rewrite Hun, Hsw in Hm.
    destruct Hm as (s' & Hm & (_ & _ & Hu) & _). exists s'. split; [done|].
    by rewrite Hu, decide_True.
  - pose proof Hva as [_ Ha]. unfold map_range. rewrite Ha, Hp.
    assert ((va + PAGE_SIZE) `mod` PAGE_SIZE = 0) as -> by (unfold PAGE_SIZE in *; zdiv).
    assert ((phys + PAGE_SIZE) `mod` PAGE_SIZE = 0) as -> by (unfold PAGE_SIZE in *; zdiv).
    rewrite !Z.add_simpl_l, !Z.eqb_refl. cbn [andb assert_ mbind outcome_bind].
    pose proof (get_spec s va Hw) as Hg. destruct (get s va) as [[it s1]|]; [|lia].
    destruct Hg as (_ & Hc1 & _). cbn [mbind outcome_bind].
    change (Z.to_nat (PAGE_SIZE / PAGE_SIZE)) with 1%nat. cbn [map_range_loop].
    assert ((phys <? phys + PAGE_SIZE) = true) as -> by (apply Z.ltb_lt; unfold PAGE_SIZE; lia).
    rewrite (cursor_virtual _ _ _ _ Hva Hc1), Hsw.
    by assert ((2 ^ 64 - 2 ^ 42 + va =? va) = false) as -> by (apply Z.eqb_neq; lia).
Qed.

Lemma map_above_2TiB_witness :
  map_range boot 0x200000 0x201000 0x20000000000 0x20000001000 RW
    = Fail (AssertFailed "iterator and virtual address out of sync!").
Proof.
  destruct (map_above_2TiB boot 0x200000 0x20000000000 RW boot_state_wf
    ltac:(split; [lia|reflexivity]) ltac:(lia) ltac:(reflexivity) ltac:(unfold PAGE_SIZE; lia)
    ltac:(vm_compute; reflexivity) ltac:(vm_compute; discriminate)) as [_ H].
  exact H.
Defined.
