(* ===== verification/Pma.v ===== *)
(** * kernel/pma.cpp: the physical page allocator

    A bitmap with one bit per page of the largest usable region.  [occupied]
    is the abstract view: the set of page indices handed out. *)
From S2P Require Import Prelude Util Bitmap Memory Paging PageTables PagingInit.

Record pma := Pma {
  max_pages_total : Z;
  physical_page_base : Z;
  physical_page_map : Z;       (* kernel address of the bitmap *)
  page_bits : bitmap           (* [*physical_page_map] *)
}.

Definition with_bits (s : pma) (b : bitmap) : pma :=
  Pma (max_pages_total s) (physical_page_base s) (physical_page_map s) b.

Definition FREE : bool := false.

(** [pages_needed_for_page_map] *)
Definition pages_needed (max_pages : Z) : Z := div_ceil (size_required max_pages) PAGE_SIZE.

Definition early_init (pt : paging) (mm : memory_state) : outcome (pma * paging) :=
  map ← get_memory_map mm;
  largest ← aget map 0;
  let max_pages := mm_length largest / PAGE_SIZE in
  map_phys ← align_to (mm_base largest) PAGE_SIZE;
  '(map_ptr, pt') ←
    identity_map_pages_into_kernel_space pt map_phys (pages_needed max_pages) DEFAULT_ATTRS;
  Ok (Pma max_pages
        (u64 (map_ptr + pages_needed max_pages * PAGE_SIZE - KERNEL_VMA_OFFSET))
        map_ptr (make max_pages), pt').

(** The address and size [finish_init] asks the address-space allocator to
    withdraw. *)
Definition finish_init_args (s : pma) : outcome (Z * Z) :=
  size' ← align_to (u64 (physical_page_base s + size (page_bits s))) PAGE_SIZE;
  Ok (physical_page_map s, size').

Definition page_address (s : pma) (idx : Z) : Z :=
  u64 (idx * PAGE_SIZE + physical_page_base s).

Definition get_physical_page (s : pma) : outcome (Z * pma) :=
  new_page_idx ← find_first (page_bits s) FREE;
  if new_page_idx =? -1 then Fail (Panic "Allocation failed, out of physical pages!")
  else
    b ← set (page_bits s) new_page_idx;
    let new_page := page_address s new_page_idx in
    _ ← assert_ (negb (new_page =? 0)) "Top of page stack is null!";
    Ok (new_page, with_bits s b).

(** [for (unsigned i = 0; i < n; ++i) physical_page_map->set(new_pages_idx + i);] *)
Fixpoint set_run (b : bitmap) (idx : Z) (n : nat) : outcome bitmap :=
  match n with
  | O => Ok b
  | S n' => b' ← set b (u32 idx); set_run b' (idx + 1) n'
  end.

Definition get_contiguous_physical_pages (s : pma) (n : Z) : outcome (Z * pma) :=
  new_pages_idx ← find_first_n (page_bits s) FREE (u32 n);
  if new_pages_idx =? -1 then
    Fail (Panic "Allocation failed, can't find contiguous physical pages!")
  else
    b ← set_run (page_bits s) new_pages_idx (Z.to_nat n);
    let new_pages := page_address s new_pages_idx in
    _ ← assert_ (negb (new_pages =? 0)) "Top of page stack is null!";
    Ok (new_pages, with_bits s b).

Definition free_physical_page (s : pma) (page : Z) : outcome pma :=
  _ ← assert_ (negb (page =? 0)) "Page being freed is null!";
  let page_idx := u32 (u64 (page - physical_page_base s) / PAGE_SIZE) in
  t ← test (page_bits s) page_idx;
  _ ← assert_ t "page being freed was never allocated!";
  b ← reset (page_bits s) page_idx;
  Ok (with_bits s b).

(** ** Abstract view and invariant *)

Definition occupied (s : pma) (idx : Z) : bool := bit_at (page_bits s) idx.
Definition num_pages (s : pma) : Z := num_bits (page_bits s).

Record wf (s : pma) : Prop := {
  wf_bits : Bitmap.wf (page_bits s);
  wf_base : 0 < physical_page_base s /\ physical_page_base s `mod` PAGE_SIZE = 0;
  wf_top : physical_page_base s + num_pages s * PAGE_SIZE < 2 ^ 64
}.

(** [s'] is [s] with page [idx] marked [v]. *)
Definition marks (s s' : pma) (idx : Z) (v : bool) : Prop :=
  wf s' /\ physical_page_base s' = physical_page_base s /\ num_pages s' = num_pages s /\
  forall j, 0 <= j -> occupied s' j = if j =? idx then v else occupied s j.

Lemma with_bits_wf s b :
  wf s -> Bitmap.wf b -> num_limbs b = num_limbs (page_bits s) -> wf (with_bits s b).
Proof.
  intros [H1 H2 H3] Hb Hn. split; [done|done|].
  unfold num_pages, num_bits in *. simpl. by rewrite Hn.
Qed.

Lemma page_address_spec s idx :
  wf s -> 0 <= idx < num_pages s ->
  page_address s idx = physical_page_base s + idx * PAGE_SIZE /\ page_address s idx <> 0.
Proof.
  intros [_ [Hb _] Ht] Hi. unfold page_address, PAGE_SIZE in *.
  assert (u64 (idx * 4096 + physical_page_base s) = physical_page_base s + idx * 4096) as ->
    by (rewrite wrap_small; nia). nia.
Qed.

Lemma page_index s idx :
  wf s -> 0 <= idx < num_pages s ->
  u32 (u64 (page_address s idx - physical_page_base s) / PAGE_SIZE) = idx.
Proof.
  intros Hw Hi. destruct (page_address_spec s idx Hw Hi) as [-> _].
  pose proof (wf_bound _ (wf_bits s Hw)) as Hbd.
  pose proof (wf_top s Hw). destruct (wf_base s Hw). unfold num_pages, PAGE_SIZE in *.
  replace (physical_page_base s + idx * 4096 - physical_page_base s) with (idx * 4096) by lia.
  rewrite (wrap_small 64) by nia. rewrite Z.div_mul by lia. apply wrap_small. lia.
Qed.

(** Handing out the page the search found. *)
Lemma get_physical_page_cases s :
  wf s ->
  (exists idx s', get_physical_page s = Ok (page_address s idx, s') /\ 0 <= idx < num_pages s /\
     occupied s idx = false /\ (forall j, 0 <= j < idx -> occupied s j = true) /\
     marks s s' idx true /\ searchable (page_bits s)) \/
  (get_physical_page s = Fail (Panic "Allocation failed, out of physical pages!") /\
     (forall j, 0 <= j < num_pages s -> occupied s j = true)) \/
  (get_physical_page s = Fail (Undefined "int shift out of range") /\
     ~ searchable (page_bits s)).
Proof.
  intros Hw. unfold get_physical_page, FREE.
  destruct (find_first_spec (page_bits s) (wf_bits s Hw)) as [(r & Hf & Hff & Hs)|[Hf Hns]];
    rewrite Hf; cbn [mbind outcome_bind].
  - destruct Hff as [[-> Hall]|(Hr & Hfree & Hbelow)].
    + right. left. done.
    + left. assert ((r =? -1) = false) as -> by (apply Z.eqb_neq; lia).
      destruct (set_spec (page_bits s) r (wf_bits s Hw) Hr) as (b & -> & Hb & Hn & Hbits).
      cbn [mbind outcome_bind]. destruct (page_address_spec s r Hw Hr) as [_ Hne].
      apply Z.eqb_neq in Hne as Hne'. rewrite Hne'. cbn [negb assert_ mbind outcome_bind].
      exists r, (with_bits s b). split; [done|]. split; [done|]. split; [done|].
      split; [done|]. split; [|done]. unfold marks. split_and!; [by apply with_bits_wf|done| |done].
      unfold num_pages, num_bits. simpl. by rewrite Hn.
  - right. right. done.
Qed.

Lemma free_physical_page_cases s idx :
  wf s -> 0 <= idx < num_pages s ->
  if occupied s idx then
    exists s', free_physical_page s (page_address s idx) = Ok s' /\ marks s s' idx false
  else free_physical_page s (page_address s idx)
         = Fail (AssertFailed "page being freed was never allocated!").
Proof.
  intros Hw Hi. unfold free_physical_page.
  destruct (page_address_spec s idx Hw Hi) as [_ Hne]. apply Z.eqb_neq in Hne as ->.
  cbn [negb assert_ mbind outcome_bind]. rewrite page_index by done.
  rewrite (test_spec _ _ (wf_bits s Hw) Hi). cbn [mbind outcome_bind].
  unfold occupied. destruct (bit_at (page_bits s) idx); [|done]. cbn [assert_ mbind outcome_bind].
  destruct (reset_spec (page_bits s) idx (wf_bits s Hw) Hi) as (b & -> & Hb & Hn & Hbits).
  exists (with_bits s b). split; [done|].
  unfold marks. split_and!; [by apply with_bits_wf|done| |done].
  unfold num_pages, num_bits. simpl. by rewrite Hn.
Qed.

(** ** Histories of allocations and frees *)

Inductive op := Alloc | Free (page : Z).

(** The pages a client holds: a free of a page it does not hold is not made. *)
Definition step (o : op) (st : pma * list Z) : outcome (pma * list Z) :=
  let '(s, live) := st in
  match o with
  | Alloc => '(p, s') ← get_physical_page s; Ok (s', p :: live)
  | Free p =>
      if decide (p ∈ live) then
        s' ← free_physical_page s p; Ok (s', base.filter (fun q => q <> p) live)
      else Ok (s, live)
  end.

Fixpoint steps (ops : list op) (st : pma * list Z) : outcome (pma * list Z) :=
  match ops with
  | [] => Ok st
  | o :: ops' => st' ← step o st; steps ops' st'
  end.

(** The pages held are exactly the occupied pages of the bitmap. *)
Record holds (st : pma * list Z) : Prop := {
  holds_wf : wf st.1;
  holds_nodup : NoDup st.2;
  holds_live : forall p, p ∈ st.2 <->
    exists idx, 0 <= idx < num_pages st.1 /\ occupied st.1 idx = true /\ p = page_address st.1 idx
}.

Lemma page_address_inj s i j :
  wf s -> 0 <= i < num_pages s -> 0 <= j < num_pages s ->
  page_address s i = page_address s j -> i = j.
Proof.
  intros Hw Hi Hj. destruct (page_address_spec s i Hw Hi) as [-> _].
  destruct (page_address_spec s j Hw Hj) as [-> _]. unfold PAGE_SIZE. lia.
Qed.

Lemma page_address_base s s' idx :
  physical_page_base s' = physical_page_base s -> page_address s' idx = page_address s idx.
Proof. intros H. unfold page_address. by rewrite H. Qed.

Lemma holds_alloc s live p s' :
  holds (s, live) -> get_physical_page s = Ok (p, s') -> holds (s', p :: live) /\ p ∉ live.
Proof.
  intros [Hw Hnd Hl] Hg. simpl in *.
  destruct (get_physical_page_cases s Hw) as
    [(idx & s1 & Hg' & Hi & Hf & _ & (Hw' & Hb & Hn & Hm) & _)|[[Hg' _]|[Hg' _]]];
    rewrite Hg' in Hg; simplify_eq.
  assert (page_address s idx ∉ live) as Hnew.
  { rewrite Hl. intros (j & Hj & Ho & Heq). apply page_address_inj in Heq; [|done..]. subst. congruence. }
  split; [|done]. split; simpl; [done|by constructor|]. intros q. rewrite elem_of_cons, Hl, Hn. split.
  - intros [->|(j & Hj & Ho & ->)].
    + exists idx. rewrite Hm, Z.eqb_refl, (page_address_base s _ _ Hb) by lia. done.
    + exists j. rewrite Hm, (page_address_base s _ _ Hb) by lia. split_and!; [lia..| |done].
      by destruct (j =? idx).
  - intros (j & Hj & Ho & ->). rewrite (page_address_base s _ _ Hb). rewrite Hm in Ho by lia.
    destruct (j =? idx) eqn:E; bool_to_prop; [by left; subst|right; by exists j].
Qed.

Lemma holds_free s live p :
  holds (s, live) -> p ∈ live ->
  exists s', free_physical_page s p = Ok s' /\ holds (s', base.filter (fun q => q <> p) live).
Proof.
  intros [Hw Hnd Hl] Hp. simpl in *. apply Hl in Hp as (idx & Hi & Ho & ->).
  pose proof (free_physical_page_cases s idx Hw Hi) as Hf. rewrite Ho in Hf.
  destruct Hf as (s' & Hf & Hw' & Hb & Hn & Hm). exists s'. split; [done|].
  split; simpl; [done|by apply NoDup_filter|]. intros q. rewrite list_elem_of_filter, Hl, Hn. split.
  - intros [Hne (j & Hj & Hoj & ->)]. exists j. rewrite Hm, (page_address_base s _ _ Hb) by lia.
    split_and!; [lia..| |done]. destruct (j =? idx) eqn:E; bool_to_prop; [by subst|done].
  - intros (j & Hj & Hoj & ->). rewrite (page_address_base s _ _ Hb). rewrite Hm in Hoj by lia.
    destruct (j =? idx) eqn:E; bool_to_prop; [done|]. split; [|by exists j].
    intros Heq. by apply page_address_inj in Heq.
Qed.

Lemma steps_holds ops st st' : holds st -> steps ops st = Ok st' -> holds st'.
Proof.
  revert st. induction ops as [|o ops IH]; intros st Hh Hs; simpl in Hs; [by simplify_eq|].
  apply bind_Ok in Hs as (st1 & H1 & Hs). apply (IH st1); [|done]. destruct st as [s live].
  destruct o as [|p]; simpl in H1.
  - apply bind_Ok in H1 as ([p s'] & Hg & H1). simplify_eq. by eapply holds_alloc.
  - case_decide as Hp; [|by simplify_eq].
    destruct (holds_free s live p Hh Hp) as (s' & Hf & Hh'). rewrite Hf in H1. by simplify_eq/=.
Qed.

Lemma fresh_holds s : wf s -> (forall j, 0 <= j -> occupied s j = false) -> holds (s, []).
Proof.
  intros Hw Hf. split; simpl; [done|constructor|]. intros p. split; [set_solver|].
  intros (j & Hj & Ho & _). rewrite Hf in Ho by lia. done.
Qed.

(** A page map of [n] pages at physical address [base]. *)
Definition fresh (base map_ptr n : Z) : pma := Pma n base map_ptr (make n).

Lemma fresh_wf base map_ptr n :
  0 < base -> base `mod` PAGE_SIZE = 0 -> 0 <= n -> n + 64 < 2 ^ 31 ->
  base + (n + 64) * PAGE_SIZE < 2 ^ 64 ->
  wf (fresh base map_ptr n) /\ (forall j, 0 <= j -> occupied (fresh base map_ptr n) j = false) /\
  n <= num_pages (fresh base map_ptr n).
Proof.
  intros Hb Ha Hn Hn' Ht. destruct (make_spec n Hn Hn') as (Hw & Hbits & Hf).
  split_and!; [|done|]; [|unfold num_pages; simpl; lia].
  split; [done|done|]. unfold num_pages, PAGE_SIZE in *. simpl. lia.
Qed.

(** [C13] No page is handed out twice: after any history of allocations and
    frees on a fresh page map of [n] pages, the pages held are distinct, each is a page
    of the bitmap, and the bitmap marks exactly them; in particular a free of a held
    page always succeeds.  The bitmap has [num_pages] bits, [n] rounded up to whole
    limbs of 64: up to 63 pages behind the [n] of the map are handed out as well. *)
Theorem allocator_distinct base map_ptr n ops s live
    (Hb : 0 < base) (Ha : base `mod` PAGE_SIZE = 0) (Hn : 0 <= n) (Hn' : n + 64 < 2 ^ 31)
    (Ht : base + (n + 64) * PAGE_SIZE < 2 ^ 64)
    (Hrun : steps ops (fresh base map_ptr n, []) = Ok (s, live)) :
  NoDup live /\
  (forall p, p ∈ live <-> exists idx, 0 <= idx < num_pages s /\
     occupied s idx = true /\ p = page_address s idx) /\
  (forall p, p ∈ live -> is_ok (free_physical_page s p) = true).
Proof.
  destruct (fresh_wf base map_ptr n) as (Hw & Hf & _); try done.
  pose proof (steps_holds ops _ _ (fresh_holds _ Hw Hf) Hrun) as Hh. split_and!; [apply Hh..|].
  intros p Hp. by destruct (holds_free s live p Hh Hp) as (s' & -> & _).
Qed.

Lemma allocator_distinct_witness :
  exists s live, steps [Alloc; Alloc; Free 0x400000; Alloc] (fresh 0x400000 0 100, []) = Ok (s, live)
    /\ NoDup live.
Proof.
  eexists _, _. split; [vm_compute; reflexivity|].
  apply (allocator_distinct 0x400000 0 100 [Alloc; Alloc; Free 0x400000; Alloc] _ _
    ltac:(lia) ltac:(reflexivity) ltac:(lia) ltac:(lia) ltac:(reflexivity)
    ltac:(vm_compute; reflexivity)).
Defined.

(** ** The search stops at bit 32 of a limb *)

(** Exactly the first [k] pages are occupied. *)
Definition low_pages (s : pma) (k : Z) : Prop :=
  wf s /\ 64 <= num_pages s /\ forall j, 0 <= j -> occupied s j = (j <? k).

Lemma low_pages_limb s k :
  low_pages s k -> 0 <= k < 64 -> exists l, zget (limbs (page_bits s)) 0 = Some l /\
    0 <= l < 2 ^ 64 /\ forall i, 0 <= i < 64 -> Z.testbit l i = (i <? k).
Proof.
  intros (Hw & Hn & Hk) Hk64.
  destruct (limb_index (page_bits s) 0 (wf_bits s Hw)) as (l & Hl & Hr & _).
  { unfold num_pages in Hn. lia. }
  exists l. split_and!; [done|lia..|]. intros i Hi. rewrite <- Hk by lia.
  unfold occupied, bit_at, BITS_PER_LIMB. rewrite Z.div_small, Z.mod_small by lia.
  change (0 / BITS_PER_LIMB) with 0 in Hl. by rewrite Hl.
Qed.

Lemma low_pages_searchable s k : low_pages s k -> 0 <= k < 64 -> searchable (page_bits s) <-> k <= 31.
Proof.
  intros Hlp Hk. destruct (low_pages_limb s k Hlp Hk) as (l & Hl & Hr & Hbits).
  assert (l <> full_limb) as Hnf.
  { intros ->. pose proof (Hbits k Hk) as Hb. rewrite Z.ltb_irrefl in Hb.
    rewrite (proj1 (full_limb_bits full_limb ltac:(done)) eq_refl) in Hb by lia. done. }
  split.
  - intros Hs. destruct (Hs 0 l Hl) as [(i & Hi & Hb)|Hlt].
    + intros i' l' Hi' Hl'. apply zget_Some in Hl'. lia.
    + done.
    + rewrite Hbits in Hb by lia. bool_to_prop. lia.
    + destruct (decide (31 < k)) as [Hgt|]; [|lia].
      assert (Z.testbit l 31 = true) as Hb by (rewrite Hbits by lia; apply Z.ltb_lt; lia).
      rewrite (testbit_high 31 l 31) in Hb by lia. done.
  - intros Hle i' l' Hl' Hbelow Hne. destruct (decide (i' = 0)) as [->|Hi'].
    + rewrite Hl in Hl'. simplify_eq. destruct (decide (k = 31)) as [->|].
      * right. apply range_of_bits; [lia..|]. intros i Hi.
        destruct (Z.lt_ge_cases i 64); [rewrite Hbits by lia; apply Z.ltb_ge; lia|].
        by apply (testbit_high 64).
      * left. exists k. split; [lia|]. rewrite Hbits by lia. apply Z.ltb_irrefl.
    + exfalso. apply Hnf, (Hbelow 0); [|done]. apply zget_Some in Hl'. lia.
Qed.

Lemma low_pages_next s k :
  low_pages s k -> 0 <= k <= 31 ->
  exists s', get_physical_page s = Ok (physical_page_base s + k * PAGE_SIZE, s') /\
    low_pages s' (k + 1) /\ physical_page_base s' = physical_page_base s.
Proof.
  intros Hlp Hk. pose proof Hlp as (Hw & Hn & Hocc).
  assert (forall i, 0 <= i -> occupied s i = false -> (forall j, 0 <= j < i -> occupied s j = true)
    -> i = k) as Hidx.
  { intros i Hi Hfree Hbelow. rewrite Hocc in Hfree by lia. bool_to_prop.
    destruct (decide (i = k)) as [|Hne]; [done|]. specialize (Hbelow k ltac:(lia)).
    rewrite Hocc in Hbelow by lia. bool_to_prop. lia. }
  destruct (get_physical_page_cases s Hw) as
    [(idx & s' & Hg & Hi & Hfree & Hbelow & (Hw' & Hb & Hn' & Hm) & _)|[[_ Hall]|[_ Hns]]].
  - pose proof (Hidx idx ltac:(lia) Hfree Hbelow) as ->.
    destruct (page_address_spec s k Hw Hi) as [Hpa _]. rewrite Hpa in Hg. exists s'.
    split; [done|]. split; [|done]. split; [done|]. split; [lia|]. intros j Hj.
    rewrite Hm, Hocc by lia. destruct (j =? k) eqn:E, (j <? k) eqn:E2, (j <? k + 1) eqn:E3;
      bool_to_prop; (done || lia).
  - specialize (Hall k ltac:(lia)). rewrite Hocc in Hall by lia. bool_to_prop. lia.
  - exfalso. apply Hns, (low_pages_searchable s k Hlp); lia.
Qed.

(** [n] allocations in a row. *)
Fixpoint take_pages (n : nat) (s : pma) : outcome (list Z * pma) :=
  match n with
  | O => Ok ([], s)
  | S n' =>
      '(p, s1) ← get_physical_page s;
      '(ps, s2) ← take_pages n' s1;
      Ok (p :: ps, s2)
  end.

Lemma low_pages_take n s k :
  low_pages s k -> 0 <= k -> k + Z.of_nat n <= 32 ->
  exists s', take_pages n s
    = Ok ((fun j => physical_page_base s + j * PAGE_SIZE) <$> seqZ k (Z.of_nat n), s') /\
    low_pages s' (k + Z.of_nat n).
Proof.
  revert s k. induction n as [|n IH]; intros s k Hl Hk Hn.
  { exists s. simpl. rewrite Z.add_0_r. done. }
  cbn [take_pages]. destruct (low_pages_next s k Hl ltac:(lia)) as (s1 & -> & Hl1 & Hb1).
  cbn [mbind outcome_bind].
  destruct (IH s1 (k + 1) Hl1 ltac:(lia) ltac:(lia)) as (s2 & -> & Hl2).
  cbn [mbind outcome_bind]. exists s2. split.
  - rewrite (seqZ_cons k (Z.of_nat (S n))) by lia. rewrite Hb1. do 2 f_equal. cbn [fmap list_fmap].
    do 2 f_equal. f_equal; lia.
  - by replace (k + Z.of_nat (S n)) with (k + 1 + Z.of_nat n) by lia.
Qed.

(** On a fresh page map the first 32 allocations return the first 32 pages
    in order; the 33rd shifts an [int] by 32, which is undefined, although free
    pages are left. *)
Theorem thirty_third_page base map_ptr n
    (Hb : 0 < base) (Ha : base `mod` PAGE_SIZE = 0) (Hn : 64 <= n) (Hn' : n + 64 < 2 ^ 31)
    (Ht : base + (n + 64) * PAGE_SIZE < 2 ^ 64) :
  exists s, take_pages 32 (fresh base map_ptr n)
      = Ok ((fun j => base + j * PAGE_SIZE) <$> seqZ 0 32, s) /\
    occupied s 32 = false /\
    get_physical_page s = Fail (Undefined "int shift out of range").
Proof.
  destruct (fresh_wf base map_ptr n) as (Hw & Hf & Hnp); try (done || lia).
  assert (low_pages (fresh base map_ptr n) 0) as Hl0.
  { split; [done|]. split; [lia|]. intros j Hj. rewrite Hf by done.
    destruct (j <? 0) eqn:E; bool_to_prop; [lia|done]. }
  destruct (low_pages_take 32 _ 0 Hl0 ltac:(lia) ltac:(lia)) as (s & Hs & Hl).
  exists s. split; [exact Hs|]. change (0 + Z.of_nat 32) with 32 in Hl.
  pose proof Hl as (Hw' & Hnp' & Hocc). split; [by rewrite Hocc|].
  destruct (get_physical_page_cases s Hw') as [(i & s' & _ & _ & _ & _ & _ & Hse)|[[_ Hall]|[H _]]].
  - apply (low_pages_searchable s 32 Hl) in Hse; lia.
  - specialize (Hall 32 ltac:(lia)). by rewrite Hocc in Hall.
  - done.
Qed.

Lemma thirty_third_page_witness :
  exists s, take_pages 32 (fresh 0x400000 0 100)
      = Ok ((fun j => 0x400000 + j * PAGE_SIZE) <$> seqZ 0 32, s) /\
    get_physical_page s = Fail (Undefined "int shift out of range").
Proof.
  destruct (thirty_third_page 0x400000 0 100 ltac:(lia) ltac:(reflexivity) ltac:(lia) ltac:(lia)
    ltac:(reflexivity)) as (s & H1 & _ & H2). exists s. split; assumption.
Defined.

(** ** Contiguous pages *)

Lemma set_run_spec n b idx :
  Bitmap.wf b -> 0 <= idx -> idx + Z.of_nat n <= num_bits b ->
  exists b', set_run b idx n = Ok b' /\ Bitmap.wf b' /\ num_limbs b' = num_limbs b /\
    forall j, 0 <= j -> bit_at b' j =
      if decide (idx <= j < idx + Z.of_nat n) then true else bit_at b j.
Proof.
  revert b idx. induction n as [|n IH]; intros b idx Hw Hi Hn; cbn [set_run].
  { exists b. split_and!; [done..|]. intros j Hj. by rewrite decide_False by lia. }
  pose proof (wf_bound b Hw) as Hbd. rewrite wrap_small by lia.
  destruct (set_spec b idx Hw ltac:(lia)) as (b1 & -> & Hw1 & Hn1 & Hb1). cbn [mbind outcome_bind].
  destruct (IH b1 (idx + 1) Hw1 ltac:(lia)) as (b2 & -> & Hw2 & Hn2 & Hb2).
  { unfold num_bits in *. rewrite Hn1. lia. }
  exists b2. split; [done|]. split; [done|]. split; [congruence|]. intros j Hj.
  rewrite Hb2, Hb1 by lia. destruct (j =? idx) eqn:E; bool_to_prop;
    repeat case_decide; (done || lia).
Qed.

(** A returned loop stayed in the map. *)
Lemma set_run_Ok n b idx b' :
  Bitmap.wf b -> 0 <= idx < 2 ^ 32 -> set_run b idx n = Ok b' ->
  Bitmap.wf b' /\ num_limbs b' = num_limbs b /\ ((n > 0)%nat -> idx + Z.of_nat n <= num_bits b).
Proof.
  revert b idx. induction n as [|n IH]; intros b idx Hw Hi H; cbn [set_run] in H.
  { simplify_eq. split_and!; [done..|lia]. }
  apply bind_Ok in H as (b1 & Hs & H). rewrite wrap_small in Hs by lia.
  pose proof (set_Ok b idx b1 Hw ltac:(lia) Hs) as Hlt.
  destruct (set_spec b idx Hw ltac:(lia)) as (b2 & Hs2 & Hw1 & Hn1 & _). rewrite Hs in Hs2. simplify_eq.
  pose proof (wf_bound b Hw) as Hbd.
  destruct (IH b2 (idx + 1) Hw1 ltac:(lia) H) as (Hw' & Hn' & Hle).
  split_and!; [done|congruence|]. intros _. unfold num_bits in *. rewrite Hn1 in Hle.
  destruct n; lia.
Qed.

Lemma get_contiguous_Ok s n p s' :
  wf s -> 0 < n < 2 ^ 31 -> get_contiguous_physical_pages s n = Ok (p, s') ->
  wf s' /\ physical_page_base s <= p /\ p `mod` PAGE_SIZE = 0 /\
  p + n * PAGE_SIZE <= physical_page_base s + num_pages s * PAGE_SIZE.
Proof.
  intros Hw Hn H. unfold get_contiguous_physical_pages in H. rewrite wrap_small in H by lia.
  apply bind_Ok in H as (idx & Hf & H). destruct (idx =? -1) eqn:E; [done|]. bool_to_prop.
  pose proof (find_first_n_bound _ _ _ _ Hf) as Hb.
  destruct (find_first_n_spec (page_bits s) FREE n (wf_bits s Hw) ltac:(lia)) as (r & Hr & Hor).
  rewrite Hf in Hr. simplify_eq. destruct Hor as [?|[H0 _]]; [done|].
  apply bind_Ok in H as (b & Hs & H). apply bind_Ok in H as (u & _ & H). simplify_eq.
  destruct (set_run_Ok (Z.to_nat n) (page_bits s) r b (wf_bits s Hw) ltac:(lia) Hs)
    as (Hwb & Hnl & Hle).
  specialize (Hle ltac:(lia)). rewrite Z2Nat.id in Hle by lia.
  destruct (page_address_spec s r Hw ltac:(unfold num_pages; lia)) as [-> _].
  destruct (wf_base s Hw) as [_ Hm]. split; [by apply with_bits_wf|].
  unfold num_pages, PAGE_SIZE in *. split; [lia|]. split; [zdiv|lia].
Qed.

(** A successful request behind some occupied pages starts behind them. *)
Lemma get_contiguous_places s n p s' k :
  wf s -> 0 < n < 2 ^ 31 -> get_contiguous_physical_pages s n = Ok (p, s') ->
  0 <= k < 64 -> (forall j, 0 <= j < k -> occupied s j = true) ->
  physical_page_base s + k * PAGE_SIZE <= p /\ physical_page_map s' = physical_page_map s.
Proof.
  intros Hw Hn H Hk Hocc. unfold get_contiguous_physical_pages in H. rewrite wrap_small in H by lia.
  apply bind_Ok in H as (idx & Hf & H). destruct (idx =? -1) eqn:E; [done|]. bool_to_prop.
  pose proof (find_first_n_bound _ _ _ _ Hf) as Hb.
  destruct (find_first_n_spec (page_bits s) FREE n (wf_bits s Hw) ltac:(lia)) as (r & Hr & Hor).
  rewrite Hf in Hr. simplify_eq. destruct Hor as [?|[H0 Hrun]]; [done|].
  apply bind_Ok in H as (b & Hs & H). apply bind_Ok in H as (u & _ & H). simplify_eq. split; [|done].
  destruct (set_run_Ok (Z.to_nat n) (page_bits s) r b (wf_bits s Hw) ltac:(lia) Hs)
    as (Hwb & Hnl & Hle).
  specialize (Hle ltac:(lia)). rewrite Z2Nat.id in Hle by lia.
  destruct (page_address_spec s r Hw ltac:(unfold num_pages; lia)) as [-> _].
  assert (k <= r); [|unfold PAGE_SIZE; lia]. destruct Hrun as [Hrun|[Hm _]]; [|zdiv].
  destruct (decide (k <= r)) as [|Hlt]; [done|]. exfalso.
  specialize (Hocc r ltac:(lia)). unfold occupied in Hocc. specialize (Hrun r ltac:(lia)).
  unfold FREE in Hrun. congruence.
Qed.

(** [get_contiguous_physical_pages(n)]: when the run it reports lies in the
    map, it is marked occupied and no other page changes; the [n] pages found
    free are the reported ones, or, when the run begins with a whole free limb,
    the ones 63 pages earlier. *)
Theorem contiguous_pages s n idx
    (Hw : wf s) (Hn : 0 < n < 2 ^ 31)
    (Hfind : find_first_n (page_bits s) FREE n = Ok idx) (Hin : idx + n <= num_pages s) :
  if idx =? -1 then
    get_contiguous_physical_pages s n
      = Fail (Panic "Allocation failed, can't find contiguous physical pages!")
  else exists s',
    get_contiguous_physical_pages s n = Ok (physical_page_base s + idx * PAGE_SIZE, s') /\ wf s' /\
    (forall j, 0 <= j -> occupied s' j =
       if decide (idx <= j < idx + n) then true else occupied s j) /\
    ((forall j, idx <= j < idx + n -> occupied s j = false) \/
     (idx `mod` 64 = 63 /\ forall j, idx - 63 <= j < idx - 63 + n -> occupied s j = false)).
Proof.
  unfold get_contiguous_physical_pages. rewrite (wrap_small 32) by lia. rewrite Hfind.
  cbn [mbind outcome_bind]. destruct (idx =? -1) eqn:E; bool_to_prop; [done|].
  destruct (find_first_n_spec (page_bits s) FREE n (wf_bits s Hw) ltac:(lia)) as (r & Hr & Hor).
  rewrite Hfind in Hr. simplify_eq. destruct Hor as [?|[H0 Hruns]]; [done|].
  destruct (set_run_spec (Z.to_nat n) (page_bits s) r (wf_bits s Hw) H0) as (b & -> & Hb & Hnl & Hbits).
  { rewrite Z2Nat.id by lia. exact Hin. }
  cbn [mbind outcome_bind]. destruct (page_address_spec s r Hw ltac:(lia)) as [Hpa Hne].
  apply Z.eqb_neq in Hne as Hne'. rewrite Hne'. cbn [negb assert_ mbind outcome_bind].
  exists (with_bits s b). split; [by rewrite Hpa|]. split; [by apply with_bits_wf|].
  split; [|done]. intros j Hj. unfold occupied. simpl. rewrite Hbits by lia.
  by rewrite Z2Nat.id by lia.
Qed.

Lemma contiguous_pages_witness :
  exists s', get_contiguous_physical_pages (fresh 0x400000 0 10000) 3 = Ok (0x43F000, s') /\ wf s'.
Proof.
  destruct (fresh_wf 0x400000 0 10000 ltac:(lia) ltac:(reflexivity) ltac:(lia) ltac:(lia)
    ltac:(reflexivity)) as (Hw & _).
  destruct (contiguous_pages (fresh 0x400000 0 10000) 3 63 Hw ltac:(lia) ltac:(vm_compute; reflexivity)
    ltac:(vm_compute; discriminate)) as (s' & H1 & H2 & _).
  exists s'. split; [exact H1|exact H2].
Defined.

(** The page map of 640 pages in which only page 64 is occupied. *)
Definition one_page_taken : pma :=
  Pma 640 0x400000 0 (set_limbs (make 640) (zset (limbs (make 640)) 1 1)).

(** The shifted start hands out occupied pages: with only page 64 taken, a
    request for 64 contiguous pages is answered with the pages 63 to 126. *)
Theorem contiguous_pages_overlap :
  occupied one_page_taken 64 = true /\
  exists s', get_contiguous_physical_pages one_page_taken 64 = Ok (0x400000 + 63 * PAGE_SIZE, s') /\
    page_address one_page_taken 63 <= page_address one_page_taken 64
      < page_address one_page_taken 63 + 64 * PAGE_SIZE.
Proof.
  split; [vm_compute; reflexivity|]. eexists. split; [vm_compute; reflexivity|].
  vm_compute. split; congruence.
Qed.

(** ** [early_init] *)

(** The identity-mapping calls return the kernel address of the first page. *)
Lemma identity_map_returns pt phys n attrs v pt' :
  identity_map_pages_into_kernel_space pt phys n attrs = Ok (v, pt') -> v = kernel_ptr phys.
Proof.
  unfold identity_map_pages_into_kernel_space, identity_map_page_range_into_kernel_space,
    map_range_size, map_range. intros H. inv_ok.
  repeat (match goal with p : (_ * _)%type |- _ => destruct p end; inv_ok). done.
Qed.

Lemma pages_needed_spec n :
  0 <= n < 2 ^ 40 -> n <= pages_needed n * 32768 < n + 64 + 32768.
Proof.
  intros Hn. unfold pages_needed, size_required.
  pose proof (div_ceil_spec n BITS_PER_LIMB ltac:(done)) as H1. unfold BITS_PER_LIMB in *.
  rewrite wrap_small by (unfold BYTES_PER_LIMB; lia).
  pose proof (div_ceil_spec (div_ceil n 64 * BYTES_PER_LIMB) PAGE_SIZE ltac:(done)) as H2.
  unfold BYTES_PER_LIMB, PAGE_SIZE in *. lia.
Qed.

(** After [early_init] on a page-aligned region, allocation starts behind
    the pages of the bitmap, but the bitmap still counts every page of the
    region: as many pages as it occupies lie (wholly or in part) past the end of
    the region and are handed out with the rest. *)
Theorem early_init_region pt mm largest rest s pt'
    (Hmap : get_memory_map mm = Ok (largest :: rest))
    (Ha : mm_base largest `mod` PAGE_SIZE = 0)
    (Hb : 0 < mm_base largest) (Hl : 0 <= mm_length largest)
    (Ht : mm_base largest + 2 * mm_length largest + 2 ^ 32 < 2 ^ 52)
    (Hrun : early_init pt mm = Ok (s, pt')) :
  let max := mm_length largest / PAGE_SIZE in
  let needed := pages_needed max in
  max_pages_total s = max /\
  physical_page_base s = mm_base largest + needed * PAGE_SIZE /\
  (forall idx, 0 <= idx < max - needed ->
     page_address s idx + PAGE_SIZE <= mm_base largest + mm_length largest) /\
  (forall idx, max - needed <= idx < max ->
     mm_base largest + mm_length largest < page_address s idx + PAGE_SIZE).
Proof.
  unfold early_init in Hrun. rewrite Hmap in Hrun. cbn [mbind outcome_bind] in Hrun.
  change (aget (largest :: rest) 0) with (Ok largest) in Hrun.
  cbn [mbind outcome_bind] in Hrun.
  rewrite (align_to_aligned (mm_base largest) PAGE_SIZE) in Hrun by (unfold PAGE_SIZE in *; lia).
  cbn [mbind outcome_bind] in Hrun.
  apply bind_Ok in Hrun as ([v pt1] & Hid & Hrun). simplify_eq. cbv zeta.
  apply identity_map_returns in Hid as ->. set (max := mm_length largest / PAGE_SIZE).
  assert (0 <= max < 2 ^ 40 /\ max * 4096 <= mm_length largest < (max + 1) * 4096) as [Hmax Hlen]
    by (unfold max, PAGE_SIZE; zdiv).
  pose proof (pages_needed_spec max Hmax) as Hnd. set (needed := pages_needed max) in *.
  assert (u64 (kernel_ptr (mm_base largest) + needed * PAGE_SIZE - KERNEL_VMA_OFFSET)
          = mm_base largest + needed * PAGE_SIZE) as Hbase.
  { unfold kernel_ptr, PAGE_SIZE.
    replace (u64 (mm_base largest + KERNEL_VMA_OFFSET) + needed * 4096 - KERNEL_VMA_OFFSET)
      with (u64 (mm_base largest + KERNEL_VMA_OFFSET) + (needed * 4096 - KERNEL_VMA_OFFSET)) by lia.
    rewrite wrap_add_l. rewrite wrap_small; lia. }
  cbn [max_pages_total physical_page_base]. split_and!; [done|done| |];
    intros idx Hi; unfold page_address; cbn [physical_page_base]; rewrite Hbase;
    unfold PAGE_SIZE in *; rewrite wrap_small; lia.
Qed.

(** The map of a page-aligned region below 1 GiB: the invariant holds, every
    page is free, and all pages of the map lie in the first 2 GiB. *)
Definition small_region (e : memory_map_entry) : Prop :=
  0x300000 <= mm_base e /\ mm_base e `mod` PAGE_SIZE = 0 /\ 0 <= mm_length e /\
  mm_base e + mm_length e <= 2 ^ 30.

(** The bitmap, eight bytes of header and its limbs, fits the pages mapped for it. *)
Definition page_map_size (max : Z) : Z := 8 + BYTES_PER_LIMB * num_limbs (make max).
Definition page_map_fits (max : Z) : Prop := page_map_size max <= pages_needed max * PAGE_SIZE.

(** Where [early_init] puts things: the bitmap at the start of the region, the pages
    right behind it, all of them free. *)
Lemma early_init_places pt mm largest rest s pt' :
  get_memory_map mm = Ok (largest :: rest) -> small_region largest ->
  early_init pt mm = Ok (s, pt') ->
  physical_page_map s = kernel_ptr (mm_base largest) /\
  physical_page_base s = mm_base largest + pages_needed (mm_length largest / PAGE_SIZE) * PAGE_SIZE /\
  forall idx, 0 <= idx -> occupied s idx = false.
Proof.
  intros Hmap (Hb & Ha & Hl & Ht) Hrun. unfold early_init in Hrun. rewrite Hmap in Hrun.
  cbn [mbind outcome_bind] in Hrun. change (aget (largest :: rest) 0) with (Ok largest) in Hrun.
  cbn [mbind outcome_bind] in Hrun.
  rewrite (align_to_aligned (mm_base largest) PAGE_SIZE) in Hrun by (unfold PAGE_SIZE in *; lia).
  cbn [mbind outcome_bind] in Hrun. apply bind_Ok in Hrun as ([v pt1] & Hid & Hrun). simplify_eq.
  pose proof (identity_map_returns _ _ _ _ _ _ Hid) as Hv.
  set (max := mm_length largest / PAGE_SIZE) in *.
  assert (0 <= max <= 2 ^ 18) as Hmax by (unfold max, PAGE_SIZE; zdiv).
  pose proof (pages_needed_spec max ltac:(lia)) as Hnd. set (needed := pages_needed max) in *.
  cbn [physical_page_map physical_page_base]. split; [done|]. split.
  - rewrite Hv. unfold kernel_ptr, PAGE_SIZE.
    replace (u64 (mm_base largest + KERNEL_VMA_OFFSET) + needed * 4096 - KERNEL_VMA_OFFSET)
      with (u64 (mm_base largest + KERNEL_VMA_OFFSET) + (needed * 4096 - KERNEL_VMA_OFFSET)) by lia.
    rewrite wrap_add_l. rewrite wrap_small; lia.
  - intros idx Hi. unfold occupied. cbn [page_bits]. destruct (make_spec max ltac:(lia) ltac:(lia)) as (_ & _ & Hz). by apply Hz.
Qed.

Lemma get_physical_page_map s p s' : get_physical_page s = Ok (p, s') -> physical_page_map s' = physical_page_map s.
Proof.
  unfold get_physical_page. intros H. apply bind_Ok in H as (idx & _ & H). case_if; [done|].
  apply bind_Ok in H as (b & _ & H). apply bind_Ok in H as (u & _ & H). by simplify_eq.
Qed.

Lemma early_init_Ok pt mm largest rest s pt' :
  get_memory_map mm = Ok (largest :: rest) -> small_region largest ->
  early_init pt mm = Ok (s, pt') ->
  wf s /\ mm_base largest <= physical_page_base s /\
  physical_page_base s + num_pages s * PAGE_SIZE < 2 ^ 31 - 2 ^ 21 /\
  exists n v, identity_map_pages_into_kernel_space pt (mm_base largest) n DEFAULT_ATTRS = Ok (v, pt').
Proof.
  intros Hmap (Hb & Ha & Hl & Ht) Hrun. unfold early_init in Hrun. rewrite Hmap in Hrun.
  cbn [mbind outcome_bind] in Hrun. change (aget (largest :: rest) 0) with (Ok largest) in Hrun.
  cbn [mbind outcome_bind] in Hrun.
  rewrite (align_to_aligned (mm_base largest) PAGE_SIZE) in Hrun by (unfold PAGE_SIZE in *; lia).
  cbn [mbind outcome_bind] in Hrun. apply bind_Ok in Hrun as ([v pt1] & Hid & Hrun). simplify_eq.
  pose proof (identity_map_returns _ _ _ _ _ _ Hid) as Hv.
  set (max := mm_length largest / PAGE_SIZE) in *.
  assert (0 <= max <= 2 ^ 18 /\ max * 4096 <= mm_length largest) as [Hmax Hlen]
    by (unfold max, PAGE_SIZE; zdiv).
  pose proof (pages_needed_spec max ltac:(lia)) as Hnd. set (needed := pages_needed max) in *.
  assert (u64 (v + needed * PAGE_SIZE - KERNEL_VMA_OFFSET) = mm_base largest + needed * PAGE_SIZE)
    as Hbase.
  { rewrite Hv. unfold kernel_ptr, PAGE_SIZE.
    replace (u64 (mm_base largest + KERNEL_VMA_OFFSET) + needed * 4096 - KERNEL_VMA_OFFSET)
      with (u64 (mm_base largest + KERNEL_VMA_OFFSET) + (needed * 4096 - KERNEL_VMA_OFFSET)) by lia.
    rewrite wrap_add_l. rewrite wrap_small; lia. }
  rewrite Hbase. destruct (make_spec max ltac:(lia) ltac:(lia)) as (Hwm & Hnb & _).
  unfold num_pages. cbn [page_bits physical_page_base]. unfold PAGE_SIZE in *.
  split; [|split; [lia|split; [lia|by eauto]]].
  split; unfold num_pages; cbn [page_bits physical_page_base]; [done|split; [lia|unfold PAGE_SIZE; zdiv]|].
  unfold PAGE_SIZE. lia.
Qed.

Definition sample_memory : memory_state :=
  MemoryState 1 (zset g_memory_map0 0 (MemoryMapEntry 0x300000 0x100000 usable 1)).

Lemma sample_early_init_ok :
  is_ok (early_init (Paging.early_init sample_layout) sample_memory) = true.
Proof. vm_compute. reflexivity. Qed.

Lemma early_init_region_witness :
  exists s pt', early_init (Paging.early_init sample_layout) sample_memory = Ok (s, pt') /\
    physical_page_base s = 0x301000.
Proof.
  pose proof sample_early_init_ok as Hok.
  destruct (early_init (Paging.early_init sample_layout) sample_memory) as [[s pt']|] eqn:E;
    [|discriminate Hok].
  exists s, pt'. split; [reflexivity|].
  destruct (early_init_region (Paging.early_init sample_layout) sample_memory
    (MemoryMapEntry 0x300000 0x100000 usable 1) (tail (g_memory_map sample_memory)) s pt'
    ltac:(vm_compute; reflexivity) ltac:(reflexivity) ltac:(reflexivity) ltac:(discriminate)
    ltac:(reflexivity) E) as (_ & H & _). exact H.
Defined.

(** The storage of the bitmap does not count its eight-byte header: for a
    region of a whole multiple of 32768 pages the last limb lies in the first page
    the allocator hands out. *)
Theorem page_map_overlaps_first_page k (Hk : 0 < k < 2 ^ 10) :
  let max := k * 32768 in
  let last_limb_offset := 8 + BYTES_PER_LIMB * (num_limbs (make max) - 1) in
  pages_needed max * PAGE_SIZE <= last_limb_offset < (pages_needed max + 1) * PAGE_SIZE.
Proof.
  cbv zeta. unfold make, pages_needed, size_required, div_ceil, BITS_PER_LIMB, BYTES_PER_LIMB,
    PAGE_SIZE. cbn [num_limbs].
  replace (k * 32768) with (k * 512 * 64) by lia. rewrite Z.div_mul, Z.mod_mul by lia.
  change (0 =? 0) with true. cbv iota. rewrite Z.add_0_r.
  rewrite !wrap_small by lia. replace (k * 512 * 8) with (k * 4096) by lia.
  rewrite Z.div_mul, Z.mod_mul by lia. change (0 =? 0) with true. cbv iota. lia.
Qed.

Lemma page_map_overlaps_first_page_witness :
  pages_needed 32768 * PAGE_SIZE <= 8 + BYTES_PER_LIMB * (num_limbs (make 32768) - 1).
Proof. apply (page_map_overlaps_first_page 1 ltac:(lia)). Defined.
