(* ===== verification/Vma.v ===== *)
(** * kernel/vma.cpp: the virtual address allocator

    The free list lives in one page, an array of [free_node]s linked by [next]
    (modelled as an index into the page).  The list is always a prefix of the
    array; [Layer 1] below shows that the pointer-level operations compute
    functions on the list of (base, size) pairs, and [cover] counts how many
    nodes contain an address, so that "every address is free at most once" and
    "only the freed range becomes free" are equations and inequalities. *)
From S2P Require Import Prelude Util Bitmap Memory Paging PageTables PagingInit Pma.

#[local] Arguments wrap : simpl never.

Definition ACTIVE_BITS_IN_VIRTUAL_ADDR : Z := 42.
Definition MAX_POSITIVE_VIRTUAL_ADDR : Z := 2 ^ ACTIVE_BITS_IN_VIRTUAL_ADDR - 1.
Definition MIN_NEGATIVE_VIRTUAL_ADDR : Z := u64 (- 2 ^ ACTIVE_BITS_IN_VIRTUAL_ADDR).
Definition MAX_NEGATIVE_VIRTUAL_ADDR : Z := u64 (-1).

Record free_node := FreeNode {
  fn_base : Z;
  fn_size : Z;
  fn_next : option Z
}.

(** sizeof(free_node) = 24 *)
Definition NODES_PER_PAGE : Z := PAGE_SIZE / 24.

Record vma := Vma {
  virtual_free_list : Z;          (* address of the page *)
  free_nodes : list free_node;    (* its contents *)
  free_list_size : Z;
  max_free_list_size : Z
}.

Definition with_nodes (s : vma) (l : list free_node) : vma :=
  Vma (virtual_free_list s) l (free_list_size s) (max_free_list_size s).

(** The loop of [add_node_to_free_list]: [inl] is a merge with an existing
    node, [inr] the last node and the first empty one. *)
Fixpoint add_walk (fuel : nat) (l : list free_node) (base size : Z)
    (node : option Z) (last : Z) (empty_node : option Z)
    : outcome (list free_node + Z * option Z) :=
  match node with
  | None => Ok (inr (last, empty_node))
  | Some i =>
      match fuel with
      | O => Fail Diverges
      | S f =>
          n ← aget l i;
          if (match empty_node with None => true | _ => false end) && (fn_size n =? 0) then
            add_walk f l base size (fn_next n) i (Some i)
          else
            let end_of_current_node := u64 (fn_base n + fn_size n - 1) in
            let end_of_new_node := u64 (base + size - 1) in
            if u64 (fn_base n - 1) =? end_of_new_node then
              l' ← aset l i (FreeNode base (u64 (fn_size n + size)) (fn_next n)); Ok (inl l')
            else if u64 (base - 1) =? end_of_current_node then
              l' ← aset l i (FreeNode (fn_base n) (u64 (fn_size n + size)) (fn_next n)); Ok (inl l')
            else add_walk f l base size (fn_next n) i empty_node
      end
  end.

Definition add_node_to_free_list (s : vma) (base size : Z) : outcome vma :=
  r ← add_walk (length (free_nodes s)) (free_nodes s) base size (Some 0) 0 None;
  match r with
  | inl l' => Ok (with_nodes s l')
  | inr (last, Some e) =>
      l' ← aset (free_nodes s) e (FreeNode base size None); Ok (with_nodes s l')
  | inr (last, None) =>
      let e := last + 1 in
      n ← aget (free_nodes s) last;
      l1 ← aset (free_nodes s) last (FreeNode (fn_base n) (fn_size n) (Some e));
      let fls := u64 (free_list_size s + 1) in
      _ ← assert_ (negb (fls =? max_free_list_size s)) "No more free nodes!";
      l2 ← aset l1 e (FreeNode base size None);
      Ok (Vma (virtual_free_list s) l2 fls (max_free_list_size s))
  end.

(** The loop of [remove_from_free_list]: the node the area lies in. *)
Fixpoint remove_walk (fuel : nat) (l : list free_node) (base size : Z) (node : option Z)
    : outcome (option (Z * free_node)) :=
  match node with
  | None => Ok None
  | Some i =>
      match fuel with
      | O => Fail Diverges
      | S f =>
          n ← aget l i;
          let end_of_node := u64 (fn_base n + fn_size n - 1) in
          let end_of_area := u64 (base + size - 1) in
          if (fn_base n <=? base) && (end_of_area <=? end_of_node) then Ok (Some (i, n))
          else remove_walk f l base size (fn_next n)
      end
  end.

Definition remove_from_free_list (s : vma) (base size : Z) : outcome vma :=
  _ ← assert_ (negb (virtual_free_list s =? 0)) "free list is empty?";
  size ← align_to size PAGE_SIZE;
  r ← remove_walk (length (free_nodes s)) (free_nodes s) base size (Some 0);
  match r with
  | None => Fail (Panic "couldn't find region in free list: was it already freed?")
  | Some (i, n) =>
      let end_of_node := u64 (fn_base n + fn_size n - 1) in
      let end_of_area := u64 (base + size - 1) in
      let remaining_front_size := u64 (base - fn_base n) in
      let remaining_end_size := u64 (end_of_node - end_of_area) in
      l' ← aset (free_nodes s) i (FreeNode (fn_base n) remaining_front_size (fn_next n));
      add_node_to_free_list (with_nodes s l') (u64 (end_of_area + 1)) remaining_end_size
  end.

(** [mark_free_range(start, end)] of [init], on signed addresses. *)
Definition mark_free_range (s : vma) (start end_ : Z) : outcome vma :=
  if s64 start <? s64 end_ then
    add_node_to_free_list s start (u64 (s64 end_ - s64 start + 1))
  else add_node_to_free_list s end_ (u64 (s64 start - s64 end_ + 1)).

(** The free list in a page at [ptr] whose previous contents are [page]. *)
Definition init_list (ptr : Z) (page : list free_node) : outcome vma :=
  l ← aset page 0 (FreeNode 0 0 None);
  let s := Vma ptr l 0 NODES_PER_PAGE in
  s ← mark_free_range s 0x200000 MAX_POSITIVE_VIRTUAL_ADDR;
  s ← mark_free_range s MIN_NEGATIVE_VIRTUAL_ADDR (u64 (KERNEL_VMA_START - 1));
  s ← mark_free_range s KERNEL_VMA_END MAX_NEGATIVE_VIRTUAL_ADDR;
  remove_from_free_list s ptr PAGE_SIZE.

Definition init (pm : pma) (pt : paging) (page : list free_node) : outcome (vma * pma * paging) :=
  '(phys, pm') ← get_physical_page pm;
  '(ptr, pt') ← identity_map_page_into_kernel_space pt phys DEFAULT_ATTRS;
  s ← init_list ptr page;
  Ok (s, pm', pt').

(** The loop of [get_virtual_pages]. *)
Fixpoint get_walk (fuel : nat) (l : list free_node) (size : Z) (node : option Z)
    : outcome (Z * list free_node) :=
  match node with
  | None => Fail (Panic "Allocation failed, out of virtual pages!")
  | Some i =>
      match fuel with
      | O => Fail Diverges
      | S f =>
          n ← aget l i;
          if size <=? fn_size n then
            l' ← aset l i (FreeNode (u64 (fn_base n + size)) (u64 (fn_size n - size)) (fn_next n));
            Ok (fn_base n, l')
          else get_walk f l size (fn_next n)
      end
  end.

Definition get_virtual_pages (s : vma) (size : Z) : outcome (Z * vma) :=
  _ ← assert_ (negb (size =? 0)) "Tried to allocate page of size 0!";
  _ ← assert_ (size `mod` PAGE_SIZE =? 0) "size must be page-aligned!";
  '(a, l') ← get_walk (length (free_nodes s)) (free_nodes s) size (Some 0);
  Ok (a, with_nodes s l').

Definition free_virtual_pages (s : vma) (address size : Z) : outcome vma :=
  _ ← assert_ (negb (address =? 0)) "Tried to free page at 0x0!";
  _ ← assert_ (negb (size =? 0)) "Tried to free page of size 0!";
  add_node_to_free_list s address size.

(** ** Layer 1: the list of (base, size) pairs *)

Abbreviation node := (Z * Z)%type (only parsing).

(** The list [l] occupies the first nodes of the page, in order. *)
Definition rep (p : list free_node) (l : list node) : Prop :=
  l <> [] /\ forall i b z, zget l i = Some (b, z) ->
    zget p i = Some (FreeNode b z (if i + 1 <? zlen l then Some (i + 1) else None)).

Record list_of (s : vma) (l : list node) : Prop := {
  lo_rep : rep (free_nodes s) l;
  lo_len : zlen (free_nodes s) = max_free_list_size s;
  lo_size : zlen l <= free_list_size s + 1 <= max_free_list_size s;
  lo_word : max_free_list_size s < 2 ^ 64;
  lo_ptr : virtual_free_list s <> 0
}.

Fixpoint merge_scan (l : list node) (base size : Z) (seen : bool) : option (list node) :=
  match l with
  | [] => None
  | (b, z) :: r =>
      if negb seen && (z =? 0) then cons (b, z) <$> merge_scan r base size true
      else if u64 (b - 1) =? u64 (base + size - 1) then Some ((base, u64 (z + size)) :: r)
      else if u64 (base - 1) =? u64 (b + z - 1) then Some ((b, u64 (z + size)) :: r)
      else cons (b, z) <$> merge_scan r base size seen
  end.

Fixpoint before_empty (l : list node) : option (list node) :=
  match l with
  | [] => None
  | (b, z) :: r => if z =? 0 then Some [] else cons (b, z) <$> before_empty r
  end.

Definition add (l : list node) (base size : Z) : list node :=
  match merge_scan l base size false with
  | Some l' => l'
  | None =>
      match before_empty l with
      | Some l' => l' ++ [(base, size)]
      | None => l ++ [(base, size)]
      end
  end.

(** Whether [add] takes a new node. *)
Definition grows (l : list node) (base size : Z) : bool :=
  match merge_scan l base size false, before_empty l with
  | None, None => true
  | _, _ => false
  end.

Fixpoint carve (l : list node) (size : Z) : option (Z * list node) :=
  match l with
  | [] => None
  | (b, z) :: r =>
      if size <=? z then Some (b, (u64 (b + size), u64 (z - size)) :: r)
      else '(a, r') ← carve r size; Some (a, (b, z) :: r')
  end.

(** The pointer an index in the list corresponds to. *)
Definition ptr_at (l1 l2 : list node) : option Z := if l2 then None else Some (zlen l1).

Lemma rep_at p l1 b z l2 :
  rep p (l1 ++ (b, z) :: l2) ->
  aget p (zlen l1) = Ok (FreeNode b z (ptr_at (l1 ++ [(b, z)]) l2)).
Proof.
  intros [_ H]. apply aget_Ok. rewrite (H (zlen l1) b z (zget_middle _ _ _)). f_equal. f_equal.
  unfold ptr_at. destruct l2 as [|x l2]; case_if; try done; try zlen_lia.
  f_equal. zlen_lia.
Qed.

Lemma rep_bound p l i : rep p l -> 0 <= i < zlen l -> 0 <= i < zlen p.
Proof.
  intros [_ H] Hi. destruct (zget_is_Some l i Hi) as [[b z] Hz]. eapply zget_Some, H, Hz.
Qed.

(** Writing a node in place, keeping its link. *)
Lemma rep_set p l1 x l2 b z :
  rep p (l1 ++ x :: l2) ->
  exists p', aset p (zlen l1) (FreeNode b z (ptr_at (l1 ++ [x]) l2)) = Ok p' /\
    rep p' (l1 ++ (b, z) :: l2) /\ zlen p' = zlen p.
Proof.
  intros Hr. exists (zset p (zlen l1) (FreeNode b z (ptr_at (l1 ++ [x]) l2))).
  assert (0 <= zlen l1 < zlen p) as Hb by (eapply rep_bound; [done|]; zlen_lia).
  split; [by apply aset_Ok|]. split; [|apply zlen_zset]. destruct Hr as [_ Hr].
  split; [by destruct l1|]. intros i b' z' Hi.
  assert (zlen (l1 ++ (b, z) :: l2) = zlen (l1 ++ x :: l2)) as Hlen by zlen_lia.
  destruct (decide (i = zlen l1)) as [->|Hne].
  - rewrite zget_middle in Hi. simplify_eq. rewrite zget_zset_eq by done. f_equal. f_equal.
    unfold ptr_at. destruct l2; case_if; try done; try zlen_lia. f_equal. zlen_lia.
  - rewrite zget_zset_ne by done. rewrite Hlen. apply Hr.
    rewrite <- Hi, <- (zset_middle l1 x (b, z) l2). symmetry. by apply zget_zset_ne.
Qed.

(** Ending the list at a node. *)
Lemma rep_cut p l1 x l2 b z :
  rep p (l1 ++ x :: l2) ->
  exists p', aset p (zlen l1) (FreeNode b z None) = Ok p' /\
    rep p' (l1 ++ [(b, z)]) /\ zlen p' = zlen p.
Proof.
  intros Hr.
  assert (rep (zset p (zlen l1) (FreeNode b z None)) (l1 ++ [(b, z)])) as Hn.
  { assert (0 <= zlen l1 < zlen p) as Hb by (eapply rep_bound; [done|]; zlen_lia).
    destruct Hr as [_ Hr]. split; [by destruct l1|]. intros i b' z' Hi.
    pose proof (zget_Some _ _ _ Hi) as Hib. destruct (decide (i = zlen l1)) as [->|Hne].
    - rewrite zget_middle in Hi. simplify_eq. rewrite zget_zset_eq by done.
      case_if; [zlen_lia|done].
    - rewrite zget_zset_ne by done. rewrite (Hr i b' z').
      + f_equal. f_equal. repeat case_if; try done; zlen_lia.
      + rewrite <- Hi. unfold zget. destruct (i <? 0); [done|].
        assert (Z.to_nat i < length l1)%nat by (unfold zlen in *; rewrite length_app in Hib; simpl in Hib; lia).
        by rewrite !lookup_app_l. }
  eexists. split; [|split; [exact Hn|apply zlen_zset]]. apply aset_Ok. split; [|done].
  eapply rep_bound; [done|]. zlen_lia.
Qed.

Lemma before_empty_app l1 l2 :
  before_empty (l1 ++ l2) =
    match before_empty l1 with Some l0 => Some l0 | None => app l1 <$> before_empty l2 end.
Proof.
  induction l1 as [|[b z] l1 IH]; simpl; [by destruct (before_empty l2)|].
  destruct (z =? 0); [done|]. rewrite IH. destruct (before_empty l1); [done|].
  by destruct (before_empty l2).
Qed.

Lemma before_empty_split l l0 :
  before_empty l = Some l0 -> exists b r, l = l0 ++ (b, 0) :: r.
Proof.
  revert l0. induction l as [|[b z] l IH]; intros l0 H; simpl in H; [done|].
  destruct (z =? 0) eqn:E; bool_to_prop; [simplify_eq; by exists b, l|].
  apply fmap_Some in H as (l1 & H1 & ->). destruct (IH l1 H1) as (b' & r & ->).
  by exists b', r.
Qed.

Lemma before_empty_None l : Forall (fun n : node => n.2 <> 0) l -> before_empty l = None.
Proof.
  induction 1 as [|[b z] l Hz _ IH]; simpl; [done|]. cbn [snd] in Hz.
  apply Z.eqb_neq in Hz as ->. by rewrite IH.
Qed.

Definition is_some {A} (o : option A) : bool := match o with Some _ => true | None => false end.

Lemma ptr_at_app l1 x l2 : ptr_at l1 (x :: l2) = Some (zlen l1).
Proof. done. Qed.

Lemma snoc_app {A} (l1 : list A) x l2 : l1 ++ x :: l2 = (l1 ++ [x]) ++ l2.
Proof. by rewrite <- app_assoc. Qed.

Lemma add_walk_spec fuel p l1 l2 base size last :
  rep p (l1 ++ l2) -> (length l2 <= fuel)%nat -> (l2 = [] -> last = zlen l1 - 1) ->
  match merge_scan l2 base size (is_some (before_empty l1)) with
  | Some l2' => exists p', add_walk fuel p base size (ptr_at l1 l2) last (zlen <$> before_empty l1)
      = Ok (inl p') /\ rep p' (l1 ++ l2') /\ zlen p' = zlen p
  | None => add_walk fuel p base size (ptr_at l1 l2) last (zlen <$> before_empty l1)
      = Ok (inr (zlen (l1 ++ l2) - 1, zlen <$> before_empty (l1 ++ l2)))
  end.
Proof.
  revert fuel l1 last. induction l2 as [|[b z] l2 IH]; intros fuel l1 last Hr Hf Hl.
  { simpl. rewrite app_nil_r, Hl by done. by destruct fuel. }
  destruct fuel as [|fuel]; simpl in Hf; [lia|].
  cbn [merge_scan]. rewrite ptr_at_app. cbn [add_walk].
  rewrite (rep_at _ _ _ _ _ Hr). cbn [mbind outcome_bind fn_size fn_base fn_next].
  assert ((match zlen <$> before_empty l1 with None => true | _ => false end)
    = negb (is_some (before_empty l1))) as -> by by destruct (before_empty l1).
  destruct (negb (is_some (before_empty l1)) && (z =? 0)) eqn:Ee.
  { apply andb_true_iff in Ee as [En Ez].
    pose proof (IH fuel (l1 ++ [(b, z)]) (zlen l1)) as IH'.
    rewrite <- snoc_app in IH'. specialize (IH' Hr ltac:(lia) ltac:(intros; zlen_lia)).
    assert (before_empty (l1 ++ [(b, z)]) = Some l1) as Hbe.
    { rewrite before_empty_app. destruct (before_empty l1); [done|]. simpl. rewrite Ez. simpl.
      by rewrite app_nil_r. }
    rewrite Hbe in IH'. cbn [is_some fmap option_fmap option_map] in IH'.
    destruct (merge_scan l2 base size true) as [l2'|]; cbn [fmap option_fmap option_map].
    - by rewrite <- snoc_app in IH'.
    - done. }
  assert (forall x, exists p', (l' ← aset p (zlen l1) (FreeNode x.1 x.2 (ptr_at (l1 ++ [(b, z)]) l2));
    Ok (@inl _ (Z * option Z) l')) = Ok (inl p') /\ rep p' (l1 ++ x :: l2) /\ zlen p' = zlen p) as Hset.
  { intros [x1 x2]. destruct (rep_set p l1 (b, z) l2 x1 x2 Hr) as (p' & Hp & Hr' & Hl').
    exists p'. cbn [fst snd]. rewrite Hp. done. }
  destruct (u64 (b - 1) =? _).
  { destruct (Hset (base, u64 (z + size))) as (p' & Hp & Hr' & Hl'). eauto. }
  destruct (u64 (base - 1) =? _).
  { destruct (Hset (b, u64 (z + size))) as (p' & Hp & Hr' & Hl'). eauto. }
  pose proof (IH fuel (l1 ++ [(b, z)]) (zlen l1)) as IH'.
  rewrite <- snoc_app in IH'. specialize (IH' Hr ltac:(lia) ltac:(intros; zlen_lia)).
  assert (before_empty (l1 ++ [(b, z)]) = before_empty l1) as Hbe.
  { rewrite before_empty_app. destruct (before_empty l1); [done|]. simpl in *. by rewrite Ee. }
  rewrite Hbe in IH'.
  destruct (merge_scan l2 base size _) as [l2'|]; cbn [fmap option_fmap option_map].
  - by rewrite <- snoc_app in IH'.
  - done.
Qed.

(** Linking a new node behind the last one. *)
Lemma rep_snoc p l1 b z b' z' :
  rep p (l1 ++ [(b, z)]) -> zlen l1 + 1 < zlen p ->
  exists p1 p2, aset p (zlen l1) (FreeNode b z (Some (zlen l1 + 1))) = Ok p1 /\
    aset p1 (zlen l1 + 1) (FreeNode b' z' None) = Ok p2 /\
    rep p2 (l1 ++ [(b, z); (b', z')]) /\ zlen p2 = zlen p.
Proof.
  intros Hr Hlen. pose proof (zlen_nonneg l1) as H0.
  exists (zset p (zlen l1) (FreeNode b z (Some (zlen l1 + 1)))).
  eexists. split; [apply aset_Ok; split; [lia|done]|].
  split; [apply aset_Ok; rewrite zlen_zset; split; [lia|done]|].
  split; [|by rewrite !zlen_zset]. split; [by destruct l1|].
  intros i b1 z1 Hi. pose proof (zget_Some _ _ _ Hi) as Hib.
  rewrite (snoc_app l1 (b, z)) in Hi. destruct (decide (i = zlen l1 + 1)) as [->|Hne1].
  - replace (zlen l1 + 1) with (zlen (l1 ++ [(b, z)])) in Hi by zlen_lia.
    rewrite zget_middle in Hi. simplify_eq. rewrite zget_zset_eq by (rewrite zlen_zset; lia).
    case_if; [zlen_lia|done].
  - rewrite zget_zset_ne by lia. destruct (decide (i = zlen l1)) as [->|Hne].
    + rewrite <- snoc_app, zget_middle in Hi. simplify_eq. rewrite zget_zset_eq by lia.
      case_if; [done|zlen_lia].
    + rewrite zget_zset_ne by lia. destruct Hr as [_ Hr]. rewrite (Hr i b1 z1).
      * f_equal. f_equal. repeat case_if; try done; zlen_lia.
      * rewrite <- Hi. unfold zget. destruct (i <? 0); [done|].
        rewrite (lookup_app_l (l1 ++ [(b, z)])); [done|].
        unfold zlen in *. rewrite !length_app in *. simpl in *. lia.
Qed.

Lemma merge_scan_length l base size seen l' :
  merge_scan l base size seen = Some l' -> length l' = length l.
Proof.
  revert seen l'. induction l as [|[b z] l IH]; intros seen l' H; simpl in H; [done|].
  repeat case_match; simplify_eq/=; try done;
    apply fmap_Some in H as (l1 & Hl1 & ->); simpl; f_equal; eauto.
Qed.

(** The pointer-level operation computes [add], or stops when the page is full. *)
Lemma add_node_refines s l base size :
  list_of s l ->
  if grows l base size && (free_list_size s + 1 =? max_free_list_size s) then
    add_node_to_free_list s base size = Fail (AssertFailed "No more free nodes!")
  else exists s', add_node_to_free_list s base size = Ok s' /\ list_of s' (add l base size) /\
    free_list_size s' = free_list_size s + Z.b2z (grows l base size) /\
    max_free_list_size s' = max_free_list_size s /\ virtual_free_list s' = virtual_free_list s.
Proof.
  intros [Hr Hlen Hsz Hw Hp]. unfold add_node_to_free_list, add, grows.
  assert (Some 0 = ptr_at [] l) as Hptr by (destruct Hr as [? _]; by destruct l).
  pose proof (add_walk_spec (length (free_nodes s)) (free_nodes s) [] l base size 0 Hr) as Hw'.
  change (is_some (before_empty [])) with false in Hw'. rewrite <- Hptr in Hw'.
  change (zlen <$> before_empty []) with (@None Z) in Hw'. cbn [app] in Hw'.
  specialize (Hw' ltac:(unfold zlen in *; lia) ltac:(destruct Hr as [? _]; by destruct l)).
  destruct (merge_scan l base size false) as [l'|] eqn:Em.
  { destruct Hw' as (p' & -> & Hr' & Hl'). cbn [andb mbind outcome_bind]. eexists.
    split; [done|]. split_and!; simpl; try done; [|lia]. apply merge_scan_length in Em.
    split; simpl; try done; [congruence|]. unfold zlen in *. lia. }
  rewrite Hw'. cbn [mbind outcome_bind]. destruct (before_empty l) as [l0|] eqn:Eb.
  { cbn [andb fmap option_fmap option_map].
    destruct (before_empty_split _ _ Eb) as (b & r & ->).
    destruct (rep_cut _ _ _ _ base size Hr) as (p' & -> & Hr' & Hl'). cbn [mbind outcome_bind].
    eexists. split; [done|]. split_and!; simpl; try done; [|lia].
    split; simpl; try done; [congruence|]. zlen_lia. }
  cbn [andb fmap option_fmap option_map].
  assert (exists l1 b z, l = l1 ++ [(b, z)]) as (l1 & b & z & ->).
  { destruct Hr as [Hne _]. destruct (exists_last Hne) as (l1 & [b z] & ->). eauto. }
  replace (zlen (l1 ++ [(b, z)]) - 1) with (zlen l1) by zlen_lia.
  rewrite (rep_at _ _ _ _ _ Hr). cbn [mbind outcome_bind fn_base fn_size].
  assert (0 <= zlen l1 < zlen (free_nodes s)) as Hb by (eapply rep_bound; [done|]; zlen_lia).
  rewrite (proj2 (aset_Ok (free_nodes s) _ (zlen l1) (FreeNode b z (Some (zlen l1 + 1))))
    (conj Hb eq_refl)). cbn [mbind outcome_bind].
  rewrite (wrap_small 64 (free_list_size s + 1)) by (zlen_lia).
  destruct (free_list_size s + 1 =? max_free_list_size s) eqn:Ef; bool_to_prop; [done|].
  cbn [negb assert_ mbind outcome_bind].
  destruct (rep_snoc _ l1 b z base size Hr) as (p1 & p2 & H1 & H2 & Hr2 & Hl2); [zlen_lia|].
  apply aset_Ok in H1 as [_ ->]. rewrite H2. cbn [mbind outcome_bind]. eexists.
  split; [done|]. split_and!; simpl; try done. split; simpl; try done.
  - by rewrite <- app_assoc.
  - congruence.
  - zlen_lia.
Qed.

Lemma get_walk_spec fuel p l1 l2 size :
  rep p (l1 ++ l2) -> (length l2 <= fuel)%nat ->
  match carve l2 size with
  | Some (a, l2') => exists p', get_walk fuel p size (ptr_at l1 l2) = Ok (a, p') /\
      rep p' (l1 ++ l2') /\ zlen p' = zlen p
  | None => get_walk fuel p size (ptr_at l1 l2)
      = Fail (Panic "Allocation failed, out of virtual pages!")
  end.
Proof.
  revert fuel l1. induction l2 as [|[b z] l2 IH]; intros fuel l1 Hr Hf; [by destruct fuel|].
  destruct fuel as [|fuel]; simpl in Hf; [lia|].
  cbn [carve]. rewrite ptr_at_app. cbn [get_walk]. rewrite (rep_at _ _ _ _ _ Hr).
  cbn [mbind outcome_bind fn_size fn_base fn_next]. destruct (size <=? z).
  { destruct (rep_set p l1 (b, z) l2 (u64 (b + size)) (u64 (z - size)) Hr) as (p' & -> & ?). eauto. }
  specialize (IH fuel (l1 ++ [(b, z)])). rewrite <- snoc_app in IH. specialize (IH Hr ltac:(lia)).
  destruct (carve l2 size) as [[a l2']|]; cbn [mbind option_bind]; [|done].
  by rewrite <- snoc_app in IH.
Qed.

Lemma carve_length l size a l' : carve l size = Some (a, l') -> length l' = length l.
Proof.
  revert a l'. induction l as [|[b z] l IH]; intros a l' H; simpl in H; [done|].
  case_match; simplify_eq; [done|]. apply bind_Some in H as ([a1 l1] & H1 & H2).
  simplify_eq. simpl. f_equal. eauto.
Qed.

(** The node an area lies in, with what is before and behind it. *)
Fixpoint locate (l : list node) (base size : Z) : option (list node * node * list node) :=
  match l with
  | [] => None
  | (b, z) :: r =>
      if (b <=? base) && (u64 (base + size - 1) <=? u64 (b + z - 1)) then Some ([], (b, z), r)
      else '(l1, n, l2) ← locate r base size; Some ((b, z) :: l1, n, l2)
  end.

Lemma locate_split l base size l1 n l2 : locate l base size = Some (l1, n, l2) -> l = l1 ++ n :: l2.
Proof.
  revert l1 n l2. induction l as [|[b z] l IH]; intros l1 n l2 H; simpl in H; [done|].
  case_match; simplify_eq; [done|]. apply bind_Some in H as ([[l1' n'] l2'] & H1 & H2).
  simplify_eq. simpl. f_equal. eauto.
Qed.

Lemma remove_walk_spec fuel p l1 l2 base size :
  rep p (l1 ++ l2) -> (length l2 <= fuel)%nat ->
  remove_walk fuel p base size (ptr_at l1 l2) = Ok (
    '(m, n, r) ← locate l2 base size;
    Some (zlen (l1 ++ m), FreeNode n.1 n.2 (ptr_at (l1 ++ m ++ [n]) r))).
Proof.
  revert fuel l1. induction l2 as [|[b z] l2 IH]; intros fuel l1 Hr Hf; [by destruct fuel|].
  destruct fuel as [|fuel]; simpl in Hf; [lia|].
  cbn [locate]. rewrite ptr_at_app. cbn [remove_walk]. rewrite (rep_at _ _ _ _ _ Hr).
  cbn [mbind outcome_bind fn_size fn_base fn_next]. case_match.
  { cbn [mbind option_bind]. by rewrite app_nil_r. }
  specialize (IH fuel (l1 ++ [(b, z)])). rewrite <- snoc_app in IH. specialize (IH Hr ltac:(lia)).
  rewrite IH. destruct (locate l2 base size) as [[[m n] r]|]; cbn [mbind option_bind]; [|done].
  by rewrite <- !app_assoc.
Qed.

Definition shrunk (l1 : list node) (n : node) (l2 : list node) (base : Z) : list node :=
  l1 ++ (n.1, u64 (base - n.1)) :: l2.

Lemma remove_refines s l base size size' :
  list_of s l -> align_to size PAGE_SIZE = Ok size' ->
  match locate l base size' with
  | Some (l1, n, l2) =>
      let end_of_area := u64 (base + size' - 1) in
      exists s1, list_of s1 (shrunk l1 n l2 base) /\
        free_list_size s1 = free_list_size s /\ max_free_list_size s1 = max_free_list_size s /\
        virtual_free_list s1 = virtual_free_list s /\
        remove_from_free_list s base size = add_node_to_free_list s1 (u64 (end_of_area + 1))
          (u64 (u64 (n.1 + n.2 - 1) - end_of_area))
  | None => remove_from_free_list s base size
      = Fail (Panic "couldn't find region in free list: was it already freed?")
  end.
Proof.
  intros [Hr Hlen Hsz Hw Hp] Ha. unfold remove_from_free_list.
  apply Z.eqb_neq in Hp as Hp'. rewrite Hp'. cbn [negb assert_ mbind outcome_bind]. rewrite Ha.
  cbn [mbind outcome_bind].
  assert (Some 0 = ptr_at [] l) as -> by (destruct Hr as [? _]; by destruct l).
  rewrite (remove_walk_spec _ _ [] l base size' Hr) by (unfold zlen in *; lia).
  cbn [mbind outcome_bind]. destruct (locate l base size') as [[[l1 n] l2]|] eqn:El;
    cbn [mbind option_bind app]; [|done].
  apply locate_split in El as ->. destruct n as [b z]. cbn [fst snd fn_base fn_size fn_next].
  destruct (rep_set _ l1 (b, z) l2 b (u64 (base - b)) Hr) as (p' & -> & Hr' & Hl').
  cbn [mbind outcome_bind]. exists (with_nodes s p'). split; [|split_and!; done].
  split; simpl; try done; [congruence|]. unfold shrunk. simpl. zlen_lia.
Qed.

(** ** Layer 2: how often an address is free *)

Definition inside (n : node) (a : Z) : Z := Z.b2z ((n.1 <=? a) && (a <? n.1 + n.2)).

Fixpoint cover (l : list node) (a : Z) : Z :=
  match l with
  | [] => 0
  | n :: r => inside n a + cover r a
  end.

(** A node the allocator can hold: it ends inside the address space, and an
    empty node may have any base. *)
Definition node_ok (n : node) : Prop :=
  0 <= n.1 < 2 ^ 64 /\ 0 <= n.2 < 2 ^ 64 /\ n.1 + n.2 <= 2 ^ 64 /\ (n.1 = 0 -> n.2 = 0).

(** An area given back: it does not start at 0 and ends inside the address space. *)
Definition area_ok (base size : Z) : Prop := 0 < base < 2 ^ 64 /\ 0 <= size /\ base + size <= 2 ^ 64.

Lemma cover_app l1 l2 a : cover (l1 ++ l2) a = cover l1 a + cover l2 a.
Proof. induction l1 as [|n l1 IH]; simpl; [done|]. rewrite IH. lia. Qed.

Lemma inside_bounds n a : 0 <= inside n a <= 1.
Proof. unfold inside. destruct (_ && _); simpl; lia. Qed.

Lemma cover_nonneg l a : 0 <= cover l a.
Proof. induction l as [|n l IH]; simpl; [lia|]. pose proof (inside_bounds n a). lia. Qed.

Ltac inside_cases := unfold inside; cbn [fst snd];
  repeat match goal with |- context [?x <=? ?y] => destruct (Z.leb_spec x y) end;
  repeat match goal with |- context [?x <? ?y] => destruct (Z.ltb_spec x y) end;
  cbn [andb Z.b2z]; try lia.

(** Carving the first large enough node takes exactly the returned range. *)
Lemma carve_cover l size a l' :
  Forall node_ok l -> 0 < size -> carve l size = Some (a, l') ->
  Forall node_ok l' /\ area_ok a size /\ forall x, cover l' x = cover l x - inside (a, size) x.
Proof.
  intros Hok Hs. revert a l'. induction Hok as [|[b z] l [Hb [Hz [Hbz H0]]] Hok IH];
    intros a l' H; simpl in H; [done|]. cbn [fst snd] in *.
  destruct (size <=? z) eqn:E; bool_to_prop.
  - simplify_eq. unfold wrap. rewrite (Z.mod_small (z - size)) by lia.
    assert ((a + size) `mod` 2 ^ 64 = if a + size =? 2 ^ 64 then 0 else a + size) as Hm.
    { destruct (a + size =? 2 ^ 64) eqn:E2; bool_to_prop; [rewrite E2; apply Z.mod_same; lia|].
      apply Z.mod_small. lia. }
    rewrite Hm. assert (a <> 0) by (intros ->; lia). split; [|split].
    + constructor; [|done]. unfold node_ok. cbn [fst snd]. case_if; lia.
    + unfold area_ok. lia.
    + intros x. cbn [cover]. case_if; inside_cases.
  - apply bind_Some in H as ([a1 l1] & H1 & H2). simplify_eq.
    destruct (IH _ _ H1) as (Hok' & Ha & Hc). split_and!; [|done|].
    + constructor; [|done]. unfold node_ok. cbn [fst snd]. lia.
    + intros x. cbn [cover]. rewrite Hc. lia.
Qed.

Lemma u64_eqb x y : - 2 ^ 64 < x - y < 2 ^ 64 ->
  (u64 x =? u64 y) = true -> x = y.
Proof.
  intros Hr H. bool_to_prop. unfold wrap in H.
  assert ((x - y) `mod` 2 ^ 64 = 0) as Hm by (rewrite Zminus_mod, H, Z.sub_diag; done).
  apply Z.mod_divide in Hm as [k Hk]; [|lia]. assert (k = 0) by lia. lia.
Qed.

Lemma merge_scan_cover l base size seen l' :
  Forall node_ok l -> area_ok base size -> merge_scan l base size seen = Some l' ->
  Forall node_ok l' /\ forall x, cover l' x = cover l x + inside (base, size) x.
Proof.
  intros Hok [Hb [Hs Hbs]]. revert seen l'.
  induction Hok as [|[b z] l Hn Hok IH]; intros seen l' H; simpl in H; [done|].
  assert (forall seen, cons (b, z) <$> merge_scan l base size seen = Some l' ->
    Forall node_ok l' /\ (forall x, cover l' x = cover ((b, z) :: l) x + inside (base, size) x))
    as Hrec.
  { intros sn (l1 & H1 & ->)%fmap_Some. destruct (IH _ _ H1) as [Hok1 Hc1].
    split; [by constructor|]. intros x. cbn [cover]. rewrite Hc1. lia. }
  destruct Hn as (Hb' & Hz & Hbz & H0). cbn [fst snd] in *.
  destruct (negb seen && (z =? 0)); [eauto|].
  destruct (u64 (b - 1) =? u64 (base + size - 1)) eqn:E1.
  - simplify_eq. assert (b = base + size \/ (b = 0 /\ z = 0)) as Hcase.
    { destruct (decide (b = 0)) as [->|]; [right; auto|left].
      apply u64_eqb in E1; lia. }
    assert (u64 (z + size) = z + size) as -> by (apply wrap_small; lia).
    split; [constructor; [unfold node_ok; cbn [fst snd]; lia|done]|].
    intros x. cbn [cover]. destruct Hcase as [->|[-> ->]]; inside_cases.
  - destruct (u64 (base - 1) =? u64 (b + z - 1)) eqn:E2; [|eauto].
    simplify_eq. assert (base = b + z /\ 0 < b) as [-> Hb0].
    { destruct (decide (b = 0)) as [Heq|].
      - exfalso. rewrite Heq, (H0 Heq) in E2. bool_to_prop. unfold wrap in E2.
        rewrite Z.mod_small in E2 by lia. change ((0 + 0 - 1) `mod` 2 ^ 64) with (2 ^ 64 - 1) in E2. lia.
      - apply u64_eqb in E2; lia. }
    assert (u64 (z + size) = z + size) as -> by (apply wrap_small; lia).
    split; [constructor; [unfold node_ok; cbn [fst snd]; lia|done]|].
    intros x. cbn [cover]. inside_cases.
Qed.

(** Adding an area makes exactly it free, except that the nodes behind a reused
    empty node are lost. *)
Lemma add_cover l base size :
  Forall node_ok l -> area_ok base size -> size < 2 ^ 64 ->
  Forall node_ok (add l base size) /\
  (forall x, inside (base, size) x <= cover (add l base size) x
             <= cover l x + inside (base, size) x) /\
  (before_empty l = None \/ is_some (merge_scan l base size false) = true ->
   forall x, cover (add l base size) x = cover l x + inside (base, size) x).
Proof.
  intros Hok Ha Hs. unfold add. destruct (merge_scan l base size false) as [l'|] eqn:Em.
  { destruct (merge_scan_cover _ _ _ _ _ Hok Ha Em) as [Hok' Hc]. split_and!; [done| |done].
    intros x. rewrite Hc. pose proof (cover_nonneg l x). lia. }
  assert (node_ok (base, size)) as Hn by (unfold area_ok, node_ok in *; cbn [fst snd]; lia).
  assert (forall x, cover [(base, size)] x = inside (base, size) x) as H1
    by (intros; simpl; lia).
  destruct (before_empty l) as [l0|] eqn:Eb.
  - destruct (before_empty_split _ _ Eb) as (b & r & ->). apply Forall_app in Hok as [Hok0 _].
    split_and!; [apply Forall_app; split; [done|by apply Forall_singleton]| |intros [?|?]; done].
    intros x. rewrite !cover_app, H1. cbn [cover]. pose proof (cover_nonneg l0 x).
    pose proof (cover_nonneg r x). pose proof (inside_bounds (b, 0) x). lia.
  - split_and!; [apply Forall_app; split; [done|by apply Forall_singleton]| |];
      intros; rewrite cover_app, H1; [pose proof (cover_nonneg l x); lia|done].
Qed.

(** ** The allocator *)

(** The list the pointers spell out. *)
Fixpoint chain (fuel : nat) (p : list free_node) (n : option Z) : list node :=
  match fuel, n with
  | S f, Some i =>
      match zget p i with
      | Some x => (fn_base x, fn_size x) :: chain f p (fn_next x)
      | None => []
      end
  | _, _ => []
  end.
Definition live (s : vma) : list node := chain (length (free_nodes s)) (free_nodes s) (Some 0).

Lemma chain_spec fuel p l1 l2 :
  rep p (l1 ++ l2) -> (length l2 <= fuel)%nat -> chain fuel p (ptr_at l1 l2) = l2.
Proof.
  revert fuel l1. induction l2 as [|[b z] l2 IH]; intros fuel l1 Hr Hf; [by destruct fuel|].
  destruct fuel as [|fuel]; simpl in Hf; [lia|]. rewrite ptr_at_app. cbn [chain].
  pose proof (rep_at _ _ _ _ _ Hr) as Ha. apply aget_Ok in Ha. rewrite Ha. simpl. f_equal.
  apply IH; [by rewrite <- snoc_app|lia].
Qed.

Lemma live_list_of s l : list_of s l -> live s = l.
Proof.
  intros [Hr Hlen Hsz _ _]. unfold live.
  assert (Some 0 = ptr_at [] l) as -> by (destruct Hr as [? _]; by destruct l).
  apply chain_spec; [done|]. unfold zlen in *. lia.
Qed.

(** The invariant: a proper list whose nodes are in the address space. *)
Record wf (s : vma) : Prop := {
  wf_list : list_of s (live s);
  wf_nodes : Forall node_ok (live s)
}.

Lemma wf_intro s l : list_of s l -> Forall node_ok l -> wf s /\ live s = l.
Proof. intros H1 H2. pose proof (live_list_of s l H1) as Hl. split; [|done]. split; by rewrite Hl. Qed.

Definition free_at (s : vma) (a : Z) : Z := cover (live s) a.

Lemma get_virtual_pages_cases s size :
  wf s -> 0 < size -> size `mod` PAGE_SIZE = 0 ->
  match carve (live s) size with
  | Some (a, l') => exists s', get_virtual_pages s size = Ok (a, s') /\ wf s' /\ live s' = l' /\
      max_free_list_size s' = max_free_list_size s /\ free_list_size s' = free_list_size s /\
      area_ok a size /\ forall x, free_at s' x = free_at s x - inside (a, size) x
  | None => get_virtual_pages s size = Fail (Panic "Allocation failed, out of virtual pages!")
  end.
Proof.
  intros [[Hr Hlen Hsz Hw Hp] Hok] Hs Ha. unfold get_virtual_pages.
  assert ((size =? 0) = false) as -> by (apply Z.eqb_neq; lia). rewrite Ha.
  change (0 =? 0) with true. cbn [negb assert_ mbind outcome_bind].
  pose proof (get_walk_spec (length (free_nodes s)) (free_nodes s) [] (live s) size Hr) as Hg.
  assert (ptr_at [] (live s) = Some 0) as Hptr by (destruct Hr as [? _]; by destruct (live s)).
  rewrite Hptr in Hg. specialize (Hg ltac:(unfold zlen in *; lia)).
  destruct (carve (live s) size) as [[a l']|] eqn:Ec; [|by rewrite Hg].
  destruct Hg as (p' & -> & Hr' & Hl'). cbn [mbind outcome_bind app] in *.
  destruct (carve_cover _ _ _ _ Hok Hs Ec) as (Hok' & Harea & Hc).
  apply carve_length in Ec.
  destruct (wf_intro (with_nodes s p') l') as [Hwf Hlive]; [|done|].
  { split; simpl; try done; [congruence|]. unfold zlen in *. lia. }
  exists (with_nodes s p'). split_and!; try done; [apply Harea..|].
  intros x. unfold free_at. by rewrite Hlive.
Qed.

Lemma add_node_cases s base size :
  wf s -> area_ok base size -> size < 2 ^ 64 ->
  if grows (live s) base size && (free_list_size s + 1 =? max_free_list_size s) then
    add_node_to_free_list s base size = Fail (AssertFailed "No more free nodes!")
  else exists s', add_node_to_free_list s base size = Ok s' /\ wf s' /\
    live s' = add (live s) base size /\
    max_free_list_size s' = max_free_list_size s /\
    (forall x, inside (base, size) x <= free_at s' x <= free_at s x + inside (base, size) x).
Proof.
  intros [Hl Hok] Ha Hs. pose proof (add_node_refines s (live s) base size Hl) as Hr.
  destruct (grows _ _ _ && _); [done|].
  destruct Hr as (s' & Hadd & Hl' & _ & Hm & _).
  destruct (add_cover _ _ _ Hok Ha Hs) as (Hok' & Hle & _).
  destruct (wf_intro s' _ Hl' Hok') as [Hwf Hlive]. exists s'. split_and!; try done.
  intros x. unfold free_at. rewrite Hlive. apply Hle.
Qed.

(** Removing an area keeps the free list well formed, provided no node starts
    at address 0: an empty node there would swallow every address. *)
Lemma locate_inside l base size l1 n l2 :
  Forall node_ok l -> Forall (fun n => n.1 <> 0) l -> 0 < base -> 0 < size -> base + size <= 2 ^ 64 ->
  locate l base size = Some (l1, n, l2) -> n.1 <= base /\ base + size <= n.1 + n.2.
Proof.
  revert l1 n l2. induction l as [|[b z] l IH]; intros l1 n l2 Hok Hnz Hb Hs Ht H; simpl in H; [done|].
  inversion Hok as [|? ? (H1 & H2 & H3 & _) Hok']; inversion Hnz as [|? ? Hn0 Hnz']; subst.
  cbn [fst snd] in *. destruct ((b <=? base) && _) eqn:E.
  - simplify_eq. bool_to_prop. cbn [fst snd].
    rewrite (wrap_small 64 (base + size - 1)), (wrap_small 64 (_ + _ - 1)) in * by lia. lia.
  - apply bind_Some in H as ([[m1 m] m2] & Hl & H). simplify_eq. by eapply IH.
Qed.

Lemma remove_Ok s base size s' :
  wf s -> Forall (fun n => n.1 <> 0) (live s) -> 0 < base -> 0 < size -> base + size < 2 ^ 64 ->
  size `mod` PAGE_SIZE = 0 -> remove_from_free_list s base size = Ok s' -> wf s'.
Proof.
  intros [Hl Hok] Hnz Hb Hs Ht Ha H.
  assert (align_to size PAGE_SIZE = Ok size) as Hal
    by (apply align_to_aligned; unfold PAGE_SIZE in *; [lia|lia|zdiv|done]).
  pose proof (remove_refines s (live s) base size size Hl Hal) as Hr.
  destruct (locate (live s) base size) as [[[l1 n] l2]|] eqn:El; [|congruence].
  destruct (locate_inside _ _ _ _ _ _ Hok Hnz Hb Hs ltac:(lia) El) as [Hn1 Hn2].
  apply locate_split in El. cbv zeta in Hr. destruct Hr as (s1 & Hl1 & _ & _ & _ & Heq).
  rewrite Heq in H. rewrite El in Hok, Hnz. apply Forall_app in Hok as [Hok1 Hok2].
  inversion Hok2 as [|? ? (G1 & G2 & G3 & G4) Hok3]; subst.
  apply Forall_app in Hnz as [_ Hnz]. inversion Hnz as [|? ? Hn0 _]; subst.
  destruct (wf_intro s1 (shrunk l1 n l2 base) Hl1) as [Hw1 _].
  { unfold shrunk. apply Forall_app. split; [done|]. constructor; [|done].
    unfold node_ok. cbn [fst snd]. rewrite wrap_small by lia. lia. }
  rewrite (wrap_small 64 (base + size - 1)), (wrap_small 64 (n.1 + n.2 - 1)) in H by lia.
  rewrite !wrap_small in H by lia.
  pose proof (add_node_cases s1 (base + size - 1 + 1) (n.1 + n.2 - 1 - (base + size - 1)) Hw1
    ltac:(unfold area_ok; lia) ltac:(lia)) as Hc.
  destruct (grows _ _ _ && _); [congruence|]. destruct Hc as (s2 & Hs2 & Hw2 & _).
  rewrite Hs2 in H. by simplify_eq.
Qed.

(** ** Histories *)

Inductive vop := Get (size : Z) | Put (address size : Z).

(** What a client holds: the ranges handed out and not given back. *)
Definition vstep (o : vop) (st : vma * list node) : outcome (vma * list node) :=
  let '(s, held) := st in
  match o with
  | Get size => '(a, s') ← get_virtual_pages s (u64 size); Ok (s', (a, u64 size) :: held)
  | Put a size =>
      match list_find (fun n => n = (a, size)) held with
      | Some (i, _) => s' ← free_virtual_pages s a size; Ok (s', delete i held)
      | None => Ok (s, held)
      end
  end.

Fixpoint vsteps (ops : list vop) (st : vma * list node) : outcome (vma * list node) :=
  match ops with
  | [] => Ok st
  | o :: ops' => st' ← vstep o st; vsteps ops' st'
  end.

Record vholds (init : Z -> Z) (st : vma * list node) : Prop := {
  vh_wf : wf st.1;
  vh_held : Forall (fun n => area_ok n.1 n.2 /\ 0 < n.2) st.2;
  vh_cover : forall x, free_at st.1 x + cover st.2 x <= init x
}.

Lemma cover_delete l i n x : l !! i = Some n -> cover (delete i l) x = cover l x - inside n x.
Proof.
  revert i. induction l as [|m l IH]; intros [|i] H; simplify_eq/=; [lia|].
  rewrite (IH i H). lia.
Qed.

Lemma vstep_holds init o st st' : vholds init st -> vstep o st = Ok st' -> vholds init st'.
Proof.
  destruct st as [s held]. intros [Hw Hh Hc] H. cbn [fst snd] in *. destruct o as [size|a size].
  - cbn [vstep] in H. apply bind_Ok in H as ([a s1] & Hg & H). simplify_eq.
    pose proof (wrap_range 64 size ltac:(lia)) as Hs.
    pose proof Hg as Hg'. unfold get_virtual_pages in Hg'.
    apply bind_Ok in Hg' as (u1 & H0 & Hg'). apply bind_Ok in Hg' as (u2 & Hm & _).
    apply assert_Ok in H0, Hm. bool_to_prop.
    pose proof (get_virtual_pages_cases s (u64 size) Hw ltac:(lia) Hm) as Hcase.
    destruct (carve (live s) (u64 size)) as [[a' l']|]; [|congruence].
    destruct Hcase as (s2 & Hg2 & Hw2 & _ & _ & _ & Ha & Hx).
    rewrite Hg in Hg2. simplify_eq. split; cbn [fst snd]; [done| |].
    + constructor; [cbn [fst snd]; split; [done|lia]|done].
    + intros x. cbn [cover]. rewrite Hx. specialize (Hc x). lia.
  - cbn [vstep] in H. destruct (list_find _ held) as [[i n]|] eqn:Ef; [|by simplify_eq].
    apply list_find_Some in Ef as (Hi & -> & _). apply bind_Ok in H as (s1 & Hf & H). simplify_eq.
    pose proof (Forall_lookup_1 _ _ _ _ Hh Hi) as [Ha Hsz]. cbn [fst snd] in *.
    unfold free_virtual_pages in Hf. apply bind_Ok in Hf as (u1 & _ & Hf).
    apply bind_Ok in Hf as (u2 & _ & Hf).
    pose proof (add_node_cases s a size Hw Ha ltac:(unfold area_ok in *; lia)) as Hcase.
    destruct (grows _ _ _ && _); [congruence|].
    destruct Hcase as (s2 & Hf2 & Hw2 & _ & _ & Hx). rewrite Hf in Hf2. simplify_eq.
    split; cbn [fst snd]; [done|by apply Forall_delete|].
    intros x. rewrite (cover_delete _ _ _ _ Hi). specialize (Hc x). specialize (Hx x). lia.
Qed.

Lemma vsteps_holds init ops st st' : vholds init st -> vsteps ops st = Ok st' -> vholds init st'.
Proof.
  revert st. induction ops as [|o ops IH]; intros st Hh H; simpl in H; [by simplify_eq|].
  apply bind_Ok in H as (st1 & H1 & H). eauto using vstep_holds.
Qed.

(** ** [init] *)

Lemma mark_free_range_eq s start end_ :
  s64 start < s64 end_ ->
  mark_free_range s start end_ = add_node_to_free_list s start (u64 (s64 end_ - s64 start + 1)).
Proof. intros H. unfold mark_free_range. apply Z.ltb_lt in H. by rewrite H. Qed.

Definition init_nodes : list node :=
  [(0x200000, 2 ^ 42 - 0x200000);
   (2 ^ 64 - 2 ^ 42, 2 ^ 42 - 2 ^ 31 + 0x100000);
   (KERNEL_VMA_END, 2 ^ 64 - KERNEL_VMA_END)].

Lemma add_node_ok s l base size :
  list_of s l -> free_list_size s + 1 < max_free_list_size s ->
  exists s', add_node_to_free_list s base size = Ok s' /\ list_of s' (add l base size) /\
    free_list_size s' <= free_list_size s + 1 /\
    max_free_list_size s' = max_free_list_size s /\ virtual_free_list s' = virtual_free_list s.
Proof.
  intros Hl Hf. pose proof (add_node_refines s l base size Hl) as H.
  assert ((free_list_size s + 1 =? max_free_list_size s) = false) as E by (apply Z.eqb_neq; lia).
  rewrite E, andb_false_r in H. destruct H as (s' & ? & ? & ? & ? & ?). exists s'.
  split_and!; try done. destruct (grows l base size); simpl in *; lia.
Qed.

(** The list [init] starts from. *)
Lemma fresh_list ptr page : zlen page = NODES_PER_PAGE -> ptr <> 0 ->
  list_of (Vma ptr (zset page 0 (FreeNode 0 0 None)) 0 NODES_PER_PAGE) [(0, 0)].
Proof.
  intros Hlen Hp. assert (NODES_PER_PAGE = 170) as HN by done.
  split; simpl; try done; [|by rewrite zlen_zset].
  split; [done|]. intros i b z Hi. pose proof (zget_Some _ _ _ Hi) as Hb.
  change (zlen [(0, 0)]) with 1 in *. assert (i = 0) as -> by lia. cbv in Hi. simplify_eq.
  by rewrite zget_zset_eq by lia.
Qed.

Lemma init_three ptr page :
  zlen page = NODES_PER_PAGE -> ptr <> 0 ->
  exists l s1 s2 s3, aset page 0 (FreeNode 0 0 None) = Ok l /\
    mark_free_range (Vma ptr l 0 NODES_PER_PAGE) 0x200000 MAX_POSITIVE_VIRTUAL_ADDR = Ok s1 /\
    mark_free_range s1 MIN_NEGATIVE_VIRTUAL_ADDR (u64 (KERNEL_VMA_START - 1)) = Ok s2 /\
    mark_free_range s2 KERNEL_VMA_END MAX_NEGATIVE_VIRTUAL_ADDR = Ok s3 /\
    list_of s3 init_nodes /\ free_list_size s3 <= 3 /\ max_free_list_size s3 = NODES_PER_PAGE /\
    virtual_free_list s3 = ptr.
Proof.
  intros Hlen Hp. set (l := zset page 0 (FreeNode 0 0 None)).
  assert (NODES_PER_PAGE = 170) as HN by done.
  pose proof (fresh_list ptr page Hlen Hp) as H0. fold l in H0.
  destruct (add_node_ok _ _ 0x200000 (u64 (s64 MAX_POSITIVE_VIRTUAL_ADDR - s64 0x200000 + 1)) H0)
    as (s1 & H1 & L1 & F1 & M1 & P1); [simpl; lia|]. simpl in F1, M1, P1.
  destruct (add_node_ok _ _ MIN_NEGATIVE_VIRTUAL_ADDR (u64 (s64 (u64 (KERNEL_VMA_START - 1))
    - s64 MIN_NEGATIVE_VIRTUAL_ADDR + 1)) L1) as (s2 & H2 & L2 & F2 & M2 & P2); [lia|].
  destruct (add_node_ok _ _ KERNEL_VMA_END (u64 (s64 MAX_NEGATIVE_VIRTUAL_ADDR
    - s64 KERNEL_VMA_END + 1)) L2) as (s3 & H3 & L3 & F3 & M3 & P3); [lia|].
  exists l, s1, s2, s3. split; [apply aset_Ok; split; [rewrite Hlen, HN; lia|done]|].
  rewrite !mark_free_range_eq by done. split_and!; try done; try lia; try congruence.
Qed.

(** The free list after [init] has placed it in the page at [ptr]. *)
Definition booted_nodes (ptr : Z) : list node :=
  [(0x200000, 2 ^ 42 - 0x200000);
   (2 ^ 64 - 2 ^ 42, 2 ^ 42 - 2 ^ 31 + 0x100000);
   (KERNEL_VMA_END, ptr - KERNEL_VMA_END);
   (ptr + PAGE_SIZE, 2 ^ 64 - PAGE_SIZE - ptr)].

Lemma locate_init ptr :
  KERNEL_VMA_END < ptr -> ptr + PAGE_SIZE < 2 ^ 64 ->
  locate init_nodes ptr PAGE_SIZE =
    Some ([(0x200000, 2 ^ 42 - 0x200000); (2 ^ 64 - 2 ^ 42, 2 ^ 42 - 2 ^ 31 + 0x100000)],
          (KERNEL_VMA_END, 2 ^ 64 - KERNEL_VMA_END), []).
Proof.
  assert (KERNEL_VMA_END = 0xFFFFFFFF80200000) as HE by done. unfold PAGE_SIZE. rewrite HE.
  intros H1 H2. unfold init_nodes. rewrite HE. cbn [locate].
  rewrite (wrap_small 64 (ptr + 4096 - 1)) by lia. rewrite !(wrap_small 64) by lia.
  repeat case_if; try lia; done.
Qed.

Lemma init_list_spec ptr page :
  zlen page = NODES_PER_PAGE -> KERNEL_VMA_END < ptr -> ptr + PAGE_SIZE < 2 ^ 64 ->
  exists s, init_list ptr page = Ok s /\ wf s /\ live s = booted_nodes ptr /\
    max_free_list_size s = NODES_PER_PAGE.
Proof.
  assert (KERNEL_VMA_END = 0xFFFFFFFF80200000) as HE by done.
  intros Hlen H1 H2. destruct (init_three ptr page Hlen ltac:(lia))
    as (l & s1 & s2 & s3 & Hl & E1 & E2 & E3 & L3 & F3 & M3 & P3).
  unfold init_list. rewrite Hl. cbn [mbind outcome_bind]. rewrite E1. cbn [mbind outcome_bind].
  rewrite E2. cbn [mbind outcome_bind]. rewrite E3. cbn [mbind outcome_bind].
  pose proof (remove_refines s3 init_nodes ptr PAGE_SIZE PAGE_SIZE L3 ltac:(done)) as Hr.
  rewrite (locate_init ptr H1 H2) in Hr. cbv zeta in Hr.
  destruct Hr as (s4 & L4 & F4 & M4 & P4 & ->). cbn [fst snd] in *.
  unfold PAGE_SIZE in *. rewrite HE in *.
  assert (u64 (u64 (ptr + 4096 - 1) + 1) = ptr + 4096) as ->
    by (rewrite (wrap_small 64 (ptr + 4096 - 1)), wrap_small; lia).
  assert (u64 (u64 (18446744071564165120 + (2 ^ 64 - 18446744071564165120) - 1)
    - u64 (ptr + 4096 - 1)) = 2 ^ 64 - 4096 - ptr) as ->
    by (rewrite (wrap_small 64 (ptr + 4096 - 1)), (wrap_small 64 (_ + _ - 1)), wrap_small; lia).
  assert (NODES_PER_PAGE = 170) as HN by done.
  destruct (add_node_ok _ _ (ptr + 4096) (2 ^ 64 - 4096 - ptr) L4) as (s & -> & L & F & M & _); [lia|].
  assert (add (shrunk [(0x200000, 2 ^ 42 - 0x200000); (2 ^ 64 - 2 ^ 42, 2 ^ 42 - 2 ^ 31 + 0x100000)]
    (18446744071564165120, 2 ^ 64 - 18446744071564165120) [] ptr) (ptr + 4096) (2 ^ 64 - 4096 - ptr)
    = booted_nodes ptr) as Hadd.
  { unfold shrunk, add, booted_nodes, PAGE_SIZE. rewrite HE. cbn [fst snd app merge_scan before_empty].
    rewrite (wrap_small 64 (ptr - 18446744071564165120)) by lia.
    replace (ptr + 4096 + (2 ^ 64 - 4096 - ptr) - 1) with (2 ^ 64 - 1) by lia.
    rewrite (wrap_small 64 (ptr + 4096 - 1)) by lia. rewrite !(wrap_small 64) by lia.
    repeat case_if; cbn [fmap option_fmap option_map negb andb] in *; try lia; try done. }
  rewrite Hadd in L. destruct (wf_intro s _ L) as [Hw Hlv].
  { unfold booted_nodes, PAGE_SIZE. rewrite HE.
    repeat constructor; cbn [fst snd]; lia. }
  exists s. split_and!; try done. congruence.
Qed.

(** Whatever address [init] is given: a list it returns from is in order. *)
Lemma add_node_keeps_ptr s base size s' :
  add_node_to_free_list s base size = Ok s' -> virtual_free_list s' = virtual_free_list s.
Proof.
  unfold add_node_to_free_list. intros H. inv_ok. destruct a as [l'|[last [e|]]]; inv_ok; by simplify_eq.
Qed.

Lemma add_node_keeps_list s l base size s' :
  list_of s l -> add_node_to_free_list s base size = Ok s' -> exists l', list_of s' l'.
Proof.
  intros Hl H. pose proof (add_node_refines s l base size Hl) as Hr. case_match; [congruence|].
  destruct Hr as (s1 & H1 & H2 & _). assert (s1 = s') as <- by congruence. by eexists.
Qed.

Lemma mark_free_range_keeps s start end_ s' : mark_free_range s start end_ = Ok s' ->
  virtual_free_list s' = virtual_free_list s /\ forall l, list_of s l -> exists l', list_of s' l'.
Proof.
  unfold mark_free_range. intros H. case_if;
    (split; [by eapply add_node_keeps_ptr|]; intros l Hl; by eapply add_node_keeps_list).
Qed.

Lemma remove_keeps_ptr s base size s' :
  remove_from_free_list s base size = Ok s' -> virtual_free_list s' = virtual_free_list s.
Proof.
  unfold remove_from_free_list. intros H. apply bind_Ok in H as (u & _ & H). apply bind_Ok in H as (z & _ & H).
  apply bind_Ok in H as ([[i n]|] & _ & H); [|done]. apply bind_Ok in H as (l & _ & H).
  by apply add_node_keeps_ptr in H.
Qed.

Lemma get_virtual_pages_keeps_ptr s size a s' :
  get_virtual_pages s size = Ok (a, s') -> virtual_free_list s' = virtual_free_list s.
Proof.
  unfold get_virtual_pages. intros H. apply bind_Ok in H as (u & _ & H). apply bind_Ok in H as (u' & _ & H).
  apply bind_Ok in H as ([b l] & _ & H). by simplify_eq.
Qed.

Lemma init_list_ptr ptr page s : init_list ptr page = Ok s -> virtual_free_list s = ptr.
Proof.
  unfold init_list. intros H. apply bind_Ok in H as (l & _ & H).
  apply bind_Ok in H as (s1 & H1 & H). apply bind_Ok in H as (s2 & H2 & H). apply bind_Ok in H as (s3 & H3 & H).
  apply remove_keeps_ptr in H. destruct (mark_free_range_keeps _ _ _ _ H1) as [P1 _],
    (mark_free_range_keeps _ _ _ _ H2) as [P2 _], (mark_free_range_keeps _ _ _ _ H3) as [P3 _].
  by rewrite H, P3, P2, P1.
Qed.

Lemma init_list_ordered ptr page s : zlen page = NODES_PER_PAGE -> init_list ptr page = Ok s ->
  exists l, list_of s l.
Proof.
  intros Hlen H. unfold init_list in H. inv_ok.
  destruct (mark_free_range_keeps _ _ _ _ Ha0) as [P1 L1], (mark_free_range_keeps _ _ _ _ Ha1) as [P2 L2],
    (mark_free_range_keeps _ _ _ _ Ha2) as [P3 L3]. cbn [virtual_free_list] in P1.
  assert (ptr <> 0) as Hp.
  { intros ->. unfold remove_from_free_list in H. rewrite P3, P2, P1 in H. discriminate. }
  apply aset_Ok in Ha as [Hr ->].
  destruct (L1 [(0, 0)] (fresh_list ptr page Hlen Hp)) as [l1 K1].
  destruct (L2 l1 K1) as [l2 K2]. destruct (L3 l2 K2) as [l3 K3].
  pose proof (remove_refines _ l3 ptr PAGE_SIZE PAGE_SIZE K3 ltac:(done)) as Hrem.
  destruct (locate l3 ptr PAGE_SIZE) as [[[m1 n] m2]|]; [|congruence].
  destruct Hrem as (s4 & K4 & _ & _ & _ & E). rewrite E in H. by eapply add_node_keeps_list.
Qed.

(** ** Properties *)

Definition sample_page : list free_node := replicate 170 (FreeNode 0 0 None).
Definition sample_ptr : Z := 0xFFFFFFFF80400000.

Lemma cover_booted ptr x :
  KERNEL_VMA_END < ptr -> ptr + PAGE_SIZE < 2 ^ 64 -> 0 <= cover (booted_nodes ptr) x <= 1.
Proof.
  assert (KERNEL_VMA_END = 0xFFFFFFFF80200000) as HE by done. unfold booted_nodes, PAGE_SIZE.
  rewrite HE. intros H1 H2. split; [apply cover_nonneg|]. cbn [cover]. inside_cases.
Qed.

(** [C14] No virtual address is handed out twice: after any history of
    [get_virtual_pages] and [free_virtual_pages] (of ranges held) on the free
    list [init] builds, every address is in at most one of the ranges held and
    the free list together, and only addresses free at the start are handed out. *)
Theorem ranges_disjoint ptr page ops s held
    (Hlen : zlen page = NODES_PER_PAGE) (Hlo : KERNEL_VMA_END < ptr)
    (Hhi : ptr + PAGE_SIZE < 2 ^ 64)
    (Hrun : (s0 ← init_list ptr page; vsteps ops (s0, [])) = Ok (s, held)) :
  forall x, cover held x + free_at s x <= cover (booted_nodes ptr) x <= 1.
Proof.
  destruct (init_list_spec ptr page Hlen Hlo Hhi) as (s0 & Hi & Hw & Hl & _).
  rewrite Hi in Hrun. cbn [mbind outcome_bind] in Hrun.
  assert (vholds (cover (booted_nodes ptr)) (s0, [])) as H0.
  { split; cbn [fst snd]; [done|constructor|]. intros x. unfold free_at. rewrite Hl. simpl. lia. }
  pose proof (vh_cover _ _ (vsteps_holds _ ops _ _ H0 Hrun)) as Hc. cbn [fst snd] in Hc.
  intros x. specialize (Hc x). pose proof (cover_booted ptr x Hlo Hhi). lia.
Qed.

Lemma ranges_disjoint_witness :
  exists s held, (s0 ← init_list sample_ptr sample_page;
      vsteps [Get 0x1000; Get 0x3000; Put 0x200000 0x1000; Get 0x2000] (s0, [])) = Ok (s, held) /\
    cover held 0x202000 + free_at s 0x202000 <= 1.
Proof.
  eexists _, _. split; [vm_compute; reflexivity|].
  destruct (ranges_disjoint sample_ptr sample_page
    [Get 0x1000; Get 0x3000; Put 0x200000 0x1000; Get 0x2000] _ _
    ltac:(reflexivity) ltac:(reflexivity) ltac:(reflexivity) ltac:(vm_compute; reflexivity)
    0x202000) as [H1 H2].
  exact (Z.le_trans _ _ _ H1 H2).
Defined.

(** [C15] [get_virtual_pages] of a page multiple: it returns a range that was
    free, takes exactly that range out of the free list and keeps the list well
    formed; it panics exactly when no node is large enough. *)
Theorem get_virtual_pages_correct s size
    (Hw : wf s) (Hs : 0 < size) (Ha : size `mod` PAGE_SIZE = 0) :
  if existsb (fun n => size <=? n.2) (live s) then
    exists a s', get_virtual_pages s size = Ok (a, s') /\ wf s' /\ a <> 0 /\
      (forall x, a <= x < a + size -> 1 <= free_at s x) /\
      (forall x, free_at s' x = free_at s x - inside (a, size) x)
  else get_virtual_pages s size = Fail (Panic "Allocation failed, out of virtual pages!").
Proof.
  pose proof (get_virtual_pages_cases s size Hw Hs Ha) as Hg.
  assert (is_some (carve (live s) size) = existsb (fun n => size <=? n.2) (live s)) as Hex.
  { clear. induction (live s) as [|[b z] l IH]; simpl; [done|]. destruct (size <=? z); [done|].
    simpl. rewrite <- IH. by destruct (carve l size) as [[]|]. }
  destruct (carve (live s) size) as [[a l']|]; simpl in Hex; rewrite <- Hex; [|done].
  destruct Hg as (s' & Hget & Hw' & _ & _ & _ & Harea & Hx). exists a, s'.
  split_and!; try done; [unfold area_ok in Harea; lia|].
  intros x Hin. specialize (Hx x). pose proof (cover_nonneg (live s') x) as Hn.
  assert (inside (a, size) x = 1) by inside_cases. unfold free_at in *. lia.
Qed.

Lemma sample_wf : exists s, init_list sample_ptr sample_page = Ok s /\ wf s /\
  live s = booted_nodes sample_ptr.
Proof.
  destruct (init_list_spec sample_ptr sample_page) as (s & ? & ? & ? & _); [done..|]. eauto.
Qed.

Lemma get_virtual_pages_correct_witness :
  exists s, wf s /\ exists a s', get_virtual_pages s 0x5000 = Ok (a, s') /\ wf s'.
Proof.
  destruct sample_wf as (s & _ & Hw & Hl). exists s. split; [exact Hw|].
  pose proof (get_virtual_pages_correct s 0x5000 Hw ltac:(lia) ltac:(reflexivity)) as H.
  rewrite Hl in H. destruct H as (a & s' & H1 & H2 & _). exists a, s'. split; assumption.
Defined.

(** [free_virtual_pages] never makes an address free outside the range
    given back, and makes all of that range free; when the free list has no empty
    node the free addresses are exactly the old ones and the range. *)
Theorem free_virtual_pages_correct s a size
    (Hw : wf s) (Ha : area_ok a size) (Hs : 0 < size < 2 ^ 64)
    (Hroom : free_list_size s + 1 < max_free_list_size s) :
  exists s', free_virtual_pages s a size = Ok s' /\ wf s' /\
    (forall x, inside (a, size) x <= free_at s' x <= free_at s x + inside (a, size) x) /\
    (Forall (fun n => n.2 <> 0) (live s) ->
     forall x, free_at s' x = free_at s x + inside (a, size) x).
Proof.
  unfold free_virtual_pages. destruct (Ha) as [Ha1 Ha2].
  assert ((a =? 0) = false) as -> by (apply Z.eqb_neq; lia).
  assert ((size =? 0) = false) as -> by (apply Z.eqb_neq; lia).
  cbn [negb assert_ mbind outcome_bind].
  pose proof (add_node_cases s a size Hw Ha ltac:(lia)) as Hc.
  assert ((free_list_size s + 1 =? max_free_list_size s) = false) as E by (apply Z.eqb_neq; lia).
  rewrite E, andb_false_r in Hc. destruct Hc as (s' & Hadd & Hw' & Hl & _ & Hx).
  exists s'. split_and!; try done. intros Hne x. unfold free_at. rewrite Hl.
  apply (add_cover _ _ _ (wf_nodes s Hw) Ha); [lia|]. left.
  by apply before_empty_None.
Qed.

Lemma free_virtual_pages_correct_witness :
  exists s s', free_virtual_pages s 0x100000 0x1000 = Ok s' /\ wf s'.
Proof.
  destruct (init_list_spec sample_ptr sample_page ltac:(reflexivity) ltac:(reflexivity)
    ltac:(reflexivity)) as (s & Hi & Hw & _ & Hm). exists s.
  assert (free_list_size s = 3) as Hf.
  { assert ((free_list_size <$> init_list sample_ptr sample_page) = Ok 3) as Hfl
      by (vm_compute; reflexivity).
    rewrite Hi in Hfl. by injection Hfl. }
  destruct (free_virtual_pages_correct s 0x100000 0x1000 Hw ltac:(unfold area_ok; lia) ltac:(lia)
    ltac:(rewrite Hf, Hm; reflexivity)) as (s' & H1 & H2 & _). exists s'. split; assumption.
Defined.

(** Reusing an empty node ends the list there: when the range to free
    touches no node and the list is [l1 ++ (b, 0) :: l2], the free list
    afterwards is [l1] and the range; every address of [l2] is lost. *)
Theorem free_drops_tail s a size l1 b l2
    (Hw : wf s) (Ha : area_ok a size) (Hs : 0 < size < 2 ^ 64)
    (Hl : live s = l1 ++ (b, 0) :: l2) (Hne : Forall (fun n => n.2 <> 0) l1)
    (Hm : merge_scan (live s) a size false = None) :
  exists s', free_virtual_pages s a size = Ok s' /\ live s' = l1 ++ [(a, size)] /\
    forall x, free_at s' x = free_at s x - cover l2 x + inside (a, size) x.
Proof.
  unfold free_virtual_pages. destruct (Ha) as [Ha1 Ha2].
  assert ((a =? 0) = false) as -> by (apply Z.eqb_neq; lia).
  assert ((size =? 0) = false) as -> by (apply Z.eqb_neq; lia).
  cbn [negb assert_ mbind outcome_bind].
  assert (before_empty (live s) = Some l1) as Hb.
  { rewrite Hl, before_empty_app, before_empty_None by done. simpl. by rewrite app_nil_r. }
  pose proof (add_node_cases s a size Hw Ha ltac:(lia)) as Hc.
  unfold grows in Hc. rewrite Hm, Hb in Hc. cbn [andb] in Hc.
  destruct Hc as (s' & Hadd & _ & Hl' & _ & _). unfold add in Hl'. rewrite Hm, Hb in Hl'.
  exists s'. split_and!; try done. intros x. unfold free_at. rewrite Hl', Hl, !cover_app.
  cbn [cover]. assert (inside (b, 0) x = 0) as -> by inside_cases. lia.
Qed.

(** Taking the whole first node and giving back a part of it. *)
Definition drained : outcome vma :=
  s ← init_list sample_ptr sample_page;
  '(_, s) ← get_virtual_pages s (2 ^ 42 - 0x200000);
  Ok s.

Lemma free_drops_tail_witness :
  exists s s', drained = Ok s /\ free_virtual_pages s 0x200000 0x1000 = Ok s' /\
    live s' = [(0x200000, 0x1000)].
Proof.
  destruct sample_wf as (s0 & Hi & Hw & Hl).
  pose proof (get_virtual_pages_cases s0 (2 ^ 42 - 0x200000) Hw ltac:(lia) ltac:(reflexivity)) as Hg.
  rewrite Hl in Hg. cbn in Hg. destruct Hg as (s & Hg & Hws & Hls & _).
  exists s.
  destruct (free_drops_tail s 0x200000 0x1000 [] (2 ^ 42) (tail (live s)) Hws
    ltac:(unfold area_ok; lia) ltac:(lia) ltac:(rewrite Hls; reflexivity) ltac:(constructor)
    ltac:(rewrite Hls; vm_compute; reflexivity)) as (s' & H1 & H2 & _).
  exists s'. split; [|split; assumption].
  unfold drained. rewrite Hi. cbn [mbind outcome_bind]. rewrite Hg. reflexivity.
Defined.

(** [init] leaves free exactly the two halves of the 42-bit address space
    less the first 2 MiB, the kernel's window and the page of the list itself. *)
Theorem init_free ptr page
    (Hlen : zlen page = NODES_PER_PAGE) (Hlo : KERNEL_VMA_END < ptr)
    (Hhi : ptr + PAGE_SIZE < 2 ^ 64) :
  exists s, init_list ptr page = Ok s /\ wf s /\
    forall x, 0 <= x < 2 ^ 64 -> free_at s x =
      Z.b2z (((0x200000 <=? x) && (x <? 2 ^ 42)) ||
             ((2 ^ 64 - 2 ^ 42 <=? x) && (x <? KERNEL_VMA_START)) ||
             ((KERNEL_VMA_END <=? x) && negb ((ptr <=? x) && (x <? ptr + PAGE_SIZE)))).
Proof.
  destruct (init_list_spec ptr page Hlen Hlo Hhi) as (s & Hi & Hw & Hl & _). exists s.
  split_and!; try done. intros x Hx. unfold free_at. rewrite Hl.
  assert (KERNEL_VMA_END = 0xFFFFFFFF80200000) as HE by done.
  assert (KERNEL_VMA_START = 0xFFFFFFFF80100000) as HS by done.
  unfold booted_nodes, PAGE_SIZE in *. rewrite HE, HS in *. cbn [cover].
  unfold inside. cbn [fst snd]. clear Hi Hw Hl.
  destruct (Z.lt_ge_cases x 0x200000); [|destruct (Z.lt_ge_cases x (2 ^ 42));
    [|destruct (Z.lt_ge_cases x (2 ^ 64 - 2 ^ 42)); [|destruct (Z.lt_ge_cases x 0xFFFFFFFF80100000);
    [|destruct (Z.lt_ge_cases x 0xFFFFFFFF80200000); [|destruct (Z.lt_ge_cases x ptr);
    [|destruct (Z.lt_ge_cases x (ptr + 4096))]]]]]];
  repeat match goal with
  | |- context [?a <=? ?b] =>
      first [rewrite (proj2 (Z.leb_le a b)) by lia | rewrite (proj2 (Z.leb_gt a b)) by lia]
  | |- context [?a <? ?b] =>
      first [rewrite (proj2 (Z.ltb_lt a b)) by lia | rewrite (proj2 (Z.ltb_ge a b)) by lia]
  end; reflexivity.
Qed.

Lemma init_free_witness :
  exists s, init_list sample_ptr sample_page = Ok s /\ wf s.
Proof.
  destruct (init_free sample_ptr sample_page ltac:(reflexivity) ltac:(reflexivity)
    ltac:(reflexivity)) as (s & H1 & H2 & _). exists s. split; assumption.
Defined.
