(* ===== verification/Alloc.v ===== *)
(** * kernel/alloc.cpp: the kernel heap

    [alloc] takes a virtual range from the address-space allocator, a node of
    the allocation list, and one physical page per virtual page, and maps them;
    [free] undoes it.  The state is the three allocators below it, the list
    nodes keyed by address, the words of the allocation headers, and what the
    calls have written to [stderr], which HeapMessages.v brings to the console.
    Faults of the page protection itself are not modelled, and neither is the
    lock (one call runs at a time). *)
From S2P Require Import Prelude Util Bitmap Memory Paging PageTables PagingInit PageOps Pma Vma.

#[local] Arguments wrap : simpl never.

(** [struct allocation], with its flexible array member. *)
Record allocation := Allocation {
  al_next : Z;
  al_size : Z;
  physical_page_list_size : Z;
  physical_pages_used : list Z
}.

(** The lines [alloc] and [free] write to [stderr], with their arguments. *)
Inductive message :=
  | Allocating (n alignment : Z)
  | HeaderSize (padded_header_size : Z)
  | StartingAddr (virtual_base_address : Z)
  | AllocationAddr (allocation : Z)
  | HeaderAddr (header : Z)
  | FinalAddr (addr : Z)
  | Freeing (p : Z)
  | FreeAlignment (alignment : Z)
  | FreeHeaderSize (padded_header_size : Z)
  | FreeHeaderAddr (header : Z)
  | FreeAllocationAddr (header : Z).

(** [%zd] cannot print the least number. *)
Definition message_ok (t : message) : Prop :=
  match t with Allocating n _ => s64 n <> - 2 ^ 63 | _ => True end.

Record heap := Heap {
  h_pma : pma;
  h_vma : vma;
  h_paging : paging;
  first : Z;                         (* allocations.first *)
  nodes : gmap Z allocation;
  words : gmap Z Z;                  (* headers in front of allocated blocks *)
  said : list message                (* written to stderr, in order *)
}.

Definition with_node (s : heap) (a : Z) (n : allocation) : heap :=
  Heap (h_pma s) (h_vma s) (h_paging s) (first s) (<[a := n]> (nodes s)) (words s) (said s).
Definition with_word (s : heap) (a v : Z) : heap :=
  Heap (h_pma s) (h_vma s) (h_paging s) (first s) (nodes s) (<[a := v]> (words s)) (said s).
Definition say (s : heap) (t : message) : heap :=
  Heap (h_pma s) (h_vma s) (h_paging s) (first s) (nodes s) (words s) (said s ++ [t]).

Definition SIZEOF_ALLOCATION : Z := 24.
Definition SIZEOF_PTR : Z := 8.

Inductive protection := READ_ONLY | READ_WRITE | EXEC.

(** The three calls that give the allocator a mapped page of nodes. *)
Definition map_node_page (s : heap) : outcome (Z * heap) :=
  '(phys, pm) ← get_physical_page (h_pma s);
  '(virt, vm) ← get_virtual_pages (h_vma s) PAGE_SIZE;
  '(a, pt) ← map_page (h_paging s) phys virt DEFAULT_ATTRS;
  Ok (a, Heap pm vm pt (first s) (nodes s) (words s) (said s)).

Definition init (s : heap) : outcome heap :=
  '(a, s1) ← map_node_page s;
  Ok (Heap (h_pma s1) (h_vma s1) (h_paging s1) a (<[a := Allocation 0 0 0 []]> (nodes s1)) (words s1) (said s1)).

Definition node_at (s : heap) (a : Z) : outcome allocation := of_option OutOfBounds (nodes s !! a).

(** The loop of [get_new_allocation]: [inl] is a killed node to re-use, [inr]
    the last node with the bytes the list takes up. *)
Fixpoint find_node (fuel : nat) (s : heap) (last : Z) (needed : Z) (list_size : Z)
    : outcome (Z + Z * Z) :=
  match fuel with
  | O => Fail Diverges
  | S f =>
      n ← node_at s last;
      let list_size' := u64 (list_size + SIZEOF_ALLOCATION + SIZEOF_PTR * physical_page_list_size n) in
      if (al_size n =? 0) && (physical_page_list_size n =? needed) then Ok (inl last)
      else if al_next n =? 0 then Ok (inr (last, list_size'))
      else find_node f s (al_next n) needed list_size'
  end.

Definition get_new_allocation (s : heap) (n : Z) : outcome (Z * heap) :=
  _ ← assert_ (negb (first s =? 0))
        "Tried to get a new allocation, but allocation list is null";
  let needed := div_ceil n PAGE_SIZE in
  r ← find_node (S (base.size (nodes s))) s (first s) needed 0;
  match r with
  | inl a =>
      x ← node_at s a;
      Ok (a, with_node s a (Allocation (al_next x) n (physical_page_list_size x)
                              (physical_pages_used x)))
  | inr (last, list_size) =>
      let new_size := u64 (SIZEOF_ALLOCATION + SIZEOF_PTR * needed) in
      '(a, s1) ←
        (if negb (list_size / PAGE_SIZE =? u64 (list_size + new_size) / PAGE_SIZE) then
           _ ← assert_ (u64 (list_size + new_size) <=? PAGE_SIZE)
                 "allocation node won't fit in one page!";
           map_node_page s
         else
           x ← node_at s last;
           Ok (last + SIZEOF_ALLOCATION + SIZEOF_PTR * physical_page_list_size x, s));
      let s2 := with_node s1 a (Allocation 0 n needed (replicate (Z.to_nat needed) 0)) in
      l ← node_at s2 last;
      Ok (a, with_node s2 last (Allocation a (al_size l) (physical_page_list_size l)
                                  (physical_pages_used l)))
  end.

(** [for (; last->next != nullptr; last = last->next) if (last->next == node) break;] *)
Fixpoint find_before (fuel : nat) (s : heap) (last node : Z) : outcome Z :=
  match fuel with
  | O => Fail Diverges
  | S f =>
      x ← node_at s last;
      if al_next x =? 0 then Ok last
      else if al_next x =? node then Ok last
      else find_before f s (al_next x) node
  end.

Definition remove_allocation (s : heap) (node : Z) : outcome heap :=
  _ ← assert_ (negb (first s =? 0))
        "Tried to remove an allocation, but allocation list is null";
  last ← find_before (S (base.size (nodes s))) s (first s) node;
  x ← node_at s last;
  Ok (with_node s last (Allocation (al_next x) 0 (physical_page_list_size x)
                          (physical_pages_used x))).

(** The [switch] of [alloc], with its fall-through. *)
Definition attrs_of (p : protection) : Z :=
  match p with
  | READ_ONLY => Z.lor (Z.lor NONE XD) RW
  | READ_WRITE => Z.lor NONE RW
  | EXEC => NONE
  end.

(** The mapping loop of [alloc], from page [k] on. *)
Fixpoint map_pages (n : nat) (s : heap) (node base attrs k : Z) : outcome heap :=
  match n with
  | O => Ok s
  | S n' =>
      '(phys, pm) ← get_physical_page (h_pma s);
      '(_, pt) ← map_page (h_paging s) phys (u64 (base + k * PAGE_SIZE)) attrs;
      x ← node_at s node;
      pages ← aset (physical_pages_used x) k phys;
      map_pages n'
        (Heap pm (h_vma s) pt (first s)
           (<[node := Allocation (al_next x) (al_size x) (physical_page_list_size x) pages]> (nodes s))
           (words s) (said s)) node base attrs (k + 1)
  end.

Definition HEADER_BYTES : Z := SIZEOF_PTR + 8.

Definition alloc (s : heap) (n alignment : Z) (p : protection) : outcome (Z * heap) :=
  if n =? 0 then Ok (0, s)
  else
    let s := say s (Allocating n alignment) in
    padded_header_size ← align_to HEADER_BYTES alignment;
    let s := say s (HeaderSize padded_header_size) in
    size_with_header ← align_to (u64 (n + padded_header_size)) PAGE_SIZE;
    '(base, vm) ← get_virtual_pages (h_vma s) size_with_header;
    let s := say (Heap (h_pma s) vm (h_paging s) (first s) (nodes s) (words s) (said s)) (StartingAddr base) in
    '(node, s1) ← get_new_allocation s size_with_header;
    let s1 := say s1 (AllocationAddr node) in
    x ← node_at s1 node;
    s2 ← map_pages (Z.to_nat (s32 (physical_page_list_size x))) s1 node base (attrs_of p) 0;
    let s3 := with_word (say s2 (HeaderAddr base)) base node in
    let addr := u64 (base + padded_header_size) in
    Ok (addr, say (with_word s3 (u64 (addr - 8)) alignment) (FinalAddr addr)).

(** The loop of [free], from page [k] on. *)
Fixpoint unmap_pages (n : nat) (s : heap) (node base k : Z) : outcome heap :=
  match n with
  | O => Ok s
  | S n' =>
      x ← node_at s node;
      phys ← aget (physical_pages_used x) k;
      pm ← free_physical_page (h_pma s) phys;
      pt ← unmap_page (h_paging s) (u64 (base + k * PAGE_SIZE));
      unmap_pages n' (Heap pm (h_vma s) pt (first s) (nodes s) (words s) (said s)) node base (k + 1)
  end.

(** The last line says "allocation addr" and prints [header]. *)
Definition free (s : heap) (p : Z) : outcome heap :=
  if p =? 0 then Ok s
  else
    let s := say s (Freeing p) in
    alignment ← of_option OutOfBounds (words s !! u64 (p - 8));
    let s := say s (FreeAlignment alignment) in
    padded_header_size ← align_to HEADER_BYTES alignment;
    let s := say s (FreeHeaderSize padded_header_size) in
    let header_address := u64 (p - padded_header_size) in
    let s := say s (FreeHeaderAddr header_address) in
    node ← of_option OutOfBounds (words s !! header_address);
    let s := say s (FreeAllocationAddr header_address) in
    _ ← assert_ (negb (node =? 0)) "bad free: can't find the allocation!";
    x ← node_at s node;
    vm ← free_virtual_pages (h_vma s) header_address (al_size x);
    s1 ← unmap_pages (Z.to_nat (s32 (physical_page_list_size x)))
           (Heap (h_pma s) vm (h_paging s) (first s) (nodes s) (words s) (said s)) node header_address 0;
    remove_allocation s1 node.

(** ** A booted heap *)

Definition sample_heap : outcome heap :=
  vm ← init_list sample_ptr sample_page;
  init (Heap (fresh 0x400000 0 100) vm boot 0 ∅ ∅ []).

(** Two allocations freed in the order they were made. *)
Definition free_in_order : outcome heap :=
  s ← sample_heap;
  '(a, s) ← alloc s 100 8 READ_WRITE;
  '(b, s) ← alloc s 100 8 READ_WRITE;
  s ← free s a;
  free s b.
Definition free_in_reverse : outcome heap :=
  s ← sample_heap;
  '(a, s) ← alloc s 100 8 READ_WRITE;
  '(b, s) ← alloc s 100 8 READ_WRITE;
  s ← free s b;
  free s a.

(** ** Correctness of [alloc] *)

Record wf (s : heap) : Prop := {
  wf_pma : Pma.wf (h_pma s);
  wf_vma : Vma.wf (h_vma s);
  wf_paging : PageTables.wf (h_paging s)
}.

(** [ps] are distinct pages the allocator of [s] had free and that of [s'] has not. *)
Definition taken (s s' : pma) (ps : list Z) : Prop :=
  NoDup ps /\ Forall (fun p => exists idx, 0 <= idx < num_pages s /\ occupied s idx = false /\
    occupied s' idx = true /\ p = page_address s idx) ps.

(** Nothing that was mapped or occupied in [s] is touched. *)
Definition keeps (s s' : heap) : Prop :=
  (forall va, present_bit (pte (h_paging s) va) = true ->
     pte (h_paging s') va = pte (h_paging s) va) /\
  (forall idx, 0 <= idx -> occupied (h_pma s) idx = true -> occupied (h_pma s') idx = true) /\
  physical_page_base (h_pma s') = physical_page_base (h_pma s) /\
  num_pages (h_pma s') = num_pages (h_pma s).

(** Only the page tables and the page map matter. *)
Lemma keeps_fields s s' : h_pma s' = h_pma s -> h_paging s' = h_paging s -> keeps s s'.
Proof. intros H1 H2. unfold keeps. rewrite H1, H2. auto. Qed.

Lemma keeps_refl s : keeps s s.
Proof. by apply keeps_fields. Qed.

Lemma keeps_trans s1 s2 s3 : keeps s1 s2 -> keeps s2 s3 -> keeps s1 s3.
Proof.
  intros (H1 & H2 & H3 & H4) (K1 & K2 & K3 & K4). split_and!; [| |congruence|congruence].
  - intros va Hp. rewrite K1 by (rewrite H1; done). auto.
  - auto.
Qed.

Lemma get_physical_page_Ok s p s' :
  Pma.wf s -> get_physical_page s = Ok (p, s') ->
  exists idx, p = page_address s idx /\ 0 <= idx < num_pages s /\ occupied s idx = false /\
    marks s s' idx true.
Proof.
  intros Hw H. destruct (get_physical_page_cases s Hw) as
    [(idx & s1 & Hg & Hi & Hf & _ & Hm & _)|[[Hg _]|[Hg _]]]; rewrite Hg in H; simplify_eq. eauto.
Qed.

(** One page of the loop: take a physical page and map it. *)
Lemma map_one s p pm r pt va attrs :
  wf s -> 0 <= va < 2 ^ 64 ->
  get_physical_page (h_pma s) = Ok (p, pm) -> map_page (h_paging s) p va attrs = Ok (r, pt) ->
  va `mod` PAGE_SIZE = 0 /\ r = u64 (swrap 42 va) /\
  present_bit (pte (h_paging s) va) = false /\ pte pt va = mapped_entry p attrs /\
  taken (h_pma s) pm [p] /\
  forall vm nd wd l, Vma.wf vm ->
    wf (Heap pm vm pt (first s) nd wd l) /\ keeps s (Heap pm vm pt (first s) nd wd l).
Proof.
  intros [Hwp Hwv Hwt] Hva Hg Hm.
  destruct (get_physical_page_Ok _ _ _ Hwp Hg) as (idx & -> & Hi & Hf & (Hwp' & Hb & Hn & Hocc)).
  destruct (map_page_Ok _ _ _ _ _ _ Hwt Hva Hm) as (Hal & _ & Hnp & Hr & (Hwt' & _ & Hu)).
  split; [done|]. split; [done|]. split; [done|]. split; [by rewrite Hu, decide_True|]. split.
  - split; [apply NoDup_singleton|]. apply Forall_singleton. exists idx.
    rewrite Hocc, Z.eqb_refl by lia. done.
  - intros vm nd wd l Hvm. split; [by split|]. split_and!; simpl; [|done..| |done|done].
    + intros va' Hp. rewrite Hu. case_decide as Hd; [|done].
      rewrite (pte_page48 _ va va' Hd) in Hnp. congruence.
    + intros j Hj Ho. rewrite Hocc by lia. by destruct (j =? idx).
Qed.

Lemma taken_cons s s1 s2 p ps :
  Pma.wf s -> physical_page_base s1 = physical_page_base s -> num_pages s1 = num_pages s ->
  taken s s1 [p] -> taken s1 s2 ps ->
  (forall idx, 0 <= idx -> occupied s1 idx = true -> occupied s2 idx = true) ->
  (forall idx, 0 <= idx -> occupied s idx = true -> occupied s1 idx = true) ->
  taken s s2 (p :: ps).
Proof.
  intros Hw Hb Hn [_ H1] [Hnd H2] Hm Hm0. apply Forall_singleton in H1 as (idx & Hi & Hf & Ho & ->).
  split.
  - constructor; [|done]. intros Hin. rewrite Forall_forall in H2.
    destruct (H2 _ Hin) as (j & Hj & Hfj & _ & Heq). rewrite (page_address_base s s1 j Hb) in Heq.
    apply page_address_inj in Heq; [|done|done|by rewrite <- Hn]. subst. congruence.
  - constructor; [exists idx; auto 10 with lia|].
    eapply Forall_impl; [exact H2|]. intros q (j & Hj & Hfj & Hoj & ->). exists j.
    rewrite Hn in Hj. split; [done|]. split; [|split; [done|by apply page_address_base]].
    destruct (occupied s j) eqn:E; [|done]. rewrite Hm0 in Hfj by (done || lia). done.
Qed.

(** The list of physical pages after the loop has recorded [ps] from [k] on. *)
Definition recorded (before after : allocation) (k : Z) (ps : list Z) : Prop :=
  al_size after = al_size before /\ physical_page_list_size after = physical_page_list_size before /\
  (forall j, (j < Z.to_nat k)%nat -> physical_pages_used after !! j = physical_pages_used before !! j) /\
  (forall j p, ps !! j = Some p -> physical_pages_used after !! (Z.to_nat k + j)%nat = Some p).

Lemma recorded_nil x k : recorded x x k [].
Proof. by split_and!. Qed.

Lemma recorded_cons x y k p ps pages : 0 <= k -> aset (physical_pages_used x) k p = Ok pages ->
  recorded (Allocation (al_next x) (al_size x) (physical_page_list_size x) pages) y (k + 1) ps -> recorded x y k (p :: ps).
Proof.
  intros Hk Hset (H1 & H2 & H3 & H4). apply aset_Ok in Hset as [Hr ->].
  cbn [al_size physical_page_list_size physical_pages_used] in *. unfold zset in *. replace (k <? 0) with false in * by lia.
  replace (Z.to_nat (k + 1)) with (S (Z.to_nat k)) in * by lia.
  split; [done|]. split; [done|]. split.
  - intros j Hj. rewrite H3 by lia. by rewrite list_lookup_insert_ne by lia.
  - intros [|j] q Hq; simplify_eq/=.
    + rewrite Nat.add_0_r, H3 by lia. rewrite list_lookup_insert_eq; [done|]. unfold zlen in Hr. lia.
    + rewrite <- (H4 j q Hq). f_equal. lia.
Qed.

(** The mapping loop: every page from [k] on gets a fresh physical page of its
    own, recorded in the node. *)
Lemma map_pages_Ok n s node base attrs k s' x :
  wf s -> 0 <= k -> nodes s !! node = Some x -> map_pages n s node base attrs k = Ok s' ->
  wf s' /\ keeps s s' /\ h_vma s' = h_vma s /\ words s' = words s /\ said s' = said s /\
  exists ps y, length ps = n /\ taken (h_pma s) (h_pma s') ps /\
    nodes s' !! node = Some y /\ recorded x y k ps /\
    forall j p, ps !! j = Some p ->
      let va := u64 (base + (k + Z.of_nat j) * PAGE_SIZE) in
      va `mod` PAGE_SIZE = 0 /\ pte (h_paging s') va = mapped_entry p attrs.
Proof.
  revert s k x. induction n as [|n IH]; intros s k x Hw Hk0 Hx H; cbn [map_pages] in H.
  { simplify_eq. split; [done|]. split; [apply keeps_refl|]. do 3 (split; [done|]).
    exists [], x. split; [done|]. split; [split; constructor|]. split; [done|]. split; [apply recorded_nil|done]. }
  apply bind_Ok in H as ([p pm] & Hg & H). apply bind_Ok in H as ([r pt] & Hm & H).
  apply bind_Ok in H as (x' & Hx' & H). apply bind_Ok in H as (pages & Hp & H).
  apply of_option_Ok in Hx'. rewrite Hx in Hx'. injection Hx' as <-.
  pose proof (wrap_range 64 (base + k * PAGE_SIZE) ltac:(lia)) as Hva.
  destruct (map_one s p pm r pt _ attrs Hw Hva Hg Hm) as (Hal & _ & _ & Hpte & Ht & Hnew).
  set (s1 := Heap pm (h_vma s) pt (first s) _ _ _) in H.
  destruct (Hnew (h_vma s) (nodes s1) (words s) (said s) (wf_vma s Hw)) as [Hw1 Hk1].
  change (Heap pm (h_vma s) pt (first s) (nodes s1) (words s) (said s)) with s1 in Hw1, Hk1.
  destruct (IH s1 (k + 1) _ Hw1 ltac:(lia) (lookup_insert_eq _ _ _) H)
    as (Hw' & Hk' & Hv & Hwd & Hsd & ps & y & Hlen & Ht' & Hy & Hrec & Hpt).
  split_and!; [done|by eapply keeps_trans|done|done|done|].
  exists (p :: ps), y. split; [simpl; congruence|]. split; [|split; [done|split; [by eapply recorded_cons|]]].
  - apply (taken_cons (h_pma s) pm); try done; try apply Hk1; try apply Hk'; apply Hw.
  - intros [|j] q Hq; simplify_eq/=.
    + rewrite Z.add_0_r. split; [done|]. destruct Hk' as (Hkp & _). rewrite Hkp; [done|].
      cbn [h_paging s1]. rewrite Hpte. apply mapped_entry_present.
    + specialize (Hpt j q Hq). cbv zeta in Hpt.
      by replace (k + Z.of_nat (S j)) with (k + 1 + Z.of_nat j) by lia.
Qed.

(** Taking or re-using a list node. *)
Lemma map_node_page_Ok s a s' :
  wf s -> map_node_page s = Ok (a, s') ->
  wf s' /\ keeps s s' /\ words s' = words s /\ said s' = said s /\
  (forall x, free_at (h_vma s') x <= free_at (h_vma s) x).
Proof.
  intros Hw H. unfold map_node_page in H.
  apply bind_Ok in H as ([p pm] & Hg & H). apply bind_Ok in H as ([v vm] & Hv & H).
  apply bind_Ok in H as ([r pt] & Hm & H). simplify_eq.
  pose proof (get_virtual_pages_cases (h_vma s) PAGE_SIZE (wf_vma s Hw) ltac:(done) ltac:(done)) as Hc.
  destruct (carve _ _) as [[a' l']|]; [|congruence].
  destruct Hc as (vm' & Hv' & Hwv & _ & _ & _ & Ha & Hx). rewrite Hv in Hv'. simplify_eq.
  destruct (map_one s p pm _ pt a' DEFAULT_ATTRS Hw ltac:(unfold area_ok in Ha; lia) Hg Hm)
    as (_ & _ & _ & _ & _ & Hnew).
  destruct (Hnew vm' (nodes s) (words s) (said s) Hwv) as [Hw' Hk']. split_and!; try done.
  intros x. simpl. rewrite Hx. pose proof (inside_bounds (a', PAGE_SIZE) x). lia.
Qed.

Lemma with_node_wf s a n : wf s -> wf (with_node s a n).
Proof. intros [? ? ?]. by split. Qed.

Lemma with_word_wf s a v : wf s -> wf (with_word s a v).
Proof. intros [? ? ?]. by split. Qed.

Lemma say_wf s t : wf s -> wf (say s t).
Proof. intros [? ? ?]. by split. Qed.

(** The node [get_new_allocation] hands out is made for [n] bytes. *)
Lemma get_new_allocation_Ok s n a s' :
  wf s -> get_new_allocation s n = Ok (a, s') ->
  wf s' /\ keeps s s' /\ words s' = words s /\ said s' = said s /\
  (forall x, free_at (h_vma s') x <= free_at (h_vma s) x) /\
  exists x, nodes s' !! a = Some x /\ al_size x = n /\ physical_page_list_size x = div_ceil n PAGE_SIZE.
Proof.
  intros Hw H. unfold get_new_allocation in H. apply bind_Ok in H as (u & _ & H).
  apply bind_Ok in H as (r & Hf & H). destruct r as [b|[last sz]].
  - apply bind_Ok in H as (x & Hx & H). simplify_eq. apply of_option_Ok in Hx.
    split; [by apply with_node_wf|]. split; [by apply keeps_fields|]. do 3 (split; [done|]).
    eexists. split; [apply lookup_insert_eq|]. split; [done|]. simpl.
    assert (forall fuel l z, find_node fuel s l (div_ceil n PAGE_SIZE) z = Ok (inl a) ->
      exists y, nodes s !! a = Some y /\ physical_page_list_size y = div_ceil n PAGE_SIZE) as Hfind.
    { clear. intros fuel. induction fuel as [|f IH]; intros l z H; cbn [find_node] in H; [done|].
      apply bind_Ok in H as (y & Hy & H). apply of_option_Ok in Hy.
      destruct ((al_size y =? 0) && _) eqn:E; [simplify_eq; bool_to_prop; eauto|].
      destruct (al_next y =? 0); [done|eauto]. }
    destruct (Hfind _ _ _ Hf) as (y & Hy & Hs). congruence.
  - apply bind_Ok in H as ([b s1] & Hb & H). apply bind_Ok in H as (l & Hl & H). simplify_eq.
    assert (wf s1 /\ keeps s s1 /\ words s1 = words s /\ said s1 = said s /\
      (forall x, free_at (h_vma s1) x <= free_at (h_vma s) x)) as (Hw1 & Hk1 & Hwd1 & Hsd1 & Hx1).
    { case_if.
      - apply bind_Ok in Hb as (u2 & _ & Hb). by apply map_node_page_Ok in Hb.
      - apply bind_Ok in Hb as (x & _ & Hb). simplify_eq. split_and!; try done. }
    split; [by do 2 apply with_node_wf|]. split; [eapply keeps_trans; [done|by apply keeps_fields]|].
    do 3 (split; [done|]). apply of_option_Ok in Hl. simpl in Hl |- *.
    destruct (decide (a = last)) as [->|Hne].
    + rewrite lookup_insert_eq in Hl. simplify_eq. eexists. by rewrite lookup_insert_eq.
    + eexists. rewrite lookup_insert_ne, lookup_insert_eq by done. done.
Qed.

Lemma taken_keeps s s1 s2 ps :
  keeps s s1 -> taken (h_pma s1) s2 ps -> taken (h_pma s) s2 ps.
Proof.
  intros (_ & Hocc & Hb & Hn) [Hnd Hps]. split; [done|]. eapply Forall_impl; [exact Hps|].
  intros p (idx & Hi & Hf & Ho & ->). exists idx. rewrite Hn in Hi. split; [done|].
  split; [|split; [done|by apply page_address_base]].
  destruct (occupied (h_pma s) idx) eqn:E; [|done]. rewrite Hocc in Hf by (done || lia). done.
Qed.

Lemma div_ceil_multiple k : div_ceil (k * PAGE_SIZE) PAGE_SIZE = k.
Proof.
  unfold div_ceil. rewrite Z.div_mul, Z.mod_mul by done. change (0 =? 0) with true. cbv iota. lia.
Qed.

(** The block at [addr] of [n] bytes that a call took from [s] to [s']: it lies in
    a page range that was free in the address space and is free no more; each page
    of the range is mapped, with the attributes of [prot], to a physical page of its
    own that was free before, which the node of the allocation records; the header
    at the base of the range points at that node, the padded header ends where the
    block begins, and the word in front of the block holds the alignment for [free].
    The call has reported itself in six lines. *)
Definition block_granted (s s' : heap) (n alignment : Z) (prot : protection) (addr : Z) : Prop :=
  exists base size ps node x,
    0 < base < addr /\ addr + n <= base + size <= 2 ^ 64 /\ size = zlen ps * PAGE_SIZE /\
    align_to HEADER_BYTES alignment = Ok (addr - base) /\
    (forall a, base <= a < base + size -> 1 <= free_at (h_vma s) a) /\
    (forall a, free_at (h_vma s') a <= free_at (h_vma s) a - inside (base, size) a) /\
    taken (h_pma s) (h_pma s') ps /\
    (forall j p, ps !! j = Some p ->
       pte (h_paging s') (base + Z.of_nat j * PAGE_SIZE) = mapped_entry p (attrs_of prot) /\
       physical_pages_used x !! j = Some p) /\
    ((alignment | PAGE_SIZE) -> addr `mod` alignment = 0) /\
    words s' !! base = Some node /\ words s' !! (addr - 8) = Some alignment /\
    nodes s' !! node = Some x /\ al_size x = size /\ physical_page_list_size x = zlen ps /\
    said s' = said s ++ [Allocating n alignment; HeaderSize (addr - base); StartingAddr base;
                         AllocationAddr node; HeaderAddr base; FinalAddr addr].

Lemma alloc_Ok s n alignment prot addr s' :
  wf s -> 0 < n -> 0 < alignment -> n + alignment < 2 ^ 42 ->
  alloc s n alignment prot = Ok (addr, s') ->
  wf s' /\ keeps s s' /\ block_granted s s' n alignment prot addr.
Proof.
  intros Hw Hn Ha Hbig Hrun.
  unfold alloc in Hrun. assert ((n =? 0) = false) as E0 by (apply Z.eqb_neq; lia). rewrite E0 in Hrun.
  apply bind_Ok in Hrun as (hdr & Hh & Hrun). apply bind_Ok in Hrun as (size & Hs & Hrun).
  apply bind_Ok in Hrun as ([base vm] & Hv & Hrun). apply bind_Ok in Hrun as ([node s1] & Hnode & Hrun).
  apply bind_Ok in Hrun as (x & Hx & Hrun). apply bind_Ok in Hrun as (s2 & Hmap & Hrun).
  destruct (align_to_spec HEADER_BYTES alignment hdr ltac:(done) Ha ltac:(unfold HEADER_BYTES, SIZEOF_PTR; lia) Hh) as [Hhr Hhm].
  unfold HEADER_BYTES, SIZEOF_PTR in Hhr. rewrite wrap_small in Hs by lia.
  destruct (align_to_spec (n + hdr) PAGE_SIZE size ltac:(lia) ltac:(done)
    ltac:(unfold PAGE_SIZE; lia) Hs) as [Hsr Hsm].
  assert (exists np, size = np * PAGE_SIZE /\ 0 < np < 2 ^ 31) as (np & -> & Hnp).
  { apply Z.mod_divide in Hsm as [np ->]; [|done]. exists np. unfold PAGE_SIZE in *. split; lia. }
  cbn [h_vma say] in Hv. pose proof (get_virtual_pages_cases (h_vma s) (np * PAGE_SIZE) (wf_vma s Hw)
    ltac:(unfold PAGE_SIZE; lia) Hsm) as Hc.
  destruct (carve _ _) as [[b l']|]; [|congruence].
  destruct Hc as (vm' & Hv' & Hwv & _ & _ & _ & Harea & Hfree). rewrite Hv in Hv'. simplify_eq.
  destruct (get_new_allocation_Ok _ _ _ _ (Build_wf (say (Heap _ vm' _ _ _ _ _) _) (wf_pma s Hw) Hwv (wf_paging s Hw))
    Hnode) as (Hw1 & Hk1 & Hwd1 & Hsd1 & Hf1 & y & Hy & Hys & Hsz).
  assert (keeps s s1) as Hk0 by (eapply keeps_trans; [|exact Hk1]; by apply keeps_fields).
  apply of_option_Ok in Hx. cbn [nodes say] in Hx. rewrite Hy in Hx. simplify_eq. rewrite div_ceil_multiple in Hsz.
  rewrite Hsz, (swrap_small 32) in Hmap by lia.
  destruct (map_pages_Ok _ _ _ _ _ 0 _ x (say_wf _ (AllocationAddr node) Hw1) ltac:(lia) Hy Hmap)
    as (Hw2 & Hk2 & Hv2 & Hwd2 & Hsd2 & ps & z & Hlen & Ht & Hz & (Hz1 & Hz2 & _ & Hz4) & Hpt).
  unfold area_ok, PAGE_SIZE in Harea, Hsr.
  assert (zlen ps = np) as Hzl by (unfold zlen; rewrite Hlen; lia).
  assert (0 <= b /\ u64 (b + hdr) = b + hdr) as [Hb0 Hadr].
  { split; [lia|]. apply wrap_small. unfold PAGE_SIZE in *. lia. }
  rewrite Hadr, (wrap_small 64 (b + hdr - 8)) by (unfold PAGE_SIZE in *; lia).
  split; [by apply say_wf, with_word_wf, with_word_wf, say_wf|].
  split; [eapply keeps_trans; [exact Hk0|]; eapply keeps_trans; [exact Hk2|by apply keeps_fields]|].
  exists b, (np * PAGE_SIZE), ps, node, z. split_and!.
  - lia.
  - lia.
  - unfold PAGE_SIZE in *; lia.
  - unfold PAGE_SIZE in *; lia.
  - by rewrite Hzl.
  - by replace (b + hdr - b) with hdr by lia.
  - intros a Hin. specialize (Hfree a). pose proof (cover_nonneg (live vm') a).
    assert (inside (b, np * PAGE_SIZE) a = 1) by inside_cases. unfold free_at in *. lia.
  - intros a. simpl. rewrite Hv2. specialize (Hf1 a). simpl in Hf1. rewrite Hfree in Hf1. done.
  - simpl. by apply (taken_keeps s s1).
  - intros j p Hp. split; [|by rewrite <- (Hz4 j p Hp)]. simpl. specialize (Hpt j p Hp). cbv zeta in Hpt.
    destruct Hpt as [_ Hpt]. apply lookup_lt_Some in Hp. rewrite Z.add_0_l, wrap_small in Hpt; [done|].
    unfold PAGE_SIZE in *. lia.
  - intros Hdiv. destruct ps as [|p0 ps]; [unfold zlen in Hzl; simpl in Hzl; lia|].
    destruct (Hpt 0%nat p0 eq_refl) as [Hal _]. rewrite Z.add_0_l, Z.mul_0_l, Z.add_0_r in Hal.
    rewrite wrap_small in Hal by lia. apply Z.mod_divide in Hal, Hhm; [|lia|done].
    apply Z.mod_divide; [lia|]. apply Z.divide_add_r; [|done]. by etrans.
  - simpl. rewrite lookup_insert_ne by lia. apply lookup_insert_eq.
  - simpl. apply lookup_insert_eq.
  - exact Hz.
  - congruence.
  - congruence.
  - simpl. rewrite Hsd2. simpl. rewrite Hsd1. simpl. replace (b + hdr - b) with hdr by lia. by rewrite <- !app_assoc.
Qed.

(** *** What [alloc] says *)

Lemma map_pages_said n s node base attrs k s' : map_pages n s node base attrs k = Ok s' -> said s' = said s.
Proof.
  revert s k. induction n as [|n IH]; intros s k H; cbn [map_pages] in H; [by simplify_eq|].
  do 2 (apply bind_Ok in H as ([? ?] & _ & H)). do 2 (apply bind_Ok in H as (? & _ & H)). by apply IH in H.
Qed.

Lemma get_new_allocation_said s n a s' : get_new_allocation s n = Ok (a, s') -> said s' = said s.
Proof.
  intros H. unfold get_new_allocation in H. apply bind_Ok in H as (u & _ & H). apply bind_Ok in H as (r & _ & H).
  destruct r as [b|[last sz]]; [apply bind_Ok in H as (x & _ & H); by simplify_eq|].
  apply bind_Ok in H as ([b s1] & Hb & H). apply bind_Ok in H as (l & _ & H). simplify_eq. simpl. case_if.
  - apply bind_Ok in Hb as (u2 & _ & Hb). unfold map_node_page in Hb.
    do 3 (apply bind_Ok in Hb as ([? ?] & _ & Hb)). by simplify_eq.
  - apply bind_Ok in Hb as (x & _ & Hb). by simplify_eq.
Qed.

(** Whatever the state: the six lines of a call that returns a block. *)
Lemma alloc_says s n alignment prot addr s' : alloc s n alignment prot = Ok (addr, s') -> n <> 0 ->
  exists hdr base node, said s' = said s ++ [Allocating n alignment; HeaderSize hdr; StartingAddr base;
    AllocationAddr node; HeaderAddr base; FinalAddr addr].
Proof.
  intros H Hn. apply Z.eqb_neq in Hn. unfold alloc in H. rewrite Hn in H.
  apply bind_Ok in H as (hdr & _ & H). apply bind_Ok in H as (size & _ & H).
  apply bind_Ok in H as ([base vm] & _ & H). apply bind_Ok in H as ([node s1] & Hg & H).
  apply bind_Ok in H as (x & _ & H). apply bind_Ok in H as (s2 & Hm & H). simplify_eq.
  exists hdr, base, node. simpl. apply map_pages_said in Hm. apply get_new_allocation_said in Hg.
  rewrite Hm. simpl. rewrite Hg. simpl. by rewrite <- !app_assoc.
Qed.

Lemma alloc_said s n alignment prot addr s' : 0 <= n < 2 ^ 63 -> alloc s n alignment prot = Ok (addr, s') ->
  exists l, said s' = said s ++ l /\ Forall message_ok l.
Proof.
  intros Hn H. destruct (decide (n = 0)) as [->|Hne].
  - unfold alloc in H. cbn in H. simplify_eq. exists []. by rewrite app_nil_r.
  - destruct (alloc_says _ _ _ _ _ _ H Hne) as (hdr & base & node & Hs). eexists. split; [exact Hs|].
    repeat constructor. cbn. rewrite swrap_small; lia.
Qed.

(** The five lines of a [free] that comes back. *)
Lemma unmap_pages_said n s node base k s' : unmap_pages n s node base k = Ok s' -> said s' = said s.
Proof.
  revert s k. induction n as [|n IH]; intros s k H; cbn [unmap_pages] in H; [by simplify_eq|].
  do 4 (apply bind_Ok in H as (? & _ & H)). by apply IH in H.
Qed.

Lemma free_says s p s' : free s p = Ok s' -> p <> 0 ->
  exists alignment hdr, said s' = said s ++ [Freeing p; FreeAlignment alignment; FreeHeaderSize hdr;
    FreeHeaderAddr (u64 (p - hdr)); FreeAllocationAddr (u64 (p - hdr))].
Proof.
  intros H Hp. apply Z.eqb_neq in Hp. unfold free in H. rewrite Hp in H.
  apply bind_Ok in H as (al & _ & H). apply bind_Ok in H as (hdr & _ & H). apply bind_Ok in H as (node & _ & H).
  apply bind_Ok in H as (u & _ & H). apply bind_Ok in H as (x & _ & H). apply bind_Ok in H as (vm & _ & H).
  apply bind_Ok in H as (s1 & Hm & H). apply unmap_pages_said in Hm. unfold remove_allocation in H.
  apply bind_Ok in H as (u' & _ & H). apply bind_Ok in H as (last & _ & H). apply bind_Ok in H as (y & _ & H).
  simplify_eq. exists al, hdr. simpl. rewrite Hm. simpl. by rewrite <- !app_assoc.
Qed.

(** [C16] A successful [alloc(n, alignment, p)] keeps the invariant, touches no
    existing mapping and no page in use, and grants a block: [n] bytes inside a
    fresh page range, each page of it mapped with the attributes of [p] to a
    physical page of its own that was free and is recorded in the allocation's node,
    aligned when the alignment divides the page size; the header at the base of the
    range points at the node, which has the range's size, and the alignment is
    stored in front of the block.  [n] and the alignment together are below 4 TiB:
    beyond that the count of pages does not fit the [int] of the mapping loop. *)
Theorem alloc_correct s n alignment prot addr s'
    (Hw : wf s) (Hn : 0 < n) (Ha : 0 < alignment) (Hbig : n + alignment < 2 ^ 42)
    (Hrun : alloc s n alignment prot = Ok (addr, s')) :
  wf s' /\ keeps s s' /\ block_granted s s' n alignment prot addr.
Proof. by apply alloc_Ok. Qed.

Lemma sample_heap_wf : exists s, sample_heap = Ok s /\ wf s.
Proof.
  assert (is_ok sample_heap = true) as Hok by (vm_compute; reflexivity).
  destruct sample_heap as [s|] eqn:E; [|done]. exists s. split; [done|].
  unfold sample_heap in E. apply bind_Ok in E as (vm & Hvm & E).
  destruct sample_wf as (vm' & Hvm' & Hwv & _). rewrite Hvm in Hvm'. injection Hvm' as <-.
  unfold init in E. apply bind_Ok in E as ([a s1] & Hm & E). injection E as <-.
  destruct (fresh_wf 0x400000 0 100 ltac:(lia) ltac:(reflexivity) ltac:(lia) ltac:(lia)
    ltac:(reflexivity)) as (Hp & _).
  apply map_node_page_Ok in Hm as ([H1 H2 H3] & _); [|exact (Build_wf (Heap _ _ _ _ _ _ _) Hp Hwv boot_state_wf)].
  split; [exact H1|exact H2|exact H3].
Qed.

Lemma sample_heap_quiet s : sample_heap = Ok s -> said s = [].
Proof. intros Hs. assert (said <$> sample_heap = Ok []) as Hq by (vm_compute; reflexivity). rewrite Hs in Hq. by injection Hq. Qed.

Lemma alloc_correct_witness :
  exists s addr s', alloc s 100 8 READ_WRITE = Ok (addr, s') /\ wf s' /\
    words s' !! (addr - 8) = Some 8 /\ length (said s') = 6%nat.
Proof.
  destruct sample_heap_wf as (s & Hs & Hw). exists s.
  assert (is_ok (s ← sample_heap; alloc s 100 8 READ_WRITE) = true) as Hok by (vm_compute; reflexivity).
  rewrite Hs in Hok. cbn [mbind outcome_bind] in Hok.
  destruct (alloc s 100 8 READ_WRITE) as [[addr s']|] eqn:E; [|discriminate Hok].
  exists addr, s'. split; [reflexivity|].
  destruct (alloc_correct s 100 8 READ_WRITE addr s' Hw ltac:(lia) ltac:(lia) ltac:(lia) E)
    as (Hw' & _ & base & size & ps & node & x & _ & _ & _ & _ & _ & _ & _ & _ & _ & _ & Hword & _ & _ & _ & Hsaid).
  split; [assumption|]. split; [assumption|]. rewrite Hsaid, length_app. pose proof (sample_heap_quiet s Hs) as ->. reflexivity.
Defined.

(** ** What the list bookkeeping does *)

(** Freeing the later of two allocations marks the node of the earlier
    one as killed ([remove_allocation] clears the size of the predecessor): freeing
    in allocation order succeeds, freeing in reverse order stops at the
    zero-size assertion of the address-space allocator. *)
Theorem free_order :
  is_ok free_in_order = true /\
  (exists msg, free_in_reverse = Fail (AssertFailed msg)).
Proof. split; [|eexists]; vm_compute; reflexivity. Qed.

(** A block is re-used while it is still allocated: [c] gets the node of [a]. *)
Definition reuse_live_node : outcome (heap * Z * Z) :=
  s ← sample_heap;
  '(a, s) ← alloc s 100 8 READ_WRITE;
  '(b, s) ← alloc s 100 8 READ_WRITE;
  s ← free s b;
  '(c, s) ← alloc s 100 8 READ_WRITE;
  s ← free s a;
  Ok (s, a, c).

(** After [a = alloc; b = alloc; free(b); c = alloc; free(a)] the block
    [c] is still mapped, but the physical page behind it is free in the page
    allocator, which hands it out next. *)
Theorem free_releases_other_block :
  exists s a c phys pm, reuse_live_node = Ok (s, a, c) /\ a <> c /\
    get_physical_address (h_paging s) c = Ok (phys + HEADER_BYTES) /\
    get_physical_page (h_pma s) = Ok (phys, pm).
Proof.
  assert (match reuse_live_node with
    | Ok (s, a, c) => match get_physical_address (h_paging s) c, get_physical_page (h_pma s) with
        | Ok p, Ok (q, _) => negb (a =? c) && (p =? q + HEADER_BYTES)
        | _, _ => false end
    | Fail _ => false end = true) as H by (vm_compute; reflexivity).
  destruct reuse_live_node as [[[s a] c]|]; [|done].
  destruct (get_physical_address (h_paging s) c) as [p|] eqn:E1; [|done].
  destruct (get_physical_page (h_pma s)) as [[q pm]|] eqn:E2; [|done]. bool_to_prop.
  exists s, a, c, q, pm. subst p. done.
Qed.

(** The list of nodes never extends to a second page: when a new node
    would cross the page boundary the code asserts that the whole list still fits
    one page, which is then false unless it fills that page exactly. *)
Theorem no_second_node_page s n last list_size
    (Hf : first s <> 0)
    (Hfind : find_node (S (base.size (nodes s))) s (first s) (div_ceil n PAGE_SIZE) 0
             = Ok (inr (last, list_size)))
    (Hsz : 0 <= list_size < 2 ^ 62) (Hn : 0 <= n < 2 ^ 62) :
  let new_size := SIZEOF_ALLOCATION + SIZEOF_PTR * div_ceil n PAGE_SIZE in
  list_size / PAGE_SIZE <> (list_size + new_size) / PAGE_SIZE ->
  list_size + new_size <> PAGE_SIZE ->
  get_new_allocation s n = Fail (AssertFailed "allocation node won't fit in one page!").
Proof.
  intros new_size Hcross Hne. unfold get_new_allocation. apply Z.eqb_neq in Hf as ->.
  cbn [negb assert_ mbind outcome_bind]. rewrite Hfind. cbn [mbind outcome_bind].
  pose proof (div_ceil_spec n PAGE_SIZE ltac:(done)) as Hd.
  pose proof (div_ceil_nonneg n PAGE_SIZE ltac:(lia) ltac:(done)) as Hd0.
  unfold new_size, SIZEOF_ALLOCATION, SIZEOF_PTR, PAGE_SIZE in *.
  rewrite (wrap_small 64 (24 + 8 * div_ceil n 4096)) by lia. rewrite !wrap_small by lia.
  apply Z.eqb_neq in Hcross as Hc. rewrite Hc. cbn [negb].
  destruct (_ <=? 4096) eqn:E; [|done]. bool_to_prop. exfalso.
  apply Hcross. rewrite !Z.div_small; lia.
Qed.

Definition full_node_page : heap :=
  Heap (fresh 0x400000 0 100) (Vma 0 [] 0 0) boot 0x1000 {[0x1000 := Allocation 0 1 508 []]} ∅ [].

Lemma no_second_node_page_witness :
  get_new_allocation full_node_page 0x1000
    = Fail (AssertFailed "allocation node won't fit in one page!").
Proof.
  apply (no_second_node_page full_node_page 0x1000 0x1000 4088 ltac:(discriminate)
    ltac:(vm_compute; reflexivity) ltac:(lia) ltac:(lia)); vm_compute; discriminate.
Defined.
