(* ===== verification/Scheduler.v ===== *)
(** * kernel/scheduler.cpp: tasks and task switching

    The scheduler uses the kernel heap only through [alloc] and [free]: the
    class [KernelHeap] states that interface, [Alloc.v] provides the instance,
    and the theorems here hold for every instance.  Interrupts are disabled
    around each operation, so an operation is one step of the system. *)
From S2P Require Import Prelude Util Memory Alloc.

#[local] Arguments wrap : simpl never.

(** [alloc::alloc(size, alignment, READ_WRITE)] and [alloc::free], with what they
    have written to [stderr]: an allocation only adds to it. *)
Class KernelHeap (H : Type) := {
  kalloc : H -> Z -> Z -> outcome (Z * H);
  kfree : H -> Z -> outcome H;
  ksaid : H -> list message;
  kalloc_says h n a p h' : 0 <= n < 2 ^ 63 -> kalloc h n a = Ok (p, h') ->
    exists l, ksaid h' = ksaid h ++ l /\ Forall message_ok l
}.

#[export] Program Instance kernel_heap : KernelHeap heap := {
  kalloc s n a := alloc s n a READ_WRITE;
  kfree := free;
  ksaid := said
}.
Next Obligation. cbv beta. intros. by eapply alloc_said. Qed.

Definition MAX_TASKS : Z := 0x100.
Definition KERNEL_TASK_ID : Z := 0.
Definition TASK_STACK_SIZE : Z := PAGE_SIZE * 4.
Definition TASK_STACK_ALIGN : Z := 16.

(** gdt.h *)
Definition KERNEL_CODE_SELECTOR : Z := 0x08.
Definition KERNEL_DATA_SELECTOR : Z := 0x10.
Definition USER_CODE_SELECTOR : Z := 0x18.
Definition USER_DATA_SELECTOR : Z := 0x20.

Record task_frame := TaskFrame {
  r15 : Z; r14 : Z; r13 : Z; r12 : Z; r11 : Z; r10 : Z; r9 : Z; r8 : Z;
  rbp : Z; rdi : Z; rsi : Z; rdx : Z; rcx : Z; rbx : Z; rax : Z;
  rip : Z; cs : Z; rflags : Z; rsp : Z; ss : Z
}.

Definition zero_frame : task_frame := TaskFrame 0 0 0 0 0 0 0 0 0 0 0 0 0 0 0 0 0 0 0 0.

Inductive task_state := killed | waiting | running.

#[export] Instance task_state_eq_dec : EqDecision task_state.
Proof. solve_decision. Defined.

Definition state_eqb (a b : task_state) : bool := bool_decide (a = b).

Record task_context := TaskContext {
  frame : task_frame;
  state : task_state;
  stack_base : Z
}.

(** sizeof(task_context) and sizeof(fxsave_data) *)
Definition SIZEOF_TASK_CONTEXT : Z := 176.
Definition SIZEOF_FXSAVE : Z := 512.
Definition fxsave_data := list Z.
Definition zero_fxsave : fxsave_data := replicate 512 0.

Section scheduler.
Context {H : Type} `{KernelHeap H}.

Record sched := Sched {
  tasks : option (list task_context);   (* null before [init] *)
  total_tasks : Z;
  current_task_id : Z;
  fxsave_blocks : list fxsave_data;
  temp_fxsave : fxsave_data;
  heap_ : H;
  stack_words : gmap Z Z                (* words written to task stacks *)
}.

Definition with_tasks (s : sched) (ts : list task_context) : sched :=
  Sched (Some ts) (total_tasks s) (current_task_id s) (fxsave_blocks s) (temp_fxsave s)
    (heap_ s) (stack_words s).

Definition task_array (s : sched) : outcome (list task_context) :=
  of_option (Undefined "null task array") (tasks s).

Definition get_current_task (s : sched) : outcome (option task_context) :=
  match tasks s with
  | None => Ok None
  | Some ts => t ← aget ts (current_task_id s); Ok (Some t)
  end.

Definition get_current_task_is_kernel (s : sched) : outcome bool :=
  t ← get_current_task s;
  Ok (match t with None => true | Some t => cs (frame t) =? KERNEL_CODE_SELECTOR end).

Definition get_current_task_is_user (s : sched) : outcome bool :=
  t ← get_current_task s;
  Ok (match t with None => false | Some t => cs (frame t) =? USER_CODE_SELECTOR end).

(** [alloc_zeroed] fills the arrays with zero bytes: killed tasks without a stack. *)
Definition init (s : sched) (cmos_initialized : bool) : outcome sched :=
  _ ← assert_ cmos_initialized "scheduler requires CMOS!";
  '(_, h1) ← kalloc (heap_ s) (SIZEOF_TASK_CONTEXT * MAX_TASKS) 8;
  let ts := replicate (Z.to_nat MAX_TASKS) (TaskContext zero_frame killed 0) in
  t0 ← aget ts KERNEL_TASK_ID;
  ts' ← aset ts KERNEL_TASK_ID (TaskContext (frame t0) running (stack_base t0));
  '(_, h2) ← kalloc h1 (SIZEOF_FXSAVE * MAX_TASKS) 16;
  Ok (Sched (Some ts') (total_tasks s) KERNEL_TASK_ID
        (replicate (Z.to_nat MAX_TASKS) zero_fxsave) (temp_fxsave s) h2 (stack_words s)).

(** The slot search of [schedule_task]. *)
Fixpoint find_killed (ts : list task_context) (i : Z) (n : nat) : outcome (option Z) :=
  match n with
  | O => Ok None
  | S n' =>
      t ← aget ts i;
      if state_eqb (state t) killed then Ok (Some i) else find_killed ts (i + 1) n'
  end.

Definition new_frame (is_kernel : bool) (new_task context sp : Z) : task_frame :=
  TaskFrame 0 0 0 0 0 0 0 0 0 context 0 0 0 0 0
    new_task (if is_kernel then KERNEL_CODE_SELECTOR else USER_CODE_SELECTOR)
    (2 ^ 9) sp (if is_kernel then KERNEL_DATA_SELECTOR else USER_DATA_SELECTOR).

Definition schedule_task (s : sched) (exit_addr : Z) (is_kernel : bool) (new_task context : Z)
    : outcome (Z * sched) :=
  ts ← task_array s;
  slot ← find_killed ts 0 (Z.to_nat (total_tasks s));
  let next_task_id := default (total_tasks s) slot in
  _ ← assert_ (next_task_id <? MAX_TASKS) "ran out of tasks!";
  let total := if next_task_id =? total_tasks s then u32 (total_tasks s + 1) else total_tasks s in
  t ← aget ts next_task_id;
  '(new_stack_top, h) ← kalloc (heap_ s) TASK_STACK_SIZE TASK_STACK_ALIGN;
  let base := u64 (new_stack_top + TASK_STACK_SIZE) in
  let sp := u64 (base - 8) in
  ts' ← aset ts next_task_id (TaskContext (new_frame is_kernel new_task context sp) waiting base);
  Ok (next_task_id,
      Sched (Some ts') total (current_task_id s) (fxsave_blocks s) (temp_fxsave s) h
        (<[sp := exit_addr]> (stack_words s))).

Definition schedule_kernel_task (s : sched) (exit_addr new_task context : Z) :=
  schedule_task s exit_addr true new_task context.
Definition schedule_user_task (s : sched) (exit_addr new_task context : Z) :=
  schedule_task s exit_addr false new_task context.

(** The [do ... while] of [task_switch]: [None] is the early return.  It makes at
    most [total_tasks] turns. *)
Fixpoint next_waiting (fuel : nat) (ts : list task_context) (total current next : Z)
    : outcome (option Z) :=
  match fuel with
  | O => Fail Diverges
  | S f =>
      let next' := if total <=? u32 (next + 1) then 0 else u32 (next + 1) in
      if next' =? current then Ok None
      else
        t ← aget ts next';
        if state_eqb (state t) waiting then Ok (Some next')
        else next_waiting f ts total current next'
  end.

(** [task_switch(tcb)]: the returned frame is what [*tcb] holds afterwards. *)
Definition task_switch (s : sched) (tcb : task_frame) : outcome (task_frame * sched) :=
  ts ← task_array s;
  cur ← aget ts (current_task_id s);
  _ ← assert_ (state_eqb (state cur) running) "current task is not running?";
  let old_task := current_task_id s in
  r ← next_waiting (S (Z.to_nat (total_tasks s))) ts (total_tasks s) (current_task_id s) old_task;
  match r with
  | None => Ok (tcb, s)
  | Some next_task =>
      ts1 ← aset ts old_task (TaskContext tcb (state cur) (stack_base cur));
      fx1 ← aset (fxsave_blocks s) old_task (temp_fxsave s);
      temp' ← aget fx1 next_task;
      nt ← aget ts1 next_task;
      ts2 ← aset ts1 next_task (TaskContext (frame nt) running (stack_base nt));
      Ok (frame nt, Sched (Some ts2) (total_tasks s) next_task fx1 temp' (heap_ s) (stack_words s))
  end.

Definition kill (s : sched) (id : Z) : outcome sched :=
  ts ← task_array s;
  t ← aget ts id;
  ts' ← aset ts id (TaskContext (frame t) killed (stack_base t));
  if negb (stack_base t =? 0) then
    h ← kfree (heap_ s) (u64 (stack_base t - TASK_STACK_SIZE));
    Ok (Sched (Some ts') (total_tasks s) (current_task_id s) (fxsave_blocks s) (temp_fxsave s)
          h (stack_words s))
  else Ok (with_tasks s ts').

(** [exit()] up to its first interrupt: kill the current task, then yield,
    which enters [task_switch] with the frame [tcb] of the interrupted task. *)
Definition exit_ (s : sched) (tcb : task_frame) : outcome (task_frame * sched) :=
  s' ← kill s (current_task_id s);
  task_switch s' tcb.

(** ** Invariant and the round-robin order *)

Definition task_at (s : sched) (i : Z) : option task_context := tasks s ≫= fun ts => zget ts i.
Definition state_at (s : sched) (i : Z) : option task_state := state <$> task_at s i.

Record wf (s : sched) : Prop := {
  wf_tasks : exists ts, tasks s = Some ts /\ zlen ts = MAX_TASKS;
  wf_total : 1 <= total_tasks s <= MAX_TASKS;
  wf_current : 0 <= current_task_id s < total_tasks s;
  wf_fxsave : zlen (fxsave_blocks s) = MAX_TASKS
}.

(** The task [k] places after the current one, cyclically. *)
Definition ring (s : sched) (k : Z) : Z := (current_task_id s + k) `mod` total_tasks s.

Lemma ring_range s k : wf s -> 0 <= ring s k < total_tasks s.
Proof. intros [_ Ht _ _]. apply Z.mod_pos_bound. lia. Qed.

Lemma ring_0 s : wf s -> ring s 0 = current_task_id s.
Proof. intros [_ _ Hc _]. unfold ring. rewrite Z.add_0_r. apply Z.mod_small. lia. Qed.

Lemma ring_current s k : wf s -> 0 <= k < total_tasks s -> ring s k = current_task_id s -> k = 0.
Proof.
  intros [_ Ht Hc _] Hk Hr. unfold ring in Hr. destruct (decide (current_task_id s + k < total_tasks s)).
  - rewrite Z.mod_small in Hr by lia. lia.
  - replace (current_task_id s + k) with (current_task_id s + k - total_tasks s + 1 * total_tasks s) in Hr by lia.
    rewrite Z.mod_add, Z.mod_small in Hr by lia. lia.
Qed.

(** One increment of the loop. *)
Lemma ring_succ s k : wf s -> 0 <= k ->
  (if total_tasks s <=? u32 (ring s k + 1) then 0 else u32 (ring s k + 1)) = ring s (k + 1).
Proof.
  intros Hw Hk. pose proof (ring_range s k Hw) as Hr. destruct Hw as [_ Ht _ _].
  unfold MAX_TASKS in Ht. rewrite wrap_small by lia. unfold ring in *.
  replace (current_task_id s + (k + 1)) with (current_task_id s + k + 1) by lia.
  rewrite <- (Zplus_mod_idemp_l (current_task_id s + k) 1).
  destruct (_ <=? _) eqn:E; bool_to_prop.
  - replace ((current_task_id s + k) `mod` total_tasks s + 1) with (1 * total_tasks s) by lia.
    by rewrite Z.mod_mul by lia.
  - symmetry. apply Z.mod_small. lia.
Qed.

(** No task strictly between the current one and place [k] is waiting. *)
Definition none_waiting (s : sched) (k : Z) : Prop :=
  forall j, 1 <= j < k -> state_at s (ring s j) <> Some waiting.

Lemma next_waiting_spec fuel s ts k :
  wf s -> tasks s = Some ts -> 0 <= k < total_tasks s -> none_waiting s (k + 1) ->
  total_tasks s - k <= Z.of_nat fuel ->
  (next_waiting fuel ts (total_tasks s) (current_task_id s) (ring s k) = Ok None /\
     none_waiting s (total_tasks s)) \/
  (exists m, next_waiting fuel ts (total_tasks s) (current_task_id s) (ring s k) = Ok (Some (ring s m)) /\
     1 <= m < total_tasks s /\ none_waiting s m /\ state_at s (ring s m) = Some waiting).
Proof.
  intros Hw Hts. revert k. induction fuel as [|f IH]; intros k Hk Hn Hf; [lia|].
  cbn [next_waiting]. rewrite ring_succ by (done || lia).
  pose proof (ring_range s (k + 1) Hw) as Hr.
  destruct (wf_tasks s Hw) as (ts' & Hts' & Hlen). rewrite Hts in Hts'. injection Hts' as <-.
  pose proof (wf_total s Hw) as Ht.
  destruct (ring s (k + 1) =? current_task_id s) eqn:E; bool_to_prop.
  - left. split; [done|]. destruct (decide (k + 1 = total_tasks s)) as [<-|Hne]; [done|].
    apply (ring_current s (k + 1) Hw) in E; lia.
  - assert (k + 1 < total_tasks s) as Hk1.
    { destruct (decide (k + 1 = total_tasks s)) as [Heq|]; [|lia]. exfalso. apply E.
      rewrite <- (ring_0 s Hw). unfold ring. rewrite Heq, Z.add_0_r.
      replace (current_task_id s + total_tasks s) with (current_task_id s + 1 * total_tasks s) by lia.
      by rewrite Z.mod_add by lia. }
    destruct (zget_is_Some ts (ring s (k + 1))) as [t Hg]; [lia|].
    rewrite (proj2 (aget_Ok _ _ _) Hg). cbn [mbind outcome_bind].
    assert (state_at s (ring s (k + 1)) = Some (state t)) as Hst.
    { unfold state_at, task_at. rewrite Hts. cbn [mbind option_bind]. by rewrite Hg. }
    unfold state_eqb. case_bool_decide as Hwait.
    + right. exists (k + 1). split; [done|]. split; [lia|]. split; [done|]. by rewrite Hst, Hwait.
    + apply IH; [lia| |lia]. intros j Hj. destruct (decide (j = k + 1)) as [->|]; [|apply Hn; lia].
      rewrite Hst. congruence.
Qed.

Lemma aget_range {A} (l : list A) i : 0 <= i < zlen l -> exists x, aget l i = Ok x /\ zget l i = Some x.
Proof. intros Hi. destruct (zget_is_Some l i Hi) as [x Hx]. exists x. split; [by apply aget_Ok|done]. Qed.

Lemma aset_range {A} (l : list A) i x : 0 <= i < zlen l -> aset l i x = Ok (zset l i x).
Proof. intros Hi. by apply aset_Ok. Qed.

Lemma task_at_array s ts i : tasks s = Some ts -> task_at s i = zget ts i.
Proof. intros Hts. unfold task_at. by rewrite Hts. Qed.

(** What a switch to place [m] does. *)
Record switched (s s' : sched) (tcb loaded : task_frame) (m : Z) : Prop := {
  sw_wf : wf s';
  sw_current : current_task_id s' = ring s m;
  sw_loaded : frame <$> task_at s (ring s m) = Some loaded;
  sw_next : state_at s' (ring s m) = Some running;
  sw_saved : task_at s' (current_task_id s)
    = (fun t => TaskContext tcb (state t) (stack_base t)) <$> task_at s (current_task_id s);
  sw_other : forall i, i <> current_task_id s -> i <> ring s m -> task_at s' i = task_at s i;
  sw_total : total_tasks s' = total_tasks s;
  sw_fx_saved : zget (fxsave_blocks s') (current_task_id s) = Some (temp_fxsave s);
  sw_fx_loaded : zget (fxsave_blocks s) (ring s m) = Some (temp_fxsave s')
}.

Lemma task_switch_cases s tcb :
  wf s -> state_at s (current_task_id s) = Some running ->
  (task_switch s tcb = Ok (tcb, s) /\ none_waiting s (total_tasks s)) \/
  (exists m loaded s', task_switch s tcb = Ok (loaded, s') /\ 1 <= m < total_tasks s /\
     none_waiting s m /\ state_at s (ring s m) = Some waiting /\ switched s s' tcb loaded m).
Proof.
  intros Hw Hrun. destruct (wf_tasks s Hw) as (ts & Hts & Hlen).
  pose proof (wf_current s Hw) as Hc. pose proof (wf_total s Hw) as Ht. pose proof (wf_fxsave s Hw) as Hfx.
  destruct (aget_range ts (current_task_id s)) as (cur & Hcur & Hzc); [lia|].
  assert (state cur = running) as Hst.
  { unfold state_at in Hrun. rewrite (task_at_array _ _ _ Hts), Hzc in Hrun. by injection Hrun. }
  unfold task_switch, task_array. rewrite Hts. cbn [of_option mbind outcome_bind]. rewrite Hcur.
  cbn [mbind outcome_bind]. unfold state_eqb. rewrite Hst, bool_decide_true by done.
  cbn [assert_ mbind outcome_bind].
  destruct (next_waiting_spec (S (Z.to_nat (total_tasks s))) s ts 0 Hw Hts) as [[Hn Hnone]|
    (m & Hn & Hm & Hnone & Hwait)]; [lia|intros j Hj; lia|lia| |]; rewrite (ring_0 s Hw) in Hn;
    rewrite Hn; cbn [mbind outcome_bind].
  { left. done. }
  right. pose proof (ring_range s m Hw) as Hr.
  assert (ring s m <> current_task_id s) as Hne by (intros Heq; apply ring_current in Heq; [lia|done|lia]).
  destruct (zget_is_Some ts (ring s m)) as [nt Hnt]; [lia|].
  destruct (zget_is_Some (fxsave_blocks s) (ring s m)) as [fx Hfxm]; [lia|].
  rewrite !aset_range by (autorewrite with arrays; lia). cbn [mbind outcome_bind].
  rewrite (proj2 (aget_Ok (zset (fxsave_blocks s) _ _) (ring s m) fx))
    by (rewrite zget_zset_ne; done). cbn [mbind outcome_bind].
  rewrite (proj2 (aget_Ok (zset ts _ _) (ring s m) nt)) by (rewrite zget_zset_ne; done).
  cbn [mbind outcome_bind]. rewrite aset_range by (autorewrite with arrays; lia).
  cbn [mbind outcome_bind]. eexists m, _, _. split; [done|]. split; [done|]. split; [done|].
  split; [done|]. split; simpl.
  - split; simpl; [|done|lia|by rewrite zlen_zset]. eexists. split; [done|]. by rewrite !zlen_zset.
  - done.
  - by rewrite (task_at_array _ _ _ Hts), Hnt.
  - unfold state_at, task_at. simpl. by rewrite zget_zset_eq by (autorewrite with arrays; lia).
  - unfold task_at. rewrite Hts. simpl. rewrite zget_zset_ne, zget_zset_eq, Hzc by lia. simpl. by rewrite Hst.
  - intros i Hi1 Hi2. unfold task_at. rewrite Hts. simpl. by rewrite !zget_zset_ne by done.
  - done.
  - by rewrite zget_zset_eq by lia.
  - done.
Qed.

(** Scheduling a task changes the current task's slot only if that was killed. *)
Lemma find_killed_spec ts n i :
  0 <= i -> i + Z.of_nat n <= zlen ts ->
  exists r, find_killed ts i n = Ok r /\
    match r with
    | Some k => i <= k < i + Z.of_nat n /\ state <$> zget ts k = Some killed /\
        forall j, i <= j < k -> state <$> zget ts j <> Some killed
    | None => forall j, i <= j < i + Z.of_nat n -> state <$> zget ts j <> Some killed
    end.
Proof.
  revert i. induction n as [|n IH]; intros i Hi Hn; cbn [find_killed].
  { exists None. split; [done|]. intros j Hj. lia. }
  destruct (aget_range ts i) as (t & -> & Hz); [lia|]. cbn [mbind outcome_bind].
  unfold state_eqb. case_bool_decide as Hk.
  - exists (Some i). split; [done|]. split; [lia|]. split; [by rewrite Hz; simpl; rewrite Hk|].
    intros j Hj. lia.
  - destruct (IH (i + 1) ltac:(lia) ltac:(lia)) as (r & -> & Hr). exists r. split; [done|].
    assert (state <$> zget ts i <> Some killed) as Hi' by (rewrite Hz; simpl; congruence).
    destruct r as [k|].
    + destruct Hr as (Hk1 & Hk2 & Hk3). split; [lia|]. split; [done|]. intros j Hj.
      destruct (decide (j = i)) as [->|]; [done|]. apply Hk3. lia.
    + intros j Hj. destruct (decide (j = i)) as [->|]; [done|]. apply Hr. lia.
Qed.

(** A slot [schedule_task] may use: a killed one below [total_tasks], the
    first if there is one, else the next new one. *)
Definition slot_for (s : sched) (id : Z) : Prop :=
  (0 <= id < total_tasks s /\ state_at s id = Some killed /\
     forall j, 0 <= j < id -> state_at s j <> Some killed) \/
  (id = total_tasks s /\ forall j, 0 <= j < total_tasks s -> state_at s j <> Some killed).

Lemma schedule_task_cases s ea k nt ctx :
  wf s -> exists id, slot_for s id /\
  if id <? MAX_TASKS then
    match kalloc (heap_ s) TASK_STACK_SIZE TASK_STACK_ALIGN with
    | Ok (top, h) => exists s', schedule_task s ea k nt ctx = Ok (id, s') /\ wf s' /\ heap_ s' = h /\
        total_tasks s' = Z.max (total_tasks s) (id + 1) /\
        current_task_id s' = current_task_id s /\
        (let base := u64 (top + TASK_STACK_SIZE) in
         task_at s' id = Some (TaskContext (new_frame k nt ctx (u64 (base - 8))) waiting base) /\
         stack_words s' !! u64 (base - 8) = Some ea) /\
        (forall i, i <> id -> task_at s' i = task_at s i)
    | Fail e => schedule_task s ea k nt ctx = Fail e
    end
  else schedule_task s ea k nt ctx = Fail (AssertFailed "ran out of tasks!").
Proof.
  intros Hw. destruct (wf_tasks s Hw) as (ts & Hts & Hlen). pose proof (wf_total s Hw) as Ht.
  pose proof (wf_current s Hw) as Hc.
  unfold schedule_task, task_array. rewrite Hts. cbn [of_option mbind outcome_bind].
  destruct (find_killed_spec ts (Z.to_nat (total_tasks s)) 0) as (r & -> & Hr); [lia|lia|].
  cbn [mbind outcome_bind].
  assert (forall j, state_at s j = state <$> zget ts j) as Hsa
    by (intros; unfold state_at; by rewrite (task_at_array _ _ _ Hts)).
  assert (slot_for s (default (total_tasks s) r)) as Hslot.
  { destruct r as [id|]; simpl.
    - left. destruct Hr as (H1 & H2 & H3). rewrite Hsa. split; [lia|]. split; [done|].
      intros j Hj. rewrite Hsa. apply H3. lia.
    - right. split; [done|]. intros j Hj. rewrite Hsa. apply Hr. lia. }
  exists (default (total_tasks s) r). split; [done|]. set (id := default (total_tasks s) r) in *.
  assert (0 <= id <= total_tasks s) as Hid by (destruct Hslot as [[? _]|[-> _]]; lia).
  destruct (id <? MAX_TASKS) eqn:E; bool_to_prop; [|done]. cbn [assert_ mbind outcome_bind].
  destruct (aget_range ts id) as (t & -> & Hz); [lia|]. cbn [mbind outcome_bind].
  destruct (kalloc _ _ _) as [[top h]|e]; cbn [mbind outcome_bind]; [|done].
  rewrite aset_range by lia. cbn [mbind outcome_bind]. eexists. split; [done|].
  assert ((if id =? total_tasks s then u32 (total_tasks s + 1) else total_tasks s)
    = Z.max (total_tasks s) (id + 1)) as Htot.
  { unfold MAX_TASKS in *. case_if; [rewrite wrap_small; lia|lia]. }
  rewrite Htot. unfold MAX_TASKS in *. split_and!; simpl.
  - split; simpl; [eexists; split; [done|by rewrite zlen_zset]| | |apply Hw]; unfold MAX_TASKS; lia.
  - done.
  - done.
  - done.
  - unfold task_at. simpl. by rewrite zget_zset_eq by lia.
  - apply lookup_insert_eq.
  - intros i Hi. rewrite (task_at_array _ _ _ Hts). unfold task_at. simpl. by rewrite zget_zset_ne by done.
Qed.

(** ** Histories *)

Inductive sop := Switch (tcb : task_frame) | Schedule (k : bool) (nt ctx : Z) | Kill (id : Z).

Definition sstep (ea : Z) (o : sop) (s : sched) : outcome sched :=
  match o with
  | Switch tcb => '(_, s') ← task_switch s tcb; Ok s'
  | Schedule k nt ctx => '(_, s') ← schedule_task s ea k nt ctx; Ok s'
  | Kill id => kill s id
  end.

Fixpoint ssteps (ea : Z) (ops : list sop) (s : sched) : outcome sched :=
  match ops with
  | [] => Ok s
  | o :: ops' => s' ← sstep ea o s; ssteps ea ops' s'
  end.

Lemma kill_Ok s id s' :
  wf s -> kill s id = Ok s' ->
  wf s' /\ current_task_id s' = current_task_id s /\ total_tasks s' = total_tasks s /\
  state_at s' id = Some killed /\ (forall i, i <> id -> task_at s' i = task_at s i).
Proof.
  intros Hw Hk. destruct (wf_tasks s Hw) as (ts & Hts & Hlen). unfold kill, task_array in Hk.
  rewrite Hts in Hk. cbn [of_option mbind outcome_bind] in Hk. apply bind_Ok in Hk as (t & Ht & Hk).
  apply aget_Ok in Ht. pose proof (zget_Some _ _ _ Ht) as Hr.
  rewrite aset_range in Hk by done. cbn [mbind outcome_bind] in Hk.
  assert (exists h, s' = Sched (Some (zset ts id (TaskContext (frame t) killed (stack_base t))))
    (total_tasks s) (current_task_id s) (fxsave_blocks s) (temp_fxsave s) h (stack_words s)) as [h ->].
  { case_if; [apply bind_Ok in Hk as (h & _ & Hk)|]; injection Hk as <-; eauto. }
  split_and!; simpl; try done.
  - split; simpl; [eexists; split; [done|by rewrite zlen_zset]|apply Hw..].
  - unfold state_at, task_at. simpl. by rewrite zget_zset_eq.
  - intros i Hi. rewrite (task_at_array _ _ _ Hts). unfold task_at. simpl. by rewrite zget_zset_ne by done.
Qed.

(** [old] is marked running but is not the current task. *)
Record stranded (old : Z) (s : sched) : Prop := {
  st_wf : wf s;
  st_running : state_at s old = Some running;
  st_other : current_task_id s <> old;
  st_range : 0 <= old < total_tasks s
}.

Lemma stranded_step ea o old s s' :
  stranded old s -> o <> Kill old -> sstep ea o s = Ok s' -> stranded old s'.
Proof.
  intros [Hw Hr Ho Hl] Hne Hs. destruct o as [tcb|k nt ctx|id]; cbn [sstep] in Hs.
  - apply bind_Ok in Hs as ([fr s1] & Hsw & Hs). injection Hs as <-.
    assert (state_at s (current_task_id s) = Some running) as Hcur.
    { pose proof Hsw as Hsw'. unfold task_switch, task_array in Hsw'.
      destruct (wf_tasks s Hw) as (ts & Hts & _). rewrite Hts in Hsw'.
      cbn [of_option mbind outcome_bind] in Hsw'. apply bind_Ok in Hsw' as (cur & Hcur & Hsw').
      apply bind_Ok in Hsw' as (u & Hst & _). apply assert_Ok, bool_decide_eq_true in Hst.
      apply aget_Ok in Hcur. unfold state_at. rewrite (task_at_array _ _ _ Hts), Hcur. simpl. congruence. }
    destruct (task_switch_cases s tcb Hw Hcur) as [[Hsw' _]|(m & l & s2 & Hsw' & Hm & _ & Hwait & Hd)];
      rewrite Hsw in Hsw'; injection Hsw' as ? ?; subst; [by split|].
    assert (ring s m <> old) as Hrm by congruence. destruct Hd. split; [done| |congruence|lia].
    unfold state_at in *. by rewrite sw_other0.
  - apply bind_Ok in Hs as ([id s1] & Hsc & Hs). injection Hs as <-.
    destruct (schedule_task_cases s ea k nt ctx Hw) as (id' & Hslot & Hc).
    assert (id' <> old) as Hne'.
    { intros ->. destruct Hslot as [(_ & Hk & _)|[-> _]]; [congruence|lia]. }
    destruct (id' <? MAX_TASKS); [|congruence].
    destruct (kalloc _ _ _) as [[top h]|]; [|congruence].
    destruct Hc as (s2 & Hc & Hw2 & _ & Ht2 & Hc2 & _ & Hoth). rewrite Hsc in Hc. injection Hc as ? ?.
    subst. split; [done| |congruence|lia]. unfold state_at in *. by rewrite Hoth.
  - destruct (kill_Ok s id s' Hw Hs) as (Hw' & Hc' & Ht' & _ & Hoth).
    split; [done| |congruence|lia]. unfold state_at in *. rewrite Hoth; [done|congruence].
Qed.

Lemma stranded_steps ea ops old s s' :
  stranded old s -> Kill old ∉ ops -> ssteps ea ops s = Ok s' -> stranded old s'.
Proof.
  revert s. induction ops as [|o ops IH]; intros s Hs Hk H1; cbn [ssteps] in H1; [by injection H1 as <-|].
  apply bind_Ok in H1 as (s1 & H1 & H2). apply not_elem_of_cons in Hk as [Hk1 Hk2].
  apply (IH s1); [|done|done]. eapply stranded_step; eauto.
Qed.
End scheduler.
Arguments sched H : clear implicits.

(** A heap that hands out addresses in order and says nothing, used to exercise the
    theorems. *)
#[export] Program Instance bump_heap : KernelHeap Z := {
  kalloc h n _ := Ok (h, h + n);
  kfree h _ := Ok h;
  ksaid _ := []
}.
Next Obligation. intros. by exists []. Qed.

Definition idle : sched Z := Sched None 1 0 [] zero_fxsave 0x100000 ∅.

(** The scheduler after [init] and one scheduled kernel task. *)
Definition two_tasks : outcome (sched Z) :=
  s ← init idle true;
  '(_, s) ← schedule_kernel_task s 0xE417 0x1234 0x42;
  Ok s.

(** ** Properties *)

(** [C18] [task_switch] is round robin and exact: it leaves everything alone when
    no other task waits; otherwise it switches to the first waiting task after the
    current one in cyclic order, saves the interrupted frame and FPU block in the
    old task, loads those of the new one, and touches no other task. *)
Theorem task_switch_round_robin {H} `{KernelHeap H} (s : sched H) tcb
    (Hw : wf s) (Hrun : state_at s (current_task_id s) = Some running) :
  (task_switch s tcb = Ok (tcb, s) /\ none_waiting s (total_tasks s)) \/
  (exists m loaded s', task_switch s tcb = Ok (loaded, s') /\ 1 <= m < total_tasks s /\
     none_waiting s m /\ state_at s (ring s m) = Some waiting /\ switched s s' tcb loaded m).
Proof. by apply task_switch_cases. Qed.

Lemma two_tasks_wf : exists s, two_tasks = Ok s /\ wf s /\ total_tasks s = 2 /\
  current_task_id s = 0 /\ state_at s 0 = Some running /\ state_at s 1 = Some waiting.
Proof.
  assert (is_ok two_tasks = true) as Hok by (vm_compute; reflexivity).
  assert ((fun s => (total_tasks s, current_task_id s, state_at s 0, state_at s 1,
    (fun ts => zlen ts) <$> tasks s, zlen (fxsave_blocks s))) <$> two_tasks
    = Ok (2, 0, Some running, Some waiting, Some 0x100, 0x100)) as Hv by (vm_compute; reflexivity).
  destruct two_tasks as [s|]; [|done]. exists s. injection Hv as H1 H2 H3 H4 H5 H6.
  split; [done|]. split; [|done]. split; [|unfold MAX_TASKS; lia|lia|done].
  destruct (tasks s) as [ts|]; [|done]. exists ts. split; [done|]. by injection H5.
Qed.

Lemma task_switch_round_robin_witness :
  exists s, two_tasks = Ok s /\ wf s /\ exists loaded s', task_switch s zero_frame = Ok (loaded, s') /\
    wf s'.
Proof.
  destruct two_tasks_wf as (s & Hs & Hw & Ht & Hc & H0 & H1). exists s. split; [exact Hs|].
  split; [exact Hw|].
  destruct (task_switch_round_robin s zero_frame Hw ltac:(rewrite Hc; exact H0))
    as [[Hsw _]|(m & l & s' & Hsw & _ & _ & _ & Hd)].
  - exists zero_frame, s. split; assumption.
  - exists l, s'. split; [assumption|]. exact (sw_wf _ _ _ _ _ Hd).
Defined.

(** [C20] A task that is switched out never runs again: it keeps the state
    [running], [task_switch] only resumes waiting tasks, and so no sequence of
    switches, new tasks and kills (other than of the task itself) makes it
    current. *)
Theorem switched_out_never_resumes {H} `{KernelHeap H} (s s1 s2 : sched H) ea tcb loaded ops
    (Hw : wf s) (Hrun : state_at s (current_task_id s) = Some running)
    (Hsw : task_switch s tcb = Ok (loaded, s1))
    (Hdiff : current_task_id s1 <> current_task_id s)
    (Hnk : Kill (current_task_id s) ∉ ops) (Hops : ssteps ea ops s1 = Ok s2) :
  current_task_id s2 <> current_task_id s /\ state_at s2 (current_task_id s) = Some running.
Proof.
  assert (stranded (current_task_id s) s1) as Hst.
  { destruct (task_switch_cases s tcb Hw Hrun) as [[Hsw' _]|(m & l & s' & Hsw' & Hm & _ & _ & Hd)];
      rewrite Hsw in Hsw'; injection Hsw' as ? ?; subst; [done|].
    pose proof (wf_current s Hw). destruct Hd. split; [done| |congruence|lia].
    unfold state_at in *. rewrite sw_saved0.
    destruct (task_at s (current_task_id s)); exact Hrun. }
  destruct (stranded_steps ea ops _ _ _ Hst Hnk Hops). done.
Qed.

Lemma switched_out_never_resumes_witness :
  exists (s s1 s2 : sched Z) loaded, two_tasks = Ok s /\ task_switch s zero_frame = Ok (loaded, s1) /\
    ssteps 0 [Switch zero_frame; Switch zero_frame] s1 = Ok s2 /\ current_task_id s2 <> 0.
Proof.
  destruct two_tasks_wf as (s & Hs & Hw & Ht & Hc & H0 & H1).
  assert ((fun r => current_task_id r.2) <$> (s ← two_tasks; task_switch s zero_frame) = Ok 1) as Hv
    by (vm_compute; reflexivity).
  assert (is_ok (s ← two_tasks; '(_, s1) ← task_switch s zero_frame;
    ssteps 0 [Switch zero_frame; Switch zero_frame] s1) = true) as Hv2 by (vm_compute; reflexivity).
  rewrite Hs in Hv, Hv2. cbn [mbind outcome_bind] in Hv, Hv2.
  destruct (task_switch s zero_frame) as [[l s1]|] eqn:E1; [|discriminate Hv].
  cbn [mbind outcome_bind] in Hv2. injection Hv as Hv.
  destruct (ssteps 0 _ s1) as [s2|] eqn:E2; [|discriminate Hv2].
  exists s, s1, s2, l. split; [exact Hs|]. split; [exact E1|]. split; [exact E2|].
  destruct (switched_out_never_resumes s s1 s2 0 zero_frame l [Switch zero_frame; Switch zero_frame]
    Hw ltac:(rewrite Hc; exact H0) E1 ltac:(simpl in Hv; rewrite Hv, Hc; discriminate)
    ltac:(rewrite !not_elem_of_cons; split_and!; [discriminate..|apply not_elem_of_nil]) E2) as [H2 _].
  rewrite Hc in H2. exact H2.
Defined.

(** [C19] [schedule_task] takes the first killed slot, or else the next new one
    (and stops when all 256 are in use); the slot becomes a waiting task whose frame
    enters [new_task] with its argument in [rdi], in the code and data segments of the
    kernel (selectors 0x08 and 0x10) or of user programs (0x18 and 0x20), with no flag
    but the interrupt flag set, every other register 0, and on a stack whose top word,
    where [rsp] points, is the address of [exit]; every other task is unchanged, and a
    failure of the heap is passed on. *)
Theorem schedule_task_correct {H} `{KernelHeap H} (s : sched H) ea k nt ctx (Hw : wf s) :
  exists id, slot_for s id /\
  if id <? MAX_TASKS then
    match kalloc (heap_ s) TASK_STACK_SIZE TASK_STACK_ALIGN with
    | Ok (top, h) => exists s' f, schedule_task s ea k nt ctx = Ok (id, s') /\ wf s' /\ heap_ s' = h /\
        total_tasks s' = Z.max (total_tasks s) (id + 1) /\
        current_task_id s' = current_task_id s /\
        task_at s' id = Some (TaskContext f waiting (u64 (top + TASK_STACK_SIZE))) /\
        rip f = nt /\ rdi f = ctx /\ cs f = (if k then 0x08 else 0x18) /\ ss f = (if k then 0x10 else 0x20) /\
        rflags f = 0x200 /\ rsp f = u64 (u64 (top + TASK_STACK_SIZE) - 8) /\ stack_words s' !! rsp f = Some ea /\
        Forall (fun v => v = 0) [r15 f; r14 f; r13 f; r12 f; r11 f; r10 f; r9 f; r8 f; rbp f; rsi f; rdx f; rcx f; rbx f; rax f] /\
        (forall i, i <> id -> task_at s' i = task_at s i)
    | Fail e => schedule_task s ea k nt ctx = Fail e
    end
  else schedule_task s ea k nt ctx = Fail (AssertFailed "ran out of tasks!").
Proof.
  destruct (schedule_task_cases s ea k nt ctx Hw) as (id & Hs & Hc). exists id. split; [done|].
  destruct (id <? MAX_TASKS); [|done]. destruct (kalloc _ _ _) as [[top h]|e]; [|done].
  destruct Hc as (s' & E & W & Hh & Ht & Hcur & [Hat Hst] & Hoth).
  exists s', (new_frame k nt ctx (u64 (u64 (top + TASK_STACK_SIZE) - 8))). split_and!; try done. by repeat constructor.
Qed.

Lemma schedule_task_correct_witness :
  exists s, two_tasks = Ok s /\ exists id s' f b, schedule_task s 1 true 2 3 = Ok (id, s') /\
    task_at s' id = Some (TaskContext f waiting b) /\ rip f = 2 /\ rdi f = 3 /\ stack_words s' !! rsp f = Some 1.
Proof.
  destruct two_tasks_wf as (s & Hs & Hw & _). exists s. split; [exact Hs|].
  assert (is_ok (s ← two_tasks; schedule_task s 1 true 2 3) = true) as Hok by (vm_compute; reflexivity).
  rewrite Hs, bind_ok in Hok.
  destruct (schedule_task_correct s 1 true 2 3 Hw) as (id & _ & Hc).
  destruct (id <? MAX_TASKS); [|rewrite Hc in Hok; discriminate Hok].
  destruct (kalloc (heap_ s) TASK_STACK_SIZE TASK_STACK_ALIGN) as [[top h]|e]; [|rewrite Hc in Hok; discriminate Hok].
  destruct Hc as (s' & f & E & _ & _ & _ & _ & Hat & Hrip & Hrdi & _ & _ & _ & _ & Hst & _).
  eexists id, s', f, _. split; [exact E|]. split; [exact Hat|]. split; [exact Hrip|]. split; [exact Hrdi|exact Hst].
Defined.

(** After [kill] of the current task the next [task_switch] fails its assertion. *)
Lemma switch_after_kill {H} `{KernelHeap H} (s s' : sched H) tcb :
  wf s -> kill s (current_task_id s) = Ok s' ->
  task_switch s' tcb = Fail (AssertFailed "current task is not running?").
Proof.
  intros Hw Hk. destruct (kill_Ok s _ s' Hw Hk) as (Hw' & Hc' & _ & Hst & _).
  destruct (wf_tasks s' Hw') as (ts' & Hts' & _). unfold task_switch, task_array.
  rewrite Hts'. cbn [of_option mbind outcome_bind]. unfold state_at in Hst.
  rewrite (task_at_array _ _ _ Hts') in Hst. apply fmap_Some in Hst as (t & Ht' & Hkst).
  rewrite Hc'. rewrite (proj2 (aget_Ok _ _ _) Ht'). cbn [mbind outcome_bind].
  unfold state_eqb. by rewrite <- Hkst, bool_decide_false by done.
Qed.

(** So ending the current task never hands the processor on. *)
Lemma exit_fails {H} `{KernelHeap H} (s : sched H) tcb r : wf s -> exit_ s tcb <> Ok r.
Proof.
  intros Hw Hr. unfold exit_ in Hr. apply bind_Ok in Hr as (s' & Hk & Hr).
  by rewrite (switch_after_kill s s') in Hr.
Qed.

(** [exit()] never hands the processor on: it marks the current task
    killed and then enters [task_switch], which asserts that the current task is
    running. *)
Theorem exit_stops {H} `{KernelHeap H} (s : sched H) tcb h
    (Hw : wf s) (Hfree : forall p, kfree (heap_ s) p = Ok h) :
  exit_ s tcb = Fail (AssertFailed "current task is not running?").
Proof.
  destruct (wf_tasks s Hw) as (ts & Hts & Hlen). pose proof (wf_current s Hw) as Hc.
  pose proof (wf_total s Hw) as Ht.
  assert (exists s', kill s (current_task_id s) = Ok s') as [s' Hk].
  { unfold kill, task_array. rewrite Hts. cbn [of_option mbind outcome_bind].
    destruct (aget_range ts (current_task_id s)) as (t & -> & _); [lia|]. cbn [mbind outcome_bind].
    rewrite aset_range by lia. cbn [mbind outcome_bind]. case_if; [|eauto].
    rewrite Hfree. cbn [mbind outcome_bind]. eauto. }
  unfold exit_. rewrite Hk. cbn [mbind outcome_bind]. by apply (switch_after_kill s).
Qed.

Lemma exit_stops_witness :
  exists s, two_tasks = Ok s /\
    exit_ s zero_frame = Fail (AssertFailed "current task is not running?").
Proof.
  destruct two_tasks_wf as (s & Hs & Hw & _). exists s. split; [exact Hs|].
  exact (exit_stops s zero_frame (heap_ s) Hw (fun p => eq_refl)).
Defined.
