(* ===== verification/CString.v ===== *)
(** * libc/string.cpp and libc/ctype.cpp

    Memory is a finite map from addresses to bytes; reading or writing an
    address outside it is a fault, so every theorem that a routine returns also
    says that it stays inside the bytes it is given.  The 8-byte wide accesses of
    [memset], [memcpy] and [memmove] are little-endian groups of 8 bytes.
    [char] is signed. *)
From S2P Require Import Prelude.

#[local] Arguments wrap : simpl never.

Abbreviation memory := (gmap Z Z) (only parsing).

Definition load (m : memory) (a : Z) : outcome Z := of_option OutOfBounds (m !! a).
Definition store (m : memory) (a v : Z) : outcome memory :=
  match m !! a with
  | Some _ => Ok (<[a := v]> m)
  | None => Fail OutOfBounds
  end.

(** A loop over memory visits each address at most once, so the number of mapped
    addresses bounds its turns. *)
Definition fuel_of (m : memory) : nat := S (base.size m).

(** ** Wide accesses *)

Definition SIMD : Z := 8.

Fixpoint load_bytes (m : memory) (a : Z) (n : nat) : outcome (list Z) :=
  match n with
  | O => Ok []
  | S n' => b ← load m a; bs ← load_bytes m (a + 1) n'; Ok (b :: bs)
  end.

Fixpoint store_bytes (m : memory) (a : Z) (bs : list Z) : outcome memory :=
  match bs with
  | [] => Ok m
  | b :: bs' => m' ← store m a b; store_bytes m' (a + 1) bs'
  end.

(** The bytes of a 64-bit word in memory order. *)
Definition word_bytes (w : Z) : list Z := (fun i => u8 (Z.shiftr w (8 * i))) <$> seqZ 0 8.

(** [multiplier = (multiplier << 8) | 1], eight times. *)
Fixpoint multiplier_loop (n : nat) (multiplier : Z) : Z :=
  match n with
  | O => multiplier
  | S n' => multiplier_loop n' (u64 (Z.lor (Z.shiftl multiplier 8) 1))
  end.
Definition multiplier_for_broadcast : Z := multiplier_loop 8 1.
Definition broadcast (c : Z) : Z := u64 (c * multiplier_for_broadcast).

(** ** [memset] *)

(** [for (; i < n; i += sizeof(simd_type)) *(simd_type * )&dst[i] = wide_c;] *)
Fixpoint memset_wide (fuel : nat) (m : memory) (dst wide_c n i : Z) : outcome (Z * memory) :=
  if i <? n then
    match fuel with
    | O => Fail Diverges
    | S f => m' ← store_bytes m (dst + i) (word_bytes wide_c); memset_wide f m' dst wide_c n (i + SIMD)
    end
  else Ok (i, m).

Fixpoint memset_tail (fuel : nat) (m : memory) (dst c n i : Z) : outcome memory :=
  if i <? n then
    match fuel with
    | O => Fail Diverges
    | S f => m' ← store m (dst + i) c; memset_tail f m' dst c n (i + 1)
    end
  else Ok m.

Definition memset (m : memory) (dst c n : Z) : outcome memory :=
  let c' := u8 c in
  '(i, m1) ← (if SIMD <=? n then memset_wide (Z.to_nat n) m dst (broadcast c') n 0 else Ok (0, m));
  memset_tail (Z.to_nat n) m1 dst c' n i.

(** ** [memcpy] and [memmove] *)

(** Copies of [w] bytes at a time: the bytes are read before any is written. *)
Definition copy_chunk (m : memory) (dst src : Z) (w : nat) : outcome memory :=
  bs ← load_bytes m src w; store_bytes m dst bs.

(** [k] chunks of [w] bytes upwards from offset [off]. *)
Fixpoint copy_up (k : nat) (m : memory) (dst src off : Z) (w : nat) : outcome memory :=
  match k with
  | O => Ok m
  | S k' =>
      m' ← copy_chunk m (dst + off) (src + off) w;
      copy_up k' m' dst src (off + Z.of_nat w) w
  end.

(** [k] chunks of [w] bytes downwards, ending below offset [off]. *)
Fixpoint copy_down (k : nat) (m : memory) (dst src off : Z) (w : nat) : outcome memory :=
  match k with
  | O => Ok m
  | S k' =>
      m' ← copy_chunk m (dst + (off - Z.of_nat w)) (src + (off - Z.of_nat w)) w;
      copy_down k' m' dst src (off - Z.of_nat w) w
  end.

(** [memcpy] declares its areas as [__restrict], so that they must not overlap; what is
    modelled are its loads and stores in the order they are written down, which is
    what [memmove] counts on when it calls it for areas that do overlap. *)
Definition memcpy (m : memory) (dst src n : Z) : outcome memory :=
  m1 ← copy_up (Z.to_nat (n / SIMD)) m dst src 0 8;
  copy_up (Z.to_nat (n `mod` SIMD)) m1 dst src (n / SIMD * SIMD) 1.

Definition memmove (m : memory) (dst src n : Z) : outcome memory :=
  if dst <? src then memcpy m dst src n
  else
    m1 ← copy_down (Z.to_nat (n `mod` SIMD)) m dst src n 1;
    copy_down (Z.to_nat (n / SIMD)) m1 dst src (n / SIMD * SIMD) 8.

(** ** Searching and comparing memory *)

(** A pointer result is an address, [None] the null pointer. *)
Fixpoint memchr_loop (k : nat) (m : memory) (hay c : Z) : outcome (option Z) :=
  match k with
  | O => Ok None
  | S k' => b ← load m hay; if b =? c then Ok (Some hay) else memchr_loop k' m (hay + 1) c
  end.
Definition memchr (m : memory) (ptr ch count : Z) : outcome (option Z) :=
  memchr_loop (Z.to_nat count) m ptr (u8 ch).

Fixpoint memcmp_loop (k : nat) (m : memory) (a b : Z) : outcome Z :=
  match k with
  | O => Ok 0
  | S k' =>
      x ← load m a; y ← load m b;
      if x <? y then Ok (-1) else if y <? x then Ok 1 else memcmp_loop k' m (a + 1) (b + 1)
  end.
Definition memcmp (m : memory) (lhs rhs count : Z) : outcome Z :=
  memcmp_loop (Z.to_nat count) m lhs rhs.

Fixpoint strlen_loop (fuel : nat) (m : memory) (src len : Z) : outcome Z :=
  match fuel with
  | O => Fail Diverges
  | S f => b ← load m (src + len); if b =? 0 then Ok len else strlen_loop f m src (len + 1)
  end.
Definition strlen (m : memory) (src : Z) : outcome Z := strlen_loop (fuel_of m) m src 0.

Fixpoint memstr_loop (fuel : nat) (m : memory) (hay hay_end needle len count : Z)
    : outcome (option Z) :=
  if hay + len <? hay_end then
    match fuel with
    | O => Fail Diverges
    | S f =>
        c ← load m needle;
        start ← memchr m hay c count;
        match start with
        | None => Ok None
        | Some start =>
            r ← memcmp m start needle len;
            if r =? 0 then Ok (Some start)
            else memstr_loop f m (start + 1) hay_end needle len count
        end
    end
  else Ok None.
Definition memstr (m : memory) (src needle count : Z) : outcome (option Z) :=
  len ← strlen m needle;
  memstr_loop (Z.to_nat count) m src (src + count) needle len count.

(** ** Strings *)

Fixpoint strchr_loop (fuel : nat) (m : memory) (str c : Z) : outcome (option Z) :=
  match fuel with
  | O => Fail Diverges
  | S f =>
      b ← load m str;
      if b =? c then Ok (Some str)
      else if b =? 0 then Ok None else strchr_loop f m (str + 1) c
  end.
Definition strchr (m : memory) (str character : Z) : outcome (option Z) :=
  strchr_loop (fuel_of m) m str (u8 character).

(** [n] is a count or [SIZE_MAX]; the loop ends at the strings' end at the latest. *)
Fixpoint strncmp_loop (fuel : nat) (m : memory) (str1 str2 n i : Z) : outcome Z :=
  if i <? n then
    match fuel with
    | O => Fail Diverges
    | S f =>
        x ← load m (str1 + i); y ← load m (str2 + i);
        if negb (x =? y) then Ok (if s8 x <? s8 y then -1 else 1)
        else if (y =? 0) && (x =? 0) then Ok 0
        else strncmp_loop f m str1 str2 n (i + 1)
    end
  else Ok 0.
Definition SIZE_MAX : Z := 2 ^ 64 - 1.
Definition strncmp (m : memory) (str1 str2 n : Z) : outcome Z :=
  strncmp_loop (fuel_of m) m str1 str2 n 0.
Definition strcmp (m : memory) (str1 str2 : Z) : outcome Z := strncmp m str1 str2 SIZE_MAX.

Fixpoint strncpy_loop (fuel : nat) (m : memory) (dst src n i : Z) : outcome memory :=
  if i <? n then
    match fuel with
    | O => Fail Diverges
    | S f =>
        b ← load m (src + i);
        m' ← store m (dst + i) b;
        b' ← load m' (src + i);
        if b' =? 0 then Ok m' else strncpy_loop f m' dst src n (i + 1)
    end
  else Ok m.
Definition strncpy (m : memory) (dst src n : Z) : outcome memory :=
  strncpy_loop (fuel_of m) m dst src n 0.
Definition strcpy (m : memory) (dst src : Z) : outcome memory := strncpy m dst src SIZE_MAX.

(** [for (; *dest != 0; ++dest);] *)
Fixpoint skip_string (fuel : nat) (m : memory) (dest : Z) : outcome Z :=
  match fuel with
  | O => Fail Diverges
  | S f => b ← load m dest; if b =? 0 then Ok dest else skip_string f m (dest + 1)
  end.

(** [do *dest++ = *src; while ( *src++ != 0);] *)
Fixpoint append_loop (fuel : nat) (m : memory) (dest src : Z) : outcome memory :=
  match fuel with
  | O => Fail Diverges
  | S f =>
      b ← load m src;
      m' ← store m dest b;
      b' ← load m' src;
      if b' =? 0 then Ok m' else append_loop f m' (dest + 1) (src + 1)
  end.
Definition strcat (m : memory) (dest src : Z) : outcome memory :=
  d ← skip_string (fuel_of m) m dest;
  append_loop (fuel_of m) m d src.

Fixpoint strncat_loop (fuel : nat) (m : memory) (dest src n i : Z) : outcome (Z * memory) :=
  if i <? n then
    match fuel with
    | O => Fail Diverges
    | S f =>
        b ← load m (src + i);
        if b =? 0 then Ok (i, m)
        else m' ← store m (dest + i) b; strncat_loop f m' dest src n (i + 1)
    end
  else Ok (i, m).
Definition strncat (m : memory) (dest src n : Z) : outcome memory :=
  d ← skip_string (fuel_of m) m dest;
  '(i, m') ← strncat_loop (fuel_of m) m d src n 0;
  store m' (d + i) 0.

Fixpoint strrev_loop (fuel : nat) (m : memory) (begin end_ : Z) : outcome memory :=
  if begin <? end_ then
    match fuel with
    | O => Fail Diverges
    | S f =>
        tmp ← load m end_;
        b ← load m begin;
        m1 ← store m end_ b;
        m2 ← store m1 begin tmp;
        strrev_loop f m2 (begin + 1) (end_ - 1)
    end
  else Ok m.
Definition strrev (m : memory) (src len : Z) : outcome memory :=
  if src =? 0 then Ok m else strrev_loop (Z.to_nat len) m src (src + len - 1).

(** The inner [do ... while] of [strstr]: whether [sub] starts at the position. *)
Fixpoint match_at (fuel : nat) (m : memory) (match_end needle : Z) : outcome bool :=
  match fuel with
  | O => Fail Diverges
  | S f =>
      c ← load m needle;
      if c =? 0 then Ok true
      else
        b ← load m match_end;
        if b =? c then match_at f m (match_end + 1) (needle + 1) else Ok false
  end.
Fixpoint strstr_loop (fuel : nat) (m : memory) (hay sub : Z) : outcome (option Z) :=
  match fuel with
  | O => Fail Diverges
  | S f =>
      found ← match_at (fuel_of m) m hay sub;
      if (found : bool) then Ok (Some hay)
      else b ← load m hay; if b =? 0 then Ok None else strstr_loop f m (hay + 1) sub
  end.
Definition strstr (m : memory) (str sub : Z) : outcome (option Z) :=
  strstr_loop (fuel_of m) m str sub.

(** ** ctype.cpp *)

Definition EOF : Z := -1.
Definition islower (ch : Z) : bool := if ch =? EOF then false else (97 <=? ch) && (ch <=? 122).
Definition isupper (ch : Z) : bool := if ch =? EOF then false else (65 <=? ch) && (ch <=? 90).
Definition isdigit (ch : Z) : bool := if ch =? EOF then false else (48 <=? ch) && (ch <=? 57).
Definition isalpha (ch : Z) : bool := if ch =? EOF then false else islower ch || isupper ch.
Definition isalnum (ch : Z) : bool := if ch =? EOF then false else isalpha ch || isdigit ch.
Definition isprint (ch : Z) : bool := (32 <=? ch) && (ch <=? 126).
Definition tolower (ch : Z) : Z := if isupper ch then ch - (65 - 97) else ch.
Definition toupper (ch : Z) : Z := if islower ch then ch + (65 - 97) else ch.

(** ** Accesses inside mapped memory *)

Definition mapped (m : memory) (a n : Z) : Prop := forall i, 0 <= i < n -> is_Some (m !! (a + i)).

Lemma load_mapped m a b : m !! a = Some b -> load m a = Ok b.
Proof. intros H. unfold load. by rewrite H. Qed.

Lemma store_mapped m a v : is_Some (m !! a) -> store m a v = Ok (<[a := v]> m).
Proof. intros [b H]. unfold store. by rewrite H. Qed.

Lemma mapped_cons m a n : 0 < n -> mapped m a n -> is_Some (m !! a) /\ mapped m (a + 1) (n - 1).
Proof.
  intros Hn Hm. split; [rewrite <- (Z.add_0_r a); apply Hm; lia|]. intros i Hi.
  replace (a + 1 + i) with (a + (1 + i)) by lia. apply Hm. lia.
Qed.

Lemma mapped_ext m m' a n :
  (forall x, is_Some (m !! x) -> is_Some (m' !! x)) -> mapped m a n -> mapped m' a n.
Proof. intros H Hm i Hi. by apply H, Hm. Qed.

Lemma mapped_sub m a n b k : mapped m a n -> a <= b -> b + k <= a + n -> mapped m b k.
Proof.
  intros Hm H1 H2 i Hi. replace (b + i) with (a + (b - a + i)) by lia. apply Hm. lia.
Qed.

Lemma load_bytes_spec n m a :
  mapped m a (Z.of_nat n) ->
  exists bs, load_bytes m a n = Ok bs /\ length bs = n /\
    forall i, 0 <= i < Z.of_nat n -> m !! (a + i) = bs !! Z.to_nat i.
Proof.
  revert a. induction n as [|n IH]; intros a Hm; cbn [load_bytes].
  { exists []. split_and!; try done. intros i Hi. lia. }
  destruct (mapped_cons m a (Z.of_nat (S n)) ltac:(lia) Hm) as [[b Hb] Hm'].
  replace (Z.of_nat (S n) - 1) with (Z.of_nat n) in Hm' by lia.
  destruct (IH (a + 1) Hm') as (bs & Hbs & Hl & Hi). exists (b :: bs).
  rewrite (load_mapped _ _ _ Hb). cbn [mbind outcome_bind]. rewrite Hbs. split_and!; [done|simpl; lia|].
  intros i Hr. destruct (decide (i = 0)) as [->|].
  - by rewrite Z.add_0_r.
  - replace (a + i) with (a + 1 + (i - 1)) by lia. rewrite Hi by lia.
    replace (Z.to_nat i) with (S (Z.to_nat (i - 1))) by lia. done.
Qed.

Lemma store_bytes_spec bs m a :
  mapped m a (zlen bs) ->
  exists m', store_bytes m a bs = Ok m' /\
    forall x, m' !! x = if decide (a <= x < a + zlen bs) then bs !! Z.to_nat (x - a) else m !! x.
Proof.
  revert m a. induction bs as [|b bs IH]; intros m a Hm; cbn [store_bytes].
  { exists m. split; [done|]. intros x. rewrite decide_False; [done|]. zlen_nil. lia. }
  rewrite zlen_cons in *. pose proof (zlen_nonneg bs) as Hl.
  destruct (mapped_cons m a (1 + zlen bs) ltac:(lia) Hm) as [Hb Hm'].
  rewrite (store_mapped _ _ _ Hb). cbn [mbind outcome_bind].
  destruct (IH (<[a := b]> m) (a + 1)) as (m' & Hs & Hx).
  { eapply mapped_ext; [|replace (zlen bs) with (1 + zlen bs - 1) by lia; exact Hm'].
    intros x Hsome. rewrite lookup_insert. case_decide; eauto. }
  exists m'. split; [done|]. intros x. rewrite Hx. destruct (decide (x = a)) as [->|Hne].
  - rewrite decide_False, decide_True by lia. by rewrite Z.sub_diag, lookup_insert_eq.
  - rewrite lookup_insert_ne by done. destruct (decide (a + 1 <= x < a + 1 + zlen bs)).
    + rewrite decide_True by lia. by replace (Z.to_nat (x - a)) with (S (Z.to_nat (x - (a + 1)))) by lia.
    + by rewrite decide_False by lia.
Qed.

(** [m] is [m0] with the bytes of [src] at offsets [lo] to [hi] copied to [dst]. *)
Definition copied (m0 : memory) (dst src lo hi : Z) (m : memory) : Prop :=
  forall x, m !! x = if decide (dst + lo <= x < dst + hi) then m0 !! (src + (x - dst)) else m0 !! x.

Lemma copied_mapped m0 dst src lo hi m :
  0 <= lo -> mapped m0 src hi -> copied m0 dst src lo hi m ->
  forall x, is_Some (m0 !! x) -> is_Some (m !! x).
Proof.
  intros Hlo Hs Hc x Hx. rewrite Hc. case_decide; [|done].
  replace (src + (x - dst)) with (src + (x - dst)) by lia. apply Hs. lia.
Qed.

Lemma copy_chunk_spec w m dst src :
  mapped m dst (Z.of_nat w) -> mapped m src (Z.of_nat w) ->
  exists m', copy_chunk m dst src w = Ok m' /\ copied m dst src 0 (Z.of_nat w) m'.
Proof.
  intros Hd Hs. unfold copy_chunk. destruct (load_bytes_spec w m src Hs) as (bs & -> & Hl & Hi).
  cbn [mbind outcome_bind]. assert (zlen bs = Z.of_nat w) as Hz by (unfold zlen; lia).
  destruct (store_bytes_spec bs m dst) as (m' & Hm & Hx); [by rewrite Hz|].
  exists m'. split; [done|]. intros x. rewrite Hx, Hz, Z.add_0_r. case_decide; [|done].
  rewrite Hi by lia. done.
Qed.

Section copies.
Context (m0 : memory) (dst src n : Z) (Hd : mapped m0 dst n) (Hs : mapped m0 src n).

Lemma copy_up_spec k w off m :
  dst <= src \/ src + n <= dst -> 0 <= off -> off + Z.of_nat k * Z.of_nat w <= n ->
  copied m0 dst src 0 off m ->
  exists m', copy_up k m dst src off w = Ok m' /\
    copied m0 dst src 0 (off + Z.of_nat k * Z.of_nat w) m'.
Proof.
  intros Hov. revert off m. induction k as [|k IH]; intros off m Ho Hn Hc; cbn [copy_up].
  { exists m. split; [done|]. by rewrite Z.mul_0_l, Z.add_0_r. }
  assert (forall x, is_Some (m0 !! x) -> is_Some (m !! x)) as Hmap.
  { eapply copied_mapped; [| |exact Hc]; [lia|]. apply (mapped_sub m0 src n); [done|lia|nia]. }
  destruct (copy_chunk_spec w m (dst + off) (src + off)) as (m1 & -> & H1).
  { eapply mapped_ext; [exact Hmap|]. apply (mapped_sub m0 dst n); [done|lia|nia]. }
  { eapply mapped_ext; [exact Hmap|]. apply (mapped_sub m0 src n); [done|lia|nia]. }
  cbn [mbind outcome_bind]. destruct (IH (off + Z.of_nat w) m1) as (m' & Hm' & Hc'); [lia|lia| |].
  - intros x. rewrite H1. repeat case_decide; try lia.
    + rewrite Hc. rewrite decide_False by nia. f_equal. lia.
    + rewrite Hc. by rewrite decide_True by lia.
    + rewrite Hc. by rewrite decide_False by lia.
  - exists m'. split; [done|]. by replace (off + Z.of_nat (S k) * Z.of_nat w)
      with (off + Z.of_nat w + Z.of_nat k * Z.of_nat w) by lia.
Qed.

Lemma copy_down_spec k w off m :
  src <= dst -> off <= n -> 0 <= off - Z.of_nat k * Z.of_nat w ->
  copied m0 dst src off n m ->
  exists m', copy_down k m dst src off w = Ok m' /\
    copied m0 dst src (off - Z.of_nat k * Z.of_nat w) n m'.
Proof.
  intros Hov. revert off m. induction k as [|k IH]; intros off m Ho Hn Hc; cbn [copy_down].
  { exists m. split; [done|]. by rewrite Z.mul_0_l, Z.sub_0_r. }
  assert (forall x, is_Some (m0 !! x) -> is_Some (m !! x)) as Hmap.
  { eapply copied_mapped; [| |exact Hc]; [nia|done]. }
  assert (0 <= off - Z.of_nat w) as How by nia.
  destruct (copy_chunk_spec w m (dst + (off - Z.of_nat w)) (src + (off - Z.of_nat w)))
    as (m1 & -> & H1).
  { eapply mapped_ext; [exact Hmap|]. apply (mapped_sub m0 dst n); [done|lia|lia]. }
  { eapply mapped_ext; [exact Hmap|]. apply (mapped_sub m0 src n); [done|lia|lia]. }
  cbn [mbind outcome_bind]. destruct (IH (off - Z.of_nat w) m1) as (m' & Hm' & Hc'); [lia|lia| |].
  - intros x. rewrite H1. repeat case_decide; try lia.
    + rewrite Hc. rewrite decide_False by lia. f_equal. lia.
    + rewrite Hc. by rewrite decide_True by lia.
    + rewrite Hc. by rewrite decide_False by lia.
  - exists m'. split; [done|]. by replace (off - Z.of_nat (S k) * Z.of_nat w)
      with (off - Z.of_nat w - Z.of_nat k * Z.of_nat w) by lia.
Qed.
End copies.

Lemma memcpy_spec m dst src n :
  0 <= n -> mapped m dst n -> mapped m src n -> dst <= src \/ src + n <= dst ->
  exists m', memcpy m dst src n = Ok m' /\ copied m dst src 0 n m'.
Proof.
  intros Hn Hd Hs Hov. unfold memcpy, SIMD.
  pose proof (Z.div_mod n 8 ltac:(lia)). pose proof (Z.mod_pos_bound n 8 ltac:(lia)).
  assert (0 <= n / 8) as Hdiv by zdiv.
  destruct (copy_up_spec m dst src n Hd Hs (Z.to_nat (n / 8)) 8 0 m Hov) as (m1 & -> & H1); [lia|lia| |].
  { intros x. by rewrite decide_False by lia. }
  cbn [mbind outcome_bind].
  destruct (copy_up_spec m dst src n Hd Hs (Z.to_nat (n `mod` 8)) 1 (n / 8 * 8) m1 Hov)
    as (m2 & -> & H2); [lia|lia| |].
  { by replace (n / 8 * 8) with (0 + Z.of_nat (Z.to_nat (n / 8)) * Z.of_nat 8) by lia. }
  exists m2. split; [done|].
  by replace (n / 8 * 8 + Z.of_nat (Z.to_nat (n `mod` 8)) * Z.of_nat 1) with n in H2 by lia.
Qed.

(** [C21] [memmove] copies [n] bytes for every overlap of the two areas: the
    destination holds what the source held before the call, every other byte is
    unchanged, and no byte outside the two areas is accessed. *)
Theorem memmove_correct m dst src n
    (Hn : 0 <= n) (Hd : mapped m dst n) (Hs : mapped m src n) :
  exists m', memmove m dst src n = Ok m' /\
    forall x, m' !! x = if decide (dst <= x < dst + n) then m !! (src + (x - dst)) else m !! x.
Proof.
  unfold memmove, SIMD. destruct (dst <? src) eqn:E; bool_to_prop.
  { destruct (memcpy_spec m dst src n Hn Hd Hs) as (m' & Hm & Hc); [lia|]. exists m'.
    split; [done|]. intros x. rewrite Hc. by rewrite Z.add_0_r. }
  pose proof (Z.div_mod n 8 ltac:(lia)). pose proof (Z.mod_pos_bound n 8 ltac:(lia)).
  assert (0 <= n / 8) as Hdiv by zdiv.
  destruct (copy_down_spec m dst src n Hd Hs (Z.to_nat (n `mod` 8)) 1 n m E) as (m1 & -> & H1); [lia|lia| |].
  { intros x. by rewrite decide_False by lia. }
  cbn [mbind outcome_bind].
  destruct (copy_down_spec m dst src n Hd Hs (Z.to_nat (n / 8)) 8 (n / 8 * 8) m1 E)
    as (m2 & -> & H2); [lia|lia| |].
  { by replace (n / 8 * 8) with (n - Z.of_nat (Z.to_nat (n `mod` 8)) * Z.of_nat 1) by lia. }
  exists m2. split; [done|]. intros x. rewrite H2.
  replace (n / 8 * 8 - Z.of_nat (Z.to_nat (n / 8)) * Z.of_nat 8) with 0 by lia. by rewrite Z.add_0_r.
Qed.

(** Sixteen bytes at address 0x10, used to exercise the theorems. *)
Definition sample_mem : memory := list_to_map ((fun i => (0x10 + i, i)) <$> seqZ 0 16).

Lemma mapped_check (m : memory) a n :
  forallb (fun i => bool_decide (is_Some (m !! (a + i)))) (seqZ 0 n) = true -> mapped m a n.
Proof.
  intros H i Hi. rewrite forallb_forall in H. specialize (H i).
  apply bool_decide_eq_true in H; [done|]. apply list_elem_of_In, elem_of_seqZ. lia.
Qed.

Lemma memmove_correct_witness :
  exists m', memmove sample_mem 0x13 0x10 12 = Ok m' /\ m' !! 0x1E = Some 11.
Proof.
  destruct (memmove_correct sample_mem 0x13 0x10 12 ltac:(lia)
    ltac:(apply mapped_check; vm_compute; reflexivity)
    ltac:(apply mapped_check; vm_compute; reflexivity)) as (m' & H1 & H2).
  exists m'. split; [exact H1|]. rewrite H2. vm_compute. reflexivity.
Defined.

(** ** [memset] *)

Lemma broadcast_bytes c : 0 <= c < 256 -> word_bytes (broadcast c) = replicate 8 c.
Proof.
  intros Hc.
  assert (forallb (fun c => bool_decide (word_bytes (broadcast c) = replicate 8 c)) (seqZ 0 256)
    = true) as H by (vm_compute; reflexivity).
  rewrite forallb_forall in H. apply (bool_decide_eq_true (word_bytes _ = _)), H.
  apply list_elem_of_In, elem_of_seqZ. lia.
Qed.

(** [m] is [m0] with [c] in the bytes from [a] to [b]. *)
Definition filled (m0 : memory) (a b c : Z) (m : memory) : Prop :=
  forall x, m !! x = if decide (a <= x < b) then Some c else m0 !! x.

Lemma filled_mapped m0 a b c m x : filled m0 a b c m -> is_Some (m0 !! x) -> is_Some (m !! x).
Proof. intros Hf Hx. rewrite Hf. case_decide; eauto. Qed.

Lemma memset_wide_spec fuel m0 m dst c n i e :
  0 <= c < 256 -> 0 <= i -> i `mod` 8 = 0 -> e = (n + 7) / 8 * 8 -> n - i <= Z.of_nat fuel ->
  i <= e -> mapped m0 dst e -> filled m0 dst (dst + i) c m ->
  exists m', memset_wide fuel m dst (broadcast c) n i = Ok (e, m') /\ filled m0 dst (dst + e) c m'.
Proof.
  intros Hc H0 Hi8 He Hf Hie Hm. revert i m H0 Hi8 Hf Hie.
  induction fuel as [|f IH]; intros i m H0 Hi8 Hf Hie Hfill; cbn [memset_wide].
  { destruct (i <? n) eqn:E; bool_to_prop; [lia|]. assert (i = e) as -> by (subst e; zdiv). eauto. }
  destruct (i <? n) eqn:E; bool_to_prop.
  - assert (i + 8 <= e) as Hi8e by (subst e; zdiv).
    rewrite broadcast_bytes by done.
    destruct (store_bytes_spec (replicate 8 c) m (dst + i)) as (m1 & -> & Hx).
    { change (zlen (replicate 8 c)) with 8. eapply mapped_ext; [intros x; by eapply filled_mapped|].
      apply (mapped_sub m0 dst e); [done|lia|lia]. }
    cbn [mbind outcome_bind]. unfold SIMD. apply IH; [lia|zdiv|lia|lia|].
    intros x. rewrite Hx. change (zlen (replicate 8 c)) with 8.
    destruct (decide (dst + i <= x < dst + i + 8)).
    + rewrite decide_True by lia. apply lookup_replicate_2. lia.
    + rewrite Hfill. repeat case_decide; (done || lia).
  - assert (i = e) as -> by (subst e; zdiv). eauto.
Qed.

Lemma memset_tail_spec fuel m0 m dst c n i :
  0 <= i <= n -> n - i <= Z.of_nat fuel -> mapped m0 dst n -> filled m0 dst (dst + i) c m ->
  exists m', memset_tail fuel m dst c n i = Ok m' /\ filled m0 dst (dst + n) c m'.
Proof.
  intros Hi Hf Hm. revert i m Hi Hf. induction fuel as [|f IH]; intros i m Hi Hf Hfill;
    cbn [memset_tail]; destruct (i <? n) eqn:E; bool_to_prop;
    try (assert (i = n) as -> by lia; eauto; fail); [lia|].
  rewrite store_mapped by (eapply filled_mapped; [done|]; apply Hm; lia). cbn [mbind outcome_bind].
  apply IH; [lia|lia|]. intros x. destruct (decide (x = dst + i)) as [->|Hne].
  - by rewrite lookup_insert_eq, decide_True by lia.
  - rewrite lookup_insert_ne, Hfill by done. repeat case_decide; (done || lia).
Qed.

(** The bytes [memset] writes: [n] of them below 8, else whole words. *)
Definition memset_extent (n : Z) : Z := if n <? 8 then n else (n + 7) / 8 * 8.

Lemma memset_spec m dst c n :
  0 <= n -> mapped m dst (memset_extent n) ->
  exists m', memset m dst c n = Ok m' /\ filled m dst (dst + memset_extent n) (u8 c) m'.
Proof.
  intros Hn Hm. unfold memset_extent in *. unfold memset, SIMD. pose proof (wrap_range 8 c ltac:(lia)) as Hc.
  destruct (n <? 8) eqn:E; bool_to_prop.
  - assert ((8 <=? n) = false) as -> by (apply Z.leb_gt; lia). cbn [mbind outcome_bind].
    destruct (memset_tail_spec (Z.to_nat n) m m dst (u8 c) n 0) as (m' & Hm' & Hf); [lia|lia|done| |].
    { intros x. by rewrite decide_False by lia. }
    by exists m'.
  - assert ((8 <=? n) = true) as -> by (apply Z.leb_le; lia).
    destruct (memset_wide_spec (Z.to_nat n) m m dst (u8 c) n 0 ((n + 7) / 8 * 8)) as (m1 & -> & Hf1);
      [done|lia|done|done|lia|zdiv|done| |].
    { intros x. by rewrite decide_False by lia. }
    cbn [mbind outcome_bind].
    assert (n <= (n + 7) / 8 * 8) by zdiv.
    assert (memset_tail (Z.to_nat n) m1 dst (u8 c) n ((n + 7) / 8 * 8) = Ok m1) as ->.
    { assert (((n + 7) / 8 * 8 <? n) = false) as Hlt by (apply Z.ltb_ge; lia).
      destruct (Z.to_nat n); cbn [memset_tail]; by rewrite Hlt. }
    by exists m1.
Qed.

(** [memset] fills exactly [memset_extent n] bytes: [n] when [n] is below 8 or
    a multiple of 8, and otherwise up to 7 bytes past the end of the area, because
    the wide loop runs to [i < n]. *)
Theorem memset_exact m dst c n
    (Hn : 0 <= n) (Hm : mapped m dst (memset_extent n)) :
  exists m', memset m dst c n = Ok m' /\
    (forall x, m' !! x = if decide (dst <= x < dst + memset_extent n) then Some (u8 c) else m !! x) /\
    (memset_extent n = n <-> n < 8 \/ n `mod` 8 = 0).
Proof.
  destruct (memset_spec m dst c n Hn Hm) as (m' & He & Hf). exists m'. split; [done|]. split; [exact Hf|].
  unfold memset_extent. case_if; zdiv.
Qed.

Lemma memset_exact_witness :
  exists m', memset sample_mem 0x10 0xAB 9 = Ok m' /\ m' !! 0x1F = Some 0xAB.
Proof.
  destruct (memset_exact sample_mem 0x10 0xAB 9 ltac:(lia)
    ltac:(apply mapped_check; vm_compute; reflexivity)) as (m' & H1 & H2 & _).
  exists m'. split; [exact H1|]. rewrite H2. vm_compute. reflexivity.
Defined.

(** ** NUL-terminated strings *)

(** The string [l] is stored at [a], followed by its NUL. *)
Fixpoint cstring (m : memory) (a : Z) (l : list Z) : Prop :=
  match l with
  | [] => m !! a = Some 0
  | b :: l' => m !! a = Some b /\ b <> 0 /\ cstring m (a + 1) l'
  end.

Lemma cstring_mapped m a l : cstring m a l -> mapped m a (zlen l + 1).
Proof.
  revert a. induction l as [|b l IH]; intros a Hs i Hi; simpl in Hs.
  - change (zlen (@nil Z)) with 0 in Hi. replace (a + i) with a by lia. eauto.
  - destruct Hs as (Hb & _ & Hs). rewrite zlen_cons in Hi. destruct (decide (i = 0)) as [->|].
    + rewrite Z.add_0_r. eauto.
    + replace (a + i) with (a + 1 + (i - 1)) by lia. apply (IH (a + 1) Hs). lia.
Qed.

Lemma mapped_size m a n : 0 <= n -> mapped m a n -> n <= Z.of_nat (base.size m).
Proof.
  intros Hn Hm. assert (list_to_set (seqZ a n) ⊆ dom m) as Hsub.
  { intros x. rewrite elem_of_list_to_set, elem_of_seqZ, elem_of_dom. intros Hx.
    replace x with (a + (x - a)) by lia. apply Hm. lia. }
  apply subseteq_size in Hsub. rewrite size_dom, size_list_to_set in Hsub by apply NoDup_seqZ.
  rewrite length_seqZ in Hsub. lia.
Qed.

(** The fuel covers every string in memory. *)
Lemma cstring_fuel m a l : cstring m a l -> (length l < fuel_of m)%nat.
Proof.
  intros Hs. pose proof (cstring_mapped m a l Hs) as Hm. pose proof (zlen_nonneg l).
  apply mapped_size in Hm; [|lia]. unfold fuel_of, zlen in *. lia.
Qed.

Lemma strlen_loop_spec fuel m a l k :
  cstring m (a + k) l -> (length l < fuel)%nat -> strlen_loop fuel m a k = Ok (k + zlen l).
Proof.
  revert k fuel. induction l as [|b l IH]; intros k fuel Hs Hf; destruct fuel as [|f]; simpl in *; try lia.
  - rewrite (load_mapped _ _ _ Hs). simpl. zlen_nil. f_equal. lia.
  - destruct Hs as (Hb & Hne & Hs). rewrite (load_mapped _ _ _ Hb). simpl.
    apply Z.eqb_neq in Hne as ->. rewrite IH; [|by rewrite Z.add_assoc|lia].
    rewrite zlen_cons. f_equal. lia.
Qed.

Lemma strlen_spec m a l : cstring m a l -> strlen m a = Ok (zlen l).
Proof.
  intros Hs. unfold strlen. rewrite (strlen_loop_spec _ m a l 0); [f_equal; lia| |].
  - by rewrite Z.add_0_r.
  - by eapply cstring_fuel.
Qed.

(** The order [strcmp] computes: the first difference, with signed characters. *)
Fixpoint compare_strings (l1 l2 : list Z) : Z :=
  match l1, l2 with
  | [], [] => 0
  | [], y :: _ => if s8 0 <? s8 y then -1 else 1
  | x :: _, [] => if s8 x <? s8 0 then -1 else 1
  | x :: l1', y :: l2' =>
      if x =? y then compare_strings l1' l2' else if s8 x <? s8 y then -1 else 1
  end.

Lemma compare_strings_eq l1 l2 : compare_strings l1 l2 = 0 <-> l1 = l2.
Proof.
  revert l2. induction l1 as [|x l1 IH]; intros [|y l2]; simpl; try (case_if; done); [done|].
  destruct (x =? y) eqn:E; bool_to_prop.
  - rewrite IH. split; [by intros ->; subst|by intros [= _ ->]].
  - split; [case_if; done|]. intros [= -> _]. done.
Qed.

Lemma strncmp_loop_spec fuel m a b l1 l2 n i :
  cstring m (a + i) l1 -> cstring m (b + i) l2 -> (length l1 < fuel)%nat ->
  i + zlen l1 < n -> strncmp_loop fuel m a b n i = Ok (compare_strings l1 l2).
Proof.
  revert i fuel l2. induction l1 as [|x l1 IH]; intros i fuel l2 H1 H2 Hf Hn;
    destruct fuel as [|f]; simpl in *; try lia;
    (destruct (i <? n) eqn:Ei; bool_to_prop; [|zlen_lia]).
  - rewrite (load_mapped _ _ _ H1). cbn [mbind outcome_bind]. destruct l2 as [|y l2]; simpl in H2.
    + by rewrite (load_mapped _ _ _ H2).
    + destruct H2 as (Hy & Hne & _). rewrite (load_mapped _ _ _ Hy). cbn [mbind outcome_bind].
      assert ((0 =? y) = false) as -> by (apply Z.eqb_neq; lia). done.
  - destruct H1 as (Hx & Hne & H1). rewrite (load_mapped _ _ _ Hx). cbn [mbind outcome_bind].
    destruct l2 as [|y l2]; simpl in H2.
    + rewrite (load_mapped _ _ _ H2). cbn [mbind outcome_bind]. by apply Z.eqb_neq in Hne as ->.
    + destruct H2 as (Hy & Hney & H2). rewrite (load_mapped _ _ _ Hy). cbn [mbind outcome_bind].
      destruct (x =? y) eqn:E; bool_to_prop; [|done]. apply Z.eqb_neq in Hney as ->. cbn [negb andb].
      apply IH; [by rewrite Z.add_assoc|by rewrite Z.add_assoc|lia|zlen_lia].
Qed.

(** [strcmp] on two strings stays inside them, returns 0 exactly when they
    are equal, and otherwise orders them by their first difference, characters
    compared as signed. *)
Theorem strcmp_correct m a b l1 l2
    (H1 : cstring m a l1) (H2 : cstring m b l2) (Hlen : zlen l1 < SIZE_MAX) :
  strcmp m a b = Ok (compare_strings l1 l2) /\ (compare_strings l1 l2 = 0 <-> l1 = l2).
Proof.
  split; [|apply compare_strings_eq]. unfold strcmp, strncmp.
  apply strncmp_loop_spec; rewrite ?Z.add_0_r; [done|done|by eapply cstring_fuel|lia].
Qed.

Definition sample_strings : memory :=
  list_to_map (zip (seqZ 0x10 12) [97; 98; 0; 97; 98; 99; 0; 0; 0; 0; 0; 0]).

Lemma strcmp_correct_witness :
  strcmp sample_strings 0x10 0x13 = Ok (-1) /\ strcmp sample_strings 0x10 0x10 = Ok 0.
Proof.
  split.
  - apply (strcmp_correct sample_strings 0x10 0x13 [97; 98] [97; 98; 99]); vm_compute; repeat split; discriminate.
  - apply (strcmp_correct sample_strings 0x10 0x10 [97; 98] [97; 98]); vm_compute; repeat split; discriminate.
Defined.

(** ** Appending *)

Lemma cstring_app m a l1 l2 :
  cstring m a (l1 ++ l2) <->
  (forall i b, l1 !! i = Some b -> m !! (a + Z.of_nat i) = Some b /\ b <> 0) /\
  cstring m (a + zlen l1) l2.
Proof.
  revert a. induction l1 as [|x l1 IH]; intros a; simpl.
  - rewrite Z.add_0_r. split; [intros ?; split; [|done]|intros [_ ?]; done]. intros i b Hi.
    by rewrite lookup_nil in Hi.
  - rewrite IH, zlen_cons. replace (a + (1 + zlen l1)) with (a + 1 + zlen l1) by lia. split.
    + intros (Hx & Hne & Hl & Hs). split; [|done]. intros [|i] b Hi; simpl in Hi.
      * simplify_eq. by rewrite Z.add_0_r.
      * replace (a + Z.of_nat (S i)) with (a + 1 + Z.of_nat i) by lia. by apply Hl.
    + intros [Hl Hs]. destruct (Hl 0%nat x eq_refl) as [Hx Hne]. rewrite Z.add_0_r in Hx.
      split_and!; try done. intros i b Hi.
      replace (a + 1 + Z.of_nat i) with (a + Z.of_nat (S i)) by lia. by apply Hl.
Qed.

(** A string is unaffected by writes outside it. *)
Lemma cstring_frame m m' a l :
  (forall x, a <= x < a + zlen l + 1 -> m' !! x = m !! x) -> cstring m a l -> cstring m' a l.
Proof.
  revert a. induction l as [|b l IH]; intros a Hx Hs; simpl in *.
  - rewrite Hx; [done|]. zlen_nil. lia.
  - rewrite zlen_cons in Hx. pose proof (zlen_nonneg l). destruct Hs as (Hb & Hne & Hs). split_and!.
    + rewrite Hx; [done|lia].
    + done.
    + apply IH; [|done]. intros x Hr. apply Hx. lia.
Qed.

Lemma skip_string_spec fuel m a l :
  cstring m a l -> (length l < fuel)%nat -> skip_string fuel m a = Ok (a + zlen l).
Proof.
  revert a fuel. induction l as [|b l IH]; intros a fuel Hs Hf; destruct fuel as [|f]; simpl in *; try lia.
  - rewrite (load_mapped _ _ _ Hs). simpl. zlen_nil. f_equal. lia.
  - destruct Hs as (Hb & Hne & Hs). rewrite (load_mapped _ _ _ Hb). simpl.
    apply Z.eqb_neq in Hne as ->. rewrite IH by (done || lia). rewrite zlen_cons. f_equal. lia.
Qed.

Lemma append_loop_spec fuel m dest src l :
  cstring m src l -> mapped m dest (zlen l + 1) ->
  dest + zlen l + 1 <= src \/ src + zlen l + 1 <= dest -> (length l < fuel)%nat ->
  exists m', append_loop fuel m dest src = Ok m' /\ cstring m' dest l /\
    forall x, ~ (dest <= x < dest + zlen l + 1) -> m' !! x = m !! x.
Proof.
  revert m dest src fuel. induction l as [|b l IH]; intros m dest src fuel Hs Hm Hov Hf;
    destruct fuel as [|f]; simpl in Hf; try lia; cbn [append_loop].
  - zlen_nil. simpl in Hs. rewrite (load_mapped _ _ _ Hs). cbn [mbind outcome_bind].
    rewrite store_mapped by (rewrite <- (Z.add_0_r dest); apply Hm; lia).
    cbn [mbind outcome_bind]. rewrite (load_mapped _ src 0) by (by rewrite lookup_insert_ne by lia).
    cbn [mbind outcome_bind Z.eqb]. eexists. split; [done|]. split; [apply lookup_insert_eq|].
    intros x Hx. change (zlen (@nil Z)) with 0 in Hx. by rewrite lookup_insert_ne by lia.
  - rewrite zlen_cons in *. pose proof (zlen_nonneg l). destruct Hs as (Hb & Hne & Hs).
    rewrite (load_mapped _ _ _ Hb). cbn [mbind outcome_bind].
    rewrite store_mapped by (rewrite <- (Z.add_0_r dest); apply Hm; lia).
    cbn [mbind outcome_bind]. rewrite (load_mapped _ src b) by (by rewrite lookup_insert_ne by lia).
    cbn [mbind outcome_bind]. apply Z.eqb_neq in Hne as Hne'. rewrite Hne'.
    destruct (IH (<[dest := b]> m) (dest + 1) (src + 1) f) as (m' & Hm' & Hs' & Hx').
    + eapply cstring_frame; [|exact Hs]. intros x Hx. by rewrite lookup_insert_ne by lia.
    + intros i Hi. rewrite lookup_insert. case_decide; [eauto|].
      replace (dest + 1 + i) with (dest + (1 + i)) by lia. apply Hm. lia.
    + lia.
    + lia.
    + exists m'. split; [done|]. split.
      * split_and!; [|done|done]. rewrite Hx' by lia. apply lookup_insert_eq.
      * intros x Hx. rewrite Hx' by lia. by rewrite lookup_insert_ne by lia.
Qed.

(** [strcat] appends: with room for both strings behind [dest] and [src]
    outside that room, [dest] holds the concatenation afterwards (so [strlen] is the
    sum) and no other byte changes. *)
Theorem strcat_correct m dest src l1 l2
    (H1 : cstring m dest l1) (H2 : cstring m src l2)
    (Hroom : mapped m dest (zlen l1 + zlen l2 + 1))
    (Hov : dest + zlen l1 + zlen l2 + 1 <= src \/ src + zlen l2 + 1 <= dest) :
  exists m', strcat m dest src = Ok m' /\ cstring m' dest (l1 ++ l2) /\
    strlen m' dest = Ok (zlen l1 + zlen l2) /\
    forall x, ~ (dest <= x < dest + zlen l1 + zlen l2 + 1) -> m' !! x = m !! x.
Proof.
  pose proof (zlen_nonneg l1). pose proof (zlen_nonneg l2). unfold strcat.
  rewrite (skip_string_spec _ m dest l1 H1) by (by eapply cstring_fuel). cbn [mbind outcome_bind].
  destruct (append_loop_spec (fuel_of m) m (dest + zlen l1) src l2 H2) as (m' & -> & Hs & Hx).
  - apply (mapped_sub m dest (zlen l1 + zlen l2 + 1)); [done|lia|lia].
  - lia.
  - by eapply cstring_fuel.
  - exists m'. assert (cstring m' dest (l1 ++ l2)) as Hcat.
    { apply cstring_app. split; [|done]. intros i b Hi.
      assert (cstring m dest (l1 ++ [])) as H1' by by rewrite app_nil_r.
      apply cstring_app in H1' as [H1' _]. destruct (H1' i b Hi) as [Hb Hne].
      apply lookup_lt_Some in Hi. split; [|done]. rewrite Hx; [done|]. unfold zlen. lia. }
    split; [done|]. split; [done|]. split.
    + rewrite (strlen_spec _ _ _ Hcat). f_equal. apply zlen_app.
    + intros x Hr. apply Hx. lia.
Qed.

Lemma strcat_correct_witness :
  exists m', strcat sample_strings 0x13 0x10 = Ok m' /\ strlen m' 0x13 = Ok 5.
Proof.
  destruct (strcat_correct sample_strings 0x13 0x10 [97; 98; 99] [97; 98]
    ltac:(vm_compute; repeat split; discriminate) ltac:(vm_compute; repeat split; discriminate)
    ltac:(apply mapped_check; vm_compute; reflexivity)
    ltac:(right; vm_compute; discriminate)) as (m' & Hm & _ & Hl & _).
  exists m'. split; [exact Hm|exact Hl].
Defined.

(** ** Searching *)

Lemma match_at_spec fuel m hay sub l p :
  cstring m hay l -> cstring m sub p -> (length p < fuel)%nat ->
  match_at fuel m hay sub = Ok (bool_decide (p `prefix_of` l)).
Proof.
  revert hay sub l fuel. induction p as [|c p IH]; intros hay sub l fuel Hl Hp Hf;
    destruct fuel as [|f]; simpl in Hf; try lia; cbn [match_at]; simpl in Hp.
  - rewrite (load_mapped _ _ _ Hp). cbn [mbind outcome_bind]. rewrite Z.eqb_refl.
    by rewrite bool_decide_true by apply prefix_nil.
  - destruct Hp as (Hc & Hne & Hp). rewrite (load_mapped _ _ _ Hc). cbn [mbind outcome_bind].
    apply Z.eqb_neq in Hne as Hne'. rewrite Hne'. destruct l as [|b l]; simpl in Hl.
    + rewrite (load_mapped _ _ _ Hl). cbn [mbind outcome_bind].
      assert ((0 =? c) = false) as -> by (apply Z.eqb_neq; lia).
      rewrite bool_decide_false; [done|]. apply prefix_nil_not.
    + destruct Hl as (Hb & Hnb & Hl). rewrite (load_mapped _ _ _ Hb). cbn [mbind outcome_bind].
      destruct (b =? c) eqn:E; bool_to_prop.
      * subst. rewrite (IH _ _ l) by (done || lia). f_equal. apply bool_decide_ext.
        split; [apply prefix_cons|apply prefix_cons_inv_2].
      * rewrite bool_decide_false; [done|]. intros Hpre%prefix_cons_inv_1. done.
Qed.

(** [k] is the first position of [p] in [l]. *)
Definition first_occurrence (p l : list Z) (k : nat) : Prop :=
  (k <= length l)%nat /\ p `prefix_of` drop k l /\ forall j, (j < k)%nat -> ~ p `prefix_of` drop j l.

Lemma strstr_loop_spec fuel m hay sub l p :
  cstring m hay l -> cstring m sub p -> (length l < fuel)%nat ->
  (exists k, strstr_loop fuel m hay sub = Ok (Some (hay + Z.of_nat k)) /\ first_occurrence p l k) \/
  (strstr_loop fuel m hay sub = Ok None /\ forall k, (k <= length l)%nat -> ~ p `prefix_of` drop k l).
Proof.
  revert hay fuel. induction l as [|b l IH]; intros hay fuel Hl Hp Hf;
    destruct fuel as [|f]; simpl in Hf; try lia; cbn [strstr_loop];
    rewrite (match_at_spec (fuel_of m) m hay sub _ p Hl Hp) by (by eapply cstring_fuel);
    cbn [mbind outcome_bind]; (case_bool_decide as Hpre;
      [left; exists 0%nat; rewrite Z.add_0_r; split; [done|split_and!; [simpl; lia|done|lia]]|]).
  - simpl in Hl. rewrite (load_mapped _ _ _ Hl). right. split; [done|]. intros k Hk.
    by replace k with 0%nat by (simpl in Hk; lia).
  - destruct Hl as (Hb & Hne & Hl). rewrite (load_mapped _ _ _ Hb). cbn [mbind outcome_bind].
    apply Z.eqb_neq in Hne as ->. destruct (IH (hay + 1) f Hl Hp ltac:(lia)) as [(k & Hs & Hk)|[Hs Hnone]].
    + left. exists (S k). rewrite Hs. split; [do 2 f_equal; lia|]. destruct Hk as (Hk1 & Hk2 & Hk3).
      split_and!; [simpl; lia|done|]. intros [|j] Hj; [done|]. apply Hk3. lia.
    + right. split; [done|]. intros [|k] Hk; [done|]. apply Hnone. simpl in Hk. lia.
Qed.

(** [strstr] returns the first occurrence of [sub] (the start of [str] when
    [sub] is empty), or null when there is none, and reads only the two strings. *)
Theorem strstr_correct m str sub l p
    (Hl : cstring m str l) (Hp : cstring m sub p) :
  (exists k, strstr m str sub = Ok (Some (str + Z.of_nat k)) /\ first_occurrence p l k) \/
  (strstr m str sub = Ok None /\ forall k, (k <= length l)%nat -> ~ p `prefix_of` drop k l).
Proof. apply strstr_loop_spec; [done|done|by eapply cstring_fuel]. Qed.

Lemma strstr_correct_witness :
  (exists k, strstr sample_strings 0x13 0x10 = Ok (Some (0x13 + Z.of_nat k)) /\
     first_occurrence [97; 98] [97; 98; 99] k) \/
  (strstr sample_strings 0x13 0x10 = Ok None /\
     forall k, (k <= 3)%nat -> ~ [97; 98] `prefix_of` drop k [97; 98; 99]).
Proof.
  apply (strstr_correct sample_strings 0x13 0x10 [97; 98; 99] [97; 98]);
    vm_compute; repeat split; discriminate.
Defined.

(** [memstr] never finds a needle that ends with the area: its loop
    requires [hay + len < hay_end], so a needle as long as the whole area is
    reported missing even when it is there. *)
Theorem memstr_misses_suffix m src needle l count
    (Hn : cstring m needle l) (Hc : 0 <= count <= zlen l) :
  memstr m src needle count = Ok None.
Proof.
  unfold memstr. rewrite (strlen_spec _ _ _ Hn). cbn [mbind outcome_bind].
  assert ((src + zlen l <? src + count) = false) as E by (apply Z.ltb_ge; lia).
  destruct (Z.to_nat count); cbn [memstr_loop]; by rewrite E.
Qed.

Lemma memstr_misses_suffix_witness : memstr sample_strings 0x13 0x10 2 = Ok None.
Proof.
  apply (memstr_misses_suffix sample_strings 0x13 0x10 [97; 98] 2);
    vm_compute; repeat split; discriminate.
Defined.

(** ** A block of zero bytes *)

Definition zeroed_block (d n : Z) : memory := list_to_map ((fun i => (d + i, 0)) <$> seqZ 0 n).

Lemma zeroed_block_lookup d n x : zeroed_block d n !! x = if decide (d <= x < d + n) then Some 0 else None.
Proof.
  unfold zeroed_block. case_decide.
  - apply elem_of_list_to_map_1'.
    + intros y Hy. apply list_elem_of_fmap in Hy as (i & [= -> ->] & _). done.
    + apply list_elem_of_fmap. exists (x - d). split; [f_equal; lia|]. apply elem_of_seqZ. lia.
  - apply not_elem_of_list_to_map_1. intros Hx. apply list_elem_of_fmap in Hx as ([y z] & -> & Hy).
    apply list_elem_of_fmap in Hy as (i & [= -> ->] & Hi). apply elem_of_seqZ in Hi. cbn [fst] in *. lia.
Qed.
