(* ===== verification/Stdio.v ===== *)
(** * libc/stdio.cpp: formatted output, and [itoa] of libc/stdlib.cpp

    [vsnprintf] with its lambdas: the characters written so far, the count of
    characters produced and the [buffer_full] flag are the state.  The format is
    a byte list with its NUL, an argument is a 64-bit word or a string; fetching
    an argument of the wrong kind, or reading past the end of the format, is a
    fault. *)
From S2P Require Import Prelude.

#[local] Arguments wrap : simpl never.
#[local] Arguments swrap : simpl never.

Inductive arg := AWord (w : Z) | AStr (s : list Z).

Record pstate := PState {
  num_chars : Z;          (* size_t *)
  buffer_full : bool;
  out : list Z            (* what [str] has received, in order *)
}.

Section vsnprintf.
Context (has_str : bool) (buf_size : Z).

Definition put_char (st : pstate) (c : Z) : pstate :=
  let n := u64 (num_chars st + 1) in
  if buf_size <=? n then PState n true (out st)
  else if negb has_str then PState n (buffer_full st) (out st)
  else PState n (buffer_full st) (out st ++ [u8 c]).

Definition digit_char (rem start_hex_digit : Z) : Z :=
  if 9 <? rem then (rem - 10) + start_hex_digit else rem + 48.

(** The digit loop of [put_integer], least significant digit first. *)
Fixpoint put_digits (fuel : nat) (st : pstate) (value base start_hex_digit : Z) (pad : bool)
    (max_digits num_digits : Z) : outcome pstate :=
  if negb (value =? 0) || (pad && (num_digits <? max_digits)) then
    match fuel with
    | O => Fail Diverges
    | S f =>
        put_digits f (put_char st (digit_char (value `mod` base) start_hex_digit))
          (value / base) base start_hex_digit pad max_digits (num_digits + 1)
    end
  else Ok st.

(** [strrev(digits_start, digits_len)] on the last [len] characters. *)
Definition reverse_tail (l : list Z) (len : Z) : list Z :=
  let k := Z.to_nat (zlen l - len) in take k l ++ reverse (drop k l).

(** At most 22 digits in base 8 or above, or [max_digits] (at most 32) padded. *)
Definition DIGIT_FUEL : nat := 64.

Definition put_integer (st : pstate) (value base : Z) (capitalize is_signed : bool)
    (max_digits : Z) (pad : bool) : outcome pstate :=
  if value =? 0 then Ok (put_char st 48)
  else
    let is_negative := is_signed && (value <? 0) in
    v ← (if is_negative then
           if value =? - 2 ^ 63 then Fail (Undefined "negation overflow") else Ok (- value)
         else Ok value);
    st1 ← put_digits DIGIT_FUEL st v base (if capitalize then 65 else 97) pad max_digits 0;
    let st2 := if is_negative then put_char st1 45 else st1 in
    if negb (buffer_full st2) && has_str then
      Ok (PState (num_chars st2) (buffer_full st2)
            (reverse_tail (out st2) (num_chars st2 - num_chars st)))
    else Ok st2.

Inductive length_ := none | long_int | long_long_int | short_int | char_int | size_int.

Definition signed_integer_arg_of_length (w : Z) (l : length_) : Z :=
  match l with
  | long_long_int | long_int | size_int => s64 w
  | short_int => s16 w
  | char_int => s8 w
  | none => s32 w
  end.

Definition unsigned_integer_arg_of_length (w : Z) (l : length_) : Z :=
  match l with
  | long_long_int | long_int | size_int => u64 w
  | short_int => u16 w
  | char_int => u8 w
  | none => u32 w
  end.

(** [numeric_limits<T>::digits10] and [sizeof(T)] of the type a length stands for. *)
Definition digits10 (l : length_) : Z :=
  match l with
  | none => 9 | long_int | long_long_int => 18 | short_int => 4 | char_int => 2 | size_int => 19
  end.
Definition sizeof (l : length_) : Z :=
  match l with
  | none => 4 | long_int | long_long_int | size_int => 8 | short_int => 2 | char_int => 1
  end.

Definition length_to_digits (l : length_) (base : Z) : Z :=
  if base =? 10 then digits10 l
  else if base =? 16 then sizeof l * 2
  else if base =? 8 then sizeof l * 4
  else 2 ^ 32 - 1.

(** [*fmt] *)
Definition peek (fmt : list Z) : outcome Z := of_option OutOfBounds (head fmt).

Definition get_length (fmt : list Z) : outcome (length_ * list Z) :=
  c ← peek fmt;
  if c =? 108 then
    c2 ← peek (tail fmt);
    if c2 =? 108 then Ok (long_long_int, tail (tail fmt)) else Ok (long_int, tail fmt)
  else if c =? 104 then
    c2 ← peek (tail fmt);
    if c2 =? 104 then Ok (char_int, tail (tail fmt)) else Ok (short_int, tail fmt)
  else if c =? 122 then Ok (size_int, tail fmt)
  else Ok (none, fmt).

Definition get_flags (fmt : list Z) : outcome (bool * list Z) :=
  c ← peek fmt;
  if c =? 48 then Ok (true, tail fmt) else Ok (false, fmt).

Definition word_arg (args : list arg) : outcome (Z * list arg) :=
  match args with
  | AWord w :: args' => Ok (w, args')
  | _ => Fail (Undefined "va_arg of a missing or mismatched argument")
  end.

Definition string_arg (args : list arg) : outcome (list Z * list arg) :=
  match args with
  | AStr s :: args' => Ok (s, args')
  | _ => Fail (Undefined "va_arg of a missing or mismatched argument")
  end.

(** A write [%n] makes: address, width in bytes, value. *)
Definition n_write := (Z * Z * Z)%type.

(** The widths [%n] writes for a length: each case falls through to the next. *)
Definition n_widths (l : length_) : list Z :=
  match l with
  | char_int => [1; 2; 8; 8; 8; 4]
  | short_int => [2; 8; 8; 8; 4]
  | long_int => [8; 8; 8; 4]
  | long_long_int => [8; 8; 4]
  | size_int => [8; 4]
  | none => [4]
  end.

Fixpoint put_count (widths : list Z) (args : list arg) (n : Z) : outcome (list n_write * list arg) :=
  match widths with
  | [] => Ok ([], args)
  | w :: widths' =>
      '(a, args1) ← word_arg args;
      '(ws, args2) ← put_count widths' args1 n;
      Ok ((a, w, swrap (8 * w) n) :: ws, args2)
  end.

(** [for (arg = ...; *arg != 0; ++arg) put_char( *arg);] on a string without its NUL. *)
Definition put_string (st : pstate) (s : list Z) : pstate := fold_left put_char s st.

Definition put_signed (st : pstate) (args : list arg) (l : length_) (base : Z) (pad : bool)
    : outcome (pstate * list arg) :=
  '(w, args') ← word_arg args;
  st' ← put_integer st (signed_integer_arg_of_length w l) base false true (length_to_digits l base) pad;
  Ok (st', args').

Definition put_unsigned (st : pstate) (args : list arg) (l : length_) (base : Z) (cap pad : bool)
    : outcome (pstate * list arg) :=
  '(w, args') ← word_arg args;
  st' ← put_integer st (unsigned_integer_arg_of_length w l) base cap false (length_to_digits l base) pad;
  Ok (st', args').

(** The [switch] on the conversion character; an unknown one produces nothing. *)
Definition convert (c : Z) (l : length_) (pad : bool) (st : pstate) (args : list arg)
    : outcome (pstate * list arg * list n_write) :=
  if c =? 115 then '(s, args') ← string_arg args; Ok (put_string st s, args', [])
  else if c =? 99 then '(w, args') ← word_arg args; Ok (put_char st (u8 w), args', [])
  else if c =? 111 then '(st', args') ← put_signed st args l 8 pad; Ok (st', args', [])
  else if (c =? 105) || (c =? 100) then '(st', args') ← put_signed st args l 10 pad; Ok (st', args', [])
  else if c =? 117 then '(st', args') ← put_unsigned st args l 10 false pad; Ok (st', args', [])
  else if c =? 88 then '(st', args') ← put_unsigned st args l 16 true pad; Ok (st', args', [])
  else if c =? 120 then '(st', args') ← put_unsigned st args l 16 false pad; Ok (st', args', [])
  else if c =? 112 then
    '(w, args') ← word_arg args;
    st' ← put_integer st (u64 w) 16 false false 16 true;
    Ok (st', args', [])
  else if c =? 110 then '(ws, args') ← put_count (n_widths l) args (num_chars st); Ok (st, args', ws)
  else Ok (st, args, []).

(** The main loop; every turn consumes at least one byte of the format. *)
Fixpoint format_loop (fuel : nat) (fmt : list Z) (args : list arg) (st : pstate) (ws : list n_write)
    : outcome (pstate * list n_write) :=
  match fuel with
  | O => Fail Diverges
  | S f =>
      c ← peek fmt;
      if c =? 0 then Ok (st, ws)
      else if negb (c =? 37) then format_loop f (tail fmt) args (put_char st c) ws
      else
        let fmt1 := tail fmt in
        c1 ← peek fmt1;
        if c1 =? 37 then format_loop f (tail fmt1) args (put_char st c) ws
        else
          '(pad, fmt2) ← get_flags fmt1;
          '(l, fmt3) ← get_length fmt2;
          c3 ← peek fmt3;
          '(st', args', ws') ← convert c3 l pad st args;
          format_loop f (tail fmt3) args' st' (ws ++ ws')
  end.

(** A null format ([None]) gives -1.  Otherwise the result is the returned count, the bytes stored at [str] (with the NUL when
    one is stored), and the writes of [%n]. *)
Definition vsnprintf (fmt : option (list Z)) (args : list arg) : outcome (Z * list Z * list n_write) :=
  match fmt with
  | None => Ok (-1, [], [])
  | Some fmt =>
      '(st, ws) ← format_loop (S (length fmt)) fmt args (PState 0 false []) [];
      let bytes := if negb (buffer_full st) && (0 <? buf_size) && has_str then out st ++ [0] else out st in
      Ok (s32 (num_chars st), bytes, ws)
  end.
End vsnprintf.

Definition SIZE_MAX : Z := 2 ^ 64 - 1.
Definition vsprintf (has_str : bool) (fmt : option (list Z)) (args : list arg) :=
  vsnprintf has_str SIZE_MAX fmt args.

(** stdlib.cpp: [itoa]; [None] is the null pointer. *)
Definition itoa (value base : Z) : outcome (option (list Z)) :=
  if base =? 10 then '(_, s, _) ← vsprintf true (Some [37; 100; 0]) [AWord value]; Ok (Some s)
  else if base =? 16 then '(_, s, _) ← vsprintf true (Some [37; 120; 0]) [AWord value]; Ok (Some s)
  else Ok None.

(** ** The bound on what is written *)

Section bound.
Context (has_str : bool) (buf_size : Z).

Abbreviation put := (put_char has_str buf_size).

(** Characters are stored one by one while they fit. *)
Record fits (st : pstate) : Prop := {
  fits_count : 0 <= zlen (out st) <= num_chars st;
  fits_room : zlen (out st) <= Z.max 0 (buf_size - 1);
  fits_full : buffer_full st = true -> buf_size <= num_chars st;
  fits_exact : buffer_full st = false -> num_chars st < buf_size \/ num_chars st = 0;
  fits_out : buffer_full st = false -> has_str = true -> zlen (out st) = num_chars st
}.

Lemma put_char_fits st c :
  fits st -> num_chars st + 1 < 2 ^ 64 ->
  fits (put st c) /\ num_chars (put st c) = num_chars st + 1.
Proof.
  intros [Hc Hr Hf He Ho] Hn. unfold put_char. rewrite (wrap_small 64) by lia.
  destruct (buf_size <=? num_chars st + 1) eqn:E; bool_to_prop.
  { split; [|done]. split; simpl; try done; lia. }
  destruct has_str eqn:Es; cbn [negb]; (split; [|done]).
  - split; cbn [out num_chars buffer_full]; rewrite ?zlen_app, ?zlen_cons; zlen_nil.
    + lia.
    + lia.
    + intros Hb. specialize (Hf Hb). lia.
    + lia.
    + intros Hb _. specialize (Ho Hb eq_refl). lia.
  - split; cbn [out num_chars buffer_full].
    + lia.
    + lia.
    + intros Hb. specialize (Hf Hb). lia.
    + lia.
    + intros _ ?; congruence.
Qed.

(** [n] more characters at most. *)
Definition grew (st st' : pstate) (n : Z) : Prop :=
  fits st' /\ num_chars st <= num_chars st' <= num_chars st + n.

Lemma put_string_fits st s :
  fits st -> num_chars st + zlen s < 2 ^ 64 -> grew st (put_string has_str buf_size st s) (zlen s).
Proof.
  revert st. induction s as [|c s IH]; intros st Hf Hn; unfold put_string; simpl.
  { split; [done|]. zlen_nil. lia. }
  rewrite zlen_cons in *. pose proof (zlen_nonneg s).
  destruct (put_char_fits st c Hf ltac:(lia)) as [Hf' Hc].
  destruct (IH (put st c) Hf' ltac:(lia)) as [Hg Hc']. unfold put_string in *. split; [done|lia].
Qed.

Lemma put_digits_fits fuel st v base sh pad md nd st' :
  fits st -> num_chars st + Z.of_nat fuel < 2 ^ 64 ->
  put_digits has_str buf_size fuel st v base sh pad md nd = Ok st' -> grew st st' (Z.of_nat fuel).
Proof.
  revert st v nd. induction fuel as [|f IH]; intros st v nd Hf Hn H; cbn [put_digits] in H.
  { destruct (_ || _); [done|]. injection H as <-. split; [done|lia]. }
  destruct (_ || _); [|injection H as <-; split; [done|lia]].
  destruct (put_char_fits st (digit_char (v `mod` base) sh) Hf ltac:(lia)) as [Hf' Hc].
  destruct (IH _ _ _ Hf' ltac:(lia) H) as [Hg Hc']. split; [done|lia].
Qed.

Lemma reverse_tail_length l n : zlen (reverse_tail l n) = zlen l.
Proof.
  unfold reverse_tail, zlen. rewrite length_app, length_reverse, length_take, length_drop. lia.
Qed.

Lemma put_integer_fits st v base cap sg md pad st' :
  fits st -> num_chars st + 65 < 2 ^ 64 ->
  put_integer has_str buf_size st v base cap sg md pad = Ok st' -> grew st st' 65.
Proof.
  intros Hf Hn H. unfold put_integer in H. destruct (v =? 0).
  { injection H as <-. destruct (put_char_fits st 48 Hf ltac:(lia)) as [Hf' Hc]. split; [done|lia]. }
  apply bind_Ok in H as (v' & _ & H). apply bind_Ok in H as (st1 & Hd & H).
  destruct (put_digits_fits DIGIT_FUEL _ _ _ _ _ _ _ _ Hf ltac:(unfold DIGIT_FUEL; lia) Hd) as [Hf1 Hc1].
  unfold DIGIT_FUEL in Hc1.
  assert (grew st (if sg && (v <? 0) then put st1 45 else st1) 65) as [Hf2 Hc2].
  { destruct (sg && (v <? 0)); [|split; [done|lia]].
    destruct (put_char_fits st1 45 Hf1 ltac:(lia)) as [Hf2 Hc2]. split; [done|lia]. }
  set (st2 := if sg && (v <? 0) then put st1 45 else st1) in *.
  destruct (negb (buffer_full st2) && has_str) eqn:E; injection H as <-; [|split; [done|lia]].
  split; [|done]. destruct Hf2. split; simpl; rewrite ?reverse_tail_length; done.
Qed.

Definition arg_len (a : arg) : Z := match a with AWord _ => 0 | AStr s => zlen s end.
Fixpoint args_len (l : list arg) : Z :=
  match l with [] => 0 | a :: r => arg_len a + args_len r end.

Lemma args_len_nonneg l : 0 <= args_len l.
Proof.
  induction l as [|[w|s] l IH]; simpl; [lia|lia|]. pose proof (zlen_nonneg s). lia.
Qed.

Lemma put_count_args ws args n r args' : put_count ws args n = Ok (r, args') -> args_len args' = args_len args.
Proof.
  revert args r. induction ws as [|w ws IH]; intros args r H; cbn [put_count] in H; [by injection H as <- <-|].
  apply bind_Ok in H as ([a args1] & Ha & H). apply bind_Ok in H as ([ws2 args2] & H2 & H).
  injection H as _ <-. rewrite (IH _ _ H2). destruct args as [|[]]; try done. by injection Ha as _ <-.
Qed.

(** One conversion consumes its argument and adds at most 65 characters and the
    length of a string argument. *)
Lemma convert_fits c l pad st args st' args' ws :
  fits st -> num_chars st + 65 + args_len args < 2 ^ 64 ->
  convert has_str buf_size c l pad st args = Ok (st', args', ws) ->
  fits st' /\ num_chars st <= num_chars st' /\
  num_chars st' + args_len args' <= num_chars st + 65 + args_len args.
Proof.
  intros Hf Hn H. pose proof (args_len_nonneg args) as Hl.
  assert (forall base, put_signed has_str buf_size st args l base pad = Ok (st', args') ->
    fits st' /\ num_chars st <= num_chars st' /\
    num_chars st' + args_len args' <= num_chars st + 65 + args_len args) as Hsg.
  { intros base Hs. unfold put_signed in Hs. apply bind_Ok in Hs as ([w a1] & Ha & Hs).
    apply bind_Ok in Hs as (st1 & Hp & Hs). injection Hs as <- <-.
    destruct (put_integer_fits _ _ _ _ _ _ _ _ Hf ltac:(lia) Hp) as [Hf' Hc'].
    destruct args as [|[]]; try done. injection Ha as _ <-. simpl. split; [done|lia]. }
  assert (forall base cap, put_unsigned has_str buf_size st args l base cap pad = Ok (st', args') ->
    fits st' /\ num_chars st <= num_chars st' /\
    num_chars st' + args_len args' <= num_chars st + 65 + args_len args) as Hun.
  { intros base cap Hs. unfold put_unsigned in Hs. apply bind_Ok in Hs as ([w a1] & Ha & Hs).
    apply bind_Ok in Hs as (st1 & Hp & Hs). injection Hs as <- <-.
    destruct (put_integer_fits _ _ _ _ _ _ _ _ Hf ltac:(lia) Hp) as [Hf' Hc'].
    destruct args as [|[]]; try done. injection Ha as _ <-. simpl. split; [done|lia]. }
  unfold convert in H. repeat case_match; try (apply bind_Ok in H as ([x1 x2] & Hx & H));
    try (injection H as <- <- <-; eauto; fail).
  - destruct args as [|[|s]]; try done. injection Hx as <- <-. injection H as <- <- <-. simpl in *.
    pose proof (zlen_nonneg s). pose proof (args_len_nonneg args).
    destruct (put_string_fits st s Hf ltac:(lia)) as [Hf' Hc']. split; [done|lia].
  - destruct args as [|[|]]; try done. injection Hx as <- <-. injection H as <- <- <-. simpl in *.
    destruct (put_char_fits st (u8 w) Hf ltac:(lia)) as [Hf' Hc']. split; [done|lia].
  - destruct args as [|[|]]; try done. injection Hx as <- <-. apply bind_Ok in H as (st1 & Hp & H).
    injection H as <- <- <-. destruct (put_integer_fits _ _ _ _ _ _ _ _ Hf ltac:(lia) Hp) as [Hf' Hc'].
    simpl. split; [done|lia].
  - injection H as <- <- <-. rewrite (put_count_args _ _ _ _ _ Hx). split; [done|lia].
  - injection H as <- <- <-. split; [done|lia].
Qed.

Lemma tail_length (l : list Z) : zlen (tail l) <= zlen l.
Proof. destruct l; simpl; zlen_lia. Qed.

Lemma peek_tail_length l c : peek l = Ok c -> zlen (tail l) = zlen l - 1.
Proof. destruct l; [done|]. intros _. simpl. zlen_lia. Qed.

Lemma get_flags_length fmt pad fmt' : get_flags fmt = Ok (pad, fmt') -> zlen fmt' <= zlen fmt.
Proof.
  unfold get_flags. intros H. apply bind_Ok in H as (c & _ & H). pose proof (tail_length fmt).
  destruct (_ =? _); injection H as _ <-; lia.
Qed.

Lemma get_length_length fmt l fmt' : get_length fmt = Ok (l, fmt') -> zlen fmt' <= zlen fmt.
Proof.
  unfold get_length. intros H. apply bind_Ok in H as (c & _ & H).
  pose proof (tail_length fmt). pose proof (tail_length (tail fmt)).
  repeat case_match; try (apply bind_Ok in H as (c2 & _ & H); case_match); injection H as _ <-; lia.
Qed.

(** Every turn of the loop pays for what it writes with a byte of the format. *)
Lemma format_loop_fits fuel fmt args st ws st' ws' :
  fits st -> num_chars st + 65 * zlen fmt + args_len args < 2 ^ 64 ->
  format_loop has_str buf_size fuel fmt args st ws = Ok (st', ws') -> fits st'.
Proof.
  revert fmt args st ws. induction fuel as [|f IH]; intros fmt args st ws Hf Hn H; [done|].
  cbn [format_loop] in H. apply bind_Ok in H as (c & Hc & H). pose proof (peek_tail_length _ _ Hc) as Hl.
  pose proof (args_len_nonneg args). pose proof (zlen_nonneg (tail fmt)).
  destruct (c =? 0); [by injection H as <- <-|].
  destruct (put_char_fits st c Hf ltac:(lia)) as [Hf1 Hn1].
  destruct (negb (c =? 37)); [refine (IH _ _ _ _ Hf1 _ H); lia|].
  apply bind_Ok in H as (c1 & Hc1 & H). pose proof (peek_tail_length _ _ Hc1) as Hl1.
  destruct (c1 =? 37); [refine (IH _ _ _ _ Hf1 _ H); lia|].
  apply bind_Ok in H as ([pad fmt2] & Hfl & H). apply bind_Ok in H as ([l fmt3] & Hle & H).
  apply bind_Ok in H as (c3 & Hc3 & H). apply bind_Ok in H as ([[st1 args1] ws1] & Hcv & H).
  pose proof (get_flags_length _ _ _ Hfl). pose proof (get_length_length _ _ _ Hle).
  pose proof (tail_length fmt3).
  destruct (fun Hb => convert_fits _ _ _ _ _ _ _ _ Hf Hb Hcv) as (Hf2 & _ & Hn2); [lia|].
  refine (IH _ _ _ _ Hf2 _ H); lia.
Qed.
End bound.

(** What is stored: some characters and at most one NUL behind them; the last byte
    of the buffer receives nothing but that NUL. *)
Lemma vsnprintf_shape buf_size fmt args n bytes ws :
  0 <= buf_size < 2 ^ 64 -> 65 * zlen fmt + args_len args < 2 ^ 64 ->
  vsnprintf true buf_size (Some fmt) args = Ok (n, bytes, ws) ->
  exists o, zlen o <= Z.max 0 (buf_size - 1) /\ (bytes = o \/ bytes = o ++ [0] /\ 0 < buf_size).
Proof.
  intros Hb Hn H. unfold vsnprintf in H. apply bind_Ok in H as ([st ws1] & Hl & H).
  assert (fits true buf_size (PState 0 false [])) as Hf0.
  { split; simpl; zlen_nil; intros; try done; lia. }
  destruct (fun Hb => format_loop_fits _ _ _ _ _ _ _ _ _ Hf0 Hb Hl) as [Hc Hr Hf He Ho]; [simpl; lia|].
  injection H as _ <- _. exists (out st). split; [done|]. rewrite andb_true_r.
  destruct (negb (buffer_full st)); cbn [andb]; [|by left].
  destruct (0 <? buf_size) eqn:E; bool_to_prop; [by right|by left].
Qed.

(** [C23] [vsnprintf] never writes more than [buf_size] bytes at [str], whatever the
    format and the arguments, the terminating NUL included. *)
Theorem vsnprintf_bounded buf_size fmt args n bytes ws :
  0 <= buf_size < 2 ^ 64 -> 65 * zlen fmt + args_len args < 2 ^ 64 ->
  vsnprintf true buf_size (Some fmt) args = Ok (n, bytes, ws) -> zlen bytes <= buf_size.
Proof.
  intros Hb Hn H. destruct (vsnprintf_shape _ _ _ _ _ _ Hb Hn H) as (o & Ho & [->|[-> Hp]]); [lia|zlen_lia].
Qed.

(** "x=%d" with -5 into four bytes. *)
Theorem vsnprintf_bounded_witness : zlen [120; 61; 53] <= 4.
Proof.
  apply (vsnprintf_bounded 4 [120; 61; 37; 100; 0] [AWord (2 ^ 32 - 5)] 4 [120; 61; 53] []).
  - lia.
  - vm_compute. done.
  - vm_compute. done.
Defined.

(** ** Plain text *)

(** A byte that is neither NUL nor the percent sign. *)
Definition plain (c : Z) : Prop := 0 < c < 256 /\ c <> 37.

Lemma format_loop_plain has_str buf_size s args ws : forall fuel st,
  Forall plain s -> (length s < fuel)%nat ->
  format_loop has_str buf_size fuel (s ++ [0]) args st ws = Ok (put_string has_str buf_size st s, ws).
Proof.
  induction s as [|c s IH]; intros fuel st Hp Hfu; (destruct fuel as [|f]; [simpl in Hfu; lia|]); [done|].
  apply Forall_cons in Hp as [[Hc H37] Hp]. cbn [app format_loop peek head of_option mbind outcome_bind].
  destruct (c =? 0) eqn:E0; bool_to_prop; [lia|]. destruct (c =? 37) eqn:E37; bool_to_prop; [lia|].
  cbn [negb tail]. rewrite IH; [done|done|simpl in Hfu; lia].
Qed.

Definition is_byte (c : Z) : Prop := 0 <= c < 256.

Lemma put_string_exact buf_size s : forall st,
  Forall is_byte s -> 0 <= num_chars st -> num_chars st + zlen s < 2 ^ 64 ->
  put_string true buf_size st s =
    PState (num_chars st + zlen s) (buffer_full st || ((0 <? zlen s) && (buf_size <=? num_chars st + zlen s)))
      (out st ++ take (Z.to_nat (buf_size - 1 - num_chars st)) s).
Proof.
  induction s as [|c s IH]; intros st Hp H0 Hn.
  { cbn. rewrite take_nil, app_nil_r, orb_false_r, Z.add_0_r. by destruct st. }
  apply Forall_cons in Hp as [Hc Hp]. rewrite zlen_cons in *. pose proof (zlen_nonneg s).
  unfold put_string. cbn [fold_left]. fold (put_string true buf_size (put_char true buf_size st c) s).
  unfold put_char at 1. rewrite (wrap_small 64), (wrap_small 8) by (red in Hc; lia). cbn [negb].
  replace (0 <? 1 + zlen s) with true by lia. cbn [andb].
  destruct (buf_size <=? num_chars st + 1) eqn:E; bool_to_prop; rewrite IH by (done || (simpl; lia));
    cbn [num_chars out buffer_full]; f_equal; try lia.
  - replace (Z.to_nat (buf_size - 1 - num_chars st)) with 0%nat by lia.
    by replace (Z.to_nat (buf_size - 1 - (num_chars st + 1))) with 0%nat by lia.
  - rewrite <- Z.add_assoc. destruct (0 <? zlen s) eqn:?; bool_to_prop; [done|].
    cbn. f_equal. symmetry. apply Z.leb_gt. lia.
  - replace (Z.to_nat (buf_size - 1 - num_chars st)) with (S (Z.to_nat (buf_size - 1 - (num_chars st + 1)))) by lia.
    by rewrite <- app_assoc.
Qed.

Lemma vsnprintf_text buf_size s args :
  Forall plain s -> 0 < buf_size < 2 ^ 64 -> zlen s < 2 ^ 31 ->
  vsnprintf true buf_size (Some (s ++ [0])) args =
    Ok (zlen s, if zlen s <? buf_size then s ++ [0] else take (Z.to_nat (buf_size - 1)) s, []).
Proof.
  intros Hp Hb Hs. pose proof (zlen_nonneg s). unfold vsnprintf.
  rewrite format_loop_plain by (done || (rewrite length_app; simpl; lia)). cbn [mbind outcome_bind].
  rewrite put_string_exact; [|eapply Forall_impl; [exact Hp|unfold plain, is_byte; lia]|simpl; lia|simpl; lia].
  cbn [num_chars buffer_full out orb app]. rewrite Z.add_0_l, Z.sub_0_r, swrap_small by lia.
  replace (0 <? buf_size) with true by lia. rewrite !andb_true_r. f_equal. f_equal. f_equal.
  destruct (zlen s <? buf_size) eqn:E; bool_to_prop.
  - replace (buf_size <=? zlen s) with false by lia. rewrite andb_false_r. cbn [negb].
    rewrite take_ge; [done|]. unfold zlen in *. lia.
  - replace (buf_size <=? zlen s) with true by lia. replace (0 <? zlen s) with true by lia. done.
Qed.

(** A text without conversions is stored whole with its NUL when it fits; a
    longer one is cut at [buf_size - 1] bytes and no NUL is stored.  The value
    returned is the length of the whole text either way. *)
Theorem vsnprintf_plain buf_size s args :
  Forall plain s -> 0 < buf_size < 2 ^ 64 -> zlen s < 2 ^ 31 ->
  vsnprintf true buf_size (Some (s ++ [0])) args =
    Ok (zlen s, if zlen s <? buf_size then s ++ [0] else take (Z.to_nat (buf_size - 1)) s, []).
Proof. apply vsnprintf_text. Qed.

(** "abcd" into a buffer of 3. *)
Theorem vsnprintf_plain_witness :
  vsnprintf true 3 (Some [97; 98; 99; 100; 0]) [] = Ok (4, [97; 98], []).
Proof.
  apply (vsnprintf_plain 3 [97; 98; 99; 100] []).
  - repeat constructor; lia.
  - lia.
  - vm_compute. done.
Defined.

(** ** Digits read back *)

Definition digit_value (c : Z) : Z := if c <? 65 then c - 48 else c - 97 + 10.
Definition parse (base : Z) (s : list Z) : Z := fold_left (fun acc c => acc * base + digit_value c) s 0.
Definition parse_signed (base : Z) (s : list Z) : Z :=
  match s with
  | 45 :: s' => - parse base s'
  | _ => parse base s
  end.

Lemma digit_value_char r : 0 <= r < 16 -> digit_value (digit_char r 97) = r.
Proof. intros. unfold digit_value, digit_char. repeat case_if; lia. Qed.

Lemma digit_char_range r : 0 <= r < 16 -> 48 <= digit_char r 97 < 256.
Proof. intros. unfold digit_char. case_if; lia. Qed.

Lemma parse_snoc base s c : parse base (s ++ [c]) = parse base s * base + digit_value c.
Proof. unfold parse. by rewrite fold_left_app. Qed.

(** The digit loop ends and its digits, reversed, denote the value. *)
Lemma put_digits_parse base buf_size : 8 <= base <= 16 -> forall n fuel v st nd,
  (n <= fuel)%nat -> 0 <= v < base ^ Z.of_nat n ->
  0 <= num_chars st -> num_chars st + Z.of_nat n < buf_size < 2 ^ 64 ->
  exists ds, put_digits true buf_size fuel st v base 97 false 0 nd =
      Ok (PState (num_chars st + zlen ds) (buffer_full st) (out st ++ ds)) /\
    parse base (reverse ds) = v /\ Forall (fun c => 48 <= c) ds /\ zlen ds <= Z.of_nat n.
Proof.
  intros Hb n. induction n as [|n IH]; intros fuel v st nd Hfu Hv H0 Hn.
  { assert (v = 0) as -> by lia. exists []. destruct fuel; cbn [put_digits Z.eqb negb orb andb];
      rewrite app_nil_r, Z.add_0_r; destruct st; done. }
  destruct (Z.eq_dec v 0) as [->|Hne].
  { exists []. destruct fuel; cbn [put_digits Z.eqb negb orb andb];
      rewrite app_nil_r, Z.add_0_r; destruct st; (split; [done|]); (split; [done|]); (split; [done|]); zlen_lia. }
  destruct fuel as [|fuel]; [lia|]. cbn [put_digits]. replace (v =? 0) with false by lia. cbn [negb orb].
  assert (0 <= v / base < base ^ Z.of_nat n) as Hq.
  { split; [apply Z.div_pos; lia|]. apply Z.div_lt_upper_bound; [lia|].
    rewrite <- Z.pow_succ_r by lia. rewrite <- Nat2Z.inj_succ. lia. }
  pose proof (Z.mod_pos_bound v base ltac:(lia)) as Hr. pose proof (digit_char_range (v `mod` base) ltac:(lia)).
  assert (put_char true buf_size st (digit_char (v `mod` base) 97) =
    PState (num_chars st + 1) (buffer_full st) (out st ++ [digit_char (v `mod` base) 97])) as ->.
  { unfold put_char. rewrite (wrap_small 64), (wrap_small 8) by lia.
    by replace (buf_size <=? num_chars st + 1) with false by lia. }
  destruct (IH fuel (v / base) (PState (num_chars st + 1) (buffer_full st) (out st ++ [digit_char (v `mod` base) 97]))
    (nd + 1) ltac:(lia) Hq ltac:(simpl; lia) ltac:(simpl; lia)) as (ds & He & Hp & Hd & Hl).
  exists (digit_char (v `mod` base) 97 :: ds). rewrite He. cbn [num_chars buffer_full out].
  rewrite <- app_assoc, zlen_cons. split; [by rewrite Z.add_assoc|]. rewrite reverse_cons, parse_snoc, Hp, digit_value_char by lia.
  split; [pose proof (Z.div_mod v base ltac:(lia)); lia|]. split; [|lia]. constructor; [lia|done].
Qed.

Lemma put_digits_pad has_str buf_size base sh md md' : forall fuel st v nd,
  put_digits has_str buf_size fuel st v base sh false md nd = put_digits has_str buf_size fuel st v base sh false md' nd.
Proof. induction fuel as [|f IH]; intros; cbn [put_digits andb]; [done|]. case_match; [apply IH|done]. Qed.

Lemma reverse_tail_all l : reverse_tail l (zlen l) = reverse l.
Proof. unfold reverse_tail. replace (zlen l - zlen l) with 0 by lia. done. Qed.

Lemma parse_signed_digits base s : Forall (fun c => 48 <= c) s -> parse_signed base s = parse base s.
Proof.
  intros Hf. destruct s as [|c s]; [done|]. apply Forall_cons in Hf as [Hc _].
  destruct c as [|p|p]; try done. do 6 (destruct p as [p|p|]; try done); lia.
Qed.

(** An integer put into an empty buffer reads back. *)
Lemma put_integer_parse base v sg md :
  8 <= base <= 16 -> - 2 ^ 63 < v < 2 ^ 64 -> (sg = false -> 0 <= v) ->
  exists st, put_integer true SIZE_MAX (PState 0 false []) v base false sg md false = Ok st /\
    buffer_full st = false /\ parse_signed base (out st) = v.
Proof.
  intros Hb Hv Hsg. unfold put_integer. destruct (v =? 0) eqn:E0; bool_to_prop.
  { subst v. eexists. by split. }
  assert (sg && (v <? 0) = (v <? 0)) as ->.
  { destruct sg; [done|]. cbn. symmetry. apply Z.ltb_ge. auto. }
  assert (exists v', (if v <? 0 then if v =? - 2 ^ 63 then Fail (Undefined "negation overflow") else Ok (- v) else Ok v) = Ok v' /\
    v' = Z.abs v) as (v' & -> & Hv').
  { destruct (v <? 0) eqn:?; bool_to_prop; [|eexists; split; [done|lia]].
    replace (v =? - 2 ^ 63) with false by lia. eexists; split; [done|lia]. }
  cbn [mbind outcome_bind]. rewrite (put_digits_pad _ _ _ _ md 0).
  destruct (put_digits_parse base SIZE_MAX Hb 22 DIGIT_FUEL v' (PState 0 false []) 0) as (ds & -> & Hp & Hd & Hl).
  - unfold DIGIT_FUEL. lia.
  - assert (8 ^ 22 <= base ^ 22) by (apply Z.pow_le_mono_l; lia). change (Z.of_nat 22) with 22. lia.
  - done.
  - unfold SIZE_MAX. simpl. lia.
  - cbn [mbind outcome_bind num_chars buffer_full out app]. destruct (v <? 0) eqn:En; bool_to_prop.
    + unfold put_char. rewrite (wrap_small 64) by (cbn [num_chars]; zlen_lia). cbn [num_chars].
      replace (SIZE_MAX <=? 0 + zlen ds + 1) with false by (unfold SIZE_MAX; lia).
      cbn [negb num_chars buffer_full out andb]. eexists; split; [done|]. split; [done|]. cbn [out].
      replace (0 + zlen ds + 1 - 0) with (zlen (ds ++ [u8 45])) by zlen_lia.
      rewrite reverse_tail_all, reverse_app.
      change (parse_signed base (reverse [u8 45] ++ reverse ds)) with (- parse base (reverse ds)). lia.
    + eexists; split; [done|]. split; [done|]. cbn [out]. rewrite Z.sub_0_r, Z.add_0_l, reverse_tail_all.
      rewrite parse_signed_digits by (apply Forall_reverse; done). lia.
Qed.

(** [C24] [itoa] prints what reads back as the value: in base 10 as an [int], in base
    16 as the [unsigned int] with the same bits; other bases give a null pointer. *)
Theorem itoa_roundtrip value base :
  match itoa value base with
  | Ok (Some s) => exists t, s = t ++ [0] /\ (base = 10 \/ base = 16) /\
      parse_signed base t = (if base =? 10 then s32 value else u32 value)
  | Ok None => base <> 10 /\ base <> 16
  | Fail _ => False
  end.
Proof.
  unfold itoa. destruct (base =? 10) eqn:E10; [|destruct (base =? 16) eqn:E16]; bool_to_prop; [| |done]; subst base.
  - assert (- 2 ^ 31 <= s32 value < 2 ^ 31) as Hr.
    { unfold swrap. pose proof (Z.mod_pos_bound (value + 2 ^ (32 - 1)) (2 ^ 32) ltac:(lia)). lia. }
    destruct (put_integer_parse 10 (s32 value) true (length_to_digits none 10) ltac:(lia) ltac:(lia) ltac:(done)) as (st & He & Hb & Hp).
    unfold vsprintf, vsnprintf. cbn -[put_integer SIZE_MAX swrap length_to_digits]. unfold put_signed. cbn -[put_integer SIZE_MAX swrap length_to_digits].
    rewrite He. cbn -[SIZE_MAX swrap]. rewrite Hb. cbn -[swrap]. exists (out st). by split_and!; [|left|].
  - destruct (put_integer_parse 16 (u32 value) false (length_to_digits none 16) ltac:(lia)) as (st & He & Hb & Hp).
    { pose proof (wrap_range 32 value ltac:(lia)). lia. }
    { intros _. pose proof (wrap_range 32 value ltac:(lia)). lia. }
    unfold vsprintf, vsnprintf. cbn -[put_integer SIZE_MAX swrap length_to_digits]. unfold put_unsigned. cbn -[put_integer SIZE_MAX swrap length_to_digits].
    rewrite He. cbn -[SIZE_MAX swrap]. rewrite Hb. cbn -[swrap]. exists (out st). by split_and!; [|right|].
Qed.
