(* ===== verification/Printf.v ===== *)
(** * libc/stdio.cpp: what [vsnprintf] prints

    A reference for [vsnprintf]: a format is a list of pieces, literal text and
    conversions, and its text is the concatenation of what the pieces stand for.
    The theorem says that the byte-by-byte loop of Stdio.v stores this text. *)
From S2P Require Import Prelude Stdio.

#[local] Arguments wrap : simpl never.
#[local] Arguments swrap : simpl never.

(** ** Numerals *)

(** The number of digits of [v]; at most [fuel] are counted. *)
Fixpoint ndigits (fuel : nat) (base v : Z) : nat :=
  match fuel with
  | O => 0%nat
  | S f => if v =? 0 then 0%nat else S (ndigits f base (v / base))
  end.

(** The [k] last digits of [v], the least significant first. *)
Fixpoint digits_rev (k : nat) (base sh v : Z) : list Z :=
  match k with
  | O => []
  | S k' => digit_char (v `mod` base) sh :: digits_rev k' base sh (v / base)
  end.

(** A number is written without leading zeros, or, padded, with at least [md]
    digits; zero is a single digit even then. *)
Definition numeral (base sh md : Z) (pad : bool) (v : Z) : list Z :=
  if v =? 0 then [48]
  else reverse (digits_rev (Nat.max (ndigits DIGIT_FUEL base v) (if pad then Z.to_nat md else 0%nat)) base sh v).

Definition signed_numeral (base sh md : Z) (pad : bool) (v : Z) : list Z :=
  if v <? 0 then 45 :: numeral base sh md pad (- v) else numeral base sh md pad v.

Lemma quotient_digits base v f : 2 <= base -> 0 <= v < base ^ Z.of_nat (S f) -> 0 <= v / base < base ^ Z.of_nat f.
Proof.
  intros Hb Hv. split; [apply Z.div_pos; lia|]. apply Z.div_lt_upper_bound; [lia|].
  rewrite <- Z.pow_succ_r, <- Nat2Z.inj_succ by lia. lia.
Qed.

(** ** Pieces of a format *)

Inductive piece :=
| Text (s : list Z)                                  (* literal characters *)
| Percent
| Str (s : list Z)                                   (* %s *)
| Chr (w : Z)                                        (* %c *)
| Dec (pad : bool) (l : length_) (w : Z)             (* %d *)
| Oct (pad : bool) (l : length_) (w : Z)             (* %o *)
| Udec (pad : bool) (l : length_) (w : Z)            (* %u *)
| Hex (cap pad : bool) (l : length_) (w : Z)         (* %x, %X *)
| Ptr (w : Z).                                       (* %p *)

Definition length_chars (l : length_) : list Z :=
  match l with
  | none => [] | long_int => [108] | long_long_int => [108; 108] | short_int => [104]
  | char_int => [104; 104] | size_int => [122]
  end.

Definition conversion (pad : bool) (l : length_) (c : Z) : list Z :=
  37 :: (if pad then [48] else []) ++ length_chars l ++ [c].

(** The bytes of the format string, and the arguments, of a piece. *)
Definition spelled (p : piece) : list Z :=
  match p with
  | Text s => s
  | Percent => [37; 37]
  | Str _ => conversion false none 115
  | Chr _ => conversion false none 99
  | Dec pad l _ => conversion pad l 100
  | Oct pad l _ => conversion pad l 111
  | Udec pad l _ => conversion pad l 117
  | Hex cap pad l _ => conversion pad l (if cap then 88 else 120)
  | Ptr _ => conversion false none 112
  end.

Definition piece_args (p : piece) : list arg :=
  match p with
  | Text _ | Percent => []
  | Str s => [AStr s]
  | Chr w | Dec _ _ w | Oct _ _ w | Udec _ _ w | Hex _ _ _ w | Ptr w => [AWord w]
  end.

(** The text of a piece. *)
Definition rendered (p : piece) : list Z :=
  match p with
  | Text s => s
  | Percent => [37]
  | Str s => s
  | Chr w => [u8 w]
  | Dec pad l w => signed_numeral 10 97 (length_to_digits l 10) pad (signed_integer_arg_of_length w l)
  | Oct pad l w => signed_numeral 8 97 (length_to_digits l 8) pad (signed_integer_arg_of_length w l)
  | Udec pad l w => numeral 10 97 (length_to_digits l 10) pad (unsigned_integer_arg_of_length w l)
  | Hex cap pad l w => numeral 16 (if cap then 65 else 97) (length_to_digits l 16) pad (unsigned_integer_arg_of_length w l)
  | Ptr w => numeral 16 97 16 true (u64 w)
  end.

(** Literal text has neither NUL nor percent signs, a string argument no NUL, and
    the least integer has no negation. *)
Definition piece_ok (p : piece) : Prop :=
  match p with
  | Text s => Forall plain s
  | Str s => Forall is_byte s
  | Dec _ l w | Oct _ l w => signed_integer_arg_of_length w l <> - 2 ^ 63
  | _ => True
  end.

Definition format_of (ps : list piece) : list Z := concat (spelled <$> ps).
Definition args_of (ps : list piece) : list arg := concat (piece_args <$> ps).
Definition rendering (ps : list piece) : list Z := concat (rendered <$> ps).

(** ** The loop prints the pieces *)

Section loop.
Context (buf_size : Z) (Hbuf : 0 < buf_size <= 2 ^ 64).

Abbreviation putc := (put_char true buf_size).

(** The state after the text [t], all of which fitted. *)
Definition after (t : list Z) : pstate := PState (zlen t) false t.

Lemma put_char_after t c : is_byte c -> zlen t + 1 < buf_size -> putc (after t) c = after (t ++ [c]).
Proof.
  intros Hc Ht. pose proof (zlen_nonneg t). unfold put_char, after. cbn [num_chars buffer_full out].
  rewrite (wrap_small 64), (wrap_small 8) by (red in Hc; lia). replace (buf_size <=? zlen t + 1) with false by lia.
  cbn [negb]. f_equal. zlen_lia.
Qed.

Lemma put_string_after t s : Forall is_byte s -> zlen t + zlen s < buf_size ->
  put_string true buf_size (after t) s = after (t ++ s).
Proof.
  intros Hs. revert t. induction Hs as [|c s Hc Hs IH]; intros t Ht; [by rewrite app_nil_r|].
  rewrite zlen_cons in Ht. pose proof (zlen_nonneg s). unfold put_string. cbn [fold_left].
  rewrite put_char_after by (done || lia). fold (put_string true buf_size (after (t ++ [c])) s).
  rewrite IH by (rewrite zlen_app, zlen_cons; zlen_nil; lia). by rewrite <- app_assoc.
Qed.

Lemma digit_byte r sh : 0 <= r < 16 -> sh = 65 \/ sh = 97 -> is_byte (digit_char r sh).
Proof. intros Hr Hsh. unfold is_byte, digit_char. case_if; lia. Qed.

Lemma put_digits_after base sh (pad : bool) md : 8 <= base <= 16 -> sh = 65 \/ sh = 97 -> forall fuel t v nd,
  let k := Nat.max (ndigits fuel base v) (if pad then Z.to_nat (md - nd) else 0%nat) in
  0 <= v < base ^ Z.of_nat fuel -> (k <= fuel)%nat -> zlen t + Z.of_nat k < buf_size ->
  put_digits true buf_size fuel (after t) v base sh pad md nd = Ok (after (t ++ digits_rev k base sh v)).
Proof.
  intros Hb Hsh fuel. induction fuel as [|f IH]; intros t v nd k Hv Hk Ht; subst k.
  { assert (v = 0) as -> by (change (base ^ Z.of_nat 0) with 1 in Hv; lia). cbn [put_digits ndigits Nat.max] in *.
    destruct pad; [|cbn; by rewrite app_nil_r].
    replace (nd <? md) with false by lia. cbn. replace (Z.to_nat (md - nd)) with 0%nat by lia. by rewrite app_nil_r. }
  cbn [put_digits]. pose proof (Z.mod_pos_bound v base ltac:(lia)) as Hm.
  pose proof (quotient_digits base v f ltac:(lia) Hv) as Hq.
  destruct (negb (v =? 0) || (pad && (nd <? md))) eqn:Ec.
  - assert (Nat.max (ndigits (S f) base v) (if pad then Z.to_nat (md - nd) else 0%nat) =
      S (Nat.max (ndigits f base (v / base)) (if pad then Z.to_nat (md - (nd + 1)) else 0%nat))) as Hks.
    { cbn [ndigits]. destruct (v =? 0) eqn:E0; bool_to_prop.
      - subst v. cbn [negb orb] in Ec. destruct pad; [|done]. cbn [andb] in Ec.
        assert (ndigits f base (0 / base) = 0%nat) as -> by (rewrite Z.div_0_l by lia; by destruct f). lia.
      - destruct pad; lia. }
    rewrite Hks in *. rewrite put_char_after; [|apply digit_byte; [lia|exact Hsh]|lia].
    rewrite IH; [|exact Hq|lia|rewrite zlen_app, zlen_cons; zlen_nil; lia].
    cbn [digits_rev]. by rewrite <- app_assoc.
  - apply orb_false_iff in Ec as [E0 Ep]. apply negb_false_iff in E0. cbn [ndigits]. rewrite E0.
    assert ((if pad then Z.to_nat (md - nd) else 0%nat) = 0%nat) as -> by (destruct pad; [cbn [andb] in Ep; lia|done]).
    cbn. by rewrite app_nil_r.
Qed.

(** The sign and the digits of a number that fits its 64 bits. *)
Lemma ndigits_le fuel base v n : 2 <= base -> 0 <= v < base ^ Z.of_nat n -> (ndigits fuel base v <= n)%nat.
Proof.
  intros Hb. revert v n. induction fuel as [|f IH]; intros v n Hv; cbn [ndigits]; [lia|].
  destruct (v =? 0) eqn:E; bool_to_prop; [lia|]. destruct n as [|n]; [change (base ^ Z.of_nat 0) with 1 in Hv; lia|].
  by apply le_n_S, IH, quotient_digits.
Qed.

Lemma digits_rev_length k base sh v : length (digits_rev k base sh v) = k.
Proof. revert v. induction k as [|k IH]; intros v; cbn; [done|]. by rewrite IH. Qed.

Lemma reverse_tail_app t d : reverse_tail (t ++ d) (zlen d) = t ++ reverse d.
Proof.
  unfold reverse_tail. rewrite zlen_app. replace (Z.to_nat (zlen t + zlen d - zlen d)) with (length t) by (unfold zlen; lia).
  by rewrite take_app_length, drop_app_length.
Qed.

Lemma put_integer_after t v base (cap sg : bool) md (pad : bool) : 8 <= base <= 16 -> md <= 32 ->
  - 2 ^ 63 < v < 2 ^ 64 -> (sg = false -> 0 <= v) ->
  let r := signed_numeral base (if cap then 65 else 97) md pad v in
  zlen t + zlen r < buf_size ->
  put_integer true buf_size (after t) v base cap sg md pad = Ok (after (t ++ r)).
Proof.
  intros Hb Hmd Hv Hsg r Hr. unfold r, signed_numeral, numeral, put_integer in *. clear r.
  set (sh := if cap then 65 else 97) in *. assert (sh = 65 \/ sh = 97) as Hsh by (unfold sh; destruct cap; auto).
  destruct (v =? 0) eqn:E0; bool_to_prop.
  { subst v. cbn [Z.ltb Z.compare] in *. change (0 =? 0) with true in *. cbv iota in *.
    f_equal. apply put_char_after; [unfold is_byte; lia|]. rewrite zlen_cons in Hr. pose proof (zlen_nonneg (@nil Z)). lia. }
  assert (sg && (v <? 0) = (v <? 0)) as ->.
  { destruct sg; [done|]. cbn. symmetry. apply Z.ltb_ge. auto. }
  set (v' := Z.abs v). set (k := Nat.max (ndigits DIGIT_FUEL base v') (if pad then Z.to_nat md else 0%nat)).
  assert ((if v <? 0 then if v =? - 2 ^ 63 then Fail (Undefined "negation overflow") else Ok (- v) else Ok v) = Ok v') as ->.
  { unfold v'. destruct (v <? 0) eqn:?; bool_to_prop; [|f_equal; lia].
    replace (v =? - 2 ^ 63) with false by lia. f_equal; lia. }
  cbn [mbind outcome_bind].
  assert (zlen (digits_rev k base sh v') = Z.of_nat k) as Hlen by (unfold zlen; by rewrite digits_rev_length).
  assert (zlen t + Z.of_nat k + (if (v <? 0) then 1 else 0) < buf_size) as Hfit.
  { destruct (v <? 0) eqn:En; bool_to_prop.
    - replace (- v) with v' in Hr by (unfold v'; lia). replace (v' =? 0) with false in Hr by (unfold v'; lia). fold k in Hr.
      rewrite zlen_cons in Hr. unfold zlen at 2 in Hr. rewrite length_reverse, digits_rev_length in Hr. lia.
    - replace v with v' in Hr by (unfold v'; lia). replace (v' =? 0) with false in Hr by (unfold v'; lia). fold k in Hr.
      unfold zlen at 2 in Hr. rewrite length_reverse, digits_rev_length in Hr. lia. }
  assert (8 ^ 22 <= base ^ 22) as Hpow by (apply Z.pow_le_mono_l; lia).
  assert (base ^ 22 <= base ^ 64) as Hpow' by (apply Z.pow_le_mono_r; lia).
  pose proof (ndigits_le DIGIT_FUEL base v' 22 ltac:(lia) ltac:(change (Z.of_nat 22) with 22; unfold v'; lia)) as Hnd.
  rewrite (put_digits_after base sh pad md Hb Hsh DIGIT_FUEL t v' 0);
    [|unfold DIGIT_FUEL; change (Z.of_nat 64) with 64; unfold v'; lia
     |rewrite Z.sub_0_r; fold k; unfold DIGIT_FUEL; subst k; destruct pad; lia
     |rewrite Z.sub_0_r; fold k; destruct (v <? 0); lia].
  rewrite Z.sub_0_r. fold k. cbn [mbind outcome_bind].
  destruct (v <? 0) eqn:En; bool_to_prop.
  - rewrite put_char_after; [|unfold is_byte; lia|rewrite zlen_app, Hlen; lia].
    cbn [negb andb after buffer_full num_chars out].
    replace (- v) with v' by (unfold v'; lia). replace (v' =? 0) with false by (unfold v'; lia). fold k.
    unfold after. f_equal. rewrite <- app_assoc.
    replace (zlen (t ++ digits_rev k base sh v' ++ [45]) - zlen t) with (zlen (digits_rev k base sh v' ++ [45])) by (rewrite !zlen_app; lia).
    rewrite reverse_tail_app. assert (reverse (digits_rev k base sh v' ++ [45]) = 45 :: reverse (digits_rev k base sh v')) as ->
      by (by rewrite reverse_app).
    f_equal. rewrite !zlen_app, !zlen_cons. zlen_nil. unfold zlen. rewrite length_reverse. lia.
  - cbn [negb andb after buffer_full num_chars out].
    replace v with v' by (unfold v'; lia). replace (v' =? 0) with false by (unfold v'; lia). fold k.
    unfold after. f_equal.
    replace (zlen (t ++ digits_rev k base sh v') - zlen t) with (zlen (digits_rev k base sh v')) by (rewrite !zlen_app; lia).
    rewrite reverse_tail_app. f_equal. rewrite !zlen_app. unfold zlen. by rewrite length_reverse.
Qed.

(** ** Conversions *)

Abbreviation loop := (format_loop true buf_size).

Lemma conversion_step f pad l c rest args t ws st' args' ws' : In c [115; 99; 100; 111; 117; 88; 120; 112] ->
  convert true buf_size c l pad (after t) args = Ok (st', args', ws') ->
  loop (S f) (conversion pad l c ++ rest) args (after t) ws = loop f rest args' st' (ws ++ ws').
Proof.
  intros Hc He. cbn [In] in Hc. destruct pad, l; (repeat destruct Hc as [<-|Hc]; [..|done]);
    cbn -[convert] in He |- *; by rewrite He.
Qed.

(** The turns of the loop a piece takes. *)
Definition turns (p : piece) : nat := match p with Text s => length s | _ => 1%nat end.

Lemma literal_step s : forall f rest args t ws, Forall plain s -> zlen t + zlen s < buf_size ->
  loop (length s + f) (s ++ rest) args (after t) ws = loop f rest args (after (t ++ s)) ws.
Proof.
  induction s as [|c s IH]; intros f rest args t ws Hp Ht; [by rewrite app_nil_r|].
  apply Forall_cons in Hp as [[Hc H37] Hp]. rewrite zlen_cons in Ht. pose proof (zlen_nonneg s).
  cbn [length Nat.add app format_loop peek head of_option mbind outcome_bind tail].
  destruct (c =? 0) eqn:E0; bool_to_prop; [lia|]. destruct (c =? 37) eqn:E37; bool_to_prop; [lia|].
  cbn [negb]. rewrite put_char_after by (unfold is_byte; lia). rewrite IH by (done || (rewrite zlen_app, zlen_cons; zlen_nil; lia)).
  by rewrite <- app_assoc.
Qed.

Lemma signed_arg_range w l : - 2 ^ 63 <= signed_integer_arg_of_length w l < 2 ^ 63.
Proof.
  assert (forall n, 0 < n <= 64 -> - 2 ^ 63 <= swrap n w < 2 ^ 63) as H.
  { intros n Hn. unfold swrap. pose proof (Z.mod_pos_bound (w + 2 ^ (n - 1)) (2 ^ n) ltac:(lia)).
    replace (2 ^ n) with (2 * 2 ^ (n - 1)) in * by (rewrite <- Z.pow_succ_r by lia; f_equal; lia).
    assert (2 ^ (n - 1) <= 2 ^ 63) by (apply Z.pow_le_mono_r; lia). lia. }
  destruct l; apply H; lia.
Qed.

Lemma unsigned_arg_range w l : 0 <= unsigned_integer_arg_of_length w l < 2 ^ 64.
Proof.
  assert (forall n, 0 <= n <= 64 -> 0 <= wrap n w < 2 ^ 64) as H.
  { intros n Hn. pose proof (wrap_range n w ltac:(lia)). assert (2 ^ n <= 2 ^ 64) by (apply Z.pow_le_mono_r; lia). lia. }
  destruct l; apply H; lia.
Qed.

Lemma length_to_digits_le l base : In base [8; 10; 16] -> length_to_digits l base <= 32.
Proof. cbn [In]. intros [<-|[<-|[<-|[]]]]; destruct l; vm_compute; discriminate. Qed.

Lemma unsigned_numeral base sh md pad v : 0 <= v -> signed_numeral base sh md pad v = numeral base sh md pad v.
Proof. intros Hv. unfold signed_numeral. by replace (v <? 0) with false by lia. Qed.

Lemma convert_signed l pad base w args t : In base [8; 10] -> signed_integer_arg_of_length w l <> - 2 ^ 63 ->
  let r := signed_numeral base 97 (length_to_digits l base) pad (signed_integer_arg_of_length w l) in
  zlen t + zlen r < buf_size ->
  put_signed true buf_size (after t) (AWord w :: args) l base pad = Ok (after (t ++ r), args).
Proof.
  intros Hb Hv r Hr. unfold put_signed. cbn [word_arg mbind outcome_bind]. pose proof (signed_arg_range w l).
  rewrite (put_integer_after t _ base false true); [done|cbn [In] in Hb; lia| |lia|done|exact Hr].
  apply length_to_digits_le. cbn [In] in *. lia.
Qed.

Lemma convert_unsigned l (pad cap : bool) base w args t : In base [10; 16] ->
  let r := numeral base (if cap then 65 else 97) (length_to_digits l base) pad (unsigned_integer_arg_of_length w l) in
  zlen t + zlen r < buf_size ->
  put_unsigned true buf_size (after t) (AWord w :: args) l base cap pad = Ok (after (t ++ r), args).
Proof.
  intros Hb r Hr. unfold put_unsigned. cbn [word_arg mbind outcome_bind]. pose proof (unsigned_arg_range w l).
  subst r. rewrite <- unsigned_numeral in * by lia.
  rewrite (put_integer_after t _ base cap false); [done|cbn [In] in Hb; lia| |lia|lia|exact Hr].
  apply length_to_digits_le. cbn [In] in *. lia.
Qed.

(** One piece. *)
Lemma piece_step p f rest args t ws : piece_ok p -> zlen t + zlen (rendered p) < buf_size ->
  loop (turns p + f) (spelled p ++ rest) (piece_args p ++ args) (after t) ws =
  loop f rest args (after (t ++ rendered p)) ws.
Proof.
  intros Hp Ht. destruct p as [s| |s|w|pad l w|pad l w|pad l w|cap pad l w|w];
    cbn [turns spelled piece_args rendered piece_ok app Nat.add] in *.
  - by apply literal_step.
  - cbn [format_loop peek head of_option mbind outcome_bind tail]. cbn -[put_char format_loop].
    rewrite zlen_cons in Ht. pose proof (zlen_nonneg (@nil Z)). rewrite put_char_after by (unfold is_byte; lia). done.
  - erewrite conversion_step; [by rewrite app_nil_r|cbn; tauto|]. cbn -[put_string]. by rewrite put_string_after.
  - erewrite conversion_step; [by rewrite app_nil_r|cbn; tauto|]. cbn -[put_char wrap].
    rewrite zlen_cons in Ht. pose proof (zlen_nonneg (@nil Z)).
    rewrite put_char_after; [done|apply wrap_range; lia|lia].
  - erewrite conversion_step; [by rewrite app_nil_r|cbn; tauto|]. cbn -[put_signed].
    by rewrite convert_signed by (done || (cbn; tauto)).
  - erewrite conversion_step; [by rewrite app_nil_r|cbn; tauto|]. cbn -[put_signed].
    by rewrite convert_signed by (done || (cbn; tauto)).
  - erewrite conversion_step; [by rewrite app_nil_r|cbn; tauto|]. cbn -[put_unsigned].
    by rewrite (convert_unsigned l pad false) by (done || (cbn; tauto)).
  - erewrite conversion_step; [by rewrite app_nil_r|destruct cap; cbn; tauto|].
    destruct cap; cbn -[put_unsigned];
      [by rewrite (convert_unsigned l pad true) by (done || (cbn; tauto))|by rewrite (convert_unsigned l pad false) by (done || (cbn; tauto))].
  - erewrite conversion_step; [by rewrite app_nil_r|cbn; tauto|]. cbn -[put_integer wrap].
    pose proof (wrap_range 64 w ltac:(lia)). rewrite <- unsigned_numeral in * by lia.
    by rewrite (put_integer_after t _ 16 false false) by (done || lia).
Qed.

Lemma pieces_steps ps : forall f t ws, Forall piece_ok ps -> zlen t + zlen (rendering ps) < buf_size ->
  (list_sum (turns <$> ps) < f)%nat ->
  loop f (format_of ps ++ [0]) (args_of ps) (after t) ws = Ok (after (t ++ rendering ps), ws).
Proof.
  induction ps as [|p ps IH]; intros f t ws Hp Ht Hf.
  { destruct f; [cbn in Hf; lia|]. cbn. by rewrite app_nil_r. }
  apply Forall_cons in Hp as [Hp Hps]. unfold format_of, args_of, rendering in *.
  change (list_sum (turns <$> p :: ps)) with (turns p + list_sum (turns <$> ps))%nat in Hf. cbn [fmap list_fmap concat] in *.
  rewrite zlen_app in Ht. pose proof (zlen_nonneg (concat (rendered <$> ps))).
  replace f with (turns p + (f - turns p))%nat by lia. rewrite <- app_assoc, piece_step by (done || lia).
  rewrite IH; [by rewrite <- app_assoc|done|rewrite zlen_app; lia|lia].
Qed.
End loop.

Lemma turns_spelled p : (turns p <= length (spelled p))%nat.
Proof. destruct p; cbn; lia. Qed.

Lemma vsnprintf_whole buf_size ps : 0 < buf_size <= 2 ^ 64 -> Forall piece_ok ps -> zlen (rendering ps) < buf_size ->
  vsnprintf true buf_size (Some (format_of ps ++ [0])) (args_of ps) =
    Ok (s32 (zlen (rendering ps)), rendering ps ++ [0], []).
Proof.
  intros Hb Hok Hfit. unfold vsnprintf. change (PState 0 false []) with (after []).
  rewrite (pieces_steps buf_size Hb); [|done|zlen_nil; lia|].
  - cbn [mbind outcome_bind after num_chars buffer_full out app negb andb]. by replace (0 <? buf_size) with true by lia.
  - rewrite length_app. cbn. assert (list_sum (turns <$> ps) <= length (format_of ps))%nat; [|lia].
    clear. unfold format_of. induction ps as [|p ps IH]; [done|].
    change (list_sum (turns <$> p :: ps)) with (turns p + list_sum (turns <$> ps))%nat. cbn [fmap list_fmap concat].
    rewrite length_app. pose proof (turns_spelled p). lia.
Qed.

(** The least integer is negated all the same, which is undefined. *)
Theorem least_integer_undefined :
  vsnprintf true 100 (Some (chars "%ld" ++ [0])) [AWord (2 ^ 63)] = Fail (Undefined "negation overflow").
Proof. reflexivity. Qed.

(** [C22] [vsnprintf] prints its format: the pieces of a format whose text fits the
    buffer are printed one after the other, each as what it stands for, the text is
    ended by a NUL, and its length is returned.  The pieces are literal text, %%, %s,
    %c and %p as they are, and %d, %o, %u, %x and %X with or without the flag 0 and
    any length; the one value they exclude is the least 64-bit integer for %d and %o
    ([least_integer_undefined]). *)
Theorem vsnprintf_prints buf_size ps
    (Hb : 0 < buf_size <= 2 ^ 64) (Hok : Forall piece_ok ps) (Hfit : zlen (rendering ps) < buf_size) :
  vsnprintf true buf_size (Some (format_of ps ++ [0])) (args_of ps) =
    Ok (s32 (zlen (rendering ps)), rendering ps ++ [0], []).
Proof.
  by apply vsnprintf_whole.
Qed.

(** "%d/%x (%s)" with -5, 255 and "ok" into 16 bytes. *)
Lemma vsnprintf_prints_witness :
  vsnprintf true 16 (Some [37; 100; 47; 37; 120; 32; 40; 37; 115; 41; 0]) [AWord (2 ^ 32 - 5); AWord 255; AStr [111; 107]] =
    Ok (10, [45; 53; 47; 102; 102; 32; 40; 111; 107; 41; 0], []).
Proof.
  refine (vsnprintf_prints 16 [Dec false none (2 ^ 32 - 5); Text [47]; Hex false false none 255; Text [32; 40]; Str [111; 107]; Text [41]] _ _ _).
  - lia.
  - repeat constructor; (lia || discriminate).
  - vm_compute. reflexivity.
Defined.

(** ** Numerals denote their numbers *)

Lemma ndigits_enough fuel base v : 2 <= base -> 0 <= v < base ^ Z.of_nat fuel -> v < base ^ Z.of_nat (ndigits fuel base v).
Proof.
  intros Hb. revert v. induction fuel as [|f IH]; intros v Hv; cbn [ndigits]; [apply Hv|].
  destruct (v =? 0) eqn:E; bool_to_prop; [subst v; change (base ^ Z.of_nat 0) with 1; lia|].
  pose proof (quotient_digits base v f Hb Hv) as Hq.
  specialize (IH _ Hq). rewrite Nat2Z.inj_succ, Z.pow_succ_r by lia.
  pose proof (Z.div_mod v base ltac:(lia)). pose proof (Z.mod_pos_bound v base ltac:(lia)). nia.
Qed.

Lemma digits_rev_parse base k v : 8 <= base <= 16 -> 0 <= v < base ^ Z.of_nat k ->
  parse base (reverse (digits_rev k base 97 v)) = v.
Proof.
  intros Hb. revert v. induction k as [|k IH]; intros v Hv.
  { assert (v = 0) as -> by (change (base ^ Z.of_nat 0) with 1 in Hv; lia). reflexivity. }
  cbn [digits_rev]. pose proof (Z.mod_pos_bound v base ltac:(lia)).
  pose proof (quotient_digits base v k ltac:(lia) Hv) as Hq.
  rewrite reverse_cons, parse_snoc, IH, digit_value_char by lia.
  pose proof (Z.div_mod v base ltac:(lia)). lia.
Qed.

(** The digit in front is not a zero. *)
Lemma digits_rev_front fuel base v : 8 <= base <= 16 -> 0 < v < base ^ Z.of_nat fuel ->
  exists ds c, digits_rev (ndigits fuel base v) base 97 v = ds ++ [c] /\ c <> 48.
Proof.
  intros Hb. revert v. induction fuel as [|f IH]; intros v Hv; [change (base ^ Z.of_nat 0) with 1 in Hv; lia|].
  cbn [ndigits]. replace (v =? 0) with false by lia. cbn [digits_rev].
  destruct (Z.eq_dec (v / base) 0) as [Hz|Hz].
  - rewrite Hz. replace (ndigits f base 0) with 0%nat by (by destruct f). exists [], (digit_char (v `mod` base) 97).
    split; [done|]. pose proof (Z.div_mod v base ltac:(lia)). pose proof (Z.mod_pos_bound v base ltac:(lia)).
    unfold digit_char. case_if; lia.
  - destruct (IH (v / base)) as (ds & c & -> & Hc).
    { pose proof (quotient_digits base v f ltac:(lia) ltac:(lia)). lia. }
    by exists (digit_char (v `mod` base) 97 :: ds), c.
Qed.

(** The numerals of [vsnprintf_prints] read back as their numbers, and unpadded
    they begin with a zero only when they are "0". *)
Theorem numeral_correct base md pad v (Hb : 8 <= base <= 16) (Hv : 0 <= v < 2 ^ 64) :
  parse base (numeral base 97 md pad v) = v /\
  (v <> 0 -> exists c ds, numeral base 97 md false v = c :: ds /\ c <> 48).
Proof.
  assert (8 ^ 64 <= base ^ 64) as Hp by (apply Z.pow_le_mono_l; lia).
  assert (v < base ^ Z.of_nat DIGIT_FUEL) as Hf by (change (Z.of_nat DIGIT_FUEL) with 64; lia).
  unfold numeral. split.
  - destruct (v =? 0) eqn:E; bool_to_prop; [subst v; done|]. apply digits_rev_parse; [done|].
    pose proof (ndigits_enough DIGIT_FUEL base v ltac:(lia) ltac:(lia)).
    assert (base ^ Z.of_nat (ndigits DIGIT_FUEL base v) <= base ^ Z.of_nat (Nat.max (ndigits DIGIT_FUEL base v) (if pad then Z.to_nat md else 0%nat)))
      by (apply Z.pow_le_mono_r; lia). lia.
  - intros Hne. replace (v =? 0) with false by lia. rewrite Nat.max_0_r.
    destruct (digits_rev_front DIGIT_FUEL base v Hb ltac:(lia)) as (ds & c & -> & Hc). rewrite reverse_app.
    by exists c, (reverse ds).
Qed.
