(* ===== verification/Vga.v ===== *)
(** * kernel/vga.cpp, kernel/vga.h: the text screen

    [VGA_MEMORY] is an array of 80 * 25 cells; the only [screen] the kernel
    creates, [current_screen], writes to it, so the [buffer] that
    [advance_one_y] scrolls is the array it reads from.  The cursor counts in
    [int]s that stay small. *)
From S2P Require Import Prelude.

#[local] Arguments wrap : simpl never.
#[local] Arguments swrap : simpl never.

Inductive color :=
| black | blue | green | cyan | red | magenta | brown | light_gray
| dark_gray | light_blue | light_green | light_cyan | light_red | light_magenta | yellow | white.

Definition color_val (c : color) : Z :=
  match c with
  | black => 0 | blue => 1 | green => 2 | cyan => 3 | red => 4 | magenta => 5 | brown => 6
  | light_gray => 7 | dark_gray => 8 | light_blue => 9 | light_green => 10 | light_cyan => 11
  | light_red => 12 | light_magenta => 13 | yellow => 14 | white => 15
  end.

Definition SCREEN_WIDTH : Z := 80.
Definition SCREEN_HEIGHT : Z := 25.

Record cursor := Cursor { cx : Z; cy : Z }.
Definition null_cursor : cursor := Cursor (-1) (-1).
Definition cursor_eqb (a b : cursor) : bool := (cx a =? cx b) && (cy a =? cy b).

Record screen := Screen {
  buffer : list Z;       (* uint16_t cells *)
  position : cursor
}.

(** [(color << 8) | (uint16_t)c]: a [char] is signed, so a byte above 127 is
    sign-extended over the colour. *)
Definition make_color_char (c : Z) (fg bg : color) : Z :=
  let color := u16 (Z.lor (Z.shiftl (color_val bg) 4) (color_val fg)) in
  u16 (Z.lor (Z.shiftl color 8) (u16 (s8 c))).

Definition write_color_char_at (b : list Z) (pos : cursor) (c : Z) (fg bg : color) : outcome (list Z) :=
  aset b (cy pos * SCREEN_WIDTH + cx pos) (make_color_char c fg bg).

(** [memmove(buffer, &VGA_MEMORY[80], 80 * 24 * sizeof(uint16_t))]: every row moves
    up by one, the last row stays. *)
Definition scroll (b : list Z) : list Z :=
  let n := Z.to_nat (SCREEN_WIDTH * (SCREEN_HEIGHT - 1)) in
  take n (drop (Z.to_nat SCREEN_WIDTH) b) ++ drop n b.

Definition advance_one_y (s : screen) : screen :=
  if cy (position s) + 1 =? SCREEN_HEIGHT - 1 then Screen (scroll (buffer s)) (position s)
  else Screen (buffer s) (Cursor (cx (position s)) (cy (position s) + 1)).

Definition advance_one (s : screen) : screen :=
  if cx (position s) <? SCREEN_WIDTH then Screen (buffer s) (Cursor (cx (position s) + 1) (cy (position s)))
  else advance_one_y (Screen (buffer s) (Cursor 0 (cy (position s)))).

Definition advance_cursor_to_newline (s : screen) : screen :=
  advance_one_y (Screen (buffer s) (Cursor 0 (cy (position s)))).

Definition set_cursor (s : screen) (pos : cursor) : screen := Screen (buffer s) pos.

(** [screen::print_char] *)
Definition print_char (s : screen) (c : Z) (fg bg : color) : outcome screen :=
  if c =? 10 then Ok (advance_cursor_to_newline s)
  else if c =? 8 then
    let pos := if 0 <? cx (position s) then Cursor (cx (position s) - 1) (cy (position s)) else position s in
    b ← write_color_char_at (buffer s) pos 32 black black;
    Ok (Screen b pos)
  else
    b ← write_color_char_at (buffer s) (position s) c fg bg;
    Ok (advance_one (Screen b (position s))).

(** [screen::clear]: the two nested loops, row by row. *)
Fixpoint clear_row (n : nat) (b : list Z) (x y : Z) : outcome (list Z) :=
  match n with
  | O => Ok b
  | S n' => b' ← write_color_char_at b (Cursor x y) 32 black black; clear_row n' b' (x + 1) y
  end.

Fixpoint clear_rows (n : nat) (b : list Z) (y : Z) : outcome (list Z) :=
  match n with
  | O => Ok b
  | S n' => b' ← clear_row (Z.to_nat SCREEN_WIDTH) b 0 y; clear_rows n' b' (y + 1)
  end.

Definition clear (s : screen) : outcome screen :=
  b ← clear_rows (Z.to_nat SCREEN_HEIGHT) (buffer s) 0;
  Ok (Screen b (Cursor 0 0)).

(** [class string]: a text (without its NUL), its colours and its position. *)
Record vstring := VString {
  text : list Z;
  background : color;
  foreground : color;
  at_ : cursor
}.
Definition vstring_of (t : list Z) : vstring := VString t black white null_cursor.

Fixpoint print_chars (s : screen) (t : list Z) (fg bg : color) : outcome screen :=
  match t with
  | [] => Ok s
  | c :: t' => s' ← print_char s c fg bg; print_chars s' t' fg bg
  end.

Definition write_impl (v : vstring) (s : screen) : outcome screen :=
  let s1 := if negb (cursor_eqb (at_ v) null_cursor) then set_cursor s (at_ v) else s in
  print_chars s1 (text v) (foreground v) (background v).

Definition print (s : screen) (t : list Z) : outcome screen := write_impl (vstring_of t) s.
Definition puts (s : screen) (t : list Z) : outcome screen :=
  s' ← write_impl (vstring_of t) s; Ok (advance_cursor_to_newline s').
(** [string::print_char(c)] *)
Definition put_char (s : screen) (c : Z) : outcome screen := print_char s c white black.

(** ** Every write stays on the screen *)

Definition CELLS : Z := SCREEN_WIDTH * SCREEN_HEIGHT.

(** The cursor may stand one past the last column; it never reaches the last row. *)
Record wf (s : screen) : Prop := {
  wf_cells : zlen (buffer s) = CELLS;
  wf_x : 0 <= cx (position s) <= SCREEN_WIDTH;
  wf_y : 0 <= cy (position s) < SCREEN_HEIGHT - 1
}.

Lemma scroll_length b : zlen b = CELLS -> zlen (scroll b) = CELLS.
Proof.
  unfold scroll, CELLS, SCREEN_WIDTH, SCREEN_HEIGHT, zlen. intros H.
  rewrite length_app, length_take, !length_drop. lia.
Qed.

Lemma advance_one_y_wf s :
  zlen (buffer s) = CELLS -> 0 <= cx (position s) <= SCREEN_WIDTH -> 0 <= cy (position s) < SCREEN_HEIGHT - 1 ->
  wf (advance_one_y s).
Proof.
  intros Hb Hx Hy. unfold advance_one_y. case_if; split; cbn [buffer position cx cy]; try done; try lia.
  by apply scroll_length.
Qed.

Lemma newline_wf s : wf s -> wf (advance_cursor_to_newline s).
Proof. intros [Hb Hx Hy]. apply advance_one_y_wf; cbn [buffer position cx cy]; unfold SCREEN_WIDTH in *; lia || done. Qed.

Lemma advance_one_wf s : wf s -> wf (advance_one s).
Proof.
  intros [Hb Hx Hy]. unfold advance_one. case_if.
  - split; cbn [buffer position cx cy]; lia || done.
  - apply advance_one_y_wf; cbn [buffer position cx cy]; unfold SCREEN_WIDTH in *; lia || done.
Qed.

(** A write at a cursor of a well-formed screen succeeds. *)
Lemma write_Ok b pos c fg bg :
  zlen b = CELLS -> 0 <= cx pos <= SCREEN_WIDTH -> 0 <= cy pos < SCREEN_HEIGHT - 1 ->
  write_color_char_at b pos c fg bg = Ok (zset b (cy pos * SCREEN_WIDTH + cx pos) (make_color_char c fg bg)).
Proof.
  intros Hb Hx Hy. unfold write_color_char_at, aset. rewrite Hb.
  unfold CELLS, SCREEN_WIDTH, SCREEN_HEIGHT in *. case_if; [done|].
  apply andb_false_iff in E. destruct E; bool_to_prop; lia.
Qed.

Lemma print_char_wf s c fg bg : wf s -> exists s', print_char s c fg bg = Ok s' /\ wf s'.
Proof.
  intros Hw. pose proof Hw as [Hb Hx Hy]. unfold print_char. destruct (c =? 10).
  { eexists. split; [done|]. by apply newline_wf. }
  destruct (c =? 8).
  - rewrite write_Ok; [|done|destruct (0 <? _) eqn:?; bool_to_prop; cbn [cx cy]; lia|by destruct (0 <? _)].
    eexists. split; [done|]. split; cbn [buffer position]; rewrite ?zlen_zset; [done| |by destruct (0 <? _)].
    destruct (0 <? _) eqn:?; bool_to_prop; cbn [cx cy]; lia.
  - rewrite write_Ok by done. eexists. split; [done|]. apply advance_one_wf.
    split; cbn [buffer position]; rewrite ?zlen_zset; done.
Qed.

Lemma print_chars_wf t : forall s fg bg, wf s -> exists s', print_chars s t fg bg = Ok s' /\ wf s'.
Proof.
  induction t as [|c t IH]; intros s fg bg Hw; [by exists s|].
  destruct (print_char_wf s c fg bg Hw) as (s1 & H1 & Hw1). cbn [print_chars]. rewrite H1. by apply IH.
Qed.

(** ** Clearing *)

Definition blank : Z := make_color_char 32 black black.

Lemma clear_row_spec n : forall p rest x y,
  y * SCREEN_WIDTH + x = Z.of_nat p -> (n <= length rest)%nat ->
  clear_row n (replicate p blank ++ rest) x y = Ok (replicate (p + n) blank ++ drop n rest).
Proof.
  induction n as [|n IH]; intros p rest x y Hp Hn; cbn [clear_row].
  { by rewrite drop_0, Nat.add_0_r. }
  destruct rest as [|r rest]; [simpl in Hn; lia|].
  unfold write_color_char_at, aset. cbn [cx cy]. rewrite Hp.
  replace (Z.of_nat p) with (zlen (replicate p blank)) by (unfold zlen; rewrite length_replicate; lia).
  replace (_ && _) with true by (symmetry; apply andb_true_iff; rewrite Z.leb_le, Z.ltb_lt; unfold zlen; rewrite length_app; simpl; lia).
  rewrite zset_middle. cbn [mbind outcome_bind]. fold blank.
  replace (replicate p blank ++ blank :: rest) with (replicate (S p) blank ++ rest).
  2: { by rewrite replicate_S_end, <- app_assoc. }
  rewrite IH; [|lia|simpl in Hn; lia]. by rewrite <- plus_n_Sm.
Qed.

Lemma clear_rows_spec n : forall y rest,
  (80 * n <= length rest)%nat ->
  clear_rows n (replicate (80 * y) blank ++ rest) (Z.of_nat y) = Ok (replicate (80 * (y + n)) blank ++ drop (80 * n) rest).
Proof.
  induction n as [|n IH]; intros y rest Hn; cbn [clear_rows].
  { by rewrite Nat.add_0_r, Nat.mul_0_r, drop_0. }
  rewrite clear_row_spec by (unfold SCREEN_WIDTH; lia). cbn [mbind outcome_bind].
  replace (80 * y + Z.to_nat SCREEN_WIDTH)%nat with (80 * S y)%nat by (unfold SCREEN_WIDTH; lia).
  replace (Z.of_nat y + 1) with (Z.of_nat (S y)) by lia.
  change (Z.to_nat SCREEN_WIDTH) with 80%nat. rewrite IH by (rewrite length_drop; lia). rewrite drop_drop.
  f_equal. f_equal; f_equal; lia.
Qed.

Lemma clear_Ok s : zlen (buffer s) = CELLS -> clear s = Ok (Screen (replicate 2000 blank) (Cursor 0 0)).
Proof.
  intros Hb. unfold clear. pose proof (clear_rows_spec 25 0 (buffer s)) as Hc.
  change (replicate (80 * 0) blank ++ buffer s) with (buffer s) in Hc. change (Z.of_nat 0) with 0 in Hc.
  change (Z.to_nat SCREEN_HEIGHT) with 25%nat. rewrite Hc.
  - cbn [mbind outcome_bind]. change (80 * (0 + 25))%nat with 2000%nat.
    rewrite drop_ge, app_nil_r; [done|]. unfold zlen, CELLS, SCREEN_WIDTH, SCREEN_HEIGHT in Hb. lia.
  - unfold zlen, CELLS, SCREEN_WIDTH, SCREEN_HEIGHT in Hb. lia.
Qed.

(** ** Histories *)

Inductive screen_op := Print (t : list Z) | Puts (t : list Z) | PutChar (c : Z) | Newline | Clear.

Definition step (o : screen_op) (s : screen) : outcome screen :=
  match o with
  | Print t => print s t
  | Puts t => puts s t
  | PutChar c => put_char s c
  | Newline => Ok (advance_cursor_to_newline s)
  | Clear => clear s
  end.

Fixpoint steps (ops : list screen_op) (s : screen) : outcome screen :=
  match ops with
  | [] => Ok s
  | o :: ops' => s' ← step o s; steps ops' s'
  end.

Lemma write_text_wf s t : wf s -> exists s', write_impl (vstring_of t) s = Ok s' /\ wf s'.
Proof. intros Hw. by apply print_chars_wf. Qed.

Lemma step_wf o s : wf s -> exists s', step o s = Ok s' /\ wf s'.
Proof.
  intros Hw. destruct o as [t|t|c| |]; cbn [step].
  - by apply write_text_wf.
  - unfold puts. destruct (write_text_wf s t Hw) as (s1 & -> & Hw1). eexists. split; [done|]. by apply newline_wf.
  - by apply print_char_wf.
  - eexists. split; [done|]. by apply newline_wf.
  - rewrite clear_Ok by apply Hw. eexists. split; [done|]. by split.
Qed.

(** [C26] Whatever is printed, every write lands on the 80 * 25 cells of the screen:
    from a cursor on the screen any sequence of [print], [puts], [print_char],
    newlines and [clear] runs to its end, and the cursor stays in rows 0 to 23
    and columns 0 to 80. *)
Theorem screen_writes_in_bounds ops s : wf s -> exists s', steps ops s = Ok s' /\ wf s'.
Proof.
  revert s. induction ops as [|o ops IH]; intros s Hw; [by exists s|].
  destruct (step_wf o s Hw) as (s1 & H1 & Hw1). cbn [steps]. rewrite H1. by apply IH.
Qed.

Theorem screen_writes_in_bounds_witness :
  exists s', steps [Clear; Puts [104; 105]; PutChar 8] (Screen (replicate 2000 0) (Cursor 0 0)) = Ok s' /\ wf s'.
Proof. apply screen_writes_in_bounds. split; vm_compute; done. Defined.

(** ** Where a text goes *)

Definition printable (c : Z) : Prop := c <> 10 /\ c <> 8.

Lemma print_char_printable s c fg bg :
  wf s -> printable c ->
  print_char s c fg bg = Ok (advance_one (Screen
    (zset (buffer s) (cy (position s) * SCREEN_WIDTH + cx (position s)) (make_color_char c fg bg)) (position s))).
Proof.
  intros [Hb Hx Hy] [H10 H8]. unfold print_char. destruct (c =? 10) eqn:?; bool_to_prop; [done|].
  destruct (c =? 8) eqn:?; bool_to_prop; [done|]. by rewrite write_Ok.
Qed.

(** A text without newlines and backspaces that fits in its row appears there:
    its cells hold the characters in their colours, every other cell is as before
    and the cursor stands behind it. *)
Theorem print_text_correct t s fg bg :
  wf s -> Forall printable t -> cx (position s) + zlen t <= SCREEN_WIDTH ->
  exists s', print_chars s t fg bg = Ok s' /\
    position s' = Cursor (cx (position s) + zlen t) (cy (position s)) /\
    forall i, zget (buffer s') i =
      let k := i - (cy (position s) * SCREEN_WIDTH + cx (position s)) in
      if (0 <=? k) && (k <? zlen t) then (fun c => make_color_char c fg bg) <$> zget t k else zget (buffer s) i.
Proof.
  revert s. induction t as [|c t IH]; intros s Hw Hp Hl.
  { exists s. split; [done|]. split; [destruct s as [? []]; cbn; by rewrite Z.add_0_r|]. intros i. cbn.
    change (zlen []) with 0. case_if; [lia|done]. }
  apply Forall_cons in Hp as [Hc Hp]. rewrite zlen_cons in *. pose proof (zlen_nonneg t).
  set (p := cy (position s) * SCREEN_WIDTH + cx (position s)).
  assert (advance_one (Screen (zset (buffer s) p (make_color_char c fg bg)) (position s)) =
    Screen (zset (buffer s) p (make_color_char c fg bg)) (Cursor (cx (position s) + 1) (cy (position s)))) as Ha.
  { unfold advance_one. cbn [position]. by replace (_ <? _) with true by lia. }
  pose proof Hw as [Hb Hx Hy].
  destruct (IH (Screen (zset (buffer s) p (make_color_char c fg bg)) (Cursor (cx (position s) + 1) (cy (position s)))))
    as (s' & He & Hpos & Hget); [split; cbn [buffer position cx cy]; rewrite ?zlen_zset; lia || done|done|cbn; lia|].
  cbn [print_chars]. rewrite print_char_printable by done. fold p. rewrite Ha. exists s'. split; [exact He|].
  cbn [position cx cy buffer] in *. split; [rewrite Hpos; f_equal; lia|]. intros i. rewrite Hget. clear Hget He IH Ha.
  fold p. cbn zeta. replace (i - (cy (position s) * SCREEN_WIDTH + (cx (position s) + 1))) with (i - p - 1) by (unfold p; lia).
  destruct (Z.eq_dec i p) as [->|Hne].
  - rewrite Z.sub_diag. cbn. rewrite zget_zset_eq; [by replace (0 <? 1 + zlen t) with true by lia|].
    rewrite Hb. unfold p, CELLS, SCREEN_WIDTH, SCREEN_HEIGHT in *. lia.
  - rewrite zget_zset_ne by done. destruct ((0 <=? i - p - 1) && (i - p - 1 <? zlen t)) eqn:E1, ((0 <=? i - p) && (i - p <? 1 + zlen t)) eqn:E2;
      try (exfalso; lia); [|done]. bool_to_prop. unfold zget. repeat case_if; try lia.
    by replace (Z.to_nat (i - p)) with (S (Z.to_nat (i - p - 1))) by lia.
Qed.

(** "Hi" in the middle of row 3. *)
Theorem print_text_correct_witness :
  let s := Screen (replicate 2000 0x20) (Cursor 40 3) in
  exists s', print_chars s [72; 105] white black = Ok s' /\ position s' = Cursor 42 3 /\
    forall i, zget (buffer s') i =
      let k := i - (3 * SCREEN_WIDTH + 40) in
      if (0 <=? k) && (k <? 2) then (fun c => make_color_char c white black) <$> zget [72; 105] k
      else zget (replicate 2000 0x20) i.
Proof.
  apply (print_text_correct [72; 105] (Screen (replicate 2000 0x20) (Cursor 40 3)) white black).
  - split; vm_compute; done.
  - repeat constructor; lia.
  - vm_compute. done.
Defined.

(** Column 80 is the first cell of the next row: the character printed there is
    overwritten by the next one, so a line loses its 81st character. *)
Theorem column_80_lost s c d fg bg :
  wf s -> cx (position s) = SCREEN_WIDTH -> cy (position s) + 2 < SCREEN_HEIGHT -> printable c -> printable d ->
  print_chars s [c; d] fg bg = print_chars (Screen (buffer s) (Cursor 0 (cy (position s) + 1))) [d] fg bg.
Proof.
  intros Hw Hx Hy Hc Hd. pose proof Hw as [Hb _ Hy'].
  cbn [print_chars]. rewrite print_char_printable by done. cbn [mbind outcome_bind].
  unfold advance_one at 1. cbn [position]. replace (_ <? _) with false by lia. unfold advance_one_y. cbn [position cy cx buffer].
  destruct (_ =? _) eqn:E; bool_to_prop; [unfold SCREEN_HEIGHT in *; lia|].
  assert (forall b, zlen b = CELLS -> wf (Screen b (Cursor 0 (cy (position s) + 1)))) as Hw'.
  { intros b Hl. split; cbn [buffer position cx cy]; [done| |]; unfold SCREEN_WIDTH, SCREEN_HEIGHT in *; lia. }
  rewrite !print_char_printable by (try done; apply Hw'; by rewrite ?zlen_zset).
  cbn [buffer position cx cy mbind outcome_bind]. rewrite Hx. do 3 f_equal. unfold zset.
  replace ((cy (position s) + 1) * SCREEN_WIDTH + 0) with (cy (position s) * SCREEN_WIDTH + SCREEN_WIDTH) by lia.
  case_if; [done|]. by rewrite list_insert_insert_eq.
Qed.
