(* ===== verification/Io.v ===== *)
(** * kernel/util/io.h: port input and output

    A driver is a program over a machine state [D] that the class [Ports] gives
    the two instructions [in] and [out] on; a loop that spins on a port carries
    fuel and diverges when it is used up. *)
From S2P Require Import Prelude.

Class Ports (D : Type) := {
  port_in : Z -> D -> Z * D;
  port_out : Z -> Z -> D -> D
}.

(** State passing with faults. *)
Definition io (D A : Type) : Type := D -> outcome (A * D).

#[export] Instance io_ret {D} : MRet (io D) := fun A a d => Ok (a, d).
#[export] Instance io_bind {D} : MBind (io D) := fun A B f m d =>
  match m d with Ok (a, d') => f a d' | Fail e => Fail e end.

Definition io_lift {D A} (m : outcome A) : io D A := fun d =>
  match m with Ok a => Ok (a, d) | Fail e => Fail e end.
Definition io_assert {D} (c : bool) (msg : string) : io D unit := io_lift (assert_ c msg).

Section ops.
Context {D : Type} `{Ports D}.

Definition inb (port : Z) : io D Z := fun d => let '(v, d') := port_in port d in Ok (u8 v, d').
Definition outb (port val : Z) : io D unit := fun d => Ok (tt, port_out port (u8 val) d).

(** [io::wait] *)
Definition wait : io D unit := outb 0x80 0.
End ops.

(** The instruction that writes a 16-bit word. *)
Class WidePorts (D : Type) := { port_out_word : Z -> Z -> D -> D }.

Definition outw {D} `{WidePorts D} (port val : Z) : io D unit := fun d => Ok (tt, port_out_word port (u16 val) d).

Lemma io_bind_Ok {D A B} (m : io D A) (f : A -> io D B) d r :
  (m ≫= f) d = Ok r <-> exists a d', m d = Ok (a, d') /\ f a d' = Ok r.
Proof. unfold mbind, io_bind. destruct (m d) as [[a d']|e]; naive_solver. Qed.

(** One step of a program whose first action is known. *)
Lemma io_bind_step {D A B} (m : io D A) (f : A -> io D B) d a d' :
  m d = Ok (a, d') -> (m ≫= f) d = f a d'.
Proof. unfold mbind, io_bind. by intros ->. Qed.
Lemma io_bind_fail {D A B} (m : io D A) (f : A -> io D B) d e : m d = Fail e -> (m ≫= f) d = Fail e.
Proof. intros E. unfold mbind, io_bind. by rewrite E. Qed.

(** A pure step, a return, and the order of binds. *)
Lemma lift_Ok {D A B} (x : A) (f : A -> io D B) d : (io_lift (Ok x) ≫= f) d = f x d.
Proof. done. Qed.
Lemma lift_Fail {D A B} e (f : A -> io D B) d : (io_lift (Fail e) ≫= f) d = Fail e.
Proof. done. Qed.
Lemma ret_bind {D A B} (x : A) (f : A -> io D B) d : (mret x ≫= f) d = f x d.
Proof. done. Qed.
Lemma bind_assoc {D A B C} (m : io D A) (f : A -> io D B) (g : B -> io D C) d :
  ((m ≫= f) ≫= g) d = (m ≫= (fun a => f a ≫= g)) d.
Proof. unfold mbind, io_bind. by destruct (m d) as [[]|]. Qed.
