(* ===== verification/TypedPorts.v ===== *)
(** * kernel/util/io.h: typed ports

    The type of a port says which accesses there are overloads for; each is the
    access to its number. *)
From S2P Require Import Prelude Io.

Inductive mode := read | write | readwrite.
Record port (pty : mode) := Port { val : Z }.
Arguments Port {pty}.
Arguments val {pty}.

Class Readable (pty : mode) : Prop := readable : pty = read \/ pty = readwrite.
Class Writable (pty : mode) : Prop := writable : pty = write \/ pty = readwrite.
#[export] Instance read_readable : Readable read.
Proof. by left. Qed.
#[export] Instance readwrite_readable : Readable readwrite.
Proof. by right. Qed.
#[export] Instance write_writable : Writable write.
Proof. by left. Qed.
#[export] Instance readwrite_writable : Writable readwrite.
Proof. by right. Qed.

Definition outb {D} `{Ports D} {pty} `{!Writable pty} (p : port pty) (v : Z) : io D unit := Io.outb (val p) v.
Definition outw {D} `{WidePorts D} {pty} `{!Writable pty} (p : port pty) (v : Z) : io D unit := Io.outw (val p) v.
Definition inb {D} `{Ports D} {pty} `{!Readable pty} (p : port pty) : io D Z := Io.inb (val p).

(** There is no way to write to a port that is only read, nor to read one that is
    only written. *)
Lemma modes_exclusive : ~ Writable read /\ ~ Readable write.
Proof. split; intros [|]; done. Qed.
