(* ===== verification/Pic.v ===== *)
(** * kernel/pic.cpp: the two interrupt controllers

    The 8259A chips are not part of the program: the class [Pic8259] states how
    they take a byte (an initialisation of four words through the command and
    data ports, the mask through the data port when no initialisation is under
    way) and the theorems hold for every machine with that behaviour. *)
From S2P Require Import Prelude Io.

#[local] Arguments wrap : simpl never.

Inductive irq :=
| PIT | KEYBOARD | CASCADE | COM2 | COM1 | LPT2 | FLOPPY | LPT1
| CMOS_RTC | PERIPHERAL_1 | PERIPHERAL_2 | PERIPHERAL_3 | PS2_MOUSE | FPU | PRIMARY_ATA | SECONDARY_ATA.

Definition irq_val (i : irq) : Z :=
  match i with
  | PIT => 0 | KEYBOARD => 1 | CASCADE => 2 | COM2 => 3 | COM1 => 4 | LPT2 => 5 | FLOPPY => 6 | LPT1 => 7
  | CMOS_RTC => 8 | PERIPHERAL_1 => 9 | PERIPHERAL_2 => 10 | PERIPHERAL_3 => 11 | PS2_MOUSE => 12
  | FPU => 13 | PRIMARY_ATA => 14 | SECONDARY_ATA => 15
  end.

Definition PIC1_COMMAND : Z := 0x20.
Definition PIC2_COMMAND : Z := 0xA0.
Definition PIC1_DATA : Z := 0x21.
Definition PIC2_DATA : Z := 0xA1.
Definition END_OF_INTERRUPT : Z := 0x20.
Definition ICW1_ICW4 : Z := 1.
Definition ICW1_INIT : Z := 16.
Definition ICW4_8086 : Z := 1.

Section pic.
Context {D : Type} `{Ports D}.

Definition irq_port (code : irq) : Z := if irq_val code <? 8 then PIC1_DATA else PIC2_DATA.
Definition irq_bit (code : irq) : Z :=
  if irq_val code <? 8 then Z.shiftl 1 (irq_val code) else Z.shiftl 1 (irq_val code - 8).

Definition mask_irq (code : irq) : io D unit :=
  v ← inb (irq_port code);
  outb (irq_port code) (Z.lor v (irq_bit code)).

Definition unmask_irq (code : irq) : io D unit :=
  v ← inb (irq_port code);
  outb (irq_port code) (Z.land v (Z.lnot (irq_bit code))).

Definition irq_is_masked (code : irq) : io D bool :=
  v ← inb (irq_port code);
  mret (negb (Z.land v (irq_bit code) =? 0)).

Definition signal_end_of_interrupt (code : irq) : io D unit :=
  let is_slave_irq := 8 <=? irq_val code in
  _ ← outb PIC1_COMMAND END_OF_INTERRUPT;
  if is_slave_irq then outb PIC2_COMMAND END_OF_INTERRUPT else mret tt.

Definition remap_interrupts : io D unit :=
  pic1_value ← inb PIC1_DATA;
  pic2_value ← inb PIC2_DATA;
  let ICW1 := Z.lor ICW1_INIT ICW1_ICW4 in
  _ ← outb PIC1_COMMAND ICW1; _ ← wait;
  _ ← outb PIC2_COMMAND ICW1; _ ← wait;
  _ ← outb PIC1_DATA 0x20; _ ← wait;
  _ ← outb PIC2_DATA 0x28; _ ← wait;
  _ ← outb PIC1_DATA (Z.shiftl 1 2); _ ← wait;
  _ ← outb PIC2_DATA (Z.shiftl 1 1); _ ← wait;
  _ ← outb PIC1_DATA ICW4_8086; _ ← wait;
  _ ← outb PIC2_DATA ICW4_8086; _ ← wait;
  _ ← outb PIC1_DATA pic1_value;
  _ ← outb PIC2_DATA pic2_value;
  unmask_irq CASCADE.
End pic.

(** ** What the chips do *)

(** A chip: its mask register, its vector base, and which initialisation word it
    waits for (0 when none). *)
Record chip := Chip { imr : Z; base : Z; icw : Z }.

(** An initialisation of four words through the command port clears the mask; the
    data port takes words 2 to 4 in turn, then the mask. *)
Definition chip_command (c : chip) (v : Z) : chip := if Z.testbit v 4 then Chip 0 (base c) 2 else c.
Definition chip_data (c : chip) (v : Z) : chip :=
  if icw c =? 0 then Chip v (base c) 0
  else if icw c =? 2 then Chip (imr c) v 3
  else if icw c =? 3 then Chip (imr c) (base c) 4
  else Chip (imr c) (base c) 0.

Class Pic8259 (D : Type) `{Ports D} := {
  master : D -> chip;
  slave : D -> chip;
  read_master d : exists d', port_in PIC1_DATA d = (imr (master d), d') /\ master d' = master d /\ slave d' = slave d;
  read_slave d : exists d', port_in PIC2_DATA d = (imr (slave d), d') /\ master d' = master d /\ slave d' = slave d;
  out_master p v d : master (port_out p v d) =
    if p =? PIC1_COMMAND then chip_command (master d) v
    else if p =? PIC1_DATA then chip_data (master d) v else master d;
  out_slave p v d : slave (port_out p v d) =
    if p =? PIC2_COMMAND then chip_command (slave d) v
    else if p =? PIC2_DATA then chip_data (slave d) v else slave d
}.

(** The mask register and the chip an interrupt belongs to. *)
Definition chip_of {D} `{Pic8259 D} (code : irq) (d : D) : chip := if irq_val code <? 8 then master d else slave d.
Definition other_chip {D} `{Pic8259 D} (code : irq) (d : D) : chip := if irq_val code <? 8 then slave d else master d.
Definition line (code : irq) : Z := if irq_val code <? 8 then irq_val code else irq_val code - 8.

Section laws.
Context {D : Type} `{Hp : Ports D} `{!Pic8259 D}.

Definition idle (d : D) : Prop :=
  icw (master d) = 0 /\ icw (slave d) = 0 /\ 0 <= imr (master d) < 256 /\ 0 <= imr (slave d) < 256.

Lemma line_range code : 0 <= line code < 8.
Proof. destruct code; cbn; lia. Qed.

Lemma irq_bit_line code : irq_bit code = 2 ^ line code.
Proof. by destruct code. Qed.

(** A read-modify-write of the mask register of an interrupt's chip. *)
Lemma update_mask code (f : Z -> Z) (d : D) :
  idle d -> (forall v, 0 <= v < 256 -> 0 <= u8 (f v) < 256) ->
  exists d', (v ← inb (irq_port code); outb (irq_port code) (f v)) d = Ok (tt, d') /\ idle d' /\
    chip_of code d' = Chip (u8 (f (imr (chip_of code d)))) (base (chip_of code d)) 0 /\
    other_chip code d' = other_chip code d.
Proof.
  intros (Hm & Hs & Hrm & Hrs) Hf. unfold irq_port, chip_of, other_chip, idle. destruct (irq_val code <? 8).
  - destruct (read_master d) as (d1 & Hr & H1 & H2). eexists. unfold mbind, io_bind, inb. rewrite Hr.
    rewrite (wrap_small 8) by lia. split; [done|]. rewrite out_master, out_slave, H1, H2. cbn [Z.eqb PIC1_DATA PIC1_COMMAND PIC2_DATA PIC2_COMMAND].
    change (PIC1_DATA =? PIC1_COMMAND) with false. change (PIC1_DATA =? PIC1_DATA) with true.
    change (PIC1_DATA =? PIC2_COMMAND) with false. change (PIC1_DATA =? PIC2_DATA) with false. cbv iota.
    unfold chip_data. rewrite Hm. cbn. repeat split; try done; try lia; by apply Hf.
  - destruct (read_slave d) as (d1 & Hr & H1 & H2). eexists. unfold mbind, io_bind, inb. rewrite Hr.
    rewrite (wrap_small 8) by lia. split; [done|]. rewrite out_master, out_slave, H1, H2.
    change (PIC2_DATA =? PIC2_COMMAND) with false. change (PIC2_DATA =? PIC2_DATA) with true.
    change (PIC2_DATA =? PIC1_COMMAND) with false. change (PIC2_DATA =? PIC1_DATA) with false. cbv iota.
    unfold chip_data. rewrite Hs. cbn. repeat split; try done; try lia; by apply Hf.
Qed.

(** The vector the processor gets for an interrupt. *)
Definition vector_of (code : irq) (d : D) : Z := base (chip_of code d) + line code.

(** The line of an interrupt is masked. *)
Definition masked (code : irq) (d : D) : bool := Z.testbit (imr (chip_of code d)) (line code).

Lemma same_chip (c c' : irq) (d : D) :
  (irq_val c <? 8) = (irq_val c' <? 8) -> chip_of c' d = chip_of c d.
Proof. unfold chip_of. by intros ->. Qed.

Lemma different_chip (c c' : irq) (d : D) :
  (irq_val c <? 8) <> (irq_val c' <? 8) -> chip_of c' d = other_chip c d.
Proof. unfold chip_of, other_chip. destruct (irq_val c <? 8), (irq_val c' <? 8); congruence. Qed.

Lemma irq_line_inj c c' : (irq_val c <? 8) = (irq_val c' <? 8) -> line c = line c' -> irq_val c = irq_val c'.
Proof. unfold line. repeat case_if; lia. Qed.

Lemma masked_after c c' b (d d' : D) :
  (forall i, 0 <= i < 8 -> Z.testbit (imr (chip_of c d')) i = if i =? line c then b else Z.testbit (imr (chip_of c d)) i) ->
  other_chip c d' = other_chip c d ->
  masked c' d' = if irq_val c' =? irq_val c then b else masked c' d.
Proof.
  intros Hb Ho. unfold masked. pose proof (line_range c').
  destruct (Bool.bool_dec (irq_val c <? 8) (irq_val c' <? 8)) as [He|Hne].
  - rewrite !(same_chip c c') by done. rewrite Hb by done. repeat case_if; try done; exfalso.
    + pose proof (irq_line_inj c c' He ltac:(done)). lia.
    + match goal with H : line _ <> line _ |- _ => apply H end. unfold line. rewrite <- He.
      match goal with H : irq_val _ = irq_val _ |- _ => by rewrite H end.
  - rewrite !(different_chip c c'), Ho by done. case_if; [congruence|done].
Qed.

Lemma irq_is_masked_spec c (d : D) : idle d ->
  exists d', irq_is_masked c d = Ok (masked c d, d') /\ master d' = master d /\ slave d' = slave d.
Proof.
  intros (_ & _ & Hrm & Hrs). unfold irq_is_masked, irq_port, masked, chip_of.
  pose proof (line_range c). rewrite irq_bit_line.
  destruct (irq_val c <? 8).
  - destruct (read_master d) as (d1 & Hr & H1 & H2). exists d1. unfold mbind, io_bind, inb, mret, io_ret. rewrite Hr.
    rewrite (wrap_small 8), land_pow2 by lia. split; [|done]. f_equal. f_equal.
    destruct (Z.testbit _ _); [|done]. by replace (2 ^ line c =? 0) with false by lia.
  - destruct (read_slave d) as (d1 & Hr & H1 & H2). exists d1. unfold mbind, io_bind, inb, mret, io_ret. rewrite Hr.
    rewrite (wrap_small 8), land_pow2 by lia. split; [|done]. f_equal. f_equal.
    destruct (Z.testbit _ _); [|done]. by replace (2 ^ line c =? 0) with false by lia.
Qed.
End laws.

(** A machine that is only the two chips. *)
Record two_chips := TwoChips { tc_master : chip; tc_slave : chip }.

#[export] Instance two_chips_ports : Ports two_chips := {
  port_in p d := (if p =? PIC1_DATA then imr (tc_master d) else if p =? PIC2_DATA then imr (tc_slave d) else 0, d);
  port_out p v d := TwoChips
    (if p =? PIC1_COMMAND then chip_command (tc_master d) v
     else if p =? PIC1_DATA then chip_data (tc_master d) v else tc_master d)
    (if p =? PIC2_COMMAND then chip_command (tc_slave d) v
     else if p =? PIC2_DATA then chip_data (tc_slave d) v else tc_slave d)
}.

#[export] Instance two_chips_pic : Pic8259 two_chips.
Proof. by refine {| master := tc_master; slave := tc_slave |}; intros; try eexists. Defined.

(** Unmasking opens one line and changes nothing else. *)
Lemma unmask_irq_spec {D} `{Pic8259 D} (code : irq) (d : D) (Hd : idle d) :
  exists d', unmask_irq code d = Ok (tt, d') /\ idle d' /\ base (master d') = base (master d) /\ base (slave d') = base (slave d) /\
    forall c, masked c d' = if irq_val c =? irq_val code then false else masked c d.
Proof.
  destruct (update_mask code (fun v => Z.land v (Z.lnot (irq_bit code))) d Hd) as (d1 & He & Hi & Hc & Ho).
  { intros. apply wrap_range. lia. }
  exists d1. split; [exact He|]. split; [done|].
  split; [unfold chip_of, other_chip in *; destruct (irq_val code <? 8); by rewrite ?Hc, ?Ho|].
  split; [unfold chip_of, other_chip in *; destruct (irq_val code <? 8); by rewrite ?Hc, ?Ho|].
  intros c. pose proof (line_range code). apply masked_after; [|done]. intros i Hr.
  rewrite Hc. cbn [imr]. rewrite irq_bit_line, wrap_testbit, Z.land_spec, Z.lnot_spec, pow2_testbit by lia.
  replace (i <? 8) with true by lia. destruct (i =? line code); btauto.
Qed.

(** Masking and unmasking touch one line only: afterwards [irq_is_masked]
    reports the new state for that interrupt and the old one for the other
    fifteen, on both chips. *)
Theorem mask_irq_exact {D} `{Pic8259 D} (b : bool) (c c' : irq) (d : D) (Hd : idle d) :
  exists d1 d2, (if b then mask_irq c else unmask_irq c) d = Ok (tt, d1) /\ idle d1 /\
    irq_is_masked c' d1 = Ok (if irq_val c' =? irq_val c then b else masked c' d, d2).
Proof.
  pose proof (line_range c) as Hl.
  assert (exists d1, (if b then mask_irq c else unmask_irq c) d = Ok (tt, d1) /\ idle d1 /\
    masked c' d1 = if irq_val c' =? irq_val c then b else masked c' d) as (d1 & He & Hi & Hm).
  { destruct b.
    - destruct (update_mask c (fun v => Z.lor v (irq_bit c)) d Hd) as (d1 & He & Hi & Hc & Ho).
      { intros. apply wrap_range. lia. }
      exists d1. split; [exact He|]. split; [done|]. apply masked_after; [|done]. intros i Hr.
      rewrite Hc. cbn [imr]. rewrite irq_bit_line, wrap_testbit, Z.lor_spec, pow2_testbit by lia.
      replace (i <? 8) with true by lia. destruct (i =? line c); btauto.
    - destruct (unmask_irq_spec c d Hd) as (d1 & He & Hi & _ & _ & Hm). by exists d1. }
  destruct (irq_is_masked_spec c' d1 Hi) as (d2 & H2 & _). exists d1, d2. rewrite <- Hm. done.
Qed.

Definition boot_chips : two_chips := TwoChips (Chip 0xB8 0x08 0) (Chip 0x8E 0x70 0).

Theorem mask_irq_exact_witness : exists d1 d2, unmask_irq FLOPPY boot_chips = Ok (tt, d1) /\ idle d1 /\
  irq_is_masked KEYBOARD d1 = Ok (masked KEYBOARD boot_chips, d2).
Proof. apply (mask_irq_exact false FLOPPY KEYBOARD boot_chips). by repeat split. Defined.

(** Follows a chip through a sequence of port writes, deciding each port. *)
Ltac out_chips :=
  repeat (first [rewrite out_master | rewrite out_slave];
    repeat match goal with
    | |- context [if ?p =? ?q then _ else _] =>
        let v := eval vm_compute in (p =? q) in change (p =? q) with v; cbv iota
    end).

(** The chips after [remap_interrupts]. *)
Lemma remap_interrupts_spec {D} `{Pic8259 D} (d : D) (Hd : idle d) :
  exists d', remap_interrupts d = Ok (tt, d') /\ idle d' /\
    base (master d') = 0x20 /\ base (slave d') = 0x28 /\
    forall c, masked c d' = if irq_val c =? irq_val CASCADE then false else masked c d.
Proof.
  pose proof Hd as (Hm & Hs & Hrm & Hrs).
  destruct (read_master d) as (d1 & Hr1 & Hm1 & Hs1). destruct (read_slave d1) as (d2 & Hr2 & Hm2 & Hs2).
  unfold remap_interrupts. rewrite (io_bind_step _ _ _ (imr (master d)) d1) by (unfold inb; rewrite Hr1, wrap_small by lia; done).
  rewrite (io_bind_step _ _ _ (imr (slave d)) d2) by (unfold inb; rewrite Hr2, Hs1, wrap_small by lia; done).
  cbv zeta. unfold wait. repeat (rewrite (io_bind_step (outb _ _) _ _ tt _ eq_refl)).
  match goal with |- context [unmask_irq CASCADE ?x] => set (d3 := x) end.
  assert (master d3 = Chip (imr (master d)) 0x20 0 /\ slave d3 = Chip (imr (slave d)) 0x28 0) as [Hm3 Hs3].
  { unfold d3. clear d3. rewrite !(wrap_small 8 (imr _)) by lia. out_chips. rewrite Hm2, Hm1, Hs2, Hs1.
    destruct (master d), (slave d). cbn in Hm, Hs. subst. by vm_compute. }
  assert (idle d3) as Hi3 by (unfold idle; rewrite Hm3, Hs3; done).
  destruct (update_mask CASCADE (fun v => Z.land v (Z.lnot (irq_bit CASCADE))) d3 Hi3) as (d4 & He & Hi & Hc & Ho).
  { intros. apply wrap_range. lia. }
  exists d4. split; [exact He|]. split; [done|]. unfold chip_of, other_chip in Hc, Ho.
  change (irq_val CASCADE <? 8) with true in Hc, Ho. cbv iota beta in Hc, Ho. rewrite irq_bit_line in Hc.
  rewrite Hc, Ho, Hm3, Hs3. split; [done|]. split; [done|]. intros c.
  replace (masked c d) with (masked c d3) by (unfold masked, chip_of; rewrite Hm3, Hs3; by destruct (irq_val c <? 8)).
  apply masked_after; [|exact Ho]. intros i Hr. unfold chip_of. cbn [irq_val]. change (2 <? 8) with true. cbv iota. rewrite Hc. cbn [imr].
  change (line CASCADE) with 2. rewrite wrap_testbit, Z.land_spec, Z.lnot_spec by lia.
  rewrite pow2_testbit by lia. replace (i <? 8) with true by lia. destruct (i =? 2); btauto.
Qed.

(** [remap_interrupts] moves interrupt line n to vector 0x20 + n, away from the
    processor's exceptions: both chips are initialised, keep the masks they had
    except for the cascade line, which is open, and wait for no further word. *)
Theorem remap_interrupts_correct {D} `{Pic8259 D} (d : D) (Hd : idle d) :
  exists d', remap_interrupts d = Ok (tt, d') /\ idle d' /\
    base (master d') = 0x20 /\ base (slave d') = 0x28 /\
    forall c, masked c d' = if irq_val c =? irq_val CASCADE then false else masked c d.
Proof. by apply remap_interrupts_spec. Qed.

Theorem remap_interrupts_correct_witness : exists d', remap_interrupts boot_chips = Ok (tt, d') /\ idle d' /\
  base (master d') = 0x20 /\ base (slave d') = 0x28 /\
  forall c, masked c d' = if irq_val c =? irq_val CASCADE then false else masked c boot_chips.
Proof. apply (remap_interrupts_correct boot_chips). by repeat split. Defined.
