(* ===== verification/LowMemory.v ===== *)
(** * kernel/low_memory_allocator.cpp: the bump allocator below 1 MiB

    [avail_low_mem_start] and [avail_low_mem_end] are the state; a block is
    zeroed with the [memset] of [CString.v] in the byte-addressed memory [m]. *)
From S2P Require Import Prelude Util CString.

#[local] Arguments wrap : simpl never.

Record low_memory := LowMemory {
  avail_low_mem_start : Z;
  avail_low_mem_end : Z
}.

Definition init (low_mem_start low_mem_end : Z) : outcome low_memory :=
  _ ← assert_ (low_mem_start <? low_mem_end) "avail_low_mem_start < avail_low_mem_end";
  Ok (LowMemory low_mem_start low_mem_end).

Definition allocate (s : low_memory) (m : gmap Z Z) (size align : Z) : outcome (Z * low_memory * gmap Z Z) :=
  aligned_start ← align_to (avail_low_mem_start s) align;
  if u64 (avail_low_mem_end s - size) <=? aligned_start then Fail (Panic "Ran out of low memory!")
  else
    m' ← memset m aligned_start 0 size;
    Ok (aligned_start, LowMemory (u64 (aligned_start + size)) (avail_low_mem_end s), m').

(** ** The region *)

Record wf (s : low_memory) : Prop := {
  wf_start : 0 <= avail_low_mem_start s <= avail_low_mem_end s;
  wf_end : avail_low_mem_end s < 2 ^ 32
}.

(** A request that is not larger than the region's end address. *)
Lemma allocate_Ok s m size align :
  wf s -> 0 < size <= avail_low_mem_end s -> 0 < align < 2 ^ 32 ->
  mapped m 0 (avail_low_mem_end s + 7) ->
  let a := (avail_low_mem_start s + align - 1) / align * align in
  if a + size <? avail_low_mem_end s then
    exists m', allocate s m size align = Ok (a, LowMemory (a + size) (avail_low_mem_end s), m') /\
      filled m a (a + memset_extent size) 0 m'
  else allocate s m size align = Fail (Panic "Ran out of low memory!").
Proof.
  intros [Hs He] Hsz Ha Hm a. unfold allocate, align_to.
  pose proof (Z.div_mod (avail_low_mem_start s + align - 1) align ltac:(lia)).
  pose proof (Z.mod_pos_bound (avail_low_mem_start s + align - 1) align ltac:(lia)).
  assert (avail_low_mem_start s <= a < avail_low_mem_start s + align) by (unfold a; nia).
  replace (align =? 0) with false by lia. rewrite (wrap_small 64 (avail_low_mem_start s + align - 1)) by lia.
  fold a. rewrite (wrap_small 64 a) by lia. cbn [mbind outcome_bind]. rewrite (wrap_small 64 (_ - size)) by lia.
  destruct (a + size <? avail_low_mem_end s) eqn:E; bool_to_prop.
  - replace (avail_low_mem_end s - size <=? a) with false by lia.
    assert (memset_extent size <= size + 7) by (unfold memset_extent; case_if; zdiv).
    destruct (memset_spec m a 0 size ltac:(lia)) as (m' & -> & Hf).
    { apply (mapped_sub m 0 (avail_low_mem_end s + 7)); [done|lia|lia]. }
    exists m'. rewrite wrap_small by lia. done.
  - by replace (avail_low_mem_end s - size <=? a) with true by lia.
Qed.

(** A history of requests (size, alignment) and the blocks it hands out. *)
Fixpoint requests (l : list (Z * Z)) (s : low_memory) (m : gmap Z Z)
    : outcome (list (Z * Z) * low_memory * gmap Z Z) :=
  match l with
  | [] => Ok ([], s, m)
  | (size, align) :: l' =>
      '(a, s1, m1) ← allocate s m size align;
      '(bs, s2, m2) ← requests l' s1 m1;
      Ok ((a, size) :: bs, s2, m2)
  end.

Definition request_ok (e : Z) (r : Z * Z) : Prop := 0 < r.1 <= e /\ 0 < r.2 < 2 ^ 32.

(** The blocks lie one behind the other between [lo] and [hi]. *)
Fixpoint stacked (lo hi : Z) (l : list (Z * Z)) : Prop :=
  match l with
  | [] => lo <= hi
  | (a, size) :: l' => lo <= a /\ stacked (a + size) hi l'
  end.

Lemma filled_keeps_mapped m a b c m' lo n : filled m a b c m' -> mapped m lo n -> mapped m' lo n.
Proof. intros Hf. apply mapped_ext. intros x. by eapply filled_mapped. Qed.

Lemma requests_stacked l : forall s m bs s' m',
  wf s -> Forall (request_ok (avail_low_mem_end s)) l -> mapped m 0 (avail_low_mem_end s + 7) ->
  requests l s m = Ok (bs, s', m') ->
  wf s' /\ avail_low_mem_end s' = avail_low_mem_end s /\
  stacked (avail_low_mem_start s) (avail_low_mem_start s') bs /\
  Forall2 (fun r b => b.2 = r.1 /\ b.1 `mod` r.2 = 0) l bs.
Proof.
  induction l as [|[size align] l IH]; intros s m bs s' m' Hw Hr Hm H; cbn [requests] in H.
  { injection H as <- <- <-. repeat split; try apply Hw; try constructor. simpl. lia. }
  apply Forall_cons in Hr as [[Hsz Hal] Hr]. cbn [fst snd] in *.
  apply bind_Ok in H as ([[a s1] m1] & Ha & H). apply bind_Ok in H as ([[bs2 s2] m2] & Hrest & H). injection H as <- <- <-.
  pose proof (allocate_Ok s m size align Hw Hsz Hal Hm) as Hok. cbv zeta in Hok.
  set (b := (avail_low_mem_start s + align - 1) / align * align) in *.
  destruct (b + size <? avail_low_mem_end s) eqn:E; [|congruence]. bool_to_prop.
  destruct Hok as (m1' & He & Hf). rewrite He in Ha. injection Ha as <- <- <-. destruct Hw as [Hs Hend].
  assert (avail_low_mem_start s <= b) by (unfold b; pose proof (Z.div_mod (avail_low_mem_start s + align - 1) align ltac:(lia));
    pose proof (Z.mod_pos_bound (avail_low_mem_start s + align - 1) align ltac:(lia)); nia).
  destruct (fun h1 h2 h3 => IH _ _ _ _ _ h1 h2 h3 Hrest) as (Hw2 & He2 & Hst & Hall).
  - split; simpl; lia.
  - done.
  - by eapply filled_keeps_mapped.
  - split; [done|]. split; [done|]. split; [split; [done|exact Hst]|]. constructor; [|done].
    split; [done|]. simpl. unfold b. apply Z.mod_mul. lia.
Qed.

(** Low memory is handed out in order: for every history of requests that are
    not larger than the region's end, the blocks are aligned as asked, pairwise
    disjoint (each starts at or behind the end of the one before) and inside the
    region given to [init]. *)
Theorem low_memory_disjoint lo hi l m s bs s' m' :
  0 <= lo -> hi < 2 ^ 32 -> init lo hi = Ok s -> Forall (request_ok hi) l -> mapped m 0 (hi + 7) ->
  requests l s m = Ok (bs, s', m') ->
  stacked lo (avail_low_mem_start s') bs /\ avail_low_mem_start s' <= hi /\
  Forall2 (fun r b => b.2 = r.1 /\ b.1 `mod` r.2 = 0) l bs.
Proof.
  intros Hlo Hhi Hi Hr Hm H. unfold init in Hi. inv_ok. bool_to_prop.
  destruct (requests_stacked _ (LowMemory lo hi) _ _ _ _ ltac:(split; simpl; lia) Hr Hm H) as ([Hw _] & Hend & Hst & Hal).
  simpl in *. split; [done|]. split; [lia|done].
Qed.

Definition low_sample : gmap Z Z := list_to_map ((fun i => (i, 1)) <$> seqZ 0 0x108).

Theorem low_memory_disjoint_witness :
  exists s' m', requests [(9, 1); (16, 16)] (LowMemory 0x21 0x100) low_sample = Ok ([(0x21, 9); (0x30, 16)], s', m') /\
    stacked 0x21 (avail_low_mem_start s') [(0x21, 9); (0x30, 16)].
Proof.
  assert (is_ok (requests [(9, 1); (16, 16)] (LowMemory 0x21 0x100) low_sample) = true) as Hok by (vm_compute; done).
  assert (match requests [(9, 1); (16, 16)] (LowMemory 0x21 0x100) low_sample with
    Ok (bs, _, _) => bs = [(0x21, 9); (0x30, 16)] | Fail _ => False end) as Hb by (vm_compute; done).
  destruct (requests [(9, 1); (16, 16)] (LowMemory 0x21 0x100) low_sample) as [[[bs s'] m']|] eqn:E; [|done].
  subst bs. exists s', m'. split; [done|].
  apply (low_memory_disjoint 0x21 0x100 [(9, 1); (16, 16)] low_sample (LowMemory 0x21 0x100) _ s' m').
  - lia.
  - lia.
  - done.
  - repeat constructor; simpl; lia.
  - apply mapped_check. vm_compute. done.
  - exact E.
Defined.

(** The test compares with [avail_low_mem_end - size], which wraps around: a
    request larger than the end address passes it. *)
Theorem huge_request_granted s m size m' :
  wf s -> avail_low_mem_end s < size < 2 ^ 63 ->
  memset m (avail_low_mem_start s) 0 size = Ok m' ->
  exists s', allocate s m size 1 = Ok (avail_low_mem_start s, s', m') /\
    avail_low_mem_end s < avail_low_mem_start s'.
Proof.
  intros [Hs He] Hsz Hm. unfold allocate, align_to. replace (1 =? 0) with false by lia.
  rewrite Z.add_simpl_r, Z.div_1_r, Z.mul_1_r, !(wrap_small 64 (avail_low_mem_start s)) by lia. cbn [mbind outcome_bind].
  assert (u64 (avail_low_mem_end s - size) = avail_low_mem_end s - size + 2 ^ 64) as ->.
  { symmetry. apply (Z.mod_unique _ _ (-1)); lia. }
  replace (_ <=? _) with false by lia. rewrite Hm. eexists. split; [done|]. simpl. rewrite wrap_small; lia.
Qed.
