(* ===== verification/Dma.v ===== *)
(** * kernel/dma.cpp: programming the DMA controller

    The only channel with a buffer is the floppy's.  The theorems follow the bytes
    written to the controller's ports: an address or count register takes its
    low byte and then its high byte. *)
From S2P Require Import Prelude Io Paging.

#[local] Arguments wrap : simpl never.

Definition START_ADDRESS_CHANNEL_2 : Z := 0x04.
Definition COUNT_CHANNEL_2 : Z := 0x05.
Definition SINGLE_CHANNEL_MASK : Z := 0x0A.
Definition MODE_REGISTER : Z := 0x0B.
Definition FLIP_FLOP_RESET : Z := 0x0C.
Definition PAGE_ADDRESS_CHANNEL_2 : Z := 0x81.
Definition MASK_ON : Z := Z.shiftl 1 2.
Definition SINGLE_TRANSFER : Z := Z.shiftl 1 6.
Definition AUTOINCREMENT : Z := Z.shiftl 1 4.
Definition MODE_READ : Z := Z.shiftl 2 2.
Definition MODE_WRITE : Z := Z.shiftl 1 2.
Definition FLOPPY_CHANNEL : Z := 2.

Inductive mode := read | write.

(** [dma::buffer]; address 0 is the null pointer. *)
Record buffer := Buffer { data : Z; bsize : Z }.
Definition no_buffer : buffer := Buffer 0 0.

(** [set_buffer_for_channel]: [pt] is the state of the kernel's page tables. *)
Definition set_buffer_for_channel (pt : paging) (b : buffer) (channel addr size : Z) : outcome buffer :=
  _ ← assert_ (negb (addr =? 0)) "Can't set null buffer!";
  phys ← get_physical_address pt addr;
  _ ← assert_ ((addr =? phys) && (addr <? Z.shiftl 1 24)) "Buffer address must be identity mapped in the bottom 24 bits of physical memory";
  if channel =? FLOPPY_CHANNEL then Ok (Buffer addr size) else Fail (Panic "Invalid DMA channel").

Definition buffer_for_channel (b : buffer) (channel : Z) : option buffer :=
  if channel =? 2 then Some b else None.

Section dma.
Context {D : Type} `{Ports D}.

Definition prepare_transfer (bf : buffer) (channel transfer_size : Z) (md : mode) : io D Z :=
  b ← io_lift (of_option (AssertFailed "floppy DMA buffer is not allocated?") (buffer_for_channel bf channel));
  _ ← io_assert (negb (data b =? 0)) "floppy DMA buffer is not allocated?";
  _ ← io_assert (transfer_size <=? bsize b) "dma buffer not large enough for transfer!";
  _ ← io_assert (transfer_size <=? 0x10000) "transfer size - 1 needs to fit into 16 bits";
  let read_or_write := match md with read => MODE_WRITE | write => MODE_READ end in
  let transfer_count := u16 (transfer_size - 1) in
  _ ← outb SINGLE_CHANNEL_MASK (Z.lor MASK_ON channel);
  _ ← outb FLIP_FLOP_RESET 0xFF;
  _ ← outb START_ADDRESS_CHANNEL_2 (Z.land (data b) 0xFF);
  _ ← outb START_ADDRESS_CHANNEL_2 (Z.land (Z.shiftr (data b) 8) 0xFF);
  _ ← outb FLIP_FLOP_RESET 0xFF;
  _ ← outb COUNT_CHANNEL_2 (Z.land transfer_count 0xFF);
  _ ← outb COUNT_CHANNEL_2 (Z.land (Z.shiftr transfer_count 4) 0xFF);
  _ ← outb PAGE_ADDRESS_CHANNEL_2 (Z.land (Z.shiftr (data b) 16) 0xFF);
  _ ← outb MODE_REGISTER (Z.lor (Z.lor (Z.lor SINGLE_TRANSFER AUTOINCREMENT) read_or_write) channel);
  _ ← outb SINGLE_CHANNEL_MASK channel;
  mret (data b).
End dma.

(** ** What the controller receives *)

(** A machine that records the bytes written to each port. *)
Definition trace := list (Z * Z).
#[export] Instance trace_ports : Ports trace := {
  port_in _ d := (0, d);
  port_out p v d := d ++ [(p, v)]
}.

Definition written (p : Z) (t : trace) : list Z := snd <$> filter (fun w => w.1 = p) t.

(** The 24-bit start address and the 16-bit count after a transfer is set up. *)
Definition programmed_address (t : trace) : option Z :=
  match written START_ADDRESS_CHANNEL_2 t, written PAGE_ADDRESS_CHANNEL_2 t with
  | [lo; hi], [page] => Some (lo + 2 ^ 8 * hi + 2 ^ 16 * page)
  | _, _ => None
  end.
Definition programmed_count (t : trace) : option Z :=
  match written COUNT_CHANNEL_2 t with
  | [lo; hi] => Some (lo + 2 ^ 8 * hi)
  | _ => None
  end.

Lemma land_byte x : 0 <= x -> Z.land x 0xFF = x `mod` 256.
Proof. intros. change 0xFF with (Z.ones 8). by rewrite Z.land_ones by lia. Qed.

(** The successful runs. *)
Lemma prepare_transfer_run b n md :
  0 < data b < 2 ^ 24 -> 0 < n <= 0x10000 -> n <= bsize b ->
  exists t, prepare_transfer b FLOPPY_CHANNEL n md [] = Ok (data b, t) /\
    written START_ADDRESS_CHANNEL_2 t = [data b `mod` 256; (data b / 256) `mod` 256] /\
    written PAGE_ADDRESS_CHANNEL_2 t = [(data b / 65536) `mod` 256] /\
    written COUNT_CHANNEL_2 t = [(n - 1) `mod` 256; ((n - 1) / 16) `mod` 256].
Proof.
  intros Hd Hn Hs. unfold prepare_transfer, buffer_for_channel, FLOPPY_CHANNEL. cbn [Z.eqb Pos.eqb].
  unfold io_assert, io_lift, mbind, io_bind. cbn [of_option].
  replace (negb (data b =? 0)) with true by lia. replace (n <=? bsize b) with true by lia.
  replace (n <=? 0x10000) with true by lia. cbn [assert_]. rewrite (wrap_small 16) by lia.
  eexists. split; [reflexivity|].
  assert (forall x, 0 <= x -> u8 (Z.land x 0xFF) = x `mod` 256) as Hb.
  { intros x Hx. rewrite land_byte by done. apply wrap_small. pose proof (Z.mod_pos_bound x 256). lia. }
  rewrite !Z.shiftr_div_pow2 by lia.
  rewrite !Hb by (try apply Z.div_pos; lia). change (2 ^ 8) with 256. change (2 ^ 4) with 16. change (2 ^ 16) with 65536.
  generalize (data b `mod` 256), ((data b / 256) `mod` 256), ((data b / 65536) `mod` 256),
    ((n - 1) `mod` 256), (((n - 1) / 16) `mod` 256). intros. destruct md; vm_compute; done.
Qed.

(** The high byte of the count of [k] sectors, for every [k] the buffer can hold. *)
Lemma count_wrong k : 0 < k < 128 ->
  (512 * k - 1) `mod` 256 + 256 * (((512 * k - 1) / 16) `mod` 256) <> 512 * k - 1.
Proof.
  intros Hk. assert (forallb (fun k => negb ((512 * k - 1) `mod` 256 + 256 * (((512 * k - 1) / 16) `mod` 256) =? 512 * k - 1))
    (seqZ 1 127) = true) as Hall by (vm_compute; reflexivity).
  rewrite forallb_forall in Hall. specialize (Hall k). bool_to_prop.
  assert (In k (seqZ 1 127)) as Hin by (apply list_elem_of_In, elem_of_seqZ; lia).
  specialize (Hall Hin). by bool_to_prop.
Qed.

(** [prepare_transfer] hands the controller the buffer's 24-bit physical address
    byte by byte and returns it; but the high byte of the count is taken from
    bits 4 to 11, so for every transfer of 1 to 127 sectors the count programmed
    differs from the transfer's. *)
Theorem prepare_transfer_registers b n md :
  0 < data b < 2 ^ 24 -> 0 < n <= 0x10000 -> n <= bsize b ->
  exists t, prepare_transfer b FLOPPY_CHANNEL n md [] = Ok (data b, t) /\
    programmed_address t = Some (data b) /\
    (forall k, 0 < k < 128 -> n = 512 * k -> programmed_count t <> Some (n - 1)).
Proof.
  intros Hd Hn Hs. destruct (prepare_transfer_run b n md Hd Hn Hs) as (t & He & Ha & Hp & Hc).
  exists t. split; [done|]. unfold programmed_address, programmed_count. rewrite Ha, Hp, Hc. split.
  - f_equal. change (2 ^ 8) with 256. change (2 ^ 16) with 65536.
    rewrite (Z.mod_small (data b / 65536)) by (split; [apply Z.div_pos|apply Z.div_lt_upper_bound]; lia).
    replace 65536 with (256 * 256) by done. rewrite <- Z.div_div by lia.
    pose proof (Z.div_mod (data b) 256 ltac:(lia)). pose proof (Z.div_mod (data b / 256) 256 ltac:(lia)). lia.
  - intros k Hk -> [= Heq]. change (2 ^ 8) with 256 in Heq. by apply (count_wrong k).
Qed.

Theorem prepare_transfer_registers_witness :
  exists t, prepare_transfer (Buffer 0x7E000 0x10000) FLOPPY_CHANNEL 512 read [] = Ok (0x7E000, t) /\
    programmed_address t = Some 0x7E000 /\
    (forall k, 0 < k < 128 -> 512 = 512 * k -> programmed_count t <> Some (512 - 1)).
Proof. apply (prepare_transfer_registers (Buffer 0x7E000 0x10000) 512 read); simpl; lia. Defined.
