(* ===== verification/Floppy.v ===== *)
(** * kernel/floppy.cpp: the floppy driver

    The driver talks to the controller through its status and data ports, waits
    for its interrupt and copies what the DMA transfer left in the buffer.  The
    class [FloppyMachine] is the machine around it; [FloppyController] states how
    an 82077AA that is always ready takes a command, executes it and gives its
    result bytes, and the theorems hold for every such machine. *)
From S2P Require Import Prelude Io Pic Paging LowMemory Dma.

#[local] Arguments wrap : simpl never.

Definition MT : Z := Z.shiftl 1 7.
Definition MFM : Z := Z.shiftl 1 6.
Definition COMMAND_SPECIFY : Z := 0x03.
Definition COMMAND_WRITE : Z := 0x05.
Definition COMMAND_READ : Z := 0x06.
Definition COMMAND_RECALIBRATE : Z := 0x07.
Definition COMMAND_SENSE_INTERRUPT : Z := 0x08.
Definition COMMAND_VERSION : Z := 0x10.
Definition COMMAND_CONFIGURE : Z := 0x13.
Definition COMMAND_UNLOCK : Z := 0x14.
Definition COMMAND_LOCK : Z := Z.lor COMMAND_UNLOCK MT.
Definition DIGITAL_OUTPUT_REGISTER : Z := 0x3F2.
Definition MAIN_STATUS_REGISTER : Z := 0x3F4.
Definition DATA_FIFO : Z := 0x3F5.
Definition CONFIGURATION_CONTROL_REGISTER : Z := 0x3F7.
Definition MSR_RQM : Z := Z.shiftl 1 7.
Definition MSR_DIO : Z := Z.shiftl 1 6.
Definition MSR_CMD_BSY : Z := Z.shiftl 1 4.
Definition DOR_RESET : Z := Z.shiftl 1 2.
Definition DOR_IRQ : Z := Z.shiftl 1 3.
(** [enable_drive_motor[n]]: [DOR_MOTA] to [DOR_MOTD]. *)
Definition enable_drive_motor : list Z := [Z.shiftl 1 4; Z.shiftl 1 5; Z.shiftl 1 6; Z.shiftl 1 7].
Definition BYTES_PER_SECTOR : Z := 512.
Definition FLOPPY_BUFFER_SIZE : Z := 16 * 4096.

Inductive floppy_status :=
| ok | end_of_cylinder | data_error | overrun_underrun | no_data | not_writable
| missing_address_mark | error_unknown.

(** The machine: ports, the flag [disk_interrupt_handled] that the interrupt
    handler sets (a poll that sees it set clears it), the bytes of physical
    memory a transfer has filled, and time passing in [busy_sleep]. *)
Class FloppyMachine (D : Type) `{Ports D} := {
  poll_disk_interrupt : D -> bool * D;
  physical_bytes : Z -> Z -> D -> list Z;
  let_time_pass : Z -> D -> D
}.

Section driver.
Context {D : Type} `{FloppyMachine D} (spins : nat).

(** [SPIN_UNTIL(cond)], at most [spins] times. *)
Fixpoint spin_until (n : nat) (cond : io D bool) : io D unit :=
  match n with
  | O => io_lift (Fail Diverges)
  | S n' => b ← cond; if (b : bool) then mret tt else spin_until n' cond
  end.

Definition wait_for_disk_interrupt : io D unit :=
  m ← irq_is_masked FLOPPY;
  _ ← io_assert (negb m) "floppy interrupt was not enabled, can't wait for disk interrupt!";
  spin_until spins (fun d => Ok (poll_disk_interrupt d)).

Definition wait_til_fifo_ready : io D unit :=
  spin_until spins (v ← inb MAIN_STATUS_REGISTER; mret (negb (Z.land v MSR_RQM =? 0))).

Definition issue_parameter_command (param : Z) : io D bool :=
  _ ← wait_til_fifo_ready;
  v ← inb MAIN_STATUS_REGISTER;
  if Z.land v MSR_DIO =? 0 then _ ← outb DATA_FIFO param; mret true else mret false.

(** [(issue_parameter_command(args) && ...)] *)
Fixpoint issue_parameters (params : list Z) : io D bool :=
  match params with
  | [] => mret true
  | p :: ps => b ← issue_parameter_command p; if (b : bool) then issue_parameters ps else mret false
  end.

(** The loop over the result bytes: [left] slots of [result] are still unused. *)
Fixpoint read_results (left : nat) (result : list Z) (result_index : Z) : io D (list Z) :=
  v ← inb MAIN_STATUS_REGISTER;
  if Z.land v MSR_DIO =? 0 then mret result
  else
    match left with
    | O => io_lift (Fail (AssertFailed "Result buffer not large enough!"))
    | S left' => b ← inb DATA_FIFO; read_results left' (zset result result_index b) (result_index + 1)
    end.

(** One try: [None] is [continue], [Some] the result array of a command that
    succeeded ([want] is false for [issue_command]'s null pointer). *)
Definition try_command (command : Z) (want : bool) (result : list Z) (params : list Z) : io D (bool * list Z) :=
  status ← inb MAIN_STATUS_REGISTER;
  if (Z.land status MSR_RQM =? 0) || negb (Z.land status MSR_DIO =? 0) then mret (false, result)
  else
    _ ← outb DATA_FIFO command;
    commands_succeeded ← issue_parameters params;
    if negb commands_succeeded then mret (false, result)
    else
      result' ← (if want then
        let command_lo := Z.land command 0xF in
        _ ← (if (command_lo =? COMMAND_READ) || (command_lo =? COMMAND_WRITE) then wait_for_disk_interrupt else mret tt);
        _ ← inb MAIN_STATUS_REGISTER;
        _ ← wait_til_fifo_ready;
        read_results (length result) result 0
      else mret result);
      _ ← wait_til_fifo_ready;
      status ← inb MAIN_STATUS_REGISTER;
      mret (negb (Z.land status MSR_RQM =? 0) && (Z.land status MSR_DIO =? 0) && (Z.land status MSR_CMD_BSY =? 0), result').

Fixpoint issue_loop (retries : nat) (command : Z) (want : bool) (result params : list Z) : io D (list Z) :=
  match retries with
  | O => io_lift (Fail (AssertFailed "ran out of tries issuing floppy command"))
  | S r => '(success, result') ← try_command command want result params;
      if (success : bool) then mret result' else issue_loop r command want result' params
  end.

Definition issue_command_with_result (command : Z) (result params : list Z) : io D (list Z) :=
  issue_loop 5 command true result params.
Definition issue_command (command : Z) (params : list Z) : io D unit :=
  _ ← issue_loop 5 command false [] params; mret tt.

Definition SECTORS_PER_HEAD : Z := 18.
Definition HEADS : Z := 2.
Definition SECTORS_PER_CYLINDER : Z := SECTORS_PER_HEAD * HEADS.

Record CHS := Chs { cylinder : Z; head_ : Z; sector : Z }.

Definition lba_to_chs (sector : Z) : CHS :=
  Chs (Z.quot sector SECTORS_PER_CYLINDER)
    (Z.quot (Z.rem sector SECTORS_PER_CYLINDER) SECTORS_PER_HEAD)
    (Z.rem (Z.rem sector SECTORS_PER_CYLINDER) SECTORS_PER_HEAD + 1).

(** What [read_floppy] makes of the first two result bytes. *)
Definition decode_status (st0 st1 : Z) : floppy_status :=
  if Z.land st0 0xC0 =? 0 then ok
  else if negb (Z.land st1 0x80 =? 0) then end_of_cylinder
  else if negb (Z.land st1 0x20 =? 0) then data_error
  else if negb (Z.land st1 0x10 =? 0) then overrun_underrun
  else if negb (Z.land st1 0x4 =? 0) then no_data
  else if negb (Z.land st1 0x2 =? 0) then not_writable
  else if negb (Z.land st1 0x1 =? 0) then missing_address_mark
  else error_unknown.

(** The driver's globals: [g_drive_number] and the DMA buffer of its channel. *)
Record driver := Driver { g_drive_number : Z; floppy_dma_buffer : buffer }.

(** [memcpy(buffer, dma_buffer, transfer_size)]: the bytes read. *)
Definition copy_from (addr n : Z) : io D (list Z) := fun d => Ok (physical_bytes addr n d, d).

(** [read_floppy]: the status and, when it is [ok], the bytes copied to [buffer]. *)
Definition read_floppy (dr : driver) (lba sector_count : Z) : io D (floppy_status * list Z) :=
  let '(Chs c h s) := lba_to_chs lba in
  let transfer_size := BYTES_PER_SECTOR * sector_count in
  dma_buffer ← prepare_transfer (floppy_dma_buffer dr) FLOPPY_CHANNEL (u32 transfer_size) read;
  let end_of_track := 18 in
  result ← issue_command_with_result (Z.lor (Z.lor COMMAND_READ MFM) MT) (replicate 7 0)
    [Z.lor (Z.shiftl h 2) (g_drive_number dr); c; h; s; 2; end_of_track; 0x1b; 0xff];
  st0 ← io_lift (aget result 0);
  st1 ← io_lift (aget result 1);
  match decode_status st0 st1 with
  | ok => bytes ← copy_from dma_buffer transfer_size; mret (ok, bytes)
  | e => mret (e, [])
  end.

Definition read_floppy_or_fail (dr : driver) (lba sector_count : Z) : io D (list Z) :=
  '(st, bytes) ← read_floppy dr lba sector_count;
  match st with
  | ok => mret bytes
  | _ => io_lift (Fail (Panic "error reading floppy!"))
  end.

(** [busy_sleep] *)
Definition busy_sleep (us : Z) : io D unit := fun d => Ok (tt, let_time_pass us d).

(** [init_floppy_driver]: the low-memory allocator, the memory it zeroes and the
    page tables are the parts of the kernel it uses. *)
Definition init_floppy_driver (drive_number : Z) (lm : low_memory) (m : gmap Z Z) (pt : paging)
    : io D (driver * low_memory * gmap Z Z) :=
  version ← issue_command_with_result COMMAND_VERSION [0] [];
  v ← io_lift (aget version 0);
  _ ← io_assert (v =? 0x90) "invalid floppy version!";
  let implied_seek := Z.shiftl 1 6 in
  let disable_polling := Z.shiftl 1 4 in
  let threshold_val := 8 - 1 in
  _ ← issue_command COMMAND_CONFIGURE [0; Z.lor (Z.lor implied_seek disable_polling) threshold_val; 0];
  result ← issue_command_with_result COMMAND_LOCK [0] [];
  r ← io_lift (aget result 0);
  _ ← io_assert (negb (Z.shiftr r 4 =? 0)) "controller couldn't be locked!";
  _ ← unmask_irq FLOPPY;
  orig_dor_value ← inb DIGITAL_OUTPUT_REGISTER;
  _ ← outb DIGITAL_OUTPUT_REGISTER 0;
  _ ← busy_sleep 4;
  _ ← outb DIGITAL_OUTPUT_REGISTER orig_dor_value;
  _ ← wait_for_disk_interrupt;
  _ ← outb CONFIGURATION_CONTROL_REGISTER 0;
  let srt := 8 in
  let hlt := 5 in
  let hut := 0 in
  _ ← issue_command COMMAND_SPECIFY [Z.lor (Z.shiftl srt 4) hut; Z.shiftl hlt 1];
  _ ← io_assert (drive_number <? 4) "invalid floppy drive number!";
  motor ← io_lift (aget enable_drive_motor drive_number);
  _ ← outb DIGITAL_OUTPUT_REGISTER (Z.lor (Z.lor (Z.lor motor DOR_IRQ) DOR_RESET) drive_number);
  _ ← busy_sleep 4;
  _ ← issue_command COMMAND_RECALIBRATE [drive_number];
  result ← issue_command_with_result COMMAND_SENSE_INTERRUPT [0; 0] [];
  st0 ← io_lift (aget result 0);
  _ ← io_assert (negb (Z.land st0 0x20 =? 0)) "(st0 & 0x20) != 0";
  '(buf, lm', m') ← io_lift (allocate lm m FLOPPY_BUFFER_SIZE 1);
  b ← io_lift (set_buffer_for_channel pt no_buffer FLOPPY_CHANNEL buf FLOPPY_BUFFER_SIZE);
  mret (Driver drive_number b, lm', m').
End driver.

(** ** Sector addresses *)

Definition chs_to_lba (a : CHS) : Z := (cylinder a * HEADS + head_ a) * SECTORS_PER_HEAD + (sector a - 1).

Definition on_disk (a : CHS) : Prop := 0 <= cylinder a < 80 /\ 0 <= head_ a < HEADS /\ 1 <= sector a <= SECTORS_PER_HEAD.

Lemma lba_to_chs_nonneg lba : 0 <= lba ->
  lba_to_chs lba = Chs (lba / 36) (lba `mod` 36 / 18) ((lba `mod` 36) `mod` 18 + 1).
Proof.
  intros Hl. unfold lba_to_chs. change SECTORS_PER_CYLINDER with 36. change SECTORS_PER_HEAD with 18.
  rewrite Z.quot_div_nonneg, Z.rem_mod_nonneg by lia. pose proof (Z.mod_pos_bound lba 36 ltac:(lia)).
  by rewrite Z.quot_div_nonneg, Z.rem_mod_nonneg by lia.
Qed.

(** [lba_to_chs] numbers the 2880 sectors of the disk by cylinder, head and
    sector without gap or repetition: it gives an address on the disk whose
    linear number is the one it was given, and every address on the disk is the
    image of its number. *)
Theorem lba_chs_bijection :
  (forall lba, 0 <= lba < 2880 -> on_disk (lba_to_chs lba) /\ chs_to_lba (lba_to_chs lba) = lba) /\
  (forall a, on_disk a -> 0 <= chs_to_lba a < 2880 /\ lba_to_chs (chs_to_lba a) = a).
Proof.
  unfold on_disk, chs_to_lba, HEADS, SECTORS_PER_HEAD. split.
  - intros lba Hl. rewrite lba_to_chs_nonneg by lia. cbn [cylinder head_ sector]. zdiv.
  - intros [c h s] (Hc & Hh & Hs). cbn [cylinder head_ sector] in *. split; [lia|].
    rewrite lba_to_chs_nonneg by lia. f_equal; zdiv.
Qed.

(** [decode_status] reports success exactly when the two interrupt-code bits of
    the first byte are clear. *)
Lemma decode_status_ok st0 st1 : decode_status st0 st1 = ok <-> Z.land st0 0xC0 = 0.
Proof. unfold decode_status. repeat case_if; naive_solver lia. Qed.

(** ** The command protocol *)

Inductive fdc_phase :=
| FIdle
| FCommand (sent : list Z)            (* the command byte and the parameters so far *)
| FResult (cmd bytes : list Z).       (* result bytes still to be read *)

Definition finished (cmd bytes : list Z) : fdc_phase :=
  match bytes with [] => FIdle | _ => FResult cmd bytes end.

Definition is_result (p : fdc_phase) : bool := match p with FResult _ _ => true | _ => false end.
Definition is_idle (p : fdc_phase) : bool := match p with FIdle => true | _ => false end.

Definition transfers (cmd : list Z) : bool :=
  match cmd with
  | c :: _ => (Z.land c 0xF =? COMMAND_READ) || (Z.land c 0xF =? COMMAND_WRITE)
  | [] => false
  end.

(** The driver's accesses do not reach the interrupt controllers. *)
Definition pic_same {D} `{Pic8259 D} (d d' : D) : Prop := master d' = master d /\ slave d' = slave d.

(** [d'] differs from [d] in what a driver step may change only, and memory is the
    same. *)
Definition still_by {D} `{FloppyMachine D} (alike : D -> D -> Prop) (d d' : D) : Prop :=
  alike d d' /\ forall a n, physical_bytes a n d' = physical_bytes a n d.

(** A controller that is always ready: its status byte says so (bit 7), says
    whether result bytes wait (bit 6) and whether a command is under way (bit 4);
    a command of [1 + params_of c] bytes is executed, with some result bytes and
    effect on memory ([executes]), and the result bytes are then read one by one;
    at the end of a transfer the interrupt has arrived.  [alike] machines differ in
    the controller's phase, the interrupt flag and memory only. *)
Class FloppyController (D : Type) `{FloppyMachine D} `{!Pic8259 D} := {
  phase : D -> fdc_phase;
  params_of : Z -> nat;
  executes : list Z -> list Z -> D -> Prop;
  alike : D -> D -> Prop;
  alike_refl d : alike d d;
  alike_trans d1 d2 d3 : alike d1 d2 -> alike d2 d3 -> alike d1 d3;
  alike_pic d d' : alike d d' -> pic_same d d';
  executed_bytes cmd bytes d : executes cmd bytes d -> Forall (fun b => 0 <= b < 256) bytes;
  executes_still cmd bytes d d' : executes cmd bytes d -> still_by alike d d' -> executes cmd bytes d';
  read_status d : exists v d', port_in MAIN_STATUS_REGISTER d = (v, d') /\ phase d' = phase d /\ still_by alike d d' /\
    0 <= v < 256 /\ Z.testbit v 7 = true /\ Z.testbit v 6 = is_result (phase d) /\ Z.testbit v 4 = negb (is_idle (phase d));
  write_byte d v sent :
    0 <= v < 256 -> phase d = (match sent with [] => FIdle | _ => FCommand sent end) ->
    let cmd := sent ++ [v] in
    match cmd with
    | c :: ps => (Z.land c 0xF <> COMMAND_WRITE -> alike d (port_out DATA_FIFO v d)) /\
        if (length ps <? params_of c)%nat then phase (port_out DATA_FIFO v d) = FCommand cmd
        else exists bytes, executes cmd bytes (port_out DATA_FIFO v d) /\ phase (port_out DATA_FIFO v d) = finished cmd bytes
    | [] => True
    end;
  read_byte d cmd b bytes :
    phase d = FResult cmd (b :: bytes) -> 0 <= b < 256 ->
    exists d', port_in DATA_FIFO d = (b, d') /\ phase d' = finished cmd bytes /\ still_by alike d d';
  interrupt_arrived d cmd bytes :
    phase d = FResult cmd bytes -> transfers cmd = true ->
    exists d', poll_disk_interrupt d = (true, d') /\ phase d' = phase d /\ still_by alike d d';
  read_mask d : phase (port_in (irq_port FLOPPY) d).2 = phase d /\ still_by alike d (port_in (irq_port FLOPPY) d).2
}.

Section protocol.
Context {D : Type} `{Hports : Ports D} `{Hmachine : !FloppyMachine D} `{Hpic : !Pic8259 D} `{Hfdc : !FloppyController D}.
Context (spins : nat).

Abbreviation still := (still_by alike).

(** What a driver step that only reads leaves alone, and what sending a command
    leaves alone. *)
Definition quiet (d d' : D) : Prop := phase d' = phase d /\ still d d'.
Definition kept (command : Z) (d d' : D) : Prop :=
  pic_same d d' /\ (Z.land command 0xF <> COMMAND_WRITE -> alike d d').

Lemma pic_same_trans (d1 d2 d3 : D) : pic_same d1 d2 -> pic_same d2 d3 -> pic_same d1 d3.
Proof. unfold pic_same. intuition congruence. Qed.

Lemma still_trans (d1 d2 d3 : D) : still d1 d2 -> still d2 d3 -> still d1 d3.
Proof. intros [A1 M1] [A2 M2]. split; [by eapply alike_trans|]. intros a n. by rewrite M2, M1. Qed.

Lemma quiet_trans (d1 d2 d3 : D) : quiet d1 d2 -> quiet d2 d3 -> quiet d1 d3.
Proof. intros [A1 M1] [A2 M2]. split; [congruence|by eapply still_trans]. Qed.

Lemma kept_trans c (d1 d2 d3 : D) : kept c d1 d2 -> kept c d2 d3 -> kept c d1 d3.
Proof. intros [A1 M1] [A2 M2]. split; [by eapply pic_same_trans|]. intros Hc. eapply alike_trans; eauto. Qed.

Lemma still_kept c (d d' : D) : still d d' -> kept c d d'.
Proof. intros [A _]. split; [by apply alike_pic|done]. Qed.

Lemma flag_clear v k : 0 <= k -> (Z.land v (Z.shiftl 1 k) =? 0) = negb (Z.testbit v k).
Proof.
  intros Hk. rewrite Z.shiftl_mul_pow2, Z.mul_1_l, land_pow2 by lia.
  destruct (Z.testbit v k); cbn [negb]; [|done]. apply Z.eqb_neq. lia.
Qed.

Lemma status_step (d : D) : exists v d', inb MAIN_STATUS_REGISTER d = Ok (v, d') /\ quiet d d' /\
  (Z.land v MSR_RQM =? 0) = false /\ (Z.land v MSR_DIO =? 0) = negb (is_result (phase d)) /\
  (Z.land v MSR_CMD_BSY =? 0) = is_idle (phase d).
Proof.
  destruct (read_status d) as (v & d' & Hr & Hph & Hp & Hv & H7 & H6 & H4).
  exists v, d'. unfold inb, MSR_RQM, MSR_DIO, MSR_CMD_BSY. rewrite Hr, (wrap_small 8) by lia.
  rewrite !flag_clear, H7, H6, H4, negb_involutive by lia. done.
Qed.

Lemma fifo_ready (d : D) : exists d', wait_til_fifo_ready (S spins) d = Ok (tt, d') /\ quiet d d'.
Proof.
  destruct (status_step d) as (v & d' & Hr & Hq & H7 & _). exists d'. split; [|done].
  unfold wait_til_fifo_ready. cbn [spin_until]. unfold mbind, io_bind, mret, io_ret. by rewrite Hr, H7.
Qed.

(** The bytes [sent] have been written: the controller waits for more or has
    executed the command. *)
Definition took (d : D) (sent : list Z) : Prop :=
  match sent with
  | [] => phase d = FIdle
  | c :: ps => if (length ps <? params_of c)%nat then phase d = FCommand sent
      else exists bytes, executes sent bytes d /\ phase d = finished sent bytes
  end.

Lemma fifo_write (d : D) v sent :
  phase d = (match sent with [] => FIdle | _ => FCommand sent end) ->
  exists d', outb DATA_FIFO v d = Ok (tt, d') /\ took d' (sent ++ [u8 v]) /\ kept (hd (u8 v) sent) d d'.
Proof.
  intros Hp. exists (port_out DATA_FIFO (u8 v) d). split; [done|].
  pose proof (wrap_range 8 v ltac:(lia)) as Hv.
  pose proof (write_byte d (u8 v) sent Hv Hp) as Hw. cbv zeta in Hw.
  assert (pic_same d (port_out DATA_FIFO (u8 v) d)) as Hs by (unfold pic_same; by rewrite out_master, out_slave).
  unfold took. destruct sent; (destruct Hw as [Ha Hw]; split; [exact Hw|by split]).
Qed.

Lemma parameter_step (d : D) v c ps :
  (length ps < params_of c)%nat -> took d (c :: ps) ->
  exists d', issue_parameter_command (S spins) v d = Ok (true, d') /\ took d' (c :: ps ++ [u8 v]) /\ kept c d d'.
Proof.
  intros Hl Ht. unfold took in Ht. rewrite (proj2 (Nat.ltb_lt _ _) Hl) in Ht.
  destruct (fifo_ready d) as (d1 & H1 & Hq1 & Hp1). destruct (status_step d1) as (s & d2 & H2 & [Hq2 Hp2] & _ & H6 & _).
  destruct (fifo_write d2 v (c :: ps)) as (d3 & H3 & Ht3 & Hp3); [by rewrite Hq2, Hq1, Ht|].
  exists d3. unfold issue_parameter_command. rewrite (io_bind_step _ _ _ tt d1 H1), (io_bind_step _ _ _ s d2 H2).
  rewrite H6, Hq1, Ht. cbn [is_result negb]. rewrite (io_bind_step _ _ _ tt d3 H3). split; [done|]. split; [exact Ht3|].
  eapply kept_trans; [|exact Hp3]. by eapply still_kept, still_trans.
Qed.

Lemma parameters_steps params : forall (d : D) c ps,
  (length ps + length params = params_of c)%nat -> took d (c :: ps) ->
  exists d', issue_parameters (S spins) params d = Ok (true, d') /\ took d' (c :: ps ++ (u8 <$> params)) /\ kept c d d'.
Proof.
  induction params as [|v params IH]; intros d c ps Hl Ht.
  { exists d. rewrite app_nil_r. split; [done|]. split; [done|]. apply still_kept. split; [apply alike_refl|done]. }
  simpl in Hl. destruct (parameter_step d v c ps ltac:(lia) Ht) as (d1 & H1 & Ht1 & Hp1).
  destruct (IH d1 c (ps ++ [u8 v])) as (d2 & H2 & Ht2 & Hp2); [rewrite length_app; simpl; lia|done|].
  exists d2. cbn [issue_parameters]. rewrite (io_bind_step _ _ _ true d1 H1). cbv iota. split; [exact H2|].
  rewrite <- app_assoc in Ht2. split; [exact Ht2|]. by eapply kept_trans.
Qed.

Lemma read_results_steps bytes : forall (d : D) cmd pre rest,
  phase d = finished cmd bytes -> Forall (fun b => 0 <= b < 256) bytes -> (length bytes <= length rest)%nat ->
  exists d', read_results (length rest) (pre ++ rest) (zlen pre) d =
      Ok (pre ++ bytes ++ drop (length bytes) rest, d') /\ phase d' = FIdle /\ still d d'.
Proof.
  induction bytes as [|b bytes IH]; intros d cmd pre rest Hp Hf Hl;
    destruct (status_step d) as (s & d1 & H1 & [Hq1 Hp1] & _ & H6 & _);
    (destruct rest as [|r rest]; [try (simpl in Hl; lia)|]); cbn [read_results length];
    rewrite (io_bind_step _ _ _ s d1 H1), H6, Hp; cbn [finished is_result negb].
  1, 2: exists d1; (split; [by rewrite ?drop_0|]); (split; [by rewrite Hq1|done]).
  apply Forall_cons in Hf as [Hb Hf]. destruct (read_byte d1 cmd b bytes) as (d2 & H2 & Hq2 & Hp2); [by rewrite Hq1, Hp|done|].
  assert (inb DATA_FIFO d1 = Ok (b, d2)) as H2' by (unfold inb; by rewrite H2, (wrap_small 8) by lia).
  rewrite (io_bind_step _ _ _ b d2 H2'), zset_middle.
  destruct (IH d2 cmd (pre ++ [b]) rest Hq2 Hf) as (d3 & H3 & Hq3 & Hp3); [simpl in Hl; lia|].
  exists d3. rewrite zlen_app, <- app_assoc in H3. change (zlen [b]) with 1 in H3. cbn [app] in H3.
  rewrite H3. split; [by rewrite <- app_assoc|]. split; [done|].
  by eapply still_trans; [exact Hp1|eapply still_trans].
Qed.

(** The interrupt of a transfer is waited for. *)
Lemma interrupt_step (d : D) cmd bytes :
  idle d -> masked FLOPPY d = false -> transfers cmd = true -> phase d = FResult cmd bytes ->
  exists d', wait_for_disk_interrupt (S spins) d = Ok (tt, d') /\ quiet d d'.
Proof.
  intros Hi Hm Ht Hp. destruct (irq_is_masked_spec FLOPPY d Hi) as (d1 & H1 & Hma & Hsl).
  assert (quiet d d1) as [Hq1 Hs1].
  { revert H1. unfold irq_is_masked, inb, mbind, io_bind, mret, io_ret. pose proof (read_mask d) as Ho.
    destruct (port_in (irq_port FLOPPY) d) as [v d2]. intros [= _ <-]. exact Ho. }
  destruct (interrupt_arrived d1 cmd bytes) as (d2 & H2 & Hq2 & Hp2); [by rewrite Hq1|done|].
  exists d2. unfold wait_for_disk_interrupt. rewrite (io_bind_step _ _ _ _ d1 H1), Hm. cbn [negb].
  rewrite (io_bind_step _ _ _ tt d1 eq_refl). cbn [spin_until]. unfold mbind, io_bind, mret, io_ret. rewrite H2.
  split; [done|]. split; [by rewrite Hq2|]. by eapply still_trans.
Qed.

Lemma pic_same_idle (d d' : D) : pic_same d d' -> idle d -> idle d'.
Proof. intros [Hm Hs]. unfold idle. by rewrite Hm, Hs. Qed.

Lemma pic_same_masked (d d' : D) c : pic_same d d' -> masked c d' = masked c d.
Proof. intros [Hm Hs]. unfold masked, chip_of. by rewrite Hm, Hs. Qed.

(** Sending a command with its parameters, whatever follows. *)
Lemma send_command (d : D) command params :
  phase d = FIdle -> 0 <= command < 256 -> length params = params_of command ->
  exists bytes d', executes (command :: (u8 <$> params)) bytes d' /\ phase d' = finished (command :: (u8 <$> params)) bytes /\
    kept command d d' /\ forall A (other k : io D A),
    (status ← inb MAIN_STATUS_REGISTER;
     if (Z.land status MSR_RQM =? 0) || negb (Z.land status MSR_DIO =? 0) then other
     else
       _ ← outb DATA_FIFO command;
       commands_succeeded ← issue_parameters (S spins) params;
       if negb commands_succeeded then other else k) d = k d'.
Proof.
  intros Hp Hc Hl. destruct (status_step d) as (s1 & d1 & H1 & [Hq1 Hp1] & H7 & H6 & _).
  destruct (fifo_write d1 command []) as (d2 & H2 & Ht2 & Hp2); [by rewrite Hq1|].
  rewrite (wrap_small 8) in Ht2, Hp2 by lia.
  destruct (parameters_steps params d2 command [] ltac:(simpl; lia) Ht2) as (d3 & H3 & Ht3 & Hp3).
  cbn [app took] in Ht3. rewrite (proj2 (Nat.ltb_ge _ _)) in Ht3 by (rewrite length_fmap; lia).
  destruct Ht3 as (bytes & He & Hq3). exists bytes, d3. split; [done|]. split; [done|]. split.
  { eapply kept_trans; [by apply still_kept|]. by eapply kept_trans. }
  intros A other k. rewrite (io_bind_step _ _ _ s1 d1 H1), H7, H6, Hp. cbn [is_result negb orb].
  by rewrite (io_bind_step _ _ _ tt d2 H2), (io_bind_step _ _ _ true d3 H3).
Qed.

(** After a command: the controller says it is idle. *)
Lemma settled (d : D) (r : list Z) : phase d = FIdle ->
  exists d', (_ ← wait_til_fifo_ready (S spins); status ← inb MAIN_STATUS_REGISTER;
     mret (negb (Z.land status MSR_RQM =? 0) && (Z.land status MSR_DIO =? 0) && (Z.land status MSR_CMD_BSY =? 0), r)) d =
       Ok ((true, r), d') /\ phase d' = FIdle /\ still d d'.
Proof.
  intros Hp. destruct (fifo_ready d) as (d1 & H1 & Hq1 & Hp1).
  destruct (status_step d1) as (s & d2 & H2 & [Hq2 Hp2] & H7 & H6 & H4). exists d2.
  rewrite (io_bind_step _ _ _ tt d1 H1), (io_bind_step _ _ _ s d2 H2), H7, H6, H4, Hq1, Hp.
  split; [done|]. split; [by rewrite Hq2, Hq1|]. by eapply still_trans.
Qed.

(** The first try succeeds. *)
Lemma try_command_Ok (d : D) command result params :
  (transfers (command :: params) = true -> idle d /\ masked FLOPPY d = false) -> phase d = FIdle ->
  0 <= command < 256 -> length params = params_of command ->
  (forall bytes d', executes (command :: (u8 <$> params)) bytes d' -> (0 < length bytes <= length result)%nat) ->
  exists bytes d', executes (command :: (u8 <$> params)) bytes d' /\
    try_command (S spins) command true result params d = Ok ((true, bytes ++ drop (length bytes) result), d') /\
    phase d' = FIdle /\ kept command d d'.
Proof.
  intros Hw Hp Hc Hl Hx. unfold try_command.
  destruct (send_command d command params Hp Hc Hl) as (bytes & d3 & He & Hq3 & Hk3 & Hrun). rewrite Hrun.
  pose proof (Hx bytes d3 He) as Hb. set (cmd := command :: (u8 <$> params)) in *.
  assert (exists d4, (if transfers cmd then wait_for_disk_interrupt (S spins) else mret tt) d3 = Ok (tt, d4)
    /\ quiet d3 d4) as (d4 & H4 & Hq4 & Hp4).
  { destruct (transfers _) eqn:Et; [|exists d3; split; [done|]; split; [done|]; split; [apply alike_refl|done]].
    destruct (Hw ltac:(done)) as [Hi Hm]. apply (interrupt_step d3 cmd bytes); [by eapply pic_same_idle; [apply Hk3|]|by rewrite (pic_same_masked d d3) by apply Hk3|done|].
    rewrite Hq3. by destruct bytes; [simpl in Hb; lia|]. }
  destruct (status_step d4) as (s5 & d5 & H5 & [Hq5 Hp5] & _).
  destruct (fifo_ready d5) as (d6 & H6' & Hq6 & Hp6).
  destruct (read_results_steps bytes d6 cmd [] result) as (d7 & H7' & Hq7 & Hp7);
    [by rewrite Hq6, Hq5, Hq4|by eapply executed_bytes|lia|].
  destruct (settled d7 (bytes ++ drop (length bytes) result) Hq7) as (d8 & H8 & Hq8 & Hp8).
  assert (still d3 d8) as Hs by eauto 10 using still_trans.
  exists bytes, d8. split; [by eapply executes_still|]. split; [|split; [done|]].
  - rewrite (io_bind_step _ _ _ (bytes ++ drop (length bytes) result) d7); [exact H8|].
    cbv zeta. rewrite (io_bind_step _ _ _ tt d4 H4), (io_bind_step _ _ _ s5 d5 H5), (io_bind_step _ _ _ tt d6 H6').
    exact H7'.
  - eapply kept_trans; [exact Hk3|by apply still_kept].
Qed.

(** A command that wants a result: the first of the five tries. *)
Lemma issue_with_result (d : D) command result params :
  (transfers (command :: params) = true -> idle d /\ masked FLOPPY d = false) -> phase d = FIdle ->
  0 <= command < 256 -> length params = params_of command ->
  (forall bytes d', executes (command :: (u8 <$> params)) bytes d' -> (0 < length bytes <= length result)%nat) ->
  exists bytes d', executes (command :: (u8 <$> params)) bytes d' /\
    issue_command_with_result (S spins) command result params d = Ok (bytes ++ drop (length bytes) result, d') /\
    phase d' = FIdle /\ kept command d d'.
Proof.
  intros Hw Hp Hc Hl Hx.
  destruct (try_command_Ok d command result params Hw Hp Hc Hl Hx) as (bytes & d' & He & Ht & Hr).
  exists bytes, d'. split; [done|]. split; [|done]. unfold issue_command_with_result. cbn [issue_loop].
  by rewrite (io_bind_step _ _ _ _ d' Ht).
Qed.

(** A command without result bytes. *)
Lemma issue_without_result (d : D) command params :
  phase d = FIdle -> 0 <= command < 256 -> length params = params_of command ->
  (forall bytes d', executes (command :: (u8 <$> params)) bytes d' -> bytes = []) ->
  exists d', executes (command :: (u8 <$> params)) [] d' /\
    issue_command (S spins) command params d = Ok (tt, d') /\ phase d' = FIdle /\ kept command d d'.
Proof.
  intros Hp Hc Hl Hx.
  assert (exists d', executes (command :: (u8 <$> params)) [] d' /\ try_command (S spins) command false [] params d = Ok ((true, []), d') /\
    phase d' = FIdle /\ kept command d d') as (d' & He & Ht & Hr).
  { unfold try_command. destruct (send_command d command params Hp Hc Hl) as (bytes & d3 & He & Hq3 & Hk3 & Hrun). rewrite Hrun.
    pose proof (Hx bytes d3 He) as ->. cbn [finished] in Hq3. destruct (settled d3 [] Hq3) as (d4 & H4 & Hq4 & Hp4).
    exists d4. split; [by eapply executes_still|]. split; [exact H4|]. split; [done|].
    eapply kept_trans; [exact Hk3|by apply still_kept]. }
  exists d'. split; [done|]. split; [|done]. unfold issue_command. cbn [issue_loop].
  assert ((('(success, result') ← try_command (S spins) command false [] params;
    if (success : bool) then mret result' else issue_loop (S spins) 4 command false result' params) : io D (list Z)) d = Ok ([], d')) as Hi
    by (by rewrite (io_bind_step _ _ _ _ d' Ht)).
  by rewrite (io_bind_step _ _ _ _ d' Hi).
Qed.

(** A command whose parameters and result bytes match the controller's: the
    driver sends the command byte and its parameters in order, waits for the
    interrupt of a transfer, reads back exactly the result bytes the command
    executed to and leaves the controller idle, on the first of its five tries. *)
Theorem issue_command_correct (d : D) command result params :
  idle d -> masked FLOPPY d = false -> phase d = FIdle ->
  Forall (fun v => 0 <= v < 256) (command :: params) -> length params = params_of command ->
  (forall bytes d', executes (command :: params) bytes d' -> (0 < length bytes <= length result)%nat) ->
  exists bytes d', executes (command :: params) bytes d' /\
    issue_command_with_result (S spins) command result params d = Ok (bytes ++ drop (length bytes) result, d') /\
    phase d' = FIdle /\ pic_same d d'.
Proof.
  intros Hi Hm Hp Hv Hl Hx. apply Forall_cons in Hv as [Hc Hv].
  assert (u8 <$> params = params) as Hu.
  { rewrite <- (list_fmap_id params) at 2. apply Forall_fmap_ext_1. eapply Forall_impl; [exact Hv|]. intros v Hb. cbn beta in Hb. by apply (wrap_small 8). }
  destruct (issue_with_result d command result params) as (bytes & d' & He & Hr & Hph & [Hs _]);
    rewrite ?Hu; try done. rewrite Hu in He. by exists bytes, d'.
Qed.
End protocol.

(** ** A simulated controller *)

Record sim := Sim { sim_chips : two_chips; sim_phase : fdc_phase }.

Definition sim_params (c : Z) : nat :=
  if c =? 0xC6 then 8 else if c =? COMMAND_SPECIFY then 2 else if c =? COMMAND_CONFIGURE then 3
  else if c =? COMMAND_RECALIBRATE then 1 else 0.
Definition sim_result (cmd : list Z) : list Z :=
  match cmd with
  | 0xC6 :: _ :: c :: h :: s :: _ => [0x20; 0; 0; u8 c; u8 h; u8 s; 2]
  | 0x10 :: _ => [0x90]
  | 0x94 :: _ => [0x10]
  | 0x08 :: _ => [0x20; 0]
  | _ => []
  end.

Definition sim_status (p : fdc_phase) : Z :=
  128 + (if is_result p then 64 else 0) + (if is_idle p then 0 else 16).

Definition sim_write (p : fdc_phase) (v : Z) : fdc_phase :=
  let cmd := match p with FCommand sent => sent ++ [v] | _ => [v] end in
  match cmd with
  | c :: ps => if (length ps <? sim_params c)%nat then FCommand cmd else finished cmd (sim_result cmd)
  | [] => p
  end.

#[export] Instance sim_ports : Ports sim := {
  port_in p d :=
    if p =? MAIN_STATUS_REGISTER then (sim_status (sim_phase d), d)
    else if p =? DATA_FIFO then
      match sim_phase d with
      | FResult cmd (b :: bytes) => (b, Sim (sim_chips d) (finished cmd bytes))
      | _ => (0, d)
      end
    else ((port_in p (sim_chips d)).1, d);
  port_out p v d :=
    if p =? DATA_FIFO then Sim (sim_chips d) (sim_write (sim_phase d) v)
    else Sim (port_out p v (sim_chips d)) (sim_phase d)
}.

#[export] Instance sim_pic : Pic8259 sim.
Proof.
  refine {| master d := master (sim_chips d); slave d := slave (sim_chips d) |}.
  - intros d. by eexists.
  - intros d. by eexists.
  - intros p v d. cbn. destruct (p =? DATA_FIFO) eqn:E; bool_to_prop; [by subst|done].
  - intros p v d. cbn. destruct (p =? DATA_FIFO) eqn:E; bool_to_prop; [by subst|done].
Defined.

#[export] Instance sim_machine : FloppyMachine sim := {
  poll_disk_interrupt d := (true, d);
  physical_bytes addr n d := (fun i => u8 (addr + i)) <$> seqZ 0 n;
  let_time_pass us d := d
}.

#[export] Instance sim_controller : FloppyController sim.
Proof.
  refine {| phase := sim_phase; params_of := sim_params; executes cmd bytes _ := bytes = sim_result cmd;
    alike d d' := sim_chips d' = sim_chips d |}.
  - done.
  - congruence.
  - intros d d' E. unfold pic_same. cbn. by rewrite E.
  - intros cmd bytes _ ->. unfold sim_result. repeat case_match; repeat constructor; try lia; apply wrap_range; lia.
  - done.
  - intros d. exists (sim_status (sim_phase d)), d. by destruct d as [ch [|sent|cmd bytes]].
  - intros d v sent Hv Hp. cbn -[Nat.ltb]. rewrite Hp. unfold sim_write. destruct sent as [|c ps]; cbn [app].
    + split; [done|]. case_match; [done|by eexists].
    + split; [done|]. case_match; [done|by eexists].
  - intros d cmd b bytes Hp Hb. eexists. cbn. by rewrite Hp.
  - intros d cmd bytes Hp Ht. by exists d.
  - intros d. by split.
Defined.

Definition sim_boot : sim := Sim (TwoChips (Chip 0xB8 0x20 0) (Chip 0x8E 0x28 0)) FIdle.

Theorem issue_command_correct_witness : exists bytes d',
  bytes = sim_result [0xC6; 0; 1; 0; 1; 2; 18; 0x1b; 0xff] /\
  issue_command_with_result 1 0xC6 (replicate 7 0) [0; 1; 0; 1; 2; 18; 0x1b; 0xff] sim_boot =
    Ok (bytes ++ drop (length bytes) (replicate 7 0), d') /\
  sim_phase d' = FIdle /\ pic_same sim_boot d'.
Proof.
  destruct (issue_command_correct (D := sim) 0 sim_boot 0xC6 (replicate 7 0) [0; 1; 0; 1; 2; 18; 0x1b; 0xff])
    as (bytes & d' & He & Hr & Hp & Hs).
  - by repeat split.
  - done.
  - done.
  - repeat constructor; lia.
  - done.
  - intros bytes d' ->. vm_compute. lia.
  - exists bytes, d'. by split_and!.
Defined.
