(* ===== verification/Filesystem.v ===== *)
(** * kernel/filesystem.cpp, kernel/filesystem.h: the FAT12 file system

    The file system reads sectors through the class [BlockDevice], whose instance
    in the kernel is [read_floppy_or_fail].  A heap block is a list of bytes: a
    block of [n] bytes has [room n] of them mapped, what lies beyond is not, so an
    access there is a fault; [fresh] is what a new block holds.  A path is a byte
    string without its NUL, a pointer into it an index. *)
From S2P Require Import Prelude Util CString Io Paging Dma Floppy.

#[local] Arguments wrap : simpl never.
#[local] Arguments swrap : simpl never.

(** ** On-disk structures *)

(** [n] bytes at offset [off], little endian; a byte that is missing reads 0. *)
Definition byte_at (b : list Z) (i : Z) : Z := default 0 (zget b i).
Fixpoint le (n : nat) (b : list Z) (off : Z) : Z :=
  match n with
  | O => 0
  | S n' => byte_at b off + 256 * le n' b (off + 1)
  end.
Definition bytes_at (b : list Z) (off n : Z) : list Z := take (Z.to_nat n) (drop (Z.to_nat off) b).
(** A bit field of [w] bits from bit [lo] on. *)
Definition bits (v lo w : Z) : Z := Z.land (Z.shiftr v lo) (Z.ones w).

Record bios_parameter_block := Bpb {
  jumpcode : list Z; identifier : list Z;
  bytes_per_sector : Z; sectors_per_cluster : Z; num_of_reserved_sectors : Z; num_of_fats : Z;
  num_of_directory_entries : Z; small_sector_count : Z; media_descriptor_type : Z; sectors_per_fat : Z;
  sectors_per_track : Z; num_of_heads : Z; num_of_hidden_sectors : Z; large_sector_count : Z;
  drive_number : Z; bpb_reserved : Z; signature : Z; serial_number : Z;
  volume_label : list Z; system_identifier : list Z
}.
Definition SIZEOF_BPB : Z := 62.

Definition bpb_of (b : list Z) : bios_parameter_block :=
  Bpb (bytes_at b 0 3) (bytes_at b 3 8)
    (le 2 b 11) (le 1 b 13) (le 2 b 14) (le 1 b 16)
    (le 2 b 17) (le 2 b 19) (le 1 b 21) (le 2 b 22)
    (le 2 b 24) (le 2 b 26) (le 4 b 28) (le 4 b 32)
    (le 1 b 36) (le 1 b 37) (le 1 b 38) (le 4 b 39)
    (bytes_at b 43 11) (bytes_at b 54 8).

Record directory_entry := DirectoryEntry {
  short_file_full_name : list Z;
  attributes : Z; entry_reserved : Z; creation_time_deciseconds : Z;
  creation_hour : Z; creation_minutes : Z; creation_halfseconds : Z;
  creation_year : Z; creation_month : Z; creation_day : Z;
  accessed_year : Z; accessed_month : Z; accessed_day : Z;
  cluster_num_hi : Z;
  modified_hour : Z; modified_minutes : Z; modified_halfseconds : Z;
  modified_year : Z; modified_month : Z; modified_day : Z;
  cluster_num_lo : Z; size : Z
}.
Definition SIZEOF_ENTRY : Z := 32.
Definition DIRECTORY : Z := 0x10.
Definition file_full_name_size : nat := 11.
Definition file_name_size : nat := 8.

(** A bit field declared first occupies the low bits. *)
Definition entry_of (b : list Z) (off : Z) : directory_entry :=
  let t n := le 2 b (off + n) in
  DirectoryEntry (bytes_at b off 11)
    (le 1 b (off + 11)) (le 1 b (off + 12)) (le 1 b (off + 13))
    (bits (t 14) 0 5) (bits (t 14) 5 6) (bits (t 14) 11 5)
    (bits (t 16) 0 7) (bits (t 16) 7 4) (bits (t 16) 11 5)
    (bits (t 18) 0 7) (bits (t 18) 7 4) (bits (t 18) 11 5)
    (le 2 b (off + 20))
    (bits (t 22) 0 5) (bits (t 22) 5 6) (bits (t 22) 11 5)
    (bits (t 24) 0 7) (bits (t 24) 7 4) (bits (t 24) 11 5)
    (le 2 b (off + 26)) (le 4 b (off + 28)).

(** ** Heap blocks *)

(** [alloc] maps whole pages for the block and its 16-byte header, and gives the
    null pointer for a block of no bytes. *)
Definition room (n : Z) : Z := if n =? 0 then 0 else div_ceil (n + 16) 4096 * 4096 - 16.

(** A copy of [bytes] to offset [off]. *)
Definition write_block (block : list Z) (off : Z) (bytes : list Z) : outcome (list Z) :=
  if (0 <=? off) && (off + zlen bytes <=? zlen block) then
    Ok (take (Z.to_nat off) block ++ bytes ++ drop (Z.to_nat off + length bytes) block)
  else Fail OutOfBounds.

(** [root_dir[i]] *)
Definition entry_at (dir : list Z) (i : Z) : outcome directory_entry :=
  if (0 <=? i) && ((i + 1) * SIZEOF_ENTRY <=? zlen dir) then Ok (entry_of dir (i * SIZEOF_ENTRY))
  else Fail OutOfBounds.

(** ** Paths *)

(** [path[i]] of a NUL-terminated string. *)
Definition char_at (path : list Z) (i : Z) : outcome Z :=
  if i =? zlen path then Ok 0 else aget path i.

(** [strchr(path + i, c)] for a [c] other than NUL. *)
Fixpoint strchr_from (path : list Z) (c i : Z) : option Z :=
  match path with
  | [] => None
  | x :: path' => if x =? c then Some i else strchr_from path' c (i + 1)
  end.
Definition strchr_at (path : list Z) (c i : Z) : option Z := strchr_from (drop (Z.to_nat i) path) c i.

(** One loop of [read_next_fragment]: [n] characters, padded from [stop] on. *)
Fixpoint fill_fragment (n : nat) (path : list Z) (rest stop : Z) : outcome (list Z * Z) :=
  match n with
  | O => Ok ([], rest)
  | S n' =>
      if stop <=? rest then
        '(cs, rest') ← fill_fragment n' path rest stop; Ok (32 :: cs, rest')
      else
        c ← char_at path rest;
        '(cs, rest') ← fill_fragment n' path (rest + 1) stop; Ok (toupper c :: cs, rest')
  end.

Definition read_next_fragment (path : list Z) (rest : Z) : outcome (list Z * Z) :=
  let dir_sep := strchr_at path 47 rest in
  let file_ext_sep := strchr_at path 46 rest in
  let end_ := default (zlen path) dir_sep in
  '(name, rest1) ← fill_fragment file_name_size path rest
    (match file_ext_sep with Some e => Z.min e end_ | None => end_ end);
  rest2 ← (match file_ext_sep with
    | None => Ok rest1
    | Some e =>
        c ← char_at path rest1;
        _ ← assert_ ((c =? 46) && (rest1 =? e)) "did we skip over the dot?";
        Ok (rest1 + 1)
    end);
  '(ext, rest3) ← fill_fragment (file_full_name_size - file_name_size) path rest2 end_;
  Ok (name ++ ext, rest3).

(** [strncmp(a, b, n) == 0] *)
Fixpoint strncmp_equal (n : nat) (a b : list Z) : bool :=
  match n with
  | O => true
  | S n' =>
      let x := default 0 (head a) in let y := default 0 (head b) in
      if negb (x =? y) then false
      else if (y =? 0) && (x =? 0) then true
      else strncmp_equal n' (tail a) (tail b)
  end.

(** ** The file system *)

(** [bpb], [root_dir] and [fat]; [None] is the null pointer. *)
Record fs := Fs {
  bpb : option bios_parameter_block;
  root_dir : option (list Z);
  fat : option (list Z)
}.
Definition no_fs : fs := Fs None None None.

(** The search loop of [resolve_path].  [directory] counts entries from
    [root_dir]; taking a directory continues with the entry behind it, since
    [i = 0] is followed by [++i].  Every turn moves one entry on. *)
Fixpoint resolve_loop (fuel : nat) (dir : list Z) (directory_size : Z) (path fragment : list Z)
    (rest directory i : Z) : outcome (option directory_entry) :=
  if directory_size <=? i then Ok None
  else
    match fuel with
    | O => Fail Diverges
    | S f =>
        entry ← entry_at dir (directory + i);
        if strncmp_equal file_full_name_size (short_file_full_name entry) fragment then
          c ← char_at path rest;
          if c =? 0 then
            _ ← assert_ (Z.land (attributes entry) DIRECTORY =? 0) "file should not be a directory!";
            Ok (Some entry)
          else
            _ ← assert_ (negb (Z.land (attributes entry) DIRECTORY =? 0)) "path fragment not directory!";
            '(fragment', rest') ← read_next_fragment path rest;
            resolve_loop f dir directory_size path fragment' rest' (directory + i) 1
        else resolve_loop f dir directory_size path fragment rest directory (i + 1)
    end.

Definition resolve_path (s : fs) (path : list Z) : outcome (option directory_entry) :=
  dir ← of_option (AssertFailed "can't resolve path before root dir is populated!") (root_dir s);
  b ← of_option (AssertFailed "can't resolve path before bios param block is populated!") (bpb s);
  c ← char_at path 0;
  _ ← assert_ (c =? 47) "path null or not rooted!";
  '(fragment, rest) ← read_next_fragment path 1;
  resolve_loop (S (length dir)) dir (num_of_directory_entries b) path fragment rest 0 0.

(** [dump_dir]: the lines it prints, as name and size. *)
Fixpoint until_nul (s : list Z) : list Z :=
  match s with [] => [] | c :: s' => if c =? 0 then [] else c :: until_nul s' end.

Fixpoint dump_loop (n : nat) (dir : list Z) (i : Z) : outcome (list (list Z * Z)) :=
  match n with
  | O => Ok []
  | S n' =>
      entry ← entry_at dir i;
      rest ← dump_loop n' dir (i + 1);
      Ok (if default 0 (head (short_file_full_name entry)) =? 0 then rest
          else (until_nul (take file_name_size (short_file_full_name entry)), size entry) :: rest)
  end.

Definition dump_dir (s : fs) (path : list Z) : outcome (list (list Z * Z)) :=
  if negb (bool_decide (path = [47])) then Ok []
  else
    dir ← of_option OutOfBounds (root_dir s);
    b ← of_option OutOfBounds (bpb s);
    dump_loop (Z.to_nat (num_of_directory_entries b)) dir 0.

Class BlockDevice (D : Type) := {
  read_sectors : Z -> Z -> io D (list Z)
}.

(** The kernel's device. *)
Definition floppy_device {D} `{FloppyMachine D} (spins : nat) (dr : driver) : BlockDevice D :=
  {| read_sectors := read_floppy_or_fail spins dr |}.

Section filesystem.
Context {D : Type} `{BlockDevice D} (fresh : Z -> list Z).

Definition read_boot_param_block : io D fs :=
  sector ← read_sectors 0 1;
  block ← io_lift (write_block (fresh SIZEOF_BPB) 0 sector);
  let b := bpb_of block in
  _ ← io_assert (bytes_per_sector b =? BYTES_PER_SECTOR) "unsupported number of bytes per sector!";
  mret (Fs (Some b) None None).

Definition read_root_directory (s : fs) : io D fs :=
  b ← io_lift (of_option (AssertFailed "bios param block must be populated before root directory!") (bpb s));
  let fat_sectors := sectors_per_fat b * num_of_fats b in
  let root_directory_sector := num_of_reserved_sectors b + fat_sectors in
  let root_directory_size := SIZEOF_ENTRY * num_of_directory_entries b in
  let root_directory_sector_count := root_directory_size / BYTES_PER_SECTOR in
  sectors ← read_sectors root_directory_sector root_directory_sector_count;
  dir ← io_lift (write_block (fresh root_directory_size) 0 sectors);
  mret (Fs (bpb s) (Some dir) (fat s)).

Definition kernel_path : list Z := [47; 75; 69; 82; 78; 69; 76].   (* "/KERNEL" *)

Definition init : io D fs :=
  s1 ← read_boot_param_block;
  s2 ← read_root_directory s1;
  let s3 := Fs (bpb s2) (root_dir s2) (Some (fresh (2 * BYTES_PER_SECTOR))) in
  kernel ← io_lift (resolve_path s3 kernel_path);
  _ ← io_assert (match kernel with Some _ => true | None => false end) "couldn't get kernel file!";
  mret s3.

(** [cluster = (cluster & 1) ? fat_value >> 4 : fat_value & 0x0FFF] *)
Definition next_cluster (fat_value cluster : Z) : Z :=
  if negb (Z.land cluster 1 =? 0) then Z.shiftr fat_value 4 else Z.land fat_value 0x0FFF.

(** The FAT sector an entry is in, and the one behind it, unless they are loaded. *)
Definition load_fat_sector (fat_ : list Z) (fat_sector loaded_fat_sector : Z) : io D (list Z) :=
  if negb (fat_sector =? loaded_fat_sector) then
    sectors ← read_sectors fat_sector 2; io_lift (write_block fat_ 0 sectors)
  else mret fat_.

(** The loop of [read_file]; every turn writes a sector of [buffer]. *)
Fixpoint read_loop (fuel : nat) (b : bios_parameter_block) (first_data_sector : Z)
    (fat_ buffer : list Z) (offset cluster loaded_fat_sector : Z) : io D (list Z * list Z) :=
  if negb (cluster <? 0xFF8) then mret (fat_, buffer)
  else
    match fuel with
    | O => io_lift (Fail Diverges)
    | S f =>
        let fat_offset := cluster + cluster / 2 in
        let fat_sector := num_of_reserved_sectors b + fat_offset / BYTES_PER_SECTOR in
        let entry_offset := fat_offset `mod` BYTES_PER_SECTOR in
        fat' ← load_fat_sector fat_ fat_sector loaded_fat_sector;
        let next_data_sector := u16 ((cluster - 2) * sectors_per_cluster b + first_data_sector) in
        bytes ← read_sectors next_data_sector 1;
        buffer' ← io_lift (write_block buffer offset bytes);
        lo ← io_lift (aget fat' entry_offset);
        hi ← io_lift (aget fat' (entry_offset + 1));
        read_loop f b first_data_sector fat' buffer' (offset + BYTES_PER_SECTOR)
          (next_cluster (lo + 256 * hi) cluster) fat_sector
    end.

(** The first data sector, behind the FATs and the root directory. *)
Definition data_start (b : bios_parameter_block) : Z :=
  let num_of_fat_sectors := u16 (sectors_per_fat b * num_of_fats b) in
  let size_of_root_dir := u16 (num_of_directory_entries b * SIZEOF_ENTRY) in
  num_of_reserved_sectors b + num_of_fat_sectors + div_ceil size_of_root_dir BYTES_PER_SECTOR.

(** [read_file]: [None] is the null pointer; a block holds the whole heap block. *)
Definition read_file (s : fs) (path : list Z) : io D (option (list Z) * fs) :=
  b ← io_lift (of_option (AssertFailed "must have bios param block to read files!") (bpb s));
  fat_ ← io_lift (of_option (AssertFailed "must have fat storage to read files!") (fat s));
  file_entry ← io_lift (resolve_path s path);
  match file_entry with
  | None => mret (None, s)
  | Some e =>
      let buffer := fresh (size e) in
      '(fat', buffer') ← read_loop (S (length buffer)) b (data_start b) fat_ buffer 0 (cluster_num_lo e) 0;
      mret (if size e =? 0 then None else Some buffer', Fs (bpb s) (root_dir s) (Some fat'))
  end.
End filesystem.

(** ** Termination *)

(** A device whose driver is ready: it returns, with the bytes asked for when it
    succeeds, and stays ready.  The file system asks for at most two sectors in a
    row besides the root directory; a transfer has at most 16. *)
Class SectorDevice (D : Type) `{BlockDevice D} := {
  drive_ready : D -> Prop;
  device_returns lba n d : drive_ready d -> 0 < n <= 16 -> terminates (read_sectors (D := D) lba n d);
  device_keeps lba n d bytes d' : drive_ready d -> 0 < n <= 16 -> read_sectors (D := D) lba n d = Ok (bytes, d') ->
    zlen bytes = BYTES_PER_SECTOR * n /\ drive_ready d'
}.

Lemma char_at_terminates path i : terminates (char_at path i).
Proof. unfold char_at, aget. case_if; eauto with terminates. Qed.

Lemma fill_fragment_terminates n : forall path rest stop, terminates (fill_fragment n path rest stop).
Proof.
  induction n as [|n IH]; intros path rest stop; cbn [fill_fragment]; [eauto with terminates|].
  case_if; [|apply terminates_bind; [apply char_at_terminates|intros c _]];
    (apply terminates_bind; [apply IH|intros [cs r] _; eauto with terminates]).
Qed.

Lemma read_next_fragment_terminates path rest : terminates (read_next_fragment path rest).
Proof.
  unfold read_next_fragment. apply terminates_bind; [apply fill_fragment_terminates|intros [name r1] _].
  apply terminates_bind.
  - case_match; [|eauto with terminates]. apply terminates_bind; [apply char_at_terminates|]. intros c _.
    eauto with terminates.
  - intros r2 _. apply terminates_bind; [apply fill_fragment_terminates|intros [ext r3] _; eauto with terminates].
Qed.

Lemma entry_at_Ok dir i e : entry_at dir i = Ok e -> 0 <= i < zlen dir /\ e = entry_of dir (i * SIZEOF_ENTRY).
Proof. unfold entry_at, SIZEOF_ENTRY. case_if; [|done]. intros [= <-]. split; [lia|done]. Qed.

Lemma resolve_loop_terminates dir ds path : forall fuel fragment rest directory i,
  0 <= directory + i <= zlen dir -> zlen dir < directory + i + Z.of_nat fuel ->
  terminates (resolve_loop fuel dir ds path fragment rest directory i).
Proof.
  induction fuel as [|f IH]; intros fragment rest directory i Hi Hf; [lia|]. cbn [resolve_loop].
  case_if; [eauto with terminates|]. apply terminates_bind.
  { unfold entry_at. case_if; done. }
  intros e He%entry_at_Ok. case_if; [|apply IH; lia].
  apply terminates_bind; [apply char_at_terminates|]. intros c _. case_if; [eauto with terminates|].
  apply terminates_bind; [eauto with terminates|]. intros _ _.
  apply terminates_bind; [apply read_next_fragment_terminates|]. intros [fr r] _. apply IH; lia.
Qed.

Lemma resolve_path_terminates s path : terminates (resolve_path s path).
Proof.
  unfold resolve_path. apply terminates_bind; [eauto with terminates|]. intros dir _.
  apply terminates_bind; [eauto with terminates|]. intros b _.
  apply terminates_bind; [apply char_at_terminates|]. intros c _.
  apply terminates_bind; [eauto with terminates|]. intros _ _.
  apply terminates_bind; [apply read_next_fragment_terminates|]. intros [fr r] _.
  apply resolve_loop_terminates; unfold zlen; lia.
Qed.

Lemma io_terminates_bind {D A B} (m : io D A) (f : A -> io D B) d :
  terminates (m d) -> (forall a d', m d = Ok (a, d') -> terminates (f a d')) -> terminates ((m ≫= f) d).
Proof. unfold terminates, mbind, io_bind. destruct (m d) as [[a d']|e]; [naive_solver|congruence]. Qed.

Lemma io_lift_terminates {D A} (m : outcome A) (d : D) : terminates m -> terminates (io_lift m d).
Proof. unfold io_lift, terminates. destruct m; congruence. Qed.

Lemma io_lift_Ok {D A} (m : outcome A) (d : D) a d' : io_lift m d = Ok (a, d') <-> m = Ok a /\ d' = d.
Proof. unfold io_lift. destruct m; naive_solver. Qed.

Lemma write_block_Ok block off bytes block' :
  write_block block off bytes = Ok block' ->
  0 <= off /\ off + zlen bytes <= zlen block /\ zlen block' = zlen block.
Proof.
  unfold write_block. case_if; [|done]. intros [= <-]. unfold zlen in *.
  rewrite !length_app, length_take, length_drop. lia.
Qed.

Lemma write_block_terminates block off bytes : terminates (write_block block off bytes).
Proof. unfold write_block. by case_if. Qed.

Section termination.
Context {D : Type} `{SectorDevice D} (fresh : Z -> list Z).

Lemma load_fat_terminates fat_ fs_ loaded (d : D) : drive_ready d -> terminates (load_fat_sector fat_ fs_ loaded d) /\
  forall fat' d', load_fat_sector fat_ fs_ loaded d = Ok (fat', d') -> drive_ready d'.
Proof.
  intros Hd. unfold load_fat_sector. case_if; [|split; [done|by intros ? ? [= _ <-]]]. split.
  - apply io_terminates_bind; [by apply device_returns|]. intros. apply io_lift_terminates, write_block_terminates.
  - intros fat' d' (bytes & d1 & Hr & Hw)%io_bind_Ok. apply io_lift_Ok in Hw as [_ ->]. by eapply device_keeps in Hr as [_ ?].
Qed.

Lemma read_loop_terminates b fds : forall fuel fat_ buffer offset cluster loaded (d : D), drive_ready d ->
  0 <= offset <= zlen buffer -> zlen buffer < offset + Z.of_nat fuel ->
  terminates (read_loop fuel b fds fat_ buffer offset cluster loaded d).
Proof.
  induction fuel as [|f IH]; intros fat_ buffer offset cluster loaded d Hd Ho Hf; [lia|]. cbn [read_loop].
  destruct (negb (cluster <? 0xFF8)); [done|]. apply io_terminates_bind; [by apply load_fat_terminates|].
  intros fat' d1 Hd1%load_fat_terminates; [|done]. apply io_terminates_bind; [by apply device_returns|]. intros bytes d2 Hb.
  apply device_keeps in Hb as [Hb Hd2]; [|done|lia].
  apply io_terminates_bind; [apply io_lift_terminates, write_block_terminates|].
  intros buffer' d3 [Hw ->]%io_lift_Ok. apply write_block_Ok in Hw as (_ & Hw & Hl).
  apply io_terminates_bind; [apply io_lift_terminates; unfold aget; eauto with terminates|]. intros lo d4 [_ ->]%io_lift_Ok.
  apply io_terminates_bind; [apply io_lift_terminates; unfold aget; eauto with terminates|]. intros hi d5 [_ ->]%io_lift_Ok.
  unfold BYTES_PER_SECTOR in *. apply IH; [done| |]; rewrite Hl; lia.
Qed.
End termination.

(** [C31] Whatever the disk holds, resolving a path and reading a file come to an end:
    a directory that names itself runs off the end of the root directory, a
    circular cluster chain off the end of the file's buffer, and a loop never
    turns more often than there are entries, or bytes in the buffer. *)
Theorem read_file_terminates {D} `{SectorDevice D} fresh s path (d : D) (Hd : drive_ready d) :
  terminates (resolve_path s path) /\ terminates (read_file fresh s path d).
Proof.
  split; [apply resolve_path_terminates|]. unfold read_file.
  apply io_terminates_bind; [apply io_lift_terminates; eauto with terminates|]. intros b d1 [_ ->]%io_lift_Ok.
  apply io_terminates_bind; [apply io_lift_terminates; eauto with terminates|]. intros fat_ d2 [_ ->]%io_lift_Ok.
  apply io_terminates_bind; [apply io_lift_terminates, resolve_path_terminates|]. intros [e|] d3 [_ ->]%io_lift_Ok; [|done].
  apply io_terminates_bind; [|by intros [] ? _]. apply read_loop_terminates; [done| |]; unfold zlen; lia.
Qed.

(** ** FAT12 entries *)

(** Twelve bits of the table: the bytes of entry [c] start at [c + c / 2]. *)
Definition fat12_entry (byte : Z -> Z) (c : Z) : Z :=
  next_cluster (byte (c + c / 2) + 256 * byte (c + c / 2 + 1)) c.

(** Two entries in three bytes, as a FAT12 volume stores them. *)
Definition pack (p : Z * Z) : list Z := [p.1 `mod` 256; p.1 / 256 + 16 * (p.2 `mod` 16); p.2 / 16].
Definition fat_bytes (l : list (Z * Z)) : list Z := concat (pack <$> l).
Definition fat_entries (l : list (Z * Z)) : list Z := concat ((fun p => [p.1; p.2]) <$> l).

Lemma fat_lookup l : forall k a b, l !! k = Some (a, b) ->
  fat_bytes l !! (3 * k)%nat = Some (a `mod` 256) /\ fat_bytes l !! (3 * k + 1)%nat = Some (a / 256 + 16 * (b `mod` 16)) /\
  fat_bytes l !! (3 * k + 2)%nat = Some (b / 16) /\
  fat_entries l !! (2 * k)%nat = Some a /\ fat_entries l !! (2 * k + 1)%nat = Some b.
Proof.
  induction l as [|p l IH]; intros k a b Hk; [done|]. destruct k as [|k].
  { by injection Hk as ->. }
  replace (3 * S k)%nat with (3 + 3 * k)%nat by lia. replace (2 * S k)%nat with (2 + 2 * k)%nat by lia. exact (IH k a b Hk).
Qed.

Lemma land_fff v : 0 <= v -> Z.land v 0x0FFF = v `mod` 4096.
Proof. intros. change 0x0FFF with (Z.ones 12). by rewrite Z.land_ones by lia. Qed.

Lemma land_1 c : Z.land c 1 = c `mod` 2.
Proof. change 1 with (Z.ones 1) at 1. by rewrite Z.land_ones by lia. Qed.

Lemma next_cluster_even v c : 0 <= v -> c `mod` 2 = 0 -> next_cluster v c = v `mod` 4096.
Proof. intros Hv Hc. unfold next_cluster. rewrite land_1, Hc. cbn [Z.eqb negb]. by apply land_fff. Qed.

Lemma next_cluster_odd v c : c `mod` 2 = 1 -> next_cluster v c = v / 16.
Proof. intros Hc. unfold next_cluster. rewrite land_1, Hc. cbn [Z.eqb negb]. by rewrite Z.shiftr_div_pow2 by lia. Qed.

Lemma byte_at_lookup b k x : b !! k = Some x -> byte_at b (Z.of_nat k) = x.
Proof.
  intros Hk. unfold byte_at, zget. destruct (_ <? 0) eqn:E; bool_to_prop; [lia|]. by rewrite Nat2Z.id, Hk.
Qed.

Definition twelve_bits (p : Z * Z) : Prop := 0 <= p.1 < 4096 /\ 0 <= p.2 < 4096.

(** [C39] Decoding inverts packing: for every table of 12-bit entries, what
    [read_file] computes from the two bytes at [c + c / 2] is entry [c], on even
    and odd clusters alike. *)
Theorem fat12_roundtrip l c :
  Forall twelve_bits l -> 0 <= c < 2 * zlen l ->
  zget (fat_entries l) c = Some (fat12_entry (byte_at (fat_bytes l)) c).
Proof.
  intros Hl Hc. unfold fat12_entry. assert (exists k, c = 2 * Z.of_nat k \/ c = 2 * Z.of_nat k + 1) as [k Hk].
  { exists (Z.to_nat (c / 2)). zdiv. }
  destruct (lookup_lt_is_Some_2 l k) as [[a b] Hab]; [unfold zlen in Hc; lia|].
  destruct (fat_lookup l k a b Hab) as (H0 & H1 & H2 & E0 & E1).
  apply byte_at_lookup in H0, H1, H2.
  apply (Forall_lookup_1 _ _ _ _ Hl) in Hab as [Ha Hb]. cbn [fst snd] in Ha, Hb.
  destruct Hk as [-> | ->].
  - replace (2 * Z.of_nat k + 2 * Z.of_nat k / 2) with (Z.of_nat (3 * k)) by zdiv.
    replace (Z.of_nat (3 * k) + 1) with (Z.of_nat (3 * k + 1)) by lia. rewrite H0, H1, next_cluster_even by zdiv.
    unfold zget. case_if; [lia|]. replace (Z.to_nat (2 * Z.of_nat k)) with (2 * k)%nat by lia. rewrite E0. f_equal. zdiv.
  - replace (2 * Z.of_nat k + 1 + (2 * Z.of_nat k + 1) / 2) with (Z.of_nat (3 * k + 1)) by zdiv.
    replace (Z.of_nat (3 * k + 1) + 1) with (Z.of_nat (3 * k + 2)) by lia. rewrite H1, H2, next_cluster_odd by zdiv.
    unfold zget. case_if; [lia|]. replace (Z.to_nat (2 * Z.of_nat k + 1)) with (2 * k + 1)%nat by lia. rewrite E1. f_equal. zdiv.
Qed.

Theorem fat12_roundtrip_witness : zget (fat_entries [(0xFF0, 0xFFF); (3, 0xABC)]) 3 =
  Some (fat12_entry (byte_at [0xF0; 0xFF; 0xFF; 0x03; 0xC0; 0xAB]) 3).
Proof.
  apply (fat12_roundtrip [(0xFF0, 0xFFF); (3, 0xABC)] 3).
  - repeat constructor; simpl; lia.
  - vm_compute. split; congruence.
Defined.

(** ** Reading a file *)

(** A disk of 2880 sectors whose contents do not change.  A read of sectors on it gives
    them, or stops the kernel; [read_fault lba n d] is what the device has done then. *)
Class Disk (D : Type) `{Hblock : BlockDevice D} `{Hsectors : !SectorDevice D} := {
  sector_of : D -> Z -> list Z;
  sector_size d k : zlen (sector_of d k) = BYTES_PER_SECTOR;
  read_fault : Z -> Z -> D -> Prop;
  disk_read lba n d : drive_ready d -> 0 <= lba -> 0 < n <= 16 -> lba + n <= 2880 ->
    (exists d', read_sectors lba n d = Ok (concat (sector_of d <$> seqZ lba n), d') /\
      forall k, sector_of d' k = sector_of d k) \/
    (read_sectors lba n d = Fail (Panic "error reading floppy!") /\ read_fault lba n d)
}.

Lemma concat_one {A} (f : Z -> list A) k : concat (f <$> seqZ k 1) = f k.
Proof. rewrite (seqZ_cons k 1), seqZ_nil by lia. cbn. by rewrite app_nil_r. Qed.

Section reading.
Context {D : Type} `{Hdisk : Disk D}.

Definition same_disk (d d' : D) : Prop := forall k, sector_of d' k = sector_of d k.

(** Byte [o] of the first FAT, and the entry of a cluster in it. *)
Definition fat_byte (d : D) (b : bios_parameter_block) (o : Z) : Z :=
  byte_at (sector_of d (num_of_reserved_sectors b + o / BYTES_PER_SECTOR)) (o `mod` BYTES_PER_SECTOR).
Definition fat_entry (d : D) (b : bios_parameter_block) (c : Z) : Z := fat12_entry (fat_byte d b) c.

Definition data_sector (b : bios_parameter_block) (c : Z) : Z := (c - 2) * sectors_per_cluster b + data_start b.

(** The FAT and data sectors of a cluster are on the disk. *)
Definition cluster_ok (b : bios_parameter_block) (c : Z) : Prop :=
  0 <= c /\ num_of_reserved_sectors b + (c + c / 2) / BYTES_PER_SECTOR + 2 <= 2880 /\ 0 <= data_sector b c < 2880.

(** The clusters of the chain that starts with [c]. *)
Fixpoint chain (d : D) (b : bios_parameter_block) (c : Z) (cl : list Z) : Prop :=
  match cl with
  | [] => 0xFF8 <= c
  | x :: cl' => x = c /\ c < 0xFF8 /\ cluster_ok b c /\ chain d b (fat_entry d b c) cl'
  end.

Definition contents (d : D) (b : bios_parameter_block) (cl : list Z) : list Z :=
  concat ((fun c => sector_of d (data_sector b c)) <$> cl).

Lemma same_disk_refl (d : D) : same_disk d d.
Proof. done. Qed.
Lemma same_disk_trans (d1 d2 d3 : D) : same_disk d1 d2 -> same_disk d2 d3 -> same_disk d1 d3.
Proof. intros H1 H2 k. by rewrite H2, H1. Qed.

Lemma chain_same d d' b cl : forall c, same_disk d d' -> chain d b c cl -> chain d' b c cl.
Proof.
  induction cl as [|x cl IH]; intros c Hs Hc; [done|]. destruct Hc as (H1 & H2 & H3 & H4).
  split; [done|]. split; [done|]. split; [done|]. apply IH; [done|].
  replace (fat_entry d' b c) with (fat_entry d b c); [done|]. unfold fat_entry, fat12_entry, fat_byte. by rewrite !Hs.
Qed.

Lemma contents_same d d' b cl : same_disk d d' -> contents d' b cl = contents d b cl.
Proof. intros Hs. unfold contents. f_equal. apply list_fmap_ext. intros i c _. apply Hs. Qed.

(** The cached window: [fat] begins with sectors [loaded] and [loaded + 1]. *)
Definition cached (d : D) (fat_ : list Z) (loaded : Z) : Prop :=
  forall k, 0 <= k < 1024 -> byte_at fat_ k = byte_at (sector_of d (loaded + k / BYTES_PER_SECTOR)) (k `mod` BYTES_PER_SECTOR).

Lemma byte_at_app_l a b k : 0 <= k < zlen a -> byte_at (a ++ b) k = byte_at a k.
Proof. intros Hk. unfold byte_at, zget, zlen in *. case_if; [lia|]. by rewrite lookup_app_l by lia. Qed.

Lemma byte_at_app_r a b k : zlen a <= k -> byte_at (a ++ b) k = byte_at b (k - zlen a).
Proof.
  intros Hk. pose proof (zlen_nonneg a). unfold byte_at, zget, zlen in *. repeat case_if; try lia.
  rewrite lookup_app_r by lia. do 2 f_equal. lia.
Qed.

Lemma concat_two (d : D) k : concat (sector_of d <$> seqZ k 2) = sector_of d k ++ sector_of d (k + 1).
Proof.
  rewrite (seqZ_cons k 2) by lia. rewrite (seqZ_cons (Z.succ k)) by lia. cbn [fmap list_fmap concat].
  rewrite seqZ_nil by lia. cbn. by rewrite app_nil_r.
Qed.

(** A read on a ready disk: the sectors, or the stop the device's fault leads to. *)
Lemma disk_step lba n (d : D) : drive_ready d -> 0 <= lba -> 0 < n <= 16 -> lba + n <= 2880 ->
  (exists d', read_sectors lba n d = Ok (concat (sector_of d <$> seqZ lba n), d') /\ drive_ready d' /\ same_disk d d') \/
  (read_sectors lba n d = Fail (Panic "error reading floppy!") /\ read_fault lba n d).
Proof.
  intros Hd Hl Hn Hm. destruct (disk_read lba n d Hd Hl Hn Hm) as [(d' & Hr & Hs)|Hf]; [left|by right]. exists d'.
  split; [done|]. split; [by eapply device_keeps in Hr as [_ ?]|done].
Qed.

(** The device, ready and with the disk as it is in [d], has failed in a read that is
    one of [P]. *)
Definition failed_in (P : Z -> Z -> Prop) (d : D) : Prop :=
  exists lba n d1, P lba n /\ drive_ready d1 /\ same_disk d d1 /\ read_fault lba n d1.

Lemma failed_now (P : Z -> Z -> Prop) lba n (d : D) : P lba n -> drive_ready d -> read_fault lba n d -> failed_in P d.
Proof. intros. by exists lba, n, d. Qed.

Lemma failed_later (P Q : Z -> Z -> Prop) (d d' : D) : (forall k n, Q k n -> P k n) -> same_disk d d' -> failed_in Q d' -> failed_in P d.
Proof.
  intros Hpq Hs (lba & n & d1 & Hq & Hd & Hs1 & Hf). exists lba, n, d1. split; [by apply Hpq|]. split; [done|].
  split; [by eapply same_disk_trans|done].
Qed.

(** The reads of [read_file] along a chain: two sectors of the FAT, one of data. *)
Definition fat_sector_of (b : bios_parameter_block) (c : Z) : Z := num_of_reserved_sectors b + (c + c / 2) / BYTES_PER_SECTOR.
Definition asked_for (b : bios_parameter_block) (cl : list Z) (lba n : Z) : Prop :=
  Exists (fun c => lba = fat_sector_of b c /\ n = 2 \/ lba = data_sector b c /\ n = 1) cl.

(** Loading the window of FAT sector [k], unless it is there already. *)
Lemma load_window (d : D) fat_ k loaded : drive_ready d ->
  0 < k -> k + 2 <= 2880 -> 1024 <= zlen fat_ -> (loaded <> 0 -> cached d fat_ loaded) -> loaded = 0 \/ 0 < loaded ->
  (exists fat' d', load_fat_sector fat_ k loaded d = Ok (fat', d') /\ drive_ready d' /\ cached d' fat' k /\ zlen fat' = zlen fat_ /\ same_disk d d') \/
  (load_fat_sector fat_ k loaded d = Fail (Panic "error reading floppy!") /\ read_fault k 2 d).
Proof.
  intros Hd Hk Hk2 Hl Hc Hlo. unfold load_fat_sector. destruct (k =? loaded) eqn:E; bool_to_prop; cbn [negb].
  { left. subst loaded. exists fat_, d. split; [done|]. split; [done|]. split; [apply Hc; lia|done]. }
  destruct (disk_step k 2 d Hd ltac:(lia) ltac:(lia) Hk2) as [(d' & Hr & Hd' & Hs)|[Hr Hf]];
    [left; rewrite concat_two in Hr|right; split; [by apply io_bind_fail|done]].
  pose proof (sector_size d k) as H1. pose proof (sector_size d (k + 1)) as H2. unfold BYTES_PER_SECTOR in *.
  rewrite (io_bind_step _ _ _ _ d' Hr). unfold write_block. rewrite zlen_app, H1, H2.
  replace (_ && _) with true by lia. change (Z.to_nat 0) with 0%nat. eexists _, d'. split; [reflexivity|].
  rewrite take_0, app_nil_l. cbn [Nat.add]. split; [done|]. split; [|split; [|exact Hs]].
  - intros i Hi. rewrite byte_at_app_l by (rewrite zlen_app; lia). rewrite Hs. unfold BYTES_PER_SECTOR.
    destruct (Z.lt_ge_cases i 512).
    + rewrite byte_at_app_l by lia. f_equal; [f_equal; zdiv|zdiv].
    + rewrite byte_at_app_r by lia. f_equal; [f_equal; zdiv|zdiv].
  - unfold zlen in *. rewrite !length_app, length_drop. repeat rewrite length_app. lia.
Qed.

Lemma cached_entry (d : D) fat_ b c :
  0 <= c -> cached d fat_ (num_of_reserved_sectors b + (c + c / 2) / BYTES_PER_SECTOR) ->
  let eo := (c + c / 2) `mod` BYTES_PER_SECTOR in
  byte_at fat_ eo = fat_byte d b (c + c / 2) /\ byte_at fat_ (eo + 1) = fat_byte d b (c + c / 2 + 1).
Proof.
  intros Hc Hca eo. unfold cached, fat_byte, BYTES_PER_SECTOR in *. set (o := c + c / 2) in *.
  assert (0 <= o) by (unfold o; zdiv). rewrite !Hca by (unfold eo; zdiv). unfold eo. clearbody o. clear.
  split; (f_equal; [f_equal|]; zdiv).
Qed.

Lemma aget_byte_at l i : 0 <= i < zlen l -> aget l i = Ok (byte_at l i).
Proof. intros Hi. unfold aget, byte_at. by destruct (zget_is_Some l i Hi) as [x ->]. Qed.

Lemma write_block_at pre old new rest :
  length old = length new -> write_block (pre ++ old ++ rest) (zlen pre) new = Ok (pre ++ new ++ rest).
Proof.
  intros Hl. unfold write_block, zlen. rewrite !length_app.
  rewrite Hl. destruct (_ && _) eqn:E; [|apply andb_false_iff in E as [E|E]; bool_to_prop; lia].
  rewrite Nat2Z.id, take_app_length, <- Hl.
  by rewrite (app_assoc pre old), drop_app_length' by (rewrite length_app; lia).
Qed.

(** The loop of [read_file] on a chain of clusters. *)
Lemma read_loop_chain b cl : forall fuel (d : D) fat_ pre buf c loaded, drive_ready d ->
  0 < num_of_reserved_sectors b -> chain d b c cl -> (length cl < fuel)%nat ->
  1024 <= zlen fat_ -> (loaded <> 0 -> cached d fat_ loaded) -> loaded = 0 \/ 0 < loaded ->
  512 * zlen cl <= zlen buf ->
  (exists fat' d', read_loop fuel b (data_start b) fat_ (pre ++ buf) (zlen pre) c loaded d =
      Ok ((fat', pre ++ contents d b cl ++ drop (512 * length cl) buf), d') /\
    zlen fat' = zlen fat_ /\ drive_ready d' /\ same_disk d d') \/
  (read_loop fuel b (data_start b) fat_ (pre ++ buf) (zlen pre) c loaded d = Fail (Panic "error reading floppy!") /\
    failed_in (asked_for b cl) d).
Proof.
  induction cl as [|x cl IH]; intros fuel d fat_ pre buf c loaded Hd Hres Hch Hfu Hfat Hca Hlo Hbuf;
    (destruct fuel as [|f]; [simpl in Hfu; lia|]); cbn [read_loop].
  { cbn [chain] in Hch. replace (c <? 0xFF8) with false by lia. left. exists fat_, d. split; [|done].
    cbn. by rewrite drop_0. }
  destruct Hch as (-> & Hlt & (Hc0 & Hfs & Hds) & Hch). replace (c <? 0xFF8) with true by lia. cbn [negb].
  set (fs_ := num_of_reserved_sectors b + (c + c / 2) / BYTES_PER_SECTOR) in *. set (ds := data_sector b c) in *.
  assert (0 < fs_) by (unfold fs_, BYTES_PER_SECTOR in *; zdiv).
  destruct (load_window d fat_ fs_ loaded Hd ltac:(done) Hfs Hfat Hca Hlo) as [(fat' & d1 & Hw & Hd1 & Hca1 & Hl1 & Hs1)|[Hw Hfl]];
    [|right; split; [by apply io_bind_fail|by apply (failed_now _ fs_ 2); [apply Exists_cons; left; left| |]]].
  rewrite (io_bind_step _ _ _ fat' d1 Hw).
  replace ((c - 2) * sectors_per_cluster b + data_start b) with ds by done. rewrite (wrap_small 16) by lia.
  destruct (disk_step ds 1 d1 Hd1 ltac:(lia) ltac:(lia) ltac:(lia)) as [(d2 & Hr & Hd2 & Hs2)|[Hr Hfl]];
    [rewrite concat_one in Hr|right; split; [by apply io_bind_fail|
      by exists ds, 1, d1; split; [apply Exists_cons; left; right|]]].
  rewrite (io_bind_step _ _ _ _ d2 Hr). rewrite zlen_cons in Hbuf. pose proof (zlen_nonneg cl).
  pose proof (sector_size d1 ds) as Hsz. unfold BYTES_PER_SECTOR in Hsz.
  pose proof (write_block_at pre (take 512 buf) (sector_of d1 ds) (drop 512 buf)) as Hwb.
  rewrite take_drop in Hwb. specialize (Hwb ltac:(rewrite length_take; unfold zlen in *; lia)).
  rewrite (io_bind_step _ _ _ (pre ++ sector_of d1 ds ++ drop 512 buf) d2) by (unfold io_lift; by rewrite Hwb).
  pose proof (cached_entry d1 fat' b c Hc0 Hca1) as [He0 He1].
  assert (0 <= (c + c / 2) `mod` BYTES_PER_SECTOR < 512) by (apply Z.mod_pos_bound; done).
  rewrite (io_bind_step _ _ _ (fat_byte d b (c + c / 2)) d2) by (unfold io_lift; rewrite aget_byte_at, He0 by lia; unfold fat_byte; by rewrite Hs1).
  rewrite (io_bind_step _ _ _ (fat_byte d b (c + c / 2 + 1)) d2) by (unfold io_lift; rewrite aget_byte_at, He1 by lia; unfold fat_byte; by rewrite Hs1).
  assert (same_disk d d2) as Hs02 by (eapply same_disk_trans; done).
  replace (zlen pre + BYTES_PER_SECTOR) with (zlen (pre ++ sector_of d1 ds)) by (rewrite zlen_app, Hsz; done).
  rewrite app_assoc. fold (fat12_entry (fat_byte d b) c). fold (fat_entry d b c).
  destruct (IH f d2 fat' (pre ++ sector_of d1 ds) (drop 512 buf) (fat_entry d b c) fs_ Hd2 Hres)
    as [(fat'' & d3 & Hrun & Hl3 & Hd3 & Hs3)|[Hrun Hfl]].
  - by eapply chain_same.
  - simpl in Hfu. lia.
  - lia.
  - intros _ k Hk. rewrite Hca1 by done. by rewrite Hs2.
  - by right.
  - unfold zlen in *. rewrite length_drop. lia.
  - left. exists fat'', d3. rewrite Hrun. split; [|split; [lia|split; [done|by eapply same_disk_trans]]].
    rewrite drop_drop, (contents_same d d2), Hs1 by done. unfold contents. cbn [fmap list_fmap concat].
    fold ds. replace (512 * length (c :: cl))%nat with (512 + 512 * length cl)%nat by (simpl; lia).
    by rewrite <- !app_assoc.
  - right. split; [exact Hrun|]. eapply failed_later; [|done..]. intros k n Hk. apply Exists_cons. by right.
Qed.
End reading.

(** [read_file] of a file whose cluster chain is sound: the block it returns begins
    with the sectors of the chain's clusters in order, whatever the disk holds
    elsewhere and wherever the chain leads, and the bytes behind them are untouched.
    Only the device's failing to read one of those sectors, or of the FAT's, stops it. *)
Theorem read_file_correct {D} `{Disk D} fresh s path (d : D) b fat_ e cl :
  drive_ready d -> bpb s = Some b -> fat s = Some fat_ -> resolve_path s path = Ok (Some e) ->
  0 < num_of_reserved_sectors b -> 1024 <= zlen fat_ ->
  size e <> 0 -> zlen (fresh (size e)) = room (size e) ->
  chain d b (cluster_num_lo e) cl -> 512 * zlen cl <= room (size e) ->
  (exists s' d', read_file fresh s path d =
      Ok ((Some (contents d b cl ++ drop (512 * length cl) (fresh (size e))), s'), d') /\ drive_ready d' /\ same_disk d d') \/
  (read_file fresh s path d = Fail (Panic "error reading floppy!") /\ failed_in (asked_for b cl) d).
Proof.
  intros Hd Hb Hf He Hres Hfat Hsz Hroom Hch Hlen. unfold read_file.
  rewrite (io_bind_step _ _ _ b d) by (by rewrite Hb). rewrite (io_bind_step _ _ _ fat_ d) by (by rewrite Hf).
  rewrite (io_bind_step _ _ _ (Some e) d) by (by rewrite He).
  destruct (read_loop_chain b cl (S (length (fresh (size e)))) d fat_ [] (fresh (size e)) (cluster_num_lo e) 0
    Hd Hres Hch) as [(fat' & d' & Hrun & _ & Hd' & Hs)|[Hrun Hfl]]; [unfold zlen in *; lia|done|done|by left|lia|left|right];
    cbn [app] in Hrun; change (zlen []) with 0 in Hrun; [|by split; [apply io_bind_fail|]].
  rewrite (io_bind_step _ _ _ _ d' Hrun). replace (size e =? 0) with false by lia. by eexists _, d'.
Qed.

(** ** The start of the file system *)

(** Where the root directory lies, and that it can be read at once. *)
Definition root_sector (b : bios_parameter_block) : Z := num_of_reserved_sectors b + sectors_per_fat b * num_of_fats b.
Definition root_count (b : bios_parameter_block) : Z := SIZEOF_ENTRY * num_of_directory_entries b / BYTES_PER_SECTOR.
Definition root_ok (b : bios_parameter_block) : Prop :=
  0 <= root_sector b /\ 0 < root_count b <= 16 /\ root_sector b + root_count b <= 2880.

(** The two tables that are read, from the bytes of their sectors. *)
Definition boot_block (fresh : Z -> list Z) (bytes : list Z) : outcome bios_parameter_block :=
  block ← write_block (fresh SIZEOF_BPB) 0 bytes;
  _ ← assert_ (bytes_per_sector (bpb_of block) =? BYTES_PER_SECTOR) "unsupported number of bytes per sector!";
  Ok (bpb_of block).
Definition root_block (fresh : Z -> list Z) (b : bios_parameter_block) (bytes : list Z) : outcome (list Z) :=
  write_block (fresh (SIZEOF_ENTRY * num_of_directory_entries b)) 0 bytes.

Lemma read_boot_param_block_step {D} `{BlockDevice D} fresh (d : D) bytes d' : read_sectors 0 1 d = Ok (bytes, d') ->
  read_boot_param_block fresh d = (b ← boot_block fresh bytes; Ok (Fs (Some b) None None, d')).
Proof.
  intros Hr. unfold read_boot_param_block, boot_block. rewrite (io_bind_step _ _ _ _ _ Hr).
  destruct (write_block _ 0 bytes) as [block|e]; [|done]. rewrite lift_Ok. cbv zeta. unfold io_assert. rewrite bind_ok.
  by destruct (bytes_per_sector (bpb_of block) =? BYTES_PER_SECTOR).
Qed.

Lemma read_root_directory_step {D} `{BlockDevice D} fresh b (d : D) bytes d' :
  read_sectors (root_sector b) (root_count b) d = Ok (bytes, d') ->
  read_root_directory fresh (Fs (Some b) None None) d = (dir ← root_block fresh b bytes; Ok (Fs (Some b) (Some dir) None, d')).
Proof.
  intros Hr. unfold read_root_directory, root_block. cbn [bpb fat of_option]. rewrite lift_Ok. cbv zeta.
  fold (root_sector b). fold (root_count b). rewrite (io_bind_step _ _ _ _ _ Hr). by destruct (write_block _ 0 bytes).
Qed.

(** The tables of a volume, from its sectors. *)
Definition volume (fresh : Z -> list Z) (sectors : Z -> list Z) : outcome fs :=
  b ← boot_block fresh (sectors 0);
  dir ← root_block fresh b (concat (sectors <$> seqZ (root_sector b) (root_count b)));
  let s := Fs (Some b) (Some dir) (Some (fresh (2 * BYTES_PER_SECTOR))) in
  kernel ← resolve_path s kernel_path;
  _ ← assert_ (match kernel with Some _ => true | None => false end) "couldn't get kernel file!";
  Ok s.

(** [init] on a disk makes the tables of its volume, or stops where they cannot be
    made; two reads are all it asks of the device, and it also stops where one fails. *)
Theorem init_reads_volume {D} `{Disk D} fresh (d : D) (Hd : drive_ready d)
    (Hroot : forall b, boot_block fresh (sector_of d 0) = Ok b -> root_ok b) :
  match volume fresh (sector_of d) with
  | Fail e => init fresh d = Fail e
  | Ok s => exists d', init fresh d = Ok (s, d') /\ drive_ready d' /\ same_disk d d'
  end \/
  (init fresh d = Fail (Panic "error reading floppy!") /\
    failed_in (fun lba n => lba = 0 /\ n = 1 \/
      exists b, boot_block fresh (sector_of d 0) = Ok b /\ lba = root_sector b /\ n = root_count b) d).
Proof.
  unfold volume, init.
  destruct (disk_step 0 1 d Hd ltac:(lia) ltac:(lia) ltac:(lia)) as [(d1 & H1 & Hd1 & Hs1)|[H1 Hf1]];
    [rewrite concat_one in H1|right; split; [by do 2 apply io_bind_fail|by apply (failed_now _ 0 1); [left| |]]].
  pose proof (read_boot_param_block_step fresh d _ d1 H1) as B.
  destruct (boot_block fresh (sector_of d 0)) as [b|e]; [|by left; apply io_bind_fail]. rewrite bind_ok in B. rewrite bind_ok. rewrite (io_bind_step _ _ _ _ _ B).
  destruct (Hroot b eq_refl) as (R1 & R2 & R3).
  destruct (disk_step (root_sector b) (root_count b) d1 Hd1 R1 R2 R3) as [(d2 & H2 & Hd2 & Hs2)|[H2 Hf2]]; [left|right].
  2: { split; [apply io_bind_fail; unfold read_root_directory; cbn [bpb of_option]; rewrite lift_Ok; by apply io_bind_fail|].
       exists (root_sector b), (root_count b), d1. split; [right; by exists b|done]. }
  pose proof (read_root_directory_step fresh b d1 _ d2 H2) as R.
  replace (concat (sector_of d1 <$> seqZ (root_sector b) (root_count b))) with
    (concat (sector_of d <$> seqZ (root_sector b) (root_count b))) in R by (f_equal; apply list_fmap_ext; intros; symmetry; apply Hs1).
  destruct (root_block fresh b _) as [dir|e]; [|by apply io_bind_fail]. rewrite bind_ok in R. rewrite bind_ok. rewrite (io_bind_step _ _ _ _ _ R).
  cbn [bpb root_dir]. cbv zeta. destruct (resolve_path _ kernel_path) as [[kernel|]|e]; [|done..]. rewrite lift_Ok, bind_ok. exists d2.
  split; [done|]. split; [done|by eapply same_disk_trans].
Qed.

(** ** Resolving a name in the root directory *)

Definition pad (n : nat) (s : list Z) : list Z := (toupper <$> s) ++ replicate (n - length s) 32.

(** The 11 bytes of a directory entry for a name and an extension. *)
Definition fragment_of (name ext : list Z) : list Z := pad 8 name ++ pad 3 ext.

Definition name_char (c : Z) : Prop := 0 < c < 256 /\ c <> 47 /\ c <> 46.

(** The path of a file in the root directory: "/NAME" or "/NAME.EXT". *)
Definition root_path (name : list Z) (ext : option (list Z)) : list Z :=
  47 :: name ++ (match ext with None => [] | Some e => 46 :: e end).

Record dos_name (name : list Z) (ext : option (list Z)) : Prop := {
  dos_chars : Forall name_char name;
  dos_length : (length name <= 8)%nat;
  dos_ext_chars : Forall name_char (default [] ext);
  dos_ext_length : (length (default [] ext) <= 3)%nat
}.

Lemma strchr_found l1 c l2 i : Forall (fun x => x <> c) l1 -> strchr_from (l1 ++ c :: l2) c i = Some (i + zlen l1).
Proof.
  revert i. induction l1 as [|x l1 IH]; intros i Hl; cbn [app strchr_from].
  { rewrite Z.eqb_refl. f_equal. zlen_nil. lia. }
  apply Forall_cons in Hl as [Hx Hl]. replace (x =? c) with false by lia. rewrite IH by done. f_equal. zlen_lia.
Qed.

Lemma strchr_missing l c i : Forall (fun x => x <> c) l -> strchr_from l c i = None.
Proof.
  revert i. induction l as [|x l IH]; intros i Hl; [done|]. apply Forall_cons in Hl as [Hx Hl].
  cbn [strchr_from]. replace (x =? c) with false by lia. by apply IH.
Qed.

Lemma char_at_middle l x r : char_at (l ++ x :: r) (zlen l) = Ok x.
Proof.
  unfold char_at. rewrite zlen_app, zlen_cons. pose proof (zlen_nonneg r).
  case_if; [lia|]. unfold aget. by rewrite zget_middle.
Qed.

Lemma char_at_end l : char_at l (zlen l) = Ok 0.
Proof. unfold char_at. by rewrite Z.eqb_refl. Qed.

Lemma fill_spaces n path rest stop : stop <= rest -> fill_fragment n path rest stop = Ok (replicate n 32, rest).
Proof.
  intros Hs. induction n as [|n IH]; cbn [fill_fragment]; [done|]. replace (stop <=? rest) with true by lia.
  by rewrite IH.
Qed.

Lemma fill_name cs : forall n pre post, (length cs <= n)%nat ->
  fill_fragment n (pre ++ cs ++ post) (zlen pre) (zlen pre + zlen cs) = Ok (pad n cs, zlen pre + zlen cs).
Proof.
  induction cs as [|c cs IH]; intros n pre post Hn.
  { rewrite fill_spaces by (zlen_nil; lia). unfold pad. zlen_nil. by rewrite Nat.sub_0_r, Z.add_0_r. }
  destruct n as [|n]; [simpl in Hn; lia|]. rewrite zlen_cons. pose proof (zlen_nonneg cs).
  cbn [fill_fragment]. replace (_ <=? zlen pre) with false by lia.
  cbn [app]. rewrite char_at_middle. cbn [mbind outcome_bind].
  specialize (IH n (pre ++ [c]) post ltac:(simpl in Hn; lia)). rewrite zlen_app, <- app_assoc in IH. change (zlen [c]) with 1 in IH.
  cbn [app] in IH. replace (zlen pre + (1 + zlen cs)) with (zlen pre + 1 + zlen cs) by lia. rewrite IH. done.
Qed.

Lemma name_char_ne c l : Forall name_char l -> (c = 47 \/ c = 46) -> Forall (fun x => x <> c) l.
Proof. intros Hl Hc. eapply Forall_impl; [exact Hl|]. intros x (_ & H1 & H2). destruct Hc; subst; done. Qed.

Lemma read_fragment_root name ext :
  dos_name name ext ->
  read_next_fragment (root_path name ext) 1 = Ok (fragment_of name (default [] ext), zlen (root_path name ext)).
Proof.
  intros [Hn Hnl He Hel]. unfold read_next_fragment.
  assert (strchr_at (root_path name ext) 47 1 = None) as ->.
  { apply strchr_missing. destruct ext as [e|]; cbn [default] in *;
      [|change (drop (Z.to_nat 1) (root_path name None)) with (name ++ []); rewrite app_nil_r; by apply name_char_ne; [|left]].
    apply Forall_app. split; [by apply name_char_ne; [|left]|]. constructor; [done|by apply name_char_ne; [|left]]. }
  assert (strchr_at (root_path name ext) 46 1 = (fun _ => 1 + zlen name) <$> ext) as ->.
  { destruct ext as [e|]; cbn [fmap option_fmap option_map]; [apply strchr_found|apply strchr_missing; change (drop (Z.to_nat 1) (root_path name None)) with (name ++ []); rewrite app_nil_r];
      (apply name_char_ne; [done|by right]). }
  cbn [default]. unfold file_name_size, file_full_name_size, root_path, fragment_of. pose proof (zlen_nonneg name).
  destruct ext as [e|]; cbn [fmap option_fmap option_map default from_option] in *.
  - pose proof (fill_name name 8 [47] (46 :: e) Hnl) as Hf. change (zlen [47]) with 1 in Hf. cbn [app] in Hf.
    rewrite Z.min_l by (rewrite zlen_cons, zlen_app; zlen_lia). rewrite Hf. cbn [mbind outcome_bind].
    pose proof (char_at_middle (47 :: name) 46 e) as Hc. rewrite zlen_cons in Hc. cbn [app] in Hc.
    rewrite Hc. cbn [mbind outcome_bind]. rewrite !Z.eqb_refl. cbn [andb assert_ mbind outcome_bind].
    pose proof (fill_name e 3 (47 :: name ++ [46]) []) as He3. rewrite app_nil_r in He3. cbn [app] in He3.
    rewrite <- app_assoc in He3. cbn [app] in He3. rewrite !zlen_cons, !zlen_app, zlen_cons in *. zlen_nil.
    cbn [Nat.sub]. replace (1 + (zlen name + (1 + zlen e))) with (1 + (zlen name + (1 + 0)) + zlen e) by lia.
    replace (1 + zlen name + 1) with (1 + (zlen name + (1 + 0))) by lia. by rewrite He3.
  - rewrite app_nil_r. pose proof (fill_name name 8 [47] [] Hnl) as Hf. rewrite app_nil_r in Hf.
    change (zlen [47]) with 1 in Hf. cbn [app] in Hf. rewrite zlen_cons, Hf. cbn [mbind outcome_bind].
    by rewrite fill_spaces.
Qed.

Lemma strncmp_equal_eq n : forall a b, length a = n -> length b = n -> Forall (fun c => c <> 0) b ->
  strncmp_equal n a b = bool_decide (a = b).
Proof.
  induction n as [|n IH]; intros a b Ha Hb Hz; (destruct a as [|x a], b as [|y b]; try done).
  apply Forall_cons in Hz as [Hy Hz]. cbn [strncmp_equal head default tail from_option]. unfold id.
  destruct (x =? y) eqn:E; bool_to_prop; cbn [negb].
  - subst. replace (y =? 0) with false by lia. cbn [andb]. rewrite IH by (done || simpl in *; lia).
    apply bool_decide_ext. naive_solver.
  - symmetry. apply bool_decide_eq_false. naive_solver.
Qed.

Lemma toupper_nonzero c : 0 < c -> toupper c <> 0.
Proof. unfold toupper, islower, EOF. intros. repeat case_if; lia. Qed.

Lemma pad_length n s : (length s <= n)%nat -> length (pad n s) = n.
Proof. intros. unfold pad. rewrite length_app, length_fmap, length_replicate. lia. Qed.

Lemma pad_nonzero n s : Forall name_char s -> Forall (fun c => c <> 0) (pad n s).
Proof.
  intros Hs. apply Forall_app. split; [|by apply Forall_replicate].
  apply Forall_fmap. eapply Forall_impl; [exact Hs|]. intros c ((Hc & _) & _). by apply toupper_nonzero.
Qed.

Lemma fragment_spec name ext : dos_name name ext ->
  length (fragment_of name (default [] ext)) = 11%nat /\ Forall (fun c => c <> 0) (fragment_of name (default [] ext)).
Proof.
  intros [Hn Hnl He Hel]. unfold fragment_of. rewrite length_app, !pad_length by done. split; [done|].
  apply Forall_app. split; by apply pad_nonzero.
Qed.

(** The first of [n] entries from [i] on with an 11-byte name. *)
Fixpoint first_entry (n : nat) (dir : list Z) (i : Z) (fragment : list Z) : option directory_entry :=
  match n with
  | O => None
  | S n' =>
      let e := entry_of dir (i * SIZEOF_ENTRY) in
      if bool_decide (short_file_full_name e = fragment) then Some e else first_entry n' dir (i + 1) fragment
  end.

Lemma entry_name_length dir i : 0 <= i -> (i + 1) * 32 <= zlen dir ->
  length (short_file_full_name (entry_of dir (i * SIZEOF_ENTRY))) = 11%nat.
Proof.
  intros Hi Hd. unfold entry_of, bytes_at, SIZEOF_ENTRY, zlen in *. cbn [short_file_full_name].
  rewrite length_take, length_drop. lia.
Qed.

Lemma resolve_loop_root n : forall fuel dir ds path fragment i,
  (n < fuel)%nat -> ds = i + Z.of_nat n -> 0 <= i -> 32 * ds <= zlen dir ->
  length fragment = 11%nat -> Forall (fun c => c <> 0) fragment ->
  resolve_loop fuel dir ds path fragment (zlen path) 0 i =
    match first_entry n dir i fragment with
    | None => Ok None
    | Some e => if Z.land (attributes e) DIRECTORY =? 0 then Ok (Some e)
                else Fail (AssertFailed "file should not be a directory!")
    end.
Proof.
  induction n as [|n IH]; intros fuel dir ds path fragment i Hfu Hds Hi Hd Hl Hz; (destruct fuel as [|f]; [lia|]);
    cbn [resolve_loop first_entry].
  { by replace (ds <=? i) with true by lia. }
  replace (ds <=? i) with false by lia. unfold entry_at. rewrite !Z.add_0_l. unfold SIZEOF_ENTRY at 1.
  replace (_ && _) with true by lia. cbn [mbind outcome_bind].
  unfold file_full_name_size. rewrite strncmp_equal_eq by (done || (apply entry_name_length; lia)).
  case_bool_decide.
  - rewrite char_at_end. cbn [mbind outcome_bind Z.eqb]. unfold assert_. by destruct (_ =? 0).
  - rewrite IH; [done|lia|lia|lia|done..].
Qed.

(** [C32] Looking up a file in the root directory: a DOS name of up to eight and three
    characters, in either case, resolves to the first entry with those eleven
    characters in capitals and padded with blanks, and to nothing when there is
    none; an entry that is a directory stops the kernel. *)
Theorem resolve_root_file s dir b name ext :
  root_dir s = Some dir -> bpb s = Some b -> dos_name name ext ->
  0 <= num_of_directory_entries b -> 32 * num_of_directory_entries b <= zlen dir ->
  resolve_path s (root_path name ext) =
    match first_entry (Z.to_nat (num_of_directory_entries b)) dir 0 (fragment_of name (default [] ext)) with
    | None => Ok None
    | Some e => if Z.land (attributes e) DIRECTORY =? 0 then Ok (Some e)
                else Fail (AssertFailed "file should not be a directory!")
    end.
Proof.
  intros Hdir Hb Hn H0 Hd. unfold resolve_path. rewrite Hdir, Hb. cbn [of_option mbind outcome_bind].
  assert (char_at (root_path name ext) 0 = Ok 47) as -> by done. cbn [mbind outcome_bind Z.eqb Pos.eqb assert_].
  rewrite (read_fragment_root name ext Hn). cbn [mbind outcome_bind]. destruct (fragment_spec name ext Hn) as [Hl Hz].
  apply resolve_loop_root; try done; unfold zlen in *; lia.
Qed.

(** ** A disk in memory *)

(** Sectors are the contents given, cut or padded to 512 bytes. *)
Record ram_disk := RamDisk { ram_contents : Z -> list Z }.
Definition ram_sector (d : ram_disk) (k : Z) : list Z := take 512 (ram_contents d k ++ replicate 512 0).

#[export] Instance ram_device : BlockDevice ram_disk := {
  read_sectors lba n := fun d =>
    if (0 <=? lba) && (lba + n <=? 2880) then Ok (concat (ram_sector d <$> seqZ lba n), d)
    else Fail (Panic "error reading floppy!")
}.

Lemma ram_sector_length d k : length (ram_sector d k) = 512%nat.
Proof. unfold ram_sector. rewrite length_take, length_app, length_replicate. lia. Qed.

Lemma concat_sectors_length d l : zlen (concat (ram_sector d <$> l)) = 512 * zlen l.
Proof.
  induction l as [|k l IH]; [done|]. cbn [fmap list_fmap concat]. rewrite zlen_app, zlen_cons, IH.
  unfold zlen at 1. rewrite ram_sector_length. lia.
Qed.

#[export] Instance ram_is_sector_device : SectorDevice ram_disk.
Proof.
  refine {| drive_ready _ := True |}.
  - intros lba n d _ _. cbn. by case_if.
  - intros lba n d bytes d' _ Hn. cbn. case_if; [|done]. intros [= <- <-].
    rewrite concat_sectors_length. unfold zlen. rewrite length_seqZ. unfold BYTES_PER_SECTOR. split; [lia|done].
Defined.

#[export] Instance ram_is_disk : Disk ram_disk.
Proof.
  refine {| sector_of := ram_sector; read_fault _ _ _ := False |}.
  - intros d k. unfold zlen. by rewrite ram_sector_length.
  - intros lba n d _ H0 Hn Hl. left. cbn. replace (_ && _) with true by lia. by eexists.
Defined.

(** A small volume: boot sector, one FAT sector, one sector of root directory, and
    the file KERNEL in clusters 2 and 4. *)
Definition boot_sector : list Z :=
  [0xEB; 0x3C; 0x90] ++ replicate 8 0x20 ++ [0; 2; 1; 1; 0; 1; 16; 0; 8; 0; 0xF0; 1; 0; 18; 0; 2; 0] ++ replicate 34 0.
Definition kernel_entry : list Z :=
  [75; 69; 82; 78; 69; 76; 32; 32; 32; 32; 32; 0x20] ++ replicate 14 0 ++ [2; 0; 0xE8; 3; 0; 0].
Definition sample_disk : ram_disk := RamDisk (fun k =>
  if k =? 0 then boot_sector
  else if k =? 1 then fat_bytes [(0xFF0, 0xFFF); (4, 0xFFF); (0xFFF, 0)]
  else if k =? 2 then kernel_entry
  else if k =? 3 then replicate 512 0x41
  else if k =? 5 then replicate 488 0x42 else []).
Definition heap_block (n : Z) : list Z := replicate (Z.to_nat (room n)) 0xCC.

Definition sample_fs : fs :=
  match init heap_block sample_disk with Ok (s, _) => s | Fail _ => no_fs end.

Lemma sample_init : is_ok (init heap_block sample_disk) = true.
Proof. vm_compute. reflexivity. Qed.

Theorem read_file_terminates_witness :
  terminates (resolve_path sample_fs kernel_path) /\ terminates (read_file heap_block sample_fs kernel_path sample_disk).
Proof. apply (read_file_terminates (D := ram_disk) (H0 := ram_is_sector_device) heap_block sample_fs kernel_path sample_disk I). Defined.

Definition sample_bpb : bios_parameter_block := bpb_of boot_sector.
Definition sample_entry : directory_entry := entry_of kernel_entry 0.

Theorem resolve_root_file_witness : exists dir,
  root_dir sample_fs = Some dir /\
  resolve_path sample_fs (root_path [107; 101; 114; 110; 101; 108] None) =
    match first_entry 16 dir 0 (fragment_of [107; 101; 114; 110; 101; 108] []) with
    | None => Ok None
    | Some e => if Z.land (attributes e) DIRECTORY =? 0 then Ok (Some e)
                else Fail (AssertFailed "file should not be a directory!")
    end.
Proof.
  assert (match root_dir sample_fs with Some dir => 512 <=? zlen dir | None => false end = true) as Hlen by (vm_compute; reflexivity).
  destruct (root_dir sample_fs) as [dir|] eqn:Hdir; [|discriminate Hlen]. apply Z.leb_le in Hlen.
  exists dir. split; [reflexivity|].
  apply (resolve_root_file sample_fs dir sample_bpb [107; 101; 114; 110; 101; 108] None).
  - exact Hdir.
  - vm_compute. reflexivity.
  - split; [repeat constructor; lia|simpl; lia|constructor|simpl; lia].
  - vm_compute. discriminate.
  - exact Hlen.
Defined.

Theorem read_file_correct_witness : exists s' d' fat_,
  fat sample_fs = Some fat_ /\
  read_file heap_block sample_fs kernel_path sample_disk =
    Ok ((Some (contents sample_disk sample_bpb [2; 4] ++ drop 1024 (heap_block 1000)), s'), d') /\
  same_disk sample_disk d'.
Proof.
  assert (match fat sample_fs with Some f => 1024 <=? zlen f | None => false end = true) as Hlen by (vm_compute; reflexivity).
  destruct (fat sample_fs) as [fat_|] eqn:Hfat; [|discriminate Hlen]. apply Z.leb_le in Hlen.
  destruct (read_file_correct heap_block sample_fs kernel_path sample_disk sample_bpb fat_ sample_entry [2; 4])
    as [(s' & d' & Hr & _ & Hs)|(_ & ? & ? & ? & _ & _ & _ & [])].
  - exact I.
  - vm_compute. reflexivity.
  - exact Hfat.
  - vm_compute. reflexivity.
  - vm_compute. reflexivity.
  - exact Hlen.
  - vm_compute. discriminate.
  - vm_compute. reflexivity.
  - cbn [chain]. split; [vm_compute; reflexivity|]. split; [vm_compute; reflexivity|]. split.
    { unfold cluster_ok. vm_compute. repeat split; discriminate. }
    split; [vm_compute; reflexivity|]. split; [vm_compute; reflexivity|]. split.
    { unfold cluster_ok. vm_compute. repeat split; discriminate. }
    vm_compute. discriminate.
  - vm_compute. discriminate.
  - exists s', d', fat_. split; [reflexivity|]. split; [exact Hr|exact Hs].
Defined.

(** The directory part of a path is never skipped over: behind the directory's
    entry the fragment looked for is eleven blanks. *)
Theorem nested_fragment_blank name post :
  Forall name_char name -> (length name <= 8)%nat -> Forall (fun c => c <> 46) post ->
  exists rest, read_next_fragment (47 :: name ++ 47 :: post) 1 = Ok (pad 8 name ++ replicate 3 32, rest) /\
    read_next_fragment (47 :: name ++ 47 :: post) rest = Ok (replicate 11 32, rest).
Proof.
  intros Hn Hl Hp. set (path := 47 :: name ++ 47 :: post). exists (1 + zlen name). pose proof (zlen_nonneg name).
  assert (drop (Z.to_nat 1) path = name ++ 47 :: post) as Hd1 by done.
  assert (drop (Z.to_nat (1 + zlen name)) path = 47 :: post) as Hd2.
  { replace (Z.to_nat (1 + zlen name)) with (S (length name)) by (unfold zlen; lia). apply drop_app_length. }
  assert (Forall (fun x => x <> 46) (47 :: post)) as Hp' by (by constructor).
  unfold read_next_fragment, strchr_at. rewrite Hd1, Hd2.
  rewrite strchr_found by (by apply name_char_ne; [|left]).
  rewrite !strchr_missing by (done || (apply Forall_app; split; [by apply name_char_ne; [|right]|done])).
  cbn [default from_option strchr_from Z.eqb Pos.eqb]. unfold id, file_name_size, file_full_name_size.
  pose proof (fill_name name 8 [47] (47 :: post) Hl) as Hf. change (zlen [47]) with 1 in Hf. cbn [app] in Hf. fold path in Hf.
  rewrite Hf. cbn [mbind outcome_bind]. rewrite (strchr_missing post) by done.
  rewrite !fill_spaces by lia. cbn [mbind outcome_bind]. rewrite !fill_spaces by lia. done.
Qed.
