(* ===== verification/FloppyDisk.v ===== *)
(** * kernel/floppy.cpp with kernel/dma.cpp: reading sectors

    What the driver's two parts do together: the transfer is programmed into the
    DMA controller, the read command sent, and the bytes copied out of the buffer.
    [FloppyDrive] states how an 8237A's second channel takes its registers and what
    a read command that ends normally has transferred; the file system's device of
    Filesystem.v is implemented on top of it. *)
From S2P Require Import Prelude Util CString Io Pic Paging PagingInit LowMemory Dma Floppy Filesystem.

#[local] Arguments wrap : simpl never.

(** ** Channel 2 of the DMA controller *)

Record dma_channel := DmaChannel {
  dma_address : Z; dma_count : Z; dma_page : Z;
  flip_flop : bool;                (* the next byte is a register's high one *)
  dma_mode : Z; dma_masked : bool
}.

(** A byte arrives at a 16-bit register. *)
Definition put_byte (high : bool) (w v : Z) : Z := if high then w `mod` 256 + 256 * v else w / 256 * 256 + v.

Definition dma_write (p v : Z) (c : dma_channel) : dma_channel :=
  if p =? START_ADDRESS_CHANNEL_2 then
    DmaChannel (put_byte (flip_flop c) (dma_address c) v) (dma_count c) (dma_page c) (negb (flip_flop c)) (dma_mode c) (dma_masked c)
  else if p =? COUNT_CHANNEL_2 then
    DmaChannel (dma_address c) (put_byte (flip_flop c) (dma_count c) v) (dma_page c) (negb (flip_flop c)) (dma_mode c) (dma_masked c)
  else if p =? FLIP_FLOP_RESET then
    DmaChannel (dma_address c) (dma_count c) (dma_page c) false (dma_mode c) (dma_masked c)
  else if p =? PAGE_ADDRESS_CHANNEL_2 then
    DmaChannel (dma_address c) (dma_count c) v (flip_flop c) (dma_mode c) (dma_masked c)
  else if p =? MODE_REGISTER then
    if Z.land v 3 =? 2 then DmaChannel (dma_address c) (dma_count c) (dma_page c) (flip_flop c) v (dma_masked c) else c
  else if p =? SINGLE_CHANNEL_MASK then
    if Z.land v 3 =? 2 then DmaChannel (dma_address c) (dma_count c) (dma_page c) (flip_flop c) (dma_mode c) (Z.testbit v 2) else c
  else c.

Definition dma_ports : list Z :=
  [START_ADDRESS_CHANNEL_2; COUNT_CHANNEL_2; FLIP_FLOP_RESET; PAGE_ADDRESS_CHANNEL_2; MODE_REGISTER; SINGLE_CHANNEL_MASK].

(** The physical address a transfer starts at, and whether the channel carries bytes
    from the device to memory. *)
Definition dma_base (c : dma_channel) : Z := dma_address c + 65536 * dma_page c.
Definition to_memory (c : dma_channel) : bool := negb (dma_masked c) && (Z.land (dma_mode c) 0x0C =? 0x04).

Definition READ_SECTORS : Z := Z.lor (Z.lor COMMAND_READ MFM) MT.
Definition read_params (head drive cylinder sector : Z) : list Z :=
  [Z.lor (Z.shiftl head 2) drive; cylinder; head; sector; 2; 18; 0x1b; 0xff].

(** A drive behind the controller.  A read command has seven result bytes; when its
    first says that it ended normally, the controller has carried as many bytes as
    the count register says, plus one, from consecutive sectors to memory; the
    address does not leave its 64 KiB page. *)
Class FloppyDrive (D : Type) `{Hfloppy : FloppyController D} := {
  dma_of : D -> dma_channel;
  drive_sector : D -> Z -> list Z;
  drive_sector_size d k : zlen (drive_sector d k) = BYTES_PER_SECTOR;
  memory_size a n d : 0 <= n -> zlen (physical_bytes a n d) = n;
  memory_prefix a k n d : 0 <= k <= n -> take (Z.to_nat k) (physical_bytes a n d) = physical_bytes a k d;
  dma_out p v d : p ∈ dma_ports ->
    dma_of (port_out p v d) = dma_write p v (dma_of d) /\ phase (port_out p v d) = phase d /\
    forall k, drive_sector (port_out p v d) k = drive_sector d k;
  alike_drive d d' : alike d d' -> dma_of d' = dma_of d /\ forall k, drive_sector d' k = drive_sector d k;
  read_takes : params_of READ_SECTORS = 8%nat;
  read_gives ps bytes d : executes (READ_SECTORS :: ps) bytes d -> length bytes = 7%nat;
  read_transfers head drive cylinder sector st0 bytes d k :
    executes (READ_SECTORS :: read_params head drive cylinder sector) (st0 :: bytes) d ->
    0 <= drive < 4 -> on_disk (Chs cylinder head sector) -> Z.land st0 0xC0 = 0 -> to_memory (dma_of d) = true ->
    0 <= k -> 512 * k <= dma_count (dma_of d) + 1 -> dma_address (dma_of d) + 512 * k <= 65536 ->
    chs_to_lba (Chs cylinder head sector) + k <= 2880 ->
    physical_bytes (dma_base (dma_of d)) (512 * k) d =
      concat (drive_sector d <$> seqZ (chs_to_lba (Chs cylinder head sector)) k)
}.

(** ** What is programmed *)

(** The count register after a transfer of [n] bytes is set up. *)
Definition programmed (n : Z) : Z := (n - 1) `mod` 256 + 256 * (((n - 1) / 16) `mod` 256).

(** In sectors: a multiple of 16 that does not depend on more than the last three
    bits of the number asked for. *)
Definition carried (n : Z) : Z := 16 * ((n - 1) `mod` 8 + 1).

Lemma programmed_sectors n : 0 < n -> programmed (512 * n) + 1 = 512 * carried n.
Proof.
  intros Hn. unfold programmed, carried.
  replace ((512 * n - 1) `mod` 256) with 255 by zdiv.
  replace ((512 * n - 1) / 16) with (32 * n - 1) by zdiv. zdiv.
Qed.

(** Up to 16 sectors the count is too large, never too small. *)
Lemma carried_enough n : 0 < n <= 16 -> n <= carried n <= 128.
Proof. intros Hn. unfold carried. zdiv. Qed.

(** For 17 sectors it is too small, and for 16 it is eight times as large. *)
Example carried_short : carried 17 = 16 /\ carried 16 = 128.
Proof. split; reflexivity. Qed.

(** What the channel is set up for. *)
Definition channel_for (a n : Z) : dma_channel := DmaChannel (a `mod` 65536) (programmed n) (a / 65536) false 0x56 false.

Lemma channel_base a n : dma_base (channel_for a n) = a.
Proof. unfold dma_base, channel_for. cbn [dma_address dma_page]. pose proof (Z.div_mod a 65536). lia. Qed.

(** The driver's buffer: below 16 MiB, with room for 16 sectors before its 64 KiB page
    ends. *)
Record buffer_ok (dr : driver) : Prop := {
  ok_drive : 0 <= g_drive_number dr < 4;
  ok_low : 0 < data (floppy_dma_buffer dr) < 2 ^ 24;
  ok_page : data (floppy_dma_buffer dr) `mod` 65536 + 512 * 16 <= 65536;
  ok_size : 512 * 16 <= bsize (floppy_dma_buffer dr)
}.

Section drive.
Context {D : Type} `{Hdrive : FloppyDrive D} (spins : nat).

(** What changes when only DMA registers are written. *)
Definition programs (c : dma_channel) (d d' : D) : Prop :=
  dma_of d' = c /\ phase d' = phase d /\ pic_same d d' /\ forall k, drive_sector d' k = drive_sector d k.

Lemma dma_outs ws : forall (d : D), Forall (fun w => w.1 ∈ dma_ports) ws ->
  programs (foldl (fun c w => dma_write w.1 w.2 c) (dma_of d) ws) d (foldl (fun d w => port_out w.1 w.2 d) d ws).
Proof.
  induction ws as [|[p v] ws IH]; intros d Hp; [by repeat split|]. apply Forall_cons in Hp as [Hp Hps]. cbn [foldl fst snd] in *.
  destruct (dma_out p v d Hp) as (E1 & E2 & E3). destruct (IH (port_out p v d) Hps) as (F1 & F2 & [F3 F4] & F5).
  rewrite <- E1. split; [done|]. split; [congruence|]. split; [|intros k; by rewrite F5, E3].
  unfold pic_same. rewrite F3, F4, out_master, out_slave.
  unfold dma_ports in Hp. repeat (apply elem_of_cons in Hp as [->|Hp]; [done|]). by apply elem_of_nil in Hp.
Qed.

Lemma put_word w lo hi : 0 <= lo < 256 -> put_byte true (put_byte false w lo) hi = lo + 256 * hi.
Proof. intros Hlo. unfold put_byte. pose proof (Z.div_mod w 256). zdiv. Qed.

Lemma prepare_transfer_programs b n (d : D) :
  0 < data b < 2 ^ 24 -> 0 < n <= 0x10000 -> n <= bsize b ->
  exists d', prepare_transfer b FLOPPY_CHANNEL n read d = Ok (data b, d') /\ programs (channel_for (data b) n) d d'.
Proof.
  intros Hd Hn Hs. unfold prepare_transfer, buffer_for_channel. change (FLOPPY_CHANNEL =? 2) with true. cbv iota.
  unfold io_assert, io_lift, mbind, io_bind. cbn [of_option]. replace (negb (data b =? 0)) with true by lia. replace (n <=? bsize b) with true by lia.
  replace (n <=? 0x10000) with true by lia. cbn [assert_]. rewrite (wrap_small 16) by lia.
  set (bytes := [(SINGLE_CHANNEL_MASK, 6); (FLIP_FLOP_RESET, 0xFF);
    (START_ADDRESS_CHANNEL_2, data b `mod` 256); (START_ADDRESS_CHANNEL_2, (data b / 256) `mod` 256); (FLIP_FLOP_RESET, 0xFF);
    (COUNT_CHANNEL_2, (n - 1) `mod` 256); (COUNT_CHANNEL_2, ((n - 1) / 16) `mod` 256);
    (PAGE_ADDRESS_CHANNEL_2, (data b / 65536) `mod` 256); (MODE_REGISTER, 0x56); (SINGLE_CHANNEL_MASK, 2)]).
  exists (foldl (fun d w => port_out w.1 w.2 d) d bytes). split.
  - assert (forall x, 0 <= x -> u8 (Z.land x 0xFF) = x `mod` 256) as Hb.
    { intros x Hx. rewrite land_byte by done. apply wrap_small. pose proof (Z.mod_pos_bound x 256). lia. }
    unfold outb. rewrite !Z.shiftr_div_pow2 by lia. rewrite !Hb by (try apply Z.div_pos; lia). reflexivity.
  - pose proof (dma_outs bytes d) as Ho. cbv zeta in Ho.
    replace (channel_for (data b) n) with (foldl (fun c w => dma_write w.1 w.2 c) (dma_of d) bytes); [apply Ho|].
    + by apply (bool_decide_unpack _).
    + cbn -[Z.div Z.modulo put_byte]. change (Z.land 6 3 =? 2) with true. change (Z.land 86 3 =? 2) with true.
      change (Z.land 2 3 =? 2) with true. cbn -[Z.div Z.modulo put_byte]. unfold channel_for, programmed. f_equal.
      * rewrite put_word by zdiv. zdiv.
      * rewrite put_word by zdiv. zdiv.
      * zdiv.
Qed.

(** ** Reading *)

(** The driver can take a request: nothing is under way, its interrupt is not held
    back and the buffer is as [init_floppy_driver] leaves it. *)
Record ready (dr : driver) (d : D) : Prop := {
  ready_buffer : buffer_ok dr;
  ready_pic : idle d;
  ready_line : masked FLOPPY d = false;
  ready_phase : phase d = FIdle
}.

Definition same_sectors (d d' : D) : Prop := forall k, drive_sector d' k = drive_sector d k.

Lemma ready_programs dr c (d d' : D) : ready dr d -> programs c d d' -> ready dr d' /\ same_sectors d d'.
Proof.
  intros [Hb Hi Hm Hp] (_ & H2 & H3 & H4). split; [|done]. split; [done|by eapply pic_same_idle| |congruence].
  by rewrite (pic_same_masked d d').
Qed.

(** The parameters as the controller gets them. *)
Definition sent_params (dr : driver) (a : CHS) : list Z :=
  u8 <$> read_params (head_ a) (g_drive_number dr) (cylinder a) (sector a).

Lemma lor_drive h n : 0 <= h < 2 -> 0 <= n < 4 -> 0 <= Z.lor (Z.shiftl h 2) n < 256.
Proof.
  intros Hh Hn. assert (h = 0 \/ h = 1) as [-> | ->] by lia; assert (n = 0 \/ n = 1 \/ n = 2 \/ n = 3) as [->|[->|[->| ->]]] by lia;
    by vm_compute.
Qed.

Lemma sent_on_disk dr a : on_disk a -> 0 <= g_drive_number dr < 4 ->
  sent_params dr a = read_params (head_ a) (g_drive_number dr) (cylinder a) (sector a).
Proof.
  intros (Hc & Hh & Hs) Hd. unfold HEADS, SECTORS_PER_HEAD in *. pose proof (lor_drive _ _ Hh Hd).
  unfold sent_params, read_params. cbn [fmap list_fmap]. by rewrite !(wrap_small 8) by lia.
Qed.

Definition first_bytes (bytes : list Z) : Z * Z := (default 0 (bytes !! 0%nat), default 0 (bytes !! 1%nat)).

(** What one request comes to: the status in the result bytes, and what is in the
    buffer. *)
Lemma read_floppy_runs dr lba n (d : D) : ready dr d -> 0 < n <= 128 -> 512 * n <= bsize (floppy_dma_buffer dr) ->
  exists bytes d1 d', executes (READ_SECTORS :: sent_params dr (lba_to_chs lba)) bytes d1 /\
    dma_of d1 = channel_for (data (floppy_dma_buffer dr)) (512 * n) /\ ready dr d1 /\ d' = d1 /\ same_sectors d d1 /\ pic_same d d1 /\
    read_floppy (S spins) dr lba n d =
      Ok (match decode_status (first_bytes bytes).1 (first_bytes bytes).2 with
          | ok => (ok, physical_bytes (data (floppy_dma_buffer dr)) (512 * n) d1)
          | e => (e, [])
          end, d').
Proof.
  intros Hr Hn Hbig. pose proof Hr as [[Hdr Hlo Hpg Hsz] _ _ _].
  destruct (prepare_transfer_programs (floppy_dma_buffer dr) (512 * n) d Hlo ltac:(lia) ltac:(lia)) as (d0 & E0 & Hp0).
  destruct (ready_programs dr _ d d0 Hr Hp0) as [[_ Hi0 Hm0 Hph0] Hs0]. destruct Hp0 as (Hc0 & _ & Hq0 & _).
  destruct (lba_to_chs lba) as [c h s_] eqn:Ea.
  destruct (issue_with_result spins d0 READ_SECTORS (replicate 7 0) (read_params h (g_drive_number dr) c s_)) as
    (bytes & d1 & He & Er & Hph1 & [Hpic Hal]); [done|done|done|by rewrite read_takes| |].
  { intros bytes d1 He. rewrite (read_gives _ _ _ He). simpl. lia. }
  destruct (alike_drive d0 d1) as [Hc1 Hs1]; [by apply Hal|]. pose proof (read_gives _ _ _ He) as Hlen.
  exists bytes, d1, d1. split; [done|]. split; [congruence|]. split.
  { split; [by split|by eapply pic_same_idle|by rewrite (pic_same_masked d0 d1)|done]. }
  split; [done|]. split; [intros k; by rewrite Hs1, Hs0|]. split; [exact (pic_same_trans _ _ _ Hq0 Hpic)|].
  unfold read_floppy. rewrite Ea. rewrite (wrap_small 32) by (unfold BYTES_PER_SECTOR; lia).
  change (BYTES_PER_SECTOR * n) with (512 * n). rewrite (io_bind_step _ _ _ _ _ E0).
  change (Z.lor (Z.lor COMMAND_READ MFM) MT) with READ_SECTORS. unfold read_params in Er. rewrite (io_bind_step _ _ _ _ _ Er).
  destruct bytes as [|b0 [|b1 [|b2 [|b3 [|b4 [|b5 [|b6 [|]]]]]]]]; try discriminate Hlen.
  cbn [replicate drop length app]. rewrite (io_bind_step _ _ _ b0 d1 eq_refl), (io_bind_step _ _ _ b1 d1 eq_refl).
  unfold first_bytes. cbn [lookup list_lookup default fst snd id]. by destruct (decode_status b0 b1).
Qed.

(** Where the request is on the disk and its result says so, the buffer begins with
    the sectors the count asks for, as far as its 64 KiB page goes. *)
Lemma read_floppy_bytes dr lba n k bytes (d1 : D) : buffer_ok dr -> 0 <= lba -> 0 < n -> 0 <= k <= carried n -> lba + k <= 2880 ->
  data (floppy_dma_buffer dr) `mod` 65536 + 512 * k <= 65536 -> 0 < 2880 - lba ->
  executes (READ_SECTORS :: sent_params dr (lba_to_chs lba)) bytes d1 ->
  dma_of d1 = channel_for (data (floppy_dma_buffer dr)) (512 * n) ->
  decode_status (first_bytes bytes).1 (first_bytes bytes).2 = ok ->
  physical_bytes (data (floppy_dma_buffer dr)) (512 * k) d1 = concat (drive_sector d1 <$> seqZ lba k).
Proof.
  intros [Hdr Hlo Hpg Hsz] Hl Hn Hk Hm Hroom Hlt He Hc Hok. destruct (proj1 lba_chs_bijection lba ltac:(lia)) as [Hon Hlba].
  rewrite (sent_on_disk dr _ Hon Hdr) in He. apply decode_status_ok in Hok.
  pose proof (read_gives _ _ _ He) as Hlen. destruct bytes as [|b0 bytes]; [discriminate Hlen|].
  destruct (lba_to_chs lba) as [c h s_] eqn:Ea. cbn [head_ cylinder sector] in He.
  pose proof (read_transfers h (g_drive_number dr) c s_ b0 bytes d1 k He Hdr Hon Hok) as Ht.
  rewrite Hc, channel_base, Hlba in Ht. apply Ht; [done|lia| | |done].
  - unfold channel_for. cbn [dma_count]. rewrite programmed_sectors by lia. lia.
  - unfold channel_for. cbn [dma_address]. lia.
Qed.

(** [C33] [read_floppy] of at most 128 sectors, the buffer's size, on a ready drive
    reports what the controller reports: the seven result bytes of the read command
    decide between [ok] with a block of the size asked for, and one error with no
    bytes, on which [read_floppy_or_fail] panics; in each case the driver is ready
    again and the disk unchanged.  The DMA count programmed stands for [carried n]
    sectors instead of [n]: that many of the sectors asked for, from the first on,
    are in the block, whatever was in the buffer before, and so all of them for up to
    16; beyond that the rest of the block may be left over.  The request lies on the
    disk and the part of the buffer it fills in one 64 KiB page; the controller is
    one that is always ready for the next byte. *)
Theorem read_floppy_correct dr lba n (d : D)
    (Hr : ready dr d) (Hl : 0 <= lba) (Hn : 0 < n <= 128) (Hend : lba + n <= 2880)
    (Hsize : 512 * n <= bsize (floppy_dma_buffer dr))
    (Hroom : data (floppy_dma_buffer dr) `mod` 65536 + 512 * n <= 65536) :
  exists st0 st1 bytes block d',
    let a := lba_to_chs lba in
    let k := Z.min n (16 * ((n - 1) `mod` 8 + 1)) in
    executes (READ_SECTORS :: read_params (head_ a) (g_drive_number dr) (cylinder a) (sector a)) (st0 :: st1 :: bytes) d' /\
    ready dr d' /\ same_sectors d d' /\
    dma_count (dma_of d') + 1 = 512 * (16 * ((n - 1) `mod` 8 + 1)) /\
    zlen block = 512 * n /\
    (decode_status st0 st1 = ok -> take (Z.to_nat (512 * k)) block = concat (drive_sector d <$> seqZ lba k)) /\
    (decode_status st0 st1 = ok -> n <= 16 -> block = concat (drive_sector d <$> seqZ lba n)) /\
    read_floppy (S spins) dr lba n d = Ok (match decode_status st0 st1 with ok => (ok, block) | e => (e, []) end, d') /\
    read_floppy_or_fail (S spins) dr lba n d =
      match decode_status st0 st1 with
      | ok => Ok (block, d')
      | _ => Fail (Panic "error reading floppy!")
      end.
Proof.
  destruct (read_floppy_runs dr lba n d Hr Hn Hsize) as (bytes & d1 & d' & He & Hc & Hr1 & -> & Hs & Hq & Hrun).
  pose proof (read_gives _ _ _ He) as Hlen. destruct bytes as [|st0 [|st1 bytes]]; try discriminate Hlen.
  exists st0, st1, bytes, (physical_bytes (data (floppy_dma_buffer dr)) (512 * n) d1), d1. cbv zeta.
  fold (carried n). assert (16 <= carried n) as H16 by (unfold carried; zdiv).
  assert (forall k, 0 <= k <= n -> k <= carried n -> decode_status st0 st1 = ok ->
    physical_bytes (data (floppy_dma_buffer dr)) (512 * k) d1 = concat (drive_sector d <$> seqZ lba k)) as Hb.
  { intros k Hk Hk' Hok. rewrite (read_floppy_bytes dr lba n k (st0 :: st1 :: bytes) d1); try done; try lia; [|apply Hr].
    f_equal. apply list_fmap_ext. intros i j _. apply Hs. }
  split; [rewrite <- sent_on_disk; [done|apply (proj1 lba_chs_bijection lba); lia|apply Hr]|]. split; [done|]. split; [done|].
  split; [rewrite Hc; unfold channel_for; cbn [dma_count]; by rewrite programmed_sectors by lia|].
  split; [by rewrite memory_size by lia|]. split.
  { intros Hok. rewrite memory_prefix by lia. apply Hb; [lia..|done]. }
  split; [intros Hok Hle; apply Hb; [lia..|done]|].
  unfold read_floppy_or_fail, first_bytes in *. cbn [lookup list_lookup default fst snd id] in *.
  rewrite Hrun, (io_bind_step _ _ _ _ _ Hrun). by destruct (decode_status st0 st1).
Qed.

(** The controller has answered a read of sector [lba] on, with a disk as that of
    [d] and the DMA count of a transfer of [n] sectors, by reporting an error. *)
Definition read_reported (dr : driver) (lba n : Z) (d : D) : Prop :=
  exists st0 st1 bytes d', let a := lba_to_chs lba in
    executes (READ_SECTORS :: read_params (head_ a) (g_drive_number dr) (cylinder a) (sector a)) (st0 :: st1 :: bytes) d' /\
    same_sectors d d' /\ dma_count (dma_of d') + 1 = 512 * carried n /\ decode_status st0 st1 <> ok.

(** One request of up to 16 sectors. *)
Lemma read_cases dr lba n (d : D) : ready dr d -> 0 <= lba -> 0 < n <= 16 -> lba + n <= 2880 ->
  exists st bytes d', read_floppy (S spins) dr lba n d = Ok ((st, bytes), d') /\
    ready dr d' /\ same_sectors d d' /\ pic_same d d' /\
    (st = ok /\ bytes = concat (drive_sector d <$> seqZ lba n) \/ st <> ok /\ read_reported dr lba n d).
Proof.
  intros Hr Hl Hn Hm. pose proof (ready_buffer _ _ Hr) as Hbuf. pose proof Hbuf as [Hdr Hlo Hpg Hsz].
  destruct (read_floppy_runs dr lba n d Hr ltac:(lia) ltac:(lia)) as (bytes & d1 & d' & He & Hc & Hr1 & -> & Hs & Hq & Hrun).
  pose proof (read_gives _ _ _ He) as Hlen. destruct bytes as [|st0 [|st1 bytes]]; try discriminate Hlen.
  pose proof (carried_enough n Hn) as Hcar.
  pose proof (read_floppy_bytes dr lba n n (st0 :: st1 :: bytes) d1 Hbuf Hl ltac:(lia) ltac:(lia) Hm ltac:(lia) ltac:(lia) He Hc) as Hb.
  unfold first_bytes in *. cbn [lookup list_lookup default fst snd id] in *.
  destruct (decode_status st0 st1) eqn:Est; [eexists ok, _, d1|eexists _, [], d1..]; (split; [exact Hrun|]);
    (split; [done|]); (split; [done|]); (split; [done|]).
  { left. split; [done|]. rewrite Hb by done. f_equal. apply list_fmap_ext. intros i k _. apply Hs. }
  all: right; split; [done|]; exists st0, st1, bytes, d1; cbv zeta; (split; [|split; [done|split; [|by rewrite Est]]]);
    [rewrite <- sent_on_disk; [done|apply (proj1 lba_chs_bijection lba); lia|apply Hr]|
     rewrite Hc; unfold channel_for; cbn [dma_count]; by rewrite programmed_sectors by lia].
Qed.

(** A request in the interface of the file system. *)
Lemma read_or_fail_runs dr lba n (d : D) : ready dr d -> 0 < n <= 16 ->
  read_floppy_or_fail (S spins) dr lba n d = Fail (Panic "error reading floppy!") \/
  exists bytes d', read_floppy_or_fail (S spins) dr lba n d = Ok (bytes, d') /\ zlen bytes = 512 * n /\ ready dr d' /\ same_sectors d d'.
Proof.
  intros Hr Hn. pose proof (ready_buffer _ _ Hr) as [_ _ _ Hsz].
  destruct (read_floppy_runs dr lba n d Hr ltac:(lia) ltac:(lia)) as (bytes & d1 & d' & He & Hc & Hr1 & -> & Hs & Hq & Hrun).
  unfold read_floppy_or_fail. rewrite (io_bind_step _ _ _ _ _ Hrun).
  destruct (decode_status _ _); [right|by left..].
  eexists _, d1. split; [done|]. split; [by rewrite memory_size by lia|]. by split.
Qed.

(** The same, of sectors on the disk. *)
Lemma read_or_fail_cases dr lba n (d : D) : ready dr d -> 0 <= lba -> 0 < n <= 16 -> lba + n <= 2880 ->
  (exists d', read_floppy_or_fail (S spins) dr lba n d = Ok (concat (drive_sector d <$> seqZ lba n), d') /\ same_sectors d d') \/
  (read_floppy_or_fail (S spins) dr lba n d = Fail (Panic "error reading floppy!") /\ read_reported dr lba n d).
Proof.
  intros Hr Hl Hn Hm. destruct (read_cases dr lba n d Hr Hl Hn Hm) as (st & bytes & d' & He & _ & Hs & _ & Hst).
  unfold read_floppy_or_fail. rewrite (io_bind_step _ _ _ _ _ He). destruct Hst as [[-> ->]|[Hne Hrep]].
  - left. by exists d'.
  - right. by destruct st.
Qed.
End drive.

(** ** Starting the drive *)

(** The other commands of the start, on a drive that seeks at once: VERSION and LOCK
    answer, CONFIGURE, SPECIFY and RECALIBRATE do not, and SENSE INTERRUPT after a
    RECALIBRATE says that the seek has ended; the output and configuration registers
    and the passing of time do not reach what is modelled of the machine, and the
    controller interrupts when it leaves its reset. *)
Class FloppyStart (D : Type) `{Hdrive : FloppyDrive D} := {
  start_params : params_of COMMAND_VERSION = 0%nat /\ params_of COMMAND_CONFIGURE = 3%nat /\ params_of COMMAND_LOCK = 0%nat /\
    params_of COMMAND_SPECIFY = 2%nat /\ params_of COMMAND_RECALIBRATE = 1%nat /\ params_of COMMAND_SENSE_INTERRUPT = 0%nat;
  version_gives bytes d : executes [COMMAND_VERSION] bytes d -> bytes = [0x90];
  lock_gives bytes d : executes [COMMAND_LOCK] bytes d -> bytes = [0x10];
  configure_gives ps bytes d : executes (COMMAND_CONFIGURE :: ps) bytes d -> bytes = [];
  specify_gives ps bytes d : executes (COMMAND_SPECIFY :: ps) bytes d -> bytes = [];
  recalibrate_gives ps bytes d : executes (COMMAND_RECALIBRATE :: ps) bytes d -> bytes = [];
  sense_length bytes d : executes [COMMAND_SENSE_INTERRUPT] bytes d -> length bytes = 2%nat;
  sense_gives ps st0 bytes d1 d : executes (COMMAND_RECALIBRATE :: ps) [] d1 -> alike d1 d ->
    executes [COMMAND_SENSE_INTERRUPT] (st0 :: bytes) d -> Z.testbit st0 5 = true;
  control_out p v d : p = DIGITAL_OUTPUT_REGISTER \/ p = CONFIGURATION_CONTROL_REGISTER -> phase d = FIdle ->
    phase (port_out p v d) = FIdle /\ alike d (port_out p v d);
  control_in d : phase (port_in DIGITAL_OUTPUT_REGISTER d).2 = phase d /\ alike d (port_in DIGITAL_OUTPUT_REGISTER d).2;
  time_passes us d : phase (let_time_pass us d) = phase d /\ alike d (let_time_pass us d);
  mask_out v d : phase (port_out (irq_port FLOPPY) v d) = phase d /\ dma_of (port_out (irq_port FLOPPY) v d) = dma_of d /\
    forall k, drive_sector (port_out (irq_port FLOPPY) v d) k = drive_sector d k;
  reset_interrupts v us d d' : quiet (port_out DIGITAL_OUTPUT_REGISTER v (let_time_pass us (port_out DIGITAL_OUTPUT_REGISTER 0 d))) d' ->
    exists d'', poll_disk_interrupt d' = (true, d'') /\ quiet d' d''
}.

Section start.
Context {D : Type} `{Hstart : FloppyStart D} (spins : nat).

(** The controller is idle and nothing else has changed. *)
Definition steady (d d' : D) : Prop := phase d' = FIdle /\ alike d d'.

Lemma steady_trans (d1 d2 d3 : D) : steady d1 d2 -> steady d2 d3 -> steady d1 d3.
Proof. intros [P1 A1] [P2 A2]. split; [done|by eapply alike_trans]. Qed.

(** A command of the start with its answer, and one without. *)
Lemma start_answer (d : D) command (bytes : list Z) : phase d = FIdle -> 0 <= command < 256 -> Z.land command 0xF <> COMMAND_WRITE ->
  transfers [command] = false -> params_of command = 0%nat -> (0 < length bytes)%nat ->
  (forall bs d', executes [command] bs d' -> length bs = length bytes) ->
  exists bs d', executes [command] bs d' /\ issue_command_with_result (S spins) command bytes [] d = Ok (bs, d') /\ steady d d'.
Proof.
  intros Hp Hc Hw Ht Hn Hl Hb. destruct (issue_with_result spins d command bytes []) as (bs & d' & He & Hr & Hp' & [_ Hk]);
    [by rewrite Ht|done|done|done|intros bs d' He; rewrite (Hb bs d' He); lia|].
  exists bs, d'. split; [done|]. cbn [fmap list_fmap] in He. rewrite (Hb _ _ He), drop_all, app_nil_r in Hr. split; [done|].
  split; [done|by apply Hk].
Qed.

Lemma start_command (d : D) command params : phase d = FIdle -> 0 <= command < 256 -> Z.land command 0xF <> COMMAND_WRITE ->
  length params = params_of command -> (forall ps bs d', executes (command :: ps) bs d' -> bs = []) ->
  exists d', executes (command :: (u8 <$> params)) [] d' /\ issue_command (S spins) command params d = Ok (tt, d') /\ steady d d'.
Proof.
  intros Hp Hc Hw Hl Hb. destruct (issue_without_result spins d command params Hp Hc Hl) as (d' & He & Hr & Hp' & [_ Hk]).
  { intros bs d'. apply Hb. }
  exists d'. split; [done|]. split; [done|]. split; [done|by apply Hk].
Qed.

Lemma start_out (d : D) p v : p = DIGITAL_OUTPUT_REGISTER \/ p = CONFIGURATION_CONTROL_REGISTER -> phase d = FIdle ->
  exists d', outb p v d = Ok (tt, d') /\ steady d d'.
Proof. intros Ho Hp. eexists. split; [reflexivity|]. by apply control_out. Qed.

(** The reset: the interrupt that ends it is waited for. *)
Lemma start_reset (d : D) v : phase d = FIdle -> idle d -> masked FLOPPY d = false ->
  exists d', steady d d' /\ forall A (k : io D A), (_ ← outb DIGITAL_OUTPUT_REGISTER 0; _ ← busy_sleep 4;
    _ ← outb DIGITAL_OUTPUT_REGISTER v; _ ← wait_for_disk_interrupt (S spins); k) d = k d'.
Proof.
  intros Hp Hi Hm. set (d1 := port_out DIGITAL_OUTPUT_REGISTER (u8 0) d). set (d2 := let_time_pass 4 d1).
  set (d3 := port_out DIGITAL_OUTPUT_REGISTER (u8 v) d2).
  assert (steady d d1) as S1 by (by apply control_out; [left|]). destruct (time_passes 4 d1) as [T1 T2]. fold d2 in T1, T2.
  assert (steady d d2) as S2 by (destruct S1; split; [congruence|by eapply alike_trans]).
  assert (steady d2 d3) as S3 by (apply control_out; [by left|by destruct S2]).
  pose proof (steady_trans _ _ _ S2 S3) as [P3 A3]. pose proof (alike_pic _ _ A3) as Hs.
  destruct (irq_is_masked_spec FLOPPY d3) as (d4 & H4 & _); [by eapply pic_same_idle|].
  assert (quiet d3 d4) as Q4.
  { revert H4. unfold irq_is_masked, inb, mbind, io_bind, mret, io_ret. pose proof (read_mask d3) as Ho.
    destruct (port_in (irq_port FLOPPY) d3) as [w d5]. intros [= _ <-]. exact Ho. }
  destruct (reset_interrupts (u8 v) 4 d d4 Q4) as (d5 & H5 & Q5). exists d5. split.
  - destruct Q4 as [E4 [A4 _]], Q5 as [E5 [A5 _]]. split; [congruence|]. eapply alike_trans; [exact A3|]. by eapply alike_trans.
  - intros A k. rewrite (io_bind_step (outb _ _) _ d tt d1 eq_refl), (io_bind_step (busy_sleep 4) _ d1 tt d2 eq_refl), (io_bind_step (outb _ _) _ d2 tt d3 eq_refl).
    assert (wait_for_disk_interrupt (S spins) d3 = Ok (tt, d5)) as Hw; [|by rewrite (io_bind_step _ _ _ _ _ Hw)].
    unfold wait_for_disk_interrupt. rewrite (io_bind_step _ _ _ _ _ H4), (pic_same_masked d d3), Hm by done.
    cbn [negb]. rewrite (io_bind_step _ _ _ tt d4 eq_refl). cbn [spin_until]. unfold mbind, io_bind, mret, io_ret. by rewrite H5.
Qed.

(** The statements of [init_floppy_driver] up to the interrupt line, and from the
    reset on. *)
Lemma start_first_part (d : D) : phase d = FIdle ->
  exists d', steady d d' /\ forall A (k : io D A), (version ← issue_command_with_result (S spins) COMMAND_VERSION [0] [];
    v ← io_lift (aget version 0);
    _ ← io_assert (v =? 0x90) "invalid floppy version!";
    let implied_seek := Z.shiftl 1 6 in
    let disable_polling := Z.shiftl 1 4 in
    let threshold_val := 8 - 1 in
    _ ← issue_command (S spins) COMMAND_CONFIGURE [0; Z.lor (Z.lor implied_seek disable_polling) threshold_val; 0];
    result ← issue_command_with_result (S spins) COMMAND_LOCK [0] [];
    r ← io_lift (aget result 0);
    _ ← io_assert (negb (Z.shiftr r 4 =? 0)) "controller couldn't be locked!";
    k) d = k d'.
Proof.
  intros Hp. destruct start_params as (P1 & P2 & P3 & _).
  destruct (start_answer d COMMAND_VERSION [0]) as (bs & d1 & H1 & E1 & S1); try done; try (by intros ? ? ->%version_gives); [simpl; lia|].
  apply version_gives in H1 as ->.
  destruct (start_command d1 COMMAND_CONFIGURE [0; Z.lor (Z.lor (Z.shiftl 1 6) (Z.shiftl 1 4)) (8 - 1); 0]) as (d2 & _ & E2 & S2); try done;
    [by destruct S1|intros; by eapply configure_gives|].
  destruct (start_answer d2 COMMAND_LOCK [0]) as (bs & d3 & H3 & E3 & S3); try done; try (by intros ? ? ->%lock_gives); [by destruct S2|simpl; lia|].
  apply lock_gives in H3 as ->. exists d3. split; [eauto using steady_trans|]. intros A k.
  rewrite (io_bind_step _ _ _ _ _ E1), (io_bind_step _ _ _ 0x90 d1 eq_refl), (io_bind_step _ _ _ tt d1 eq_refl). cbv zeta.
  by rewrite (io_bind_step _ _ _ _ _ E2), (io_bind_step _ _ _ _ _ E3), (io_bind_step _ _ _ 0x10 d3 eq_refl), (io_bind_step _ _ _ tt d3 eq_refl).
Qed.

Lemma start_last_part drive_number (d : D) : phase d = FIdle -> 0 <= drive_number < 4 ->
  exists d', steady d d' /\ forall A (k : io D A), (_ ← outb CONFIGURATION_CONTROL_REGISTER 0;
    let srt := 8 in
    let hlt := 5 in
    let hut := 0 in
    _ ← issue_command (S spins) COMMAND_SPECIFY [Z.lor (Z.shiftl srt 4) hut; Z.shiftl hlt 1];
    _ ← io_assert (drive_number <? 4) "invalid floppy drive number!";
    motor ← io_lift (aget enable_drive_motor drive_number);
    _ ← outb DIGITAL_OUTPUT_REGISTER (Z.lor (Z.lor (Z.lor motor DOR_IRQ) DOR_RESET) drive_number);
    _ ← busy_sleep 4;
    _ ← issue_command (S spins) COMMAND_RECALIBRATE [drive_number];
    result ← issue_command_with_result (S spins) COMMAND_SENSE_INTERRUPT [0; 0] [];
    st0 ← io_lift (aget result 0);
    _ ← io_assert (negb (Z.land st0 0x20 =? 0)) "(st0 & 0x20) != 0";
    k) d = k d'.
Proof.
  intros Hp Hd. destruct start_params as (_ & _ & _ & P4 & P5 & P6).
  destruct (start_out d CONFIGURATION_CONTROL_REGISTER 0) as (d1 & E1 & S1); [by right|done|].
  destruct (start_command d1 COMMAND_SPECIFY [Z.lor (Z.shiftl 8 4) 0; Z.shiftl 5 1]) as (d2 & _ & E2 & S2); try done;
    [by destruct S1|intros; by eapply specify_gives|].
  destruct (zget_is_Some enable_drive_motor drive_number Hd) as [motor Hmotor].
  destruct (start_out d2 DIGITAL_OUTPUT_REGISTER (Z.lor (Z.lor (Z.lor motor DOR_IRQ) DOR_RESET) drive_number)) as (d3 & E3 & S3);
    [by left|by destruct S2|].
  destruct (time_passes 4 d3) as [T1 T2]. set (d4 := let_time_pass 4 d3) in *.
  assert (steady d3 d4) as S4 by (destruct S3; split; [congruence|done]).
  destruct (start_command d4 COMMAND_RECALIBRATE [drive_number]) as (d5 & H5 & E5 & S5); try done;
    [by destruct S4|intros; by eapply recalibrate_gives|].
  destruct (start_answer d5 COMMAND_SENSE_INTERRUPT [0; 0]) as (bs & d6 & H6 & E6 & S6); try done;
    [by destruct S5|simpl; lia|by intros ? ? ->%sense_length|].
  pose proof (sense_length _ _ H6) as Hl. destruct bs as [|st0 bs]; [done|].
  pose proof (sense_gives _ _ _ _ _ H5 (proj2 S6) H6) as H20.
  exists d6. split; [eauto 10 using steady_trans|]. intros A k.
  rewrite (io_bind_step _ _ _ _ _ E1). cbv zeta. rewrite (io_bind_step _ _ _ _ _ E2). unfold io_assert at 1.
  replace (drive_number <? 4) with true by lia. rewrite (io_bind_step _ _ _ tt d2 eq_refl).
  rewrite (io_bind_step _ _ _ motor d2) by (unfold io_lift, aget; by rewrite Hmotor).
  rewrite (io_bind_step _ _ _ _ _ E3), (io_bind_step _ _ _ tt d4 eq_refl), (io_bind_step _ _ _ _ _ E5), (io_bind_step _ _ _ _ _ E6).
  rewrite (io_bind_step _ _ _ st0 d6 eq_refl). unfold io_assert. change 0x20 with (2 ^ 5). rewrite land_pow2, H20 by lia.
  by rewrite (io_bind_step _ _ _ tt d6 eq_refl).
Qed.

(** Opening an interrupt line of the first controller. *)
Lemma unmask_line code (d : D) : irq_port code = irq_port FLOPPY -> idle d ->
  exists d', unmask_irq code d = Ok (tt, d') /\ idle d' /\ phase d' = phase d /\ same_sectors d d' /\
    forall c, masked c d' = if irq_val c =? irq_val code then false else masked c d.
Proof.
  intros Hport Hi. destruct (unmask_irq_spec code d Hi) as (d' & E & I' & _ & _ & M). exists d'. split; [done|]. split; [done|].
  cut (phase d' = phase d /\ same_sectors d d'); [by intros []|].
  revert E. unfold unmask_irq, inb, outb, mbind, io_bind. rewrite Hport. destruct (read_mask d) as [R1 [R2 _]].
  destruct (port_in (irq_port FLOPPY) d) as [v d1]. cbn [snd] in *. intros [= <-].
  destruct (mask_out (u8 (Z.land (u8 v) (Z.lnot (irq_bit code)))) d1) as (W1 & _ & W3).
  split; [congruence|]. intros k. rewrite W3. by apply alike_drive.
Qed.

(** [init_floppy_driver] comes to its end and leaves the driver ready: the
    controller is idle, its interrupt line and no other has been opened, the disk is
    as it was, and the buffer is the one [low_memory] gave. *)
Theorem init_floppy_driver_ready drive_number lm m pt buf lm' m' (d : D)
    (Hi : idle d) (Hp : phase d = FIdle) (Hd : 0 <= drive_number < 4)
    (Hlow : allocate lm m FLOPPY_BUFFER_SIZE 1 = Ok (buf, lm', m'))
    (Hphys : get_physical_address pt buf = Ok buf) (Hbuf : 0 < buf < 2 ^ 24) :
  exists d', init_floppy_driver (S spins) drive_number lm m pt d =
      Ok ((Driver drive_number (Buffer buf FLOPPY_BUFFER_SIZE), lm', m'), d') /\
    idle d' /\ phase d' = FIdle /\ same_sectors d d' /\
    (forall c, masked c d' = if irq_val c =? irq_val FLOPPY then false else masked c d) /\
    (buf `mod` 65536 + 512 * 16 <= 65536 -> ready (Driver drive_number (Buffer buf FLOPPY_BUFFER_SIZE)) d').
Proof.
  destruct (start_first_part d Hp) as (d1 & [P1 A1] & E1). pose proof (alike_pic _ _ A1) as S1.
  destruct (unmask_line FLOPPY d1) as (d2 & E2 & I2 & P2 & Q2 & M2); [done|by eapply pic_same_idle|].
  destruct (control_in d2) as [P3 A3]. destruct (port_in DIGITAL_OUTPUT_REGISTER d2) as [v d3] eqn:E3. cbn [snd] in P3, A3.
  pose proof (alike_pic _ _ A3) as S3.
  destruct (start_reset d3 (u8 v)) as (d4 & [P4 A4] & E4);
    [congruence|by eapply pic_same_idle|by rewrite (pic_same_masked d2 d3), M2 by done|].
  destruct (start_last_part drive_number d4 P4 Hd) as (d5 & [P5 A5] & E5).
  assert (alike d2 d5) as A25 by (eapply alike_trans; [exact A3|]; by eapply alike_trans). pose proof (alike_pic _ _ A25) as S25.
  exists d5. split.
  { unfold init_floppy_driver. etransitivity; [apply E1|]. rewrite (io_bind_step _ _ _ _ _ E2).
    rewrite (io_bind_step _ _ _ (u8 v) d3) by (unfold inb; by rewrite E3).
    etransitivity; [apply E4|]. etransitivity; [apply E5|].
    rewrite (io_bind_step _ _ _ (buf, lm', m') d5) by (unfold io_lift; by rewrite Hlow).
    rewrite (io_bind_step _ _ _ (Buffer buf FLOPPY_BUFFER_SIZE) d5); [done|]. unfold io_lift, set_buffer_for_channel.
    replace (negb (buf =? 0)) with true by lia. cbn [assert_]. rewrite bind_ok, Hphys, bind_ok, !Z.eqb_refl.
    replace (buf <? Z.shiftl 1 24) with true by (change (Z.shiftl 1 24) with (2 ^ 24); lia). done. }
  assert (idle d5) as I5 by (by eapply pic_same_idle). assert (masked FLOPPY d5 = false) as M5 by (by rewrite (pic_same_masked d2 d5), M2 by done).
  split; [done|]. split; [done|]. split.
  { intros k. rewrite (proj2 (alike_drive _ _ A25)), Q2. by apply alike_drive. }
  split; [intros c; by rewrite (pic_same_masked d2 d5), M2, (pic_same_masked d d1)|].
  intros Hpage. split; [|done..]. by split.
Qed.
End start.

(** ** The device of the file system *)

Section device.
Context {D : Type} `{Hdrive : FloppyDrive D} (spins : nat) (dr : driver).

#[local] Instance device : BlockDevice D := floppy_device (S spins) dr.

#[local] Instance floppy_sectors : SectorDevice D.
Proof.
  refine {| drive_ready := ready dr |}.
  - intros lba n d Hr Hn. cbn [read_sectors device floppy_device].
    destruct (read_or_fail_runs spins dr lba n d Hr Hn) as [->|(bytes & d' & -> & _)]; done.
  - intros lba n d bytes d' Hr Hn. cbn [read_sectors device floppy_device].
    destruct (read_or_fail_runs spins dr lba n d Hr Hn) as [->|(bs & d1 & -> & Hl & Hr1 & _)]; [done|].
    intros [= <- <-]. done.
Defined.

#[local] Instance floppy_disk : Disk D.
Proof.
  refine {| sector_of := drive_sector; read_fault := read_reported dr |}.
  - intros d k. apply drive_sector_size.
  - intros lba n d. exact (read_or_fail_cases spins dr lba n d).
Defined.

(** [C30] The file system on the floppy driver: [read_file] of a file whose cluster
    chain is sound returns a block that begins with the sectors of the chain's
    clusters, read one by one through DMA transfers and commands to the controller,
    and is untouched behind them; the drive is ready again and its disk unchanged.
    Where that does not happen, the kernel has stopped because the controller has
    answered the read command for one of those sectors or for the two FAT sectors of
    one of the clusters, set up with a DMA count that stands for [carried] 1 or 2
    sectors, that is 16 or 32, by an error in its status bytes; a controller that
    counts running past the cylinder as an error does so ([strict_drive_panics]). *)
Theorem floppy_file_read fresh s path (d : D) b fat_ e cl
    (Hready : ready dr d) (Hbpb : bpb s = Some b) (Hfat : fat s = Some fat_)
    (Hfile : resolve_path s path = Ok (Some e))
    (Hreserved : 0 < num_of_reserved_sectors b) (Hroom : 1024 <= zlen fat_) (Hsize : size e <> 0)
    (Hblock : zlen (fresh (size e)) = room (size e))
    (Hchain : chain d b (cluster_num_lo e) cl) (Hfits : 512 * zlen cl <= room (size e)) :
  (exists s' d', read_file fresh s path d =
      Ok ((Some (concat ((fun c => drive_sector d (data_sector b c)) <$> cl) ++ drop (512 * length cl) (fresh (size e))), s'), d') /\
    ready dr d' /\ same_sectors d d') \/
  (read_file fresh s path d = Fail (Panic "error reading floppy!") /\
    exists c st0 st1 bytes d', c ∈ cl /\ same_sectors d d' /\ decode_status st0 st1 <> ok /\
      let issued lba n :=
        executes (READ_SECTORS :: read_params (head_ (lba_to_chs lba)) (g_drive_number dr) (cylinder (lba_to_chs lba)) (sector (lba_to_chs lba)))
          (st0 :: st1 :: bytes) d' /\ dma_count (dma_of d') + 1 = 512 * carried n in
      issued (num_of_reserved_sectors b + (c + c / 2) / 512) 2 \/ issued (data_sector b c) 1).
Proof.
  destruct (read_file_correct (H := floppy_disk) fresh s path d b fat_ e cl Hready Hbpb Hfat Hfile Hreserved Hroom Hsize Hblock Hchain Hfits)
    as [(s' & d' & Hr & Hd' & Hs)|(Hr & lba & n & d1 & Hp & _ & Hs1 & st0 & st1 & bytes & d' & He & Hs & Hc & Hst)]; [left; by exists s', d'|right].
  apply Exists_exists in Hp as (c & Hc' & Hp). split; [done|]. exists c, st0, st1, bytes, d'. split; [done|].
  split; [intros k; rewrite Hs; apply Hs1|]. split; [done|]. cbv zeta. by destruct Hp as [[-> ->]|[-> ->]]; [left|right].
Qed.
End device.

(** ** A machine with a drive *)

(** The parameter says whether the controller is [strict]: whether it reports a
    transfer that runs past the last sector of the cylinder, as the chip's data sheet
    has it, or goes on with the next one, as emulators do. *)
Record drive_pc (strict : bool) := DrivePc {
  dp_chips : two_chips; dp_phase : fdc_phase; dp_dma : dma_channel; dp_memory : Z -> Z; dp_disk : Z -> list Z
}.
Arguments DrivePc {strict}. Arguments dp_chips {strict}. Arguments dp_phase {strict}. Arguments dp_dma {strict}.
Arguments dp_memory {strict}. Arguments dp_disk {strict}.

Section drive_pc.
Context {strict : bool}.

Definition dp_sector (d : drive_pc strict) (k : Z) : list Z := take 512 (dp_disk d k ++ replicate 512 0).

(** The sectors the channel asks for, and whether they end before the cylinder. *)
Definition asked (c : dma_channel) : Z := (dma_count c + 1) / 512.
Definition past_cylinder (a : CHS) (c : dma_channel) : bool := 36 <? head_ a * 18 + (sector a - 1) + asked c.

Definition dp_result (c : dma_channel) (cmd : list Z) : list Z :=
  match cmd with
  | 0xC6 :: _ :: cy :: h :: s :: _ =>
      (if strict && past_cylinder (Chs cy h s) c then [0x40; 0x80] else [0; 0]) ++ [0; u8 cy; u8 h; u8 s; 2]
  | 0xC6 :: _ => replicate 7 0
  | _ => sim_result cmd
  end.

(** First sector and number of sectors carried to memory. *)
Definition dp_transfer (c : dma_channel) (cmd : list Z) : option (Z * Z) :=
  match cmd with
  | 0xC6 :: _ :: cy :: h :: s :: _ =>
      if to_memory c && negb (strict && past_cylinder (Chs cy h s) c) then Some (chs_to_lba (Chs cy h s), asked c) else None
  | _ => None
  end.

Definition fill (sectors : Z -> list Z) (lba addr count : Z) (memory : Z -> Z) : Z -> Z := fun x =>
  if (addr <=? x) && (x <? addr + 512 * count)
  then default 0 (sectors (lba + (x - addr) / 512) !! Z.to_nat ((x - addr) `mod` 512)) else memory x.

Definition dp_bytes (a n : Z) (d : drive_pc strict) : list Z := (fun i => dp_memory d (a + i)) <$> seqZ 0 n.

Definition dp_fifo (v : Z) (d : drive_pc strict) : drive_pc strict :=
  let cmd := match dp_phase d with FCommand sent => sent ++ [v] | _ => [v] end in
  match cmd with
  | c :: ps =>
      if (length ps <? sim_params c)%nat then DrivePc (dp_chips d) (FCommand cmd) (dp_dma d) (dp_memory d) (dp_disk d)
      else DrivePc (dp_chips d) (finished cmd (dp_result (dp_dma d) cmd)) (dp_dma d)
        (match dp_transfer (dp_dma d) cmd with
         | Some (lba, m) => fill (dp_sector d) lba (dma_base (dp_dma d)) m (dp_memory d)
         | None => dp_memory d
         end) (dp_disk d)
  | [] => d
  end.

#[export] Instance dp_ports : Ports (drive_pc strict) := {
  port_in p d :=
    if p =? MAIN_STATUS_REGISTER then (sim_status (dp_phase d), d)
    else if p =? DATA_FIFO then
      match dp_phase d with
      | FResult cmd (b :: bytes) => (b, DrivePc (dp_chips d) (finished cmd bytes) (dp_dma d) (dp_memory d) (dp_disk d))
      | _ => (0, d)
      end
    else ((port_in p (dp_chips d)).1, d);
  port_out p v d :=
    if p =? DATA_FIFO then dp_fifo v d
    else if bool_decide (p ∈ dma_ports) then DrivePc (dp_chips d) (dp_phase d) (dma_write p v (dp_dma d)) (dp_memory d) (dp_disk d)
    else DrivePc (port_out p v (dp_chips d)) (dp_phase d) (dp_dma d) (dp_memory d) (dp_disk d)
}.

Lemma dp_fifo_keeps v (d : drive_pc strict) :
  dp_chips (dp_fifo v d) = dp_chips d /\ dp_dma (dp_fifo v d) = dp_dma d /\ dp_disk (dp_fifo v d) = dp_disk d.
Proof. unfold dp_fifo. repeat case_match; by split_and!. Qed.

#[export] Instance dp_pic : Pic8259 (drive_pc strict).
Proof.
  refine {| master d := master (dp_chips d); slave d := slave (dp_chips d) |}.
  - intros d. by eexists.
  - intros d. by eexists.
  - intros p v d. cbn [port_out dp_ports]. destruct (Z.eqb_spec p DATA_FIFO) as [->|Hp].
    { by rewrite (proj1 (dp_fifo_keeps v d)). }
    case_bool_decide as Hq; [|apply out_master]. cbn [dp_chips].
    unfold dma_ports in Hq. repeat (apply elem_of_cons in Hq as [->|Hq]; [done|]). by apply elem_of_nil in Hq.
  - intros p v d. cbn [port_out dp_ports]. destruct (Z.eqb_spec p DATA_FIFO) as [->|Hp].
    { by rewrite (proj1 (dp_fifo_keeps v d)). }
    case_bool_decide as Hq; [|apply out_slave]. cbn [dp_chips].
    unfold dma_ports in Hq. repeat (apply elem_of_cons in Hq as [->|Hq]; [done|]). by apply elem_of_nil in Hq.
Defined.

#[export] Instance dp_machine : FloppyMachine (drive_pc strict) := {
  poll_disk_interrupt d := (true, d);
  physical_bytes := dp_bytes;
  let_time_pass us d := d
}.

Definition dp_alike (d d' : drive_pc strict) : Prop :=
  dp_chips d' = dp_chips d /\ dp_dma d' = dp_dma d /\ dp_disk d' = dp_disk d.

Definition dp_executes (cmd bytes : list Z) (d : drive_pc strict) : Prop :=
  bytes = dp_result (dp_dma d) cmd /\
  match dp_transfer (dp_dma d) cmd with
  | Some (lba, m) => forall k, 0 <= k <= m -> dp_bytes (dma_base (dp_dma d)) (512 * k) d = concat (dp_sector d <$> seqZ lba k)
  | None => True
  end.

Lemma fmap_seqZ_prefix {A} (f : Z -> A) k n : 0 <= k <= n -> take (Z.to_nat k) (f <$> seqZ 0 n) = f <$> seqZ 0 k.
Proof.
  intros Hk. replace n with (k + (n - k)) by lia. rewrite seqZ_app, fmap_app by lia.
  apply take_app_length'. rewrite length_fmap, length_seqZ. lia.
Qed.

Lemma dp_sector_length (d : drive_pc strict) k : length (dp_sector d k) = 512%nat.
Proof. unfold dp_sector. rewrite length_take, length_app, length_replicate. lia. Qed.

(** A filled buffer holds the sectors. *)
Lemma fill_bytes (sectors : Z -> list Z) lba addr count memory k :
  (forall j, length (sectors j) = 512%nat) -> 0 <= k <= count ->
  (fun i => fill sectors lba addr count memory (addr + i)) <$> seqZ 0 (512 * k) = concat (sectors <$> seqZ lba k).
Proof.
  intros Hl [Hk Hc]. revert Hc. pattern k. apply natlike_ind; [intros _; by rewrite !seqZ_nil by lia| |done].
  clear k Hk. intros k Hk IH Hc. replace (512 * Z.succ k) with (512 * k + 512) by lia. rewrite seqZ_app, fmap_app, IH by lia.
  replace (Z.succ k) with (k + 1) by lia. rewrite seqZ_app, fmap_app, concat_app by lia. f_equal.
  rewrite (seqZ_cons (lba + k) 1), (seqZ_nil _ (Z.pred 1)) by lia. cbn [fmap list_fmap concat]. rewrite app_nil_r.
  apply list_eq. intros j. rewrite list_lookup_fmap. destruct (Nat.lt_ge_cases j 512) as [Hj|Hj].
  - rewrite lookup_seqZ_lt by lia. cbn [fmap option_fmap option_map]. unfold fill.
    replace ((addr <=? addr + _) && (addr + _ <? addr + 512 * count)) with true by (symmetry; apply andb_true_iff; split; [apply Z.leb_le|apply Z.ltb_lt]; lia).
    replace (addr + (0 + 512 * k + Z.of_nat j) - addr) with (Z.of_nat j + k * 512) by lia.
    rewrite Z.div_add, Z.mod_add, (Z.div_small (Z.of_nat j)), (Z.mod_small (Z.of_nat j)), Z.add_0_l, Nat2Z.id by lia.
    destruct (sectors (lba + k) !! j) eqn:E; [done|]. apply lookup_ge_None in E. rewrite Hl in E. lia.
  - rewrite lookup_seqZ_ge by lia. cbn. symmetry. apply lookup_ge_None. by rewrite Hl.
Qed.

#[export] Instance dp_controller : FloppyController (drive_pc strict).
Proof.
  refine {| phase := dp_phase; params_of := sim_params; executes := dp_executes; alike := dp_alike |}.
  - by intros d; repeat split.
  - intros d1 d2 d3 (A1 & A2 & A3) (B1 & B2 & B3). split_and!; congruence.
  - intros d d' (A1 & _). unfold pic_same. cbn. by rewrite A1.
  - intros cmd bytes d [-> _]. unfold dp_result, sim_result. repeat case_match; cbn [app]; repeat constructor; try lia; apply wrap_range; lia.
  - intros cmd bytes d d' [-> He] [(A1 & A2 & A3) M]. split; [by rewrite A2|]. rewrite A2. case_match; [|done]. case_match. intros k Hk.
    change (dp_bytes ?a ?n d') with (physical_bytes a n d'). rewrite M. cbn [physical_bytes dp_machine]. rewrite He by done.
    f_equal. apply list_fmap_ext. intros i x _. unfold dp_sector. by rewrite A3.
  - intros d. exists (sim_status (dp_phase d)), d. split; [done|]. split; [done|]. split; [by repeat split|].
    by destruct d as [ch [|sent|cmd bytes] c m k].
  - intros d v sent Hv Hp. cbv zeta. destruct (sent ++ [v]) as [|c ps] eqn:E; [done|]. split.
    { intros _. apply dp_fifo_keeps. }
    assert (port_out DATA_FIFO v d = dp_fifo v d) as -> by done. unfold dp_fifo. rewrite Hp.
    assert (match sent with [] => [v] | _ => sent ++ [v] end = c :: ps) as Hcmd by (by destruct sent).
    assert ((match (match sent with [] => FIdle | _ => FCommand sent end) with FCommand sent => sent ++ [v] | _ => [v] end) = c :: ps) as -> by (by destruct sent).
    destruct (length ps <? sim_params c)%nat; [done|]. eexists. split; [|done]. split; [done|]. cbn [dp_dma].
    destruct (dp_transfer (dp_dma d) (c :: ps)) as [[lba m]|]; [|done]. intros k Hk. unfold dp_bytes. cbn [dp_memory].
    rewrite fill_bytes; [done| |done]. apply dp_sector_length.
  - intros d cmd b bytes Hp Hb. eexists. cbn. rewrite Hp. split; [done|]. split; [done|]. by repeat split.
  - intros d cmd bytes Hp Ht. exists d. by repeat split.
  - intros d. by repeat split.
Defined.

#[export] Instance dp_drive : FloppyDrive (drive_pc strict).
Proof.
  refine {| dma_of := dp_dma; drive_sector := dp_sector |}.
  - intros d k. unfold zlen. by rewrite dp_sector_length.
  - intros a n d Hn. cbn. unfold dp_bytes, zlen. rewrite length_fmap, length_seqZ. lia.
  - intros a k n d Hk. cbn. apply fmap_seqZ_prefix. lia.
  - intros p v d Hp. cbn [port_out dp_ports].
    replace (p =? DATA_FIFO) with false; [rewrite bool_decide_true by done; by repeat split|].
    unfold dma_ports in Hp. repeat (apply elem_of_cons in Hp as [->|Hp]; [done|]). by apply elem_of_nil in Hp.
  - intros d d' (A1 & A2 & A3). split; [done|]. intros k. unfold dp_sector. by rewrite A3.
  - done.
  - intros ps bytes d [-> _]. unfold dp_result. change READ_SECTORS with 0xC6. repeat case_match; done.
  - intros h dn c s st0 bytes d k [Hb He] Hdn Hon Hst Hmem Hk Hcount Haddr Hend.
    change READ_SECTORS with 0xC6 in Hb, He. unfold read_params in Hb, He. cbn [dp_result dp_transfer] in Hb, He.
    rewrite Hmem in He. cbn [andb] in He.
    destruct (strict && past_cylinder (Chs c h s) (dp_dma d)); [by injection Hb as -> _|]. cbn [negb] in He.
    apply He. unfold asked. split; [done|]. apply Z.div_le_lower_bound; lia.
Defined.
End drive_pc.

#[export] Instance dp_start {strict} : FloppyStart (drive_pc strict).
Proof.
  split.
  - by repeat split.
  - by intros bytes d [-> _].
  - by intros bytes d [-> _].
  - intros ps bytes d [-> _]. done.
  - intros ps bytes d [-> _]. done.
  - intros ps bytes d [-> _]. done.
  - by intros bytes d [-> _].
  - intros ps st0 bytes d1 d _ _ [Hb _]. by injection Hb as -> _.
  - intros p v [[m s] ph c mem k] [-> | ->] Hp; (split; [exact Hp|by repeat split]).
  - intros d. by repeat split.
  - intros us d. by repeat split.
  - intros v d. by repeat split.
  - intros v us d d' _. exists d'. by repeat split.
Defined.

(** *** The machine as the kernel finds it *)

Definition off_channel : dma_channel := DmaChannel 0 0 0 true 0 true.
Definition sample_drive (strict : bool) : drive_pc strict :=
  DrivePc (TwoChips (Chip 0xF8 0x20 0) (Chip 0x8E 0x28 0)) FIdle off_channel (fun _ => 0xCC) (ram_contents sample_disk).
Definition sample_driver : driver := Driver 0 (Buffer 0x50000 FLOPPY_BUFFER_SIZE).
Definition started_drive (strict : bool) : drive_pc strict :=
  DrivePc (TwoChips (Chip 0xB8 0x20 0) (Chip 0x8E 0x28 0)) FIdle off_channel (fun _ => 0xCC) (ram_contents sample_disk).

Lemma sample_ready strict : ready sample_driver (started_drive strict).
Proof.
  split; [|split_and!; by vm_compute|done|done]. unfold sample_driver.
  split; cbn [g_drive_number floppy_dma_buffer data bsize]; [lia|lia|done|done].
Qed.

(** Sector 30 cannot be read on a controller as its data sheet has it: the transfer
    is set up for 16 sectors, and six are left in the cylinder. *)
Theorem strict_drive_panics :
  read_floppy_or_fail 3 sample_driver 30 1 (started_drive true) = Fail (Panic "error reading floppy!").
Proof. vm_compute. reflexivity. Qed.

Lemma read_floppy_correct_witness : exists d',
  read_floppy_or_fail 3 sample_driver 3 2 (started_drive false) =
    Ok (concat (drive_sector (started_drive false) <$> seqZ 3 2), d') /\ ready sample_driver d'.
Proof.
  destruct (read_floppy_correct 2 sample_driver 3 2 (started_drive false) (sample_ready false) ltac:(lia) ltac:(lia) ltac:(lia)
      ltac:(vm_compute; discriminate) ltac:(vm_compute; discriminate))
    as (st0 & st1 & bytes & block & d' & He & Hr & Hs & _ & _ & _ & Hall & _ & Hf). cbv zeta in He. destruct He as [Hb _].
  cbn [sample_driver g_drive_number] in Hb.
  assert (decode_status st0 st1 = ok) as Hok by (by injection Hb as -> -> _). rewrite Hok, (Hall Hok ltac:(lia)) in Hf.
  exists d'. split; [exact Hf|exact Hr].
Defined.

(** Low memory from 0x50000 to 0x70000, and page tables that map it to itself. *)
Definition sample_low : low_memory := LowMemory 0x50000 0x70000.
Definition sample_memory : gmap Z Z := zeroed_block 0 0x70007.

Lemma sample_allocates : exists m', allocate sample_low sample_memory FLOPPY_BUFFER_SIZE 1 = Ok (0x50000, LowMemory 0x60000 0x70000, m').
Proof.
  pose proof (allocate_Ok sample_low sample_memory FLOPPY_BUFFER_SIZE 1) as Ha.
  cbv zeta in Ha. change ((avail_low_mem_start sample_low + 1 - 1) / 1 * 1) with 0x50000 in Ha.
  change (0x50000 + FLOPPY_BUFFER_SIZE <? avail_low_mem_end sample_low) with true in Ha. cbv iota in Ha.
  destruct Ha as (m' & Ha & _); [by split|done|done| |by exists m'].
  intros a Hr. exists 0. unfold sample_memory. rewrite zeroed_block_lookup, decide_True; [done|].
  change (avail_low_mem_end sample_low) with 0x70000 in Hr. lia.
Qed.

Lemma floppy_file_read_witness : exists s' d',
  read_file (H := floppy_device 3 sample_driver) heap_block sample_fs kernel_path (started_drive false) =
    Ok ((Some (concat ((fun c => drive_sector (started_drive false) (data_sector sample_bpb c)) <$> [2; 4]) ++ drop 1024 (heap_block 1000)), s'), d') /\
  ready sample_driver d'.
Proof.
  assert (match fat sample_fs with Some f => 1024 <=? zlen f | None => false end = true) as Hlen by (vm_compute; reflexivity).
  destruct (fat sample_fs) as [fat_|] eqn:Hfat; [|discriminate Hlen]. apply Z.leb_le in Hlen.
  destruct (floppy_file_read 2 sample_driver heap_block sample_fs kernel_path (started_drive false) sample_bpb fat_ sample_entry [2; 4])
    as [(s' & d' & Hr & Hd & _)|(_ & c & st0 & st1 & bytes & d' & _ & _ & Hst & Hf)].
  - apply sample_ready.
  - vm_compute. reflexivity.
  - exact Hfat.
  - vm_compute. reflexivity.
  - vm_compute. reflexivity.
  - exact Hlen.
  - vm_compute. discriminate.
  - vm_compute. reflexivity.
  - cbn [chain]. split; [vm_compute; reflexivity|]. split; [vm_compute; reflexivity|]. split.
    { unfold cluster_ok. vm_compute. repeat split; discriminate. }
    split; [vm_compute; reflexivity|]. split; [vm_compute; reflexivity|]. split.
    { unfold cluster_ok. vm_compute. repeat split; discriminate. }
    vm_compute. discriminate.
  - vm_compute. discriminate.
  - exists s', d'. split; [exact Hr|exact Hd].
  - exfalso. apply Hst. cbv zeta in Hf. destruct Hf as [[[Hb _] _]|[[Hb _] _]]; by injection Hb as -> -> _.
Defined.

Lemma sample_idle : idle (sample_drive true).
Proof. split_and!; by vm_compute. Qed.

Lemma init_floppy_driver_ready_witness : exists m' d',
  init_floppy_driver 3 0 sample_low sample_memory (Paging.early_init sample_layout) (sample_drive true) =
    Ok ((sample_driver, LowMemory 0x60000 0x70000, m'), d') /\ ready sample_driver d'.
Proof.
  destruct sample_allocates as [m' Hm].
  assert (get_physical_address (Paging.early_init sample_layout) 0x50000 = Ok 0x50000) as Hphys by (vm_compute; reflexivity).
  pose proof (init_floppy_driver_ready 2 0 sample_low sample_memory (Paging.early_init sample_layout) 0x50000
    (LowMemory 0x60000 0x70000) m' (sample_drive true) sample_idle eq_refl ltac:(lia) Hm Hphys ltac:(lia)) as Hi.
  destruct Hi as (d' & Hr & _ & _ & _ & _ & Hd). exists m', d'. split; [exact Hr|]. apply Hd. discriminate.
Defined.

(** The buffer is asked for without an alignment: unless the low memory starts at a
    64 KiB boundary it goes over one, which the DMA controller does not. *)
Theorem dma_buffer_crosses lm m buf lm' m' (Hstart : 0 <= avail_low_mem_start lm < 2 ^ 32)
    (Halloc : allocate lm m FLOPPY_BUFFER_SIZE 1 = Ok (buf, lm', m')) (Hodd : avail_low_mem_start lm `mod` 65536 <> 0) :
  65536 < buf `mod` 65536 + FLOPPY_BUFFER_SIZE.
Proof.
  unfold allocate, align_to in Halloc. change (1 =? 0) with false in Halloc. cbv iota in Halloc. rewrite bind_ok in Halloc.
  case_if; [discriminate|]. apply bind_Ok in Halloc as (m1 & _ & Halloc). injection Halloc as <- _ _.
  rewrite Z.add_simpl_r, Z.div_1_r, Z.mul_1_r, !(wrap_small 64) by (rewrite ?wrap_small by lia; lia).
  pose proof (Z.mod_pos_bound (avail_low_mem_start lm) 65536). unfold FLOPPY_BUFFER_SIZE. lia.
Qed.
