(* ===== verification/Keyboard.v ===== *)
(** * kernel/input.cpp: keyboard events

    The interrupt handler turns scan codes into events and queues them; the
    dispatching task takes them from the queue and hands each to every
    subscriber.  Both queues are ring buffers of 256 places behind one mutex, which
    the handler only tries to take. *)
From S2P Require Import Prelude RingBuffer Io.

#[local] Arguments wrap : simpl never.

Record event := Event { code : Z; pressed : bool }.
(** A subscriber is the address of its handler. *)
Definition subscriber := Z.
Definition QUEUE : Z := 0x100.

Record event_pump := EventPump {
  events : ring_buffer event;
  subscribers : ring_buffer subscriber
}.
Definition fresh_pump : event_pump :=
  EventPump (new (Event 0 false) QUEUE) (new 0 QUEUE).

(** [kstd::managed_by_mutex<event_pump>] *)
Record managed_pump := ManagedPump { pump_locked : bool; pump : event_pump }.

Definition scancode_to_key : list Z := [
  0; 32; 49; 50; 51; 52; 53; 54; 55; 56; 57; 48;
  45; 61; 8; 9; 113; 119; 101; 114; 116; 121; 117; 105;
  111; 112; 91; 93; 10; 0; 97; 115; 100; 102; 103; 104;
  106; 107; 108; 59; 39; 96; 1; 92; 122; 120; 99; 118;
  98; 110; 109; 44; 46; 47; 2; 0; 2; 32; 0; 0; 0; 0; 0; 0].

Definition PS_2_DATA : Z := 0x60.
Definition PS_2_CONTROL : Z := 0x64.

(** The event of a scan code, if it is one of the 64 the table holds. *)
Definition decode_scancode (scancode : Z) : outcome (option event) :=
  let pressed := Z.land scancode 0x80 =? 0 in
  let scancode_offset := if pressed then scancode else Z.land scancode (Z.lnot 0x80) in
  if scancode_offset <? 0x40 then
    key ← aget scancode_to_key scancode_offset;
    Ok (Some (Event key pressed))
  else Ok None.

(** [events.push_back(...)] when the lock could be taken. *)
Definition queue_event (k : managed_pump) (scancode : Z) : outcome managed_pump :=
  o ← decode_scancode scancode;
  match o with
  | None => Ok k
  | Some e =>
      if pump_locked k then Ok k
      else
        '(_, evs) ← push_back QUEUE (events (pump k)) e;
        Ok (ManagedPump false (EventPump evs (subscribers (pump k))))
  end.

Section interrupt.
Context {D : Type} `{Ports D}.

Definition ready_to_read : io D bool :=
  v ← inb PS_2_CONTROL; mret (Z.land v 1 =? 1).

(** [handle_interrupt]: at most [fuel] bytes are read. *)
Fixpoint handle_interrupt (fuel : nat) (k : managed_pump) : io D managed_pump :=
  match fuel with
  | O => io_lift (Fail Diverges)
  | S f =>
      r ← ready_to_read;
      if negb r then mret k
      else
        scancode ← inb PS_2_DATA;
        if scancode =? 0 then mret k
        else k' ← io_lift (queue_event k scancode); handle_interrupt f k'
  end.
End interrupt.

(** [subscribe]; [None] while somebody else holds the lock. *)
Definition subscribe (k : managed_pump) (h : subscriber) : outcome (option managed_pump) :=
  if pump_locked k then Ok None
  else
    '(_, subs) ← push_back QUEUE (subscribers (pump k)) h;
    Ok (Some (ManagedPump false (EventPump (events (pump k)) subs))).

(** One turn of [dispatch_key_events], up to its [yield].  [handle] is what the
    handler at an address does to the rest of the system. *)
Section dispatch.
Context {S : Type} (handle : subscriber -> event -> S -> outcome S).

Fixpoint notify (subs : list subscriber) (e : event) (st : S) : outcome S :=
  match subs with
  | [] => Ok st
  | h :: subs' => st' ← handle h e st; notify subs' e st'
  end.

(** [while ((e = events.pop_front())) for (auto &s : subscribers) s.handle( *e);] *)
Fixpoint dispatch_loop (fuel : nat) (p : event_pump) (st : S) : outcome (event_pump * S) :=
  match fuel with
  | O => Fail Diverges
  | Datatypes.S f =>
      '(e, evs) ← pop_front QUEUE (events p);
      match e with
      | None => Ok (EventPump evs (subscribers p), st)
      | Some e =>
          subs ← iterate QUEUE (subscribers p);
          st' ← notify subs e st;
          dispatch_loop f (EventPump evs (subscribers p)) st'
      end
  end.

(** The queue holds at most 256 events. *)
Definition DISPATCH_FUEL : nat := 257.

Definition dispatch_key_events (k : managed_pump) (st : S) : outcome (managed_pump * S) :=
  if pump_locked k then Ok (k, st)
  else
    '(p, st') ← dispatch_loop DISPATCH_FUEL (pump k) st;
    Ok (ManagedPump false p, st').
End dispatch.

(** ** What the keyboard promises *)

(** The event of a scan code; the table is never left. *)
Definition decoded (scancode : Z) : option event :=
  match decode_scancode scancode with Ok o => o | Fail _ => None end.

Lemma decode_Ok sc : 0 <= sc < 256 -> decode_scancode sc = Ok (decoded sc).
Proof.
  intros Hsc.
  assert (forallb (fun sc => is_ok (decode_scancode sc)) (seqZ 0 256) = true) as Hall by (vm_compute; done).
  rewrite forallb_forall in Hall. specialize (Hall sc).
  assert (In sc (seqZ 0 256)) as Hin by (apply list_elem_of_In, elem_of_seqZ; lia).
  specialize (Hall Hin). unfold decoded. by destruct (decode_scancode sc).
Qed.

(** A key's release code is its press code with bit 7 set: both name one key. *)
Lemma press_release sc : 0 <= sc < 0x40 ->
  exists key, decoded sc = Some (Event key true) /\ decoded (sc + 0x80) = Some (Event key false).
Proof.
  intros Hsc.
  assert (Forall (fun sc => exists key, decoded sc = Some (Event key true) /\ decoded (sc + 0x80) = Some (Event key false))
    (seqZ 0 0x40)) as Hall by (repeat (constructor; [eexists; split; reflexivity|]); constructor).
  rewrite Forall_forall in Hall. apply Hall, elem_of_seqZ. lia.
Qed.

(** A PS/2 controller with some bytes to be read: bit 0 of its status says whether
    there are any, and reading the data port takes the first. *)
Class Ps2Controller (D : Type) `{Ports D} := {
  pending : D -> list Z;
  pending_bytes d : Forall (fun b => 0 <= b < 256) (pending d);
  read_control d : exists v d', port_in PS_2_CONTROL d = (v, d') /\ 0 <= v < 256 /\
    Z.testbit v 0 = negb (bool_decide (pending d = [])) /\ pending d' = pending d;
  read_data d b rest : pending d = b :: rest ->
    exists d', port_in PS_2_DATA d = (b, d') /\ pending d' = rest
}.

Record wf_pump (p : event_pump) : Prop := {
  wf_events : RingBuffer.wf QUEUE (events p);
  wf_subscribers : RingBuffer.wf QUEUE (subscribers p)
}.
Definition queued (p : event_pump) : list event := contents (Event 0 false) QUEUE (events p).
Definition subscribed (p : event_pump) : list subscriber := contents 0 QUEUE (subscribers p).

Lemma fresh_pump_wf : wf_pump fresh_pump /\ queued fresh_pump = [] /\ subscribed fresh_pump = [].
Proof. split; [|done]. split; by apply new_spec. Qed.

Lemma queue_event_spec k sc :
  0 <= sc < 256 -> wf_pump (pump k) -> zlen (queued (pump k)) + 1 <= QUEUE ->
  exists k', queue_event k sc = Ok k' /\ pump_locked k' = pump_locked k /\ wf_pump (pump k') /\
    queued (pump k') = queued (pump k) ++ (if pump_locked k then [] else option_list (decoded sc)) /\
    subscribers (pump k') = subscribers (pump k).
Proof.
  intros Hsc [He Hs] Hroom. unfold queue_event. rewrite decode_Ok by done. cbn [mbind outcome_bind].
  destruct (decoded sc) as [e|]; [|exists k; destruct (pump_locked k); cbn [option_list]; rewrite app_nil_r; by split_and!].
  destruct (pump_locked k) eqn:El; [exists k; rewrite app_nil_r; by split_and!|].
  destruct (push_back_spec (Event 0 false) QUEUE ltac:(done) (events (pump k)) e He) as (ok & b' & Hp & Hw & Hc).
  rewrite Hp. cbn [mbind outcome_bind]. eexists. split; [done|]. split_and!; try done.
  unfold queued in *. cbn [events pump option_list]. case_decide; [lia|]. by destruct Hc as [_ ->].
Qed.

Section interrupt_spec.
Context {D : Type} `{Ps2Controller D}.

Lemma ready_step (d : D) :
  exists d', ready_to_read d = Ok (negb (bool_decide (pending d = [])), d') /\ pending d' = pending d.
Proof.
  destruct (read_control d) as (v & d' & Hr & Hv & Hb & Hp). exists d'. split; [|done].
  unfold ready_to_read, mbind, io_bind, inb, mret, io_ret. rewrite Hr, (wrap_small 8) by lia.
  change 1 with (2 ^ 0) at 1. rewrite land_pow2, Hb by lia. by destruct (bool_decide _).
Qed.

(** The handler empties the controller; the events it decodes are queued behind
    those that wait, or lost while somebody holds the lock. *)
Lemma handle_interrupt_spec fuel : forall k (d : D),
  (length (pending d) < fuel)%nat -> Forall (fun b => b <> 0) (pending d) -> wf_pump (pump k) ->
  zlen (queued (pump k)) + zlen (pending d) <= QUEUE ->
  exists k' d', handle_interrupt fuel k d = Ok (k', d') /\ pending d' = [] /\
    pump_locked k' = pump_locked k /\ wf_pump (pump k') /\
    queued (pump k') = queued (pump k) ++ (if pump_locked k then [] else omap decoded (pending d)) /\
    subscribers (pump k') = subscribers (pump k).
Proof.
  induction fuel as [|n IH]; intros k d Hn Hz Hw Hroom; [lia|]. cbn [handle_interrupt].
  destruct (ready_step d) as (d1 & Hr & Hp1). rewrite (io_bind_step _ _ _ _ _ Hr).
  pose proof (pending_bytes d) as Hb. rewrite <- Hp1 in *.
  destruct (pending d1) as [|b rest] eqn:Ep; cbn [bool_decide negb].
  { exists k, d1. destruct (pump_locked k); cbn; rewrite app_nil_r; by split_and!. }
  rewrite bool_decide_false by done. cbn [negb]. apply Forall_cons in Hb as [Hb _]. apply Forall_cons in Hz as [Hz0 Hz].
  destruct (read_data d1 b rest Ep) as (d2 & Hd & Hp2).
  rewrite (io_bind_step _ _ _ b d2) by (unfold inb; by rewrite Hd, (wrap_small 8)).
  replace (b =? 0) with false by lia. rewrite zlen_cons in Hroom. pose proof (zlen_nonneg rest).
  destruct (queue_event_spec k b Hb Hw) as (k1 & Hq & Hl1 & Hw1 & Hc1 & Hs1); [lia|].
  rewrite (io_bind_step _ _ _ k1 d2) by (unfold io_lift; by rewrite Hq).
  destruct (IH k1 d2) as (k' & d' & He & Hp & Hl & Hw' & Hc & Hs); rewrite ?Hp2; [simpl in Hn; lia|done|done| |].
  { rewrite Hc1, zlen_app. destruct (pump_locked k), (decoded b); unfold zlen in *; cbn; lia. }
  exists k', d'. split_and!; try done; [by rewrite Hl| |by rewrite Hs].
  rewrite Hc, Hc1, Hl1, Hp2, <- app_assoc. destruct (pump_locked k); [done|]. cbn. by destruct (decoded b).
Qed.
End interrupt_spec.

(** ** The dispatching task *)

Section dispatch_spec.
Context {S : Type} (handle : subscriber -> event -> S -> outcome S).

(** Every event goes to all subscribers before the next one does. *)
Fixpoint deliver (subs : list subscriber) (es : list event) (st : S) : outcome S :=
  match es with
  | [] => Ok st
  | e :: es' => st' ← notify handle subs e st; deliver subs es' st'
  end.

Lemma subscribers_visited p :
  wf_pump p -> zlen (subscribed p) < QUEUE -> iterate QUEUE (subscribers p) = Ok (subscribed p).
Proof.
  unfold subscribed, subscriber. intros [_ Hs] Hlt. rewrite (length_contents 0 QUEUE) in Hlt by done.
  rewrite (iterate_spec 0 QUEUE ltac:(done)) by done. unfold full, RingBuffer.size.
  case_if; [lia|done].
Qed.

Lemma dispatch_loop_spec fuel : forall p st,
  (length (queued p) < fuel)%nat -> wf_pump p -> zlen (subscribed p) < QUEUE ->
  exists evs, RingBuffer.wf QUEUE evs /\ contents (Event 0 false) QUEUE evs = [] /\
    dispatch_loop handle fuel p st =
      (st' ← deliver (subscribed p) (queued p) st; Ok (EventPump evs (subscribers p), st')).
Proof.
  induction fuel as [|n IH]; intros p st Hn Hw Hsub; [lia|]. cbn [dispatch_loop].
  pose proof (wf_events p Hw) as He. pose proof (wf_subscribers p Hw) as Hs.
  destruct (pop_front_spec (Event 0 false) QUEUE ltac:(done) (events p) He) as (r & evs & Hp & Hwe & Hc & _).
  rewrite Hp. cbn [mbind outcome_bind]. unfold queued in *. rewrite Hc in *. destruct r as [e|].
  - rewrite subscribers_visited by done. cbn [mbind outcome_bind deliver].
    destruct (notify handle (subscribed p) e st) as [st'|f]; cbn [mbind outcome_bind].
    + destruct (IH (EventPump evs (subscribers p)) st') as (evs' & Hw' & Hc' & Hl); [simpl in *; lia|done|done|].
      by exists evs'.
    + exists (new (Event 0 false) QUEUE). destruct (new_spec (Event 0 false) QUEUE ltac:(done)). by split_and!.
  - exists evs. split; [done|]. split; [|done].
    destruct (pop_front_spec (Event 0 false) QUEUE ltac:(done) (events p) He) as (r & evs2 & Hp2 & _ & Hc2 & Heq).
    rewrite Hp in Hp2. injection Hp2 as <- <-. rewrite Heq by done. by rewrite Hc.
Qed.
End dispatch_spec.

(** [C27] Nobody misses a key: when the controller holds some scan codes, nobody
    holds the lock and both queues have room, the interrupt handler empties the
    controller, and the next turn of the dispatching task hands the events that
    waited and then those of the scan codes, in order, to every subscriber, and
    leaves an empty, well-formed queue for the next interrupt. *)
Theorem keystrokes_delivered {D} `{Ps2Controller D} {S} (handle : subscriber -> event -> S -> outcome S) k (d : D) st :
  pump_locked k = false -> wf_pump (pump k) -> zlen (subscribed (pump k)) < QUEUE ->
  zlen (queued (pump k)) + zlen (pending d) <= QUEUE -> Forall (fun b => b <> 0) (pending d) ->
  exists k1 d' p2, handle_interrupt (Datatypes.S (length (pending d))) k d = Ok (k1, d') /\ pending d' = [] /\
    wf_pump p2 /\ queued p2 = [] /\ subscribed p2 = subscribed (pump k) /\
    dispatch_key_events handle k1 st =
      (st' ← deliver handle (subscribed (pump k)) (queued (pump k) ++ omap decoded (pending d)) st;
       Ok (ManagedPump false p2, st')).
Proof.
  intros Hl Hw Hsub Hroom Hz.
  destruct (handle_interrupt_spec (Datatypes.S (length (pending d))) k d) as (k1 & d' & He & Hp & Hl1 & Hw1 & Hc & Hs); [lia|done..|].
  rewrite Hl in Hc. assert (subscribed (pump k1) = subscribed (pump k)) as Hsu by (unfold subscribed; by rewrite Hs).
  assert (zlen (omap decoded (pending d)) <= zlen (pending d)) as Hle.
  { unfold zlen. generalize (pending d). intros l. induction l as [|x l IHl]; cbn; [lia|]. destruct (decoded x); cbn; lia. }
  destruct (dispatch_loop_spec handle DISPATCH_FUEL (pump k1) st) as (evs & Hwe & Hce & Hd); [|done|by rewrite Hsu|].
  { rewrite Hc, length_app. unfold zlen, QUEUE, DISPATCH_FUEL in *. lia. }
  exists k1, d', (EventPump evs (subscribers (pump k1))). split_and!; try done.
  - split; [done|]. apply Hw1.
  - unfold dispatch_key_events. rewrite Hl1, Hl, Hd, Hsu, Hc. by destruct (deliver handle (subscribed (pump k)) (queued (pump k) ++ omap decoded (pending d)) st).
Qed.

(** A keyboard with its bytes in a list. *)
Definition plain_keyboard := list Z.
#[export] Instance plain_ports : Ports plain_keyboard := {
  port_in p d := if p =? PS_2_CONTROL then ((match d with [] => 0 | _ => 1 end), d)
    else match d with [] => (0, []) | b :: rest => (u8 b, rest) end;
  port_out _ _ d := d
}.
#[export] Instance plain_controller : Ps2Controller plain_keyboard.
Proof.
  refine {| pending d := u8 <$> d |}.
  - intros d. apply Forall_fmap, Forall_true. intros x. apply (wrap_range 8 x). lia.
  - intros d. exists (match d with [] => 0 | _ => 1 end), d. by destruct d; split_and!.
  - intros [|b d] b' rest; cbn; intros H; [done|]. injection H as <- <-. by exists d.
Defined.

(** A handler that only records its calls. *)
Definition record (h : subscriber) (e : event) (log : list (subscriber * event)) :
  outcome (list (subscriber * event)) := Ok (log ++ [(h, e)]).

Definition two_subscribers : managed_pump :=
  let add h k := match subscribe k h with Ok (Some k') => k' | _ => k end in
  add 8 (add 7 (ManagedPump false fresh_pump)).

Lemma two_subscribers_wf : wf_pump (pump two_subscribers).
Proof. split; split; vm_compute; intuition congruence. Qed.

Theorem keystrokes_delivered_witness : exists k1 d' p2,
  handle_interrupt 3 two_subscribers [0x1e; 0x9e] = Ok (k1, d') /\ wf_pump p2 /\
  dispatch_key_events record k1 [] = Ok (ManagedPump false p2,
    [(7, Event 97 true); (8, Event 97 true); (7, Event 97 false); (8, Event 97 false)]).
Proof.
  destruct (keystrokes_delivered (D := plain_keyboard) record two_subscribers [0x1e; 0x9e] [])
    as (k1 & d' & p2 & Hi & _ & Hw & _ & _ & Hd).
  - done.
  - exact two_subscribers_wf.
  - vm_compute. done.
  - vm_compute. done.
  - repeat constructor; done.
  - exists k1, d', p2. by split_and!.
Defined.

(** While somebody holds the lock, which the dispatching task does for as long as
    the handlers run, what is typed is read from the controller and lost. *)
Theorem typing_while_locked_is_lost {D} `{Ps2Controller D} k (d : D) :
  pump_locked k = true -> wf_pump (pump k) -> zlen (queued (pump k)) + zlen (pending d) <= QUEUE ->
  Forall (fun b => b <> 0) (pending d) ->
  exists k' d', handle_interrupt (S (length (pending d))) k d = Ok (k', d') /\ pending d' = [] /\
    queued (pump k') = queued (pump k).
Proof.
  intros Hl Hw Hroom Hz.
  destruct (handle_interrupt_spec (S (length (pending d))) k d) as (k' & d' & He & Hp & _ & _ & Hc & _); [lia|done..|].
  exists k', d'. split_and!; try done. by rewrite Hc, Hl, app_nil_r.
Qed.
