(* ===== verification/Serial.v ===== *)
(** * kernel/serial.cpp, kernel/debug.cpp: the serial line

    The first serial port carries the kernel's log.  [send] spins until the
    transmitter can take a byte; the loop carries fuel and the theorem shows that
    any fuel beyond the time the transmitter may be busy is enough. *)
From S2P Require Import Prelude Io.

#[local] Arguments wrap : simpl never.

Definition COM1 : Z := 0x3F8.

Definition Interrupts_NONE : Z := 0.
Definition TRANSMITTER_BUFFER_EMPTY : Z := 0x20.
Definition DATA_BITS_8 : Z := 3.
Definition STOP_BITS_1 : Z := 0.
Definition PARITY_NONE : Z := 0.
Definition DATA_LATCH_ACCESS_BIT : Z := 0x80.
Definition ENABLE : Z := 1.
Definition CLEAR_RECEIVE : Z := 2.
Definition CLEAR_TRANSMIT : Z := 4.
Definition INTERRUPT_TRIGGER_14_BYTES : Z := 0xC0.
Definition FORCE_DATA_READY : Z := 1.
Definition FORCE_REQUEST_SEND : Z := 2.
Definition AUX_OUTPUT_2 : Z := 8.

Definition DATA (port : Z) : Z := u16 (port + 0).
Definition BAUD_DIVISOR_LO (port : Z) : Z := u16 (port + 0).
Definition BAUD_DIVISOR_HI (port : Z) : Z := u16 (port + 1).
Definition INTERRUPT_ENABLE (port : Z) : Z := u16 (port + 1).
Definition FIFO_CONTROL (port : Z) : Z := u16 (port + 2).
Definition LINE_CONTROL (port : Z) : Z := u16 (port + 3).
Definition MODEM_CONTROL (port : Z) : Z := u16 (port + 4).
Definition LINE_STATUS (port : Z) : Z := u16 (port + 5).

Section driver.
Context {D : Type} `{Ports D} (spins : nat).

Definition init_port (port : Z) : io D unit :=
  _ ← outb (INTERRUPT_ENABLE port) Interrupts_NONE;
  _ ← outb (LINE_CONTROL port) DATA_LATCH_ACCESS_BIT;
  _ ← outb (BAUD_DIVISOR_LO port) 3;
  _ ← outb (BAUD_DIVISOR_HI port) 0;
  _ ← outb (LINE_CONTROL port) (Z.lor (Z.lor DATA_BITS_8 PARITY_NONE) STOP_BITS_1);
  _ ← outb (FIFO_CONTROL port) (Z.lor (Z.lor (Z.lor INTERRUPT_TRIGGER_14_BYTES ENABLE) CLEAR_TRANSMIT) CLEAR_RECEIVE);
  outb (MODEM_CONTROL port) (Z.lor (Z.lor FORCE_DATA_READY FORCE_REQUEST_SEND) AUX_OUTPUT_2).

Definition transmit_ready (port : Z) : io D bool :=
  v ← inb (LINE_STATUS port); mret (negb (Z.land v TRANSMITTER_BUFFER_EMPTY =? 0)).

(** [while (!transmit_ready(port::COM1));] *)
Fixpoint wait_for_transmitter (n : nat) : io D unit :=
  match n with
  | O => io_lift (Fail Diverges)
  | S n' => r ← transmit_ready COM1; if r : bool then mret tt else wait_for_transmitter n'
  end.

(** [send]: the argument [port] is not used. *)
Definition send (port b : Z) : io D unit :=
  _ ← wait_for_transmitter spins; outb (DATA COM1) (u8 b).

(** [debug::puts]; [None] is the null pointer. *)
Fixpoint send_text (s : list Z) : io D unit :=
  match s with [] => mret tt | c :: s' => _ ← send COM1 c; send_text s' end.
Definition debug_puts (str : option (list Z)) : io D bool :=
  match str with None => mret false | Some s => _ ← send_text s; mret true end.
End driver.

(** ** The 16550 *)

(** The registers of the port that the driver writes, and what was transmitted. *)
Record uart := Uart { lcr : Z; ier : Z; fcr : Z; mcr : Z; divisor : Z; sent : list Z }.

(** A write to register [i]; bit 7 of the line control register swaps the divisor
    in for the data and interrupt registers. *)
Definition uart_write (i v : Z) (u : uart) : uart :=
  let dlab := Z.testbit (lcr u) 7 in
  if i =? 0 then
    if dlab then Uart (lcr u) (ier u) (fcr u) (mcr u) (divisor u / 256 * 256 + v) (sent u)
    else Uart (lcr u) (ier u) (fcr u) (mcr u) (divisor u) (sent u ++ [v])
  else if i =? 1 then
    if dlab then Uart (lcr u) (ier u) (fcr u) (mcr u) (v * 256 + divisor u `mod` 256) (sent u)
    else Uart (lcr u) v (fcr u) (mcr u) (divisor u) (sent u)
  else if i =? 2 then Uart (lcr u) (ier u) v (mcr u) (divisor u) (sent u)
  else if i =? 3 then Uart v (ier u) (fcr u) (mcr u) (divisor u) (sent u)
  else Uart (lcr u) (ier u) (fcr u) v (divisor u) (sent u).

(** A transmitter that is busy for some time after a byte, at most [max_busy] polls
    of its status; a byte written while it is busy is nobody's guess. *)
Class Uart16550 (D : Type) `{Ports D} := {
  uart_of : D -> uart;
  busy : D -> nat;
  max_busy : nat;
  busy_bound d : (busy d <= max_busy)%nat;
  write_register i v d : 0 <= i < 5 -> 0 <= v < 256 -> (i = 0 -> Z.testbit (lcr (uart_of d)) 7 = false -> busy d = 0%nat) ->
    uart_of (port_out (COM1 + i) v d) = uart_write i v (uart_of d);
  read_line_status d : exists v d', port_in (COM1 + 5) d = (v, d') /\ 0 <= v < 256 /\
    Z.testbit v 5 = bool_decide (busy d = 0%nat) /\ uart_of d' = uart_of d /\ busy d' = pred (busy d)
}.

Lemma u8_fixed s : Forall (fun c => 0 <= c < 256) s -> u8 <$> s = s.
Proof. induction 1 as [|c s Hc Hs IH]; [done|]. by rewrite fmap_cons, IH, (wrap_small 8). Qed.

Section serial_spec.
Context {D : Type} `{Uart16550 D}.

Lemma wait_spec n : forall d : D, (busy d < n)%nat ->
  exists d', wait_for_transmitter n d = Ok (tt, d') /\ uart_of d' = uart_of d /\ busy d' = 0%nat.
Proof.
  induction n as [|n IH]; intros d Hb; [lia|]. cbn [wait_for_transmitter].
  destruct (read_line_status d) as (v & d1 & Hr & Hv & Ht & Hu & Hn).
  assert (transmit_ready COM1 d = Ok (bool_decide (busy d = 0%nat), d1)) as Hready.
  { unfold transmit_ready, mbind, io_bind, inb, mret, io_ret. change (LINE_STATUS COM1) with (COM1 + 5).
    rewrite Hr, (wrap_small 8) by lia. change TRANSMITTER_BUFFER_EMPTY with (2 ^ 5). rewrite land_pow2, Ht by lia.
    by destruct (bool_decide _). }
  rewrite (io_bind_step _ _ _ _ _ Hready). case_bool_decide as Hz.
  - exists d1. rewrite Hn, Hz. by split_and!.
  - destruct (IH d1) as (d' & He & Hu' & Hn'); [lia|]. exists d'. rewrite Hu'. by split_and!.
Qed.

Lemma send_spec spins p b (d : D) : (max_busy < spins)%nat -> Z.testbit (lcr (uart_of d)) 7 = false ->
  exists d', send spins p b d = Ok (tt, d') /\ uart_of d' = uart_write 0 (u8 b) (uart_of d).
Proof.
  intros Hs Hl. destruct (wait_spec spins d) as (d1 & Hw & Hu & Hz); [pose proof (busy_bound d); lia|].
  unfold send. rewrite (io_bind_step _ _ _ _ _ Hw). eexists. split; [done|].
  change (DATA COM1) with (COM1 + 0). pose proof (wrap_range 8 b ltac:(lia)).
  rewrite (wrap_small 8 (u8 b)), write_register, Hu by (done || lia). done.
Qed.

Lemma send_text_spec spins s : forall d : D, (max_busy < spins)%nat -> Z.testbit (lcr (uart_of d)) 7 = false ->
  exists d', send_text spins s d = Ok (tt, d') /\ lcr (uart_of d') = lcr (uart_of d) /\
    divisor (uart_of d') = divisor (uart_of d) /\ sent (uart_of d') = sent (uart_of d) ++ (u8 <$> s).
Proof.
  induction s as [|c s IH]; intros d Hs Hl; cbn [send_text].
  { exists d. by rewrite app_nil_r. }
  destruct (send_spec spins COM1 c d Hs Hl) as (d1 & H1 & Hu). rewrite (io_bind_step _ _ _ _ _ H1).
  unfold uart_write in Hu. cbn [Z.eqb] in Hu. rewrite Hl in Hu.
  destruct (IH d1 Hs) as (d' & He & Hc & Hd & Ht); [by rewrite Hu|]. exists d'.
  rewrite Hc, Hd, Ht, Hu. cbn [lcr divisor sent]. by rewrite <- app_assoc.
Qed.

(** A register write other than of data to be sent. *)
Lemma out_spec i v (d : D) {A} (f : unit -> io D A) P :
  0 <= i < 5 -> 0 <= v < 256 -> (i = 0 -> Z.testbit (lcr (uart_of d)) 7 = true) ->
  (forall d', uart_of d' = uart_write i v (uart_of d) -> exists r d2, f tt d' = Ok (r, d2) /\ P d2) ->
  exists r d2, (outb (COM1 + i) v ≫= f) d = Ok (r, d2) /\ P d2.
Proof.
  intros Hi Hv Hl Hf. unfold outb. rewrite (wrap_small 8) by lia.
  rewrite (io_bind_step _ _ _ tt (port_out (COM1 + i) v d)) by done. apply Hf.
  apply write_register; [done..|]. intros Hi0 Hn. rewrite Hl in Hn by done. done.
Qed.

(** The port after [init_port]: 115200 / 3 baud, 8 data bits, no parity, one stop
    bit and the data register in place.  The interrupts are off unless the port
    was found with its divisor swapped in. *)
Lemma init_port_spec (d : D) :
  exists r d', init_port COM1 d = Ok (r, d') /\
    uart_of d' = Uart 3 (if Z.testbit (lcr (uart_of d)) 7 then ier (uart_of d) else 0) 0xC7 0xB 3 (sent (uart_of d)).
Proof.
  unfold init_port.
  apply (out_spec 1 Interrupts_NONE); [done..|]. intros d1 H1.
  assert (exists dv, uart_of d1 = Uart (lcr (uart_of d)) (if Z.testbit (lcr (uart_of d)) 7 then ier (uart_of d) else 0)
    (fcr (uart_of d)) (mcr (uart_of d)) dv (sent (uart_of d))) as [dv H1'].
  { rewrite H1. unfold uart_write. cbn [Z.eqb Pos.eqb]. destruct (Z.testbit _ 7); by eexists. }
  clear H1. destruct (uart_of d) as [l ie fc mc dv0 st]. cbn [lcr ier fcr mcr sent] in *.
  set (e := if Z.testbit l 7 then ie else 0) in *. clearbody e.
  apply (out_spec 3 DATA_LATCH_ACCESS_BIT); [done..|]. intros d2 H2. rewrite H1' in H2. cbn in H2.
  apply (out_spec 0 3); [done..|by rewrite H2|]. intros d3 H3. rewrite H2 in H3. cbn -[Z.div Z.mul Z.add] in H3.
  apply (out_spec 1 0); [done..|]. intros d4 H4. rewrite H3 in H4. cbn -[Z.div Z.mul Z.add Z.modulo] in H4.
  apply (out_spec 3 3); [done..|]. intros d5 H5. rewrite H4 in H5. cbn -[Z.div Z.mul Z.add Z.modulo] in H5.
  apply (out_spec 2 0xC7); [done..|]. intros d6 H6. rewrite H5 in H6. cbn -[Z.div Z.mul Z.add Z.modulo] in H6.
  change (outb (MODEM_CONTROL COM1) (Z.lor (Z.lor FORCE_DATA_READY FORCE_REQUEST_SEND) AUX_OUTPUT_2) d6) with
    (outb (COM1 + 4) 0xB d6).
  exists tt, (port_out (COM1 + 4) 0xB d6). split; [done|].
  rewrite write_register, H6 by done. cbn -[Z.div Z.mul Z.add Z.modulo]. f_equal.
  rewrite (Z.add_comm _ 3), Z.mod_add by lia. done.
Qed.

(** Nothing is lost on the serial line: from whatever state [init_port] finds the
    port in, a text handed to [debug::puts] is transmitted byte for byte, at
    115200 / 3 baud, however long the transmitter stays busy after each byte, as
    long as that is bounded. *)
Theorem serial_text_transmitted (d : D) spins s :
  (max_busy < spins)%nat -> Forall (fun c => 0 <= c < 256) s ->
  exists d', (init_port COM1 ≫= fun _ => debug_puts spins (Some s)) d = Ok (true, d') /\
    divisor (uart_of d') = 3 /\ sent (uart_of d') = sent (uart_of d) ++ s.
Proof.
  intros Hs Hb. destruct (init_port_spec d) as (r & d1 & H1 & Hu). rewrite (io_bind_step _ _ _ _ _ H1).
  destruct (send_text_spec spins s d1 Hs) as (d' & He & _ & Hd & Ht); [by rewrite Hu|].
  exists d'. unfold debug_puts. rewrite (io_bind_step _ _ _ _ _ He). split; [done|]. rewrite Hd, Ht, Hu. split; [done|].
  by rewrite u8_fixed.
Qed.
End serial_spec.

(** A port whose transmitter is busy for two polls after every byte. *)
Record line := Line { line_uart : uart; line_busy : bool * bool }.

Definition line_polls (l : line) : nat := match line_busy l with (true, true) => 2 | (false, false) => 0 | _ => 1 end.
Definition line_tick (l : line) : line :=
  Line (line_uart l) (match line_busy l with (true, true) => (true, false) | _ => (false, false) end).

#[export] Instance line_ports : Ports line := {
  port_in p l := if p =? COM1 + 5 then ((if decide (line_polls l = 0%nat) then 0x20 else 0), line_tick l) else (0, l);
  port_out p v l :=
    if (COM1 <=? p) && (p <? COM1 + 5) then
      Line (uart_write (p - COM1) v (line_uart l))
        (if (p =? COM1) && negb (Z.testbit (lcr (line_uart l)) 7) then (true, true) else line_busy l)
    else l
}.

#[export] Instance line_uart16550 : Uart16550 line.
Proof.
  refine {| uart_of := line_uart; busy := line_polls; max_busy := 2 |}.
  - intros [u [[] []]]; cbn; lia.
  - intros i v d Hi Hv _. cbn. destruct (_ && _) eqn:E; [cbn; f_equal; lia|].
    apply andb_false_iff in E. destruct E; bool_to_prop; lia.
  - intros [u [[] []]]; cbn; eexists _, _; split_and!; done || lia.
Defined.

Theorem serial_text_transmitted_witness :
  exists d', (init_port COM1 ≫= fun _ => debug_puts 3 (Some [104; 105])) (Line (Uart 0x83 1 0 0 1 []) (true, true)) = Ok (true, d') /\
    divisor (uart_of d') = 3 /\ sent (uart_of d') = [104; 105].
Proof.
  destruct (serial_text_transmitted (Line (Uart 0x83 1 0 0 1 []) (true, true)) 3 [104; 105]) as (d' & He & Hd & Ht).
  - cbn. lia.
  - repeat constructor; lia.
  - exists d'. by split_and!.
Defined.
