(* ===== verification/Console.v ===== *)
(** * libc/stdio.cpp, kernel/vga.cpp, kernel/debug.cpp: where printed text goes

    [printf] formats into one static buffer and hands it, as a NUL-terminated
    string, to the screen and to the serial line. *)
From S2P Require Import Prelude Io Stdio Serial Vga.

#[local] Arguments wrap : simpl never.

Record console (D : Type) := Console {
  con_screen : screen;
  vga_initialized : bool;
  printf_buffer : list Z;
  con_dev : D
}.
Arguments Console {D}.
Arguments con_screen {D}.
Arguments vga_initialized {D}.
Arguments printf_buffer {D}.
Arguments con_dev {D}.

Inductive FILE := stdout | stderr | other_file.
Definition PRINTF_BUFFER_SIZE : Z := 0x200.

(** The text a [const char *] into an array of characters stands for; reading past
    the array is a fault. *)
Fixpoint text_of (b : list Z) : outcome (list Z) :=
  match b with
  | [] => Fail OutOfBounds
  | c :: b' => if c =? 0 then Ok [] else t ← text_of b'; Ok (c :: t)
  end.

Section console.
Context {D : Type} `{Ports D} (spins : nat).

(** A step on the screen alone, and one on the device alone. *)
Definition on_screen (f : screen -> outcome screen) : io (console D) unit := fun c =>
  s ← f (con_screen c); Ok (tt, Console s (vga_initialized c) (printf_buffer c) (con_dev c)).
Definition on_dev {A} (m : io D A) : io (console D) A := fun c =>
  '(a, d) ← m (con_dev c); Ok (a, Console (con_screen c) (vga_initialized c) (printf_buffer c) d).

Definition vga_print (t : list Z) : io (console D) unit := fun c =>
  if vga_initialized c then on_screen (fun s => print s t) c else Ok (tt, c).
Definition debug_print (t : list Z) : io (console D) unit :=
  _ ← on_dev (debug_puts spins (Some t)); mret tt.

(** [fputs] *)
Definition fputs (t : list Z) (f : FILE) : io (console D) Z :=
  match f with
  | stdout => _ ← vga_print t; _ ← debug_print t; mret 0
  | stderr => _ ← debug_print t; mret 0
  | other_file => mret 0
  end.

(** [puts] of the C library *)
Definition libc_puts (t : list Z) : io (console D) Z :=
  _ ← fputs t stdout; _ ← fputs [10] stdout; mret 0.

(** [vfprintf]; [vsnprintf] overwrites the front of the buffer, and [abort] ends a
    print to any other file. *)
Definition vfprintf (f : FILE) (fmt : option (list Z)) (args : list arg) : io (console D) Z := fun c =>
  '(_, bytes, _) ← vsnprintf true PRINTF_BUFFER_SIZE fmt args;
  let b := bytes ++ drop (length bytes) (printf_buffer c) in
  let c' := Console (con_screen c) (vga_initialized c) b (con_dev c) in
  match f with
  | other_file => Fail (Panic "abort")
  | _ => t ← text_of b; fputs t f c'
  end.

Definition printf (fmt : list Z) (args : list arg) : io (console D) Z := vfprintf stdout (Some fmt) args.
Definition fprintf (f : FILE) (fmt : list Z) (args : list arg) : io (console D) Z := vfprintf f (Some fmt) args.
End console.

(** ** The buffer always holds a string *)

Lemma text_of_zero b : 0 ∈ b -> exists t, text_of b = Ok t.
Proof.
  induction b as [|c b IH]; intros Hin; [by apply elem_of_nil in Hin|]. cbn [text_of].
  destruct (c =? 0) eqn:E; bool_to_prop; [by eexists|]. apply elem_of_cons in Hin as [<-|Hin]; [done|].
  destruct (IH Hin) as (t & ->). by eexists.
Qed.

Lemma text_of_app t r : Forall (fun c => c <> 0) t -> text_of (t ++ 0 :: r) = Ok t.
Proof.
  induction 1 as [|c t Hc Ht IH]; [done|]. cbn [text_of app]. destruct (c =? 0) eqn:E; bool_to_prop; [done|].
  by rewrite IH.
Qed.

Section console_spec.
Context {D : Type} `{Uart16550 D} (spins : nat).
Hypothesis enough : (max_busy < spins)%nat.

(** The last byte of the static buffer is zero at boot and stays so. *)
Record wf (c : console D) : Prop := {
  wf_screen : Vga.wf (con_screen c);
  wf_buffer : exists front, printf_buffer c = front ++ [0] /\ zlen front = PRINTF_BUFFER_SIZE - 1;
  wf_line : Z.testbit (lcr (uart_of (con_dev c))) 7 = false
}.

(** What a text printed to [f] changes. *)
Definition printed (f : FILE) (t : list Z) (c c' : console D) : Prop :=
  vga_initialized c' = vga_initialized c /\ printf_buffer c' = printf_buffer c /\
  (if vga_initialized c && (match f with stdout => true | _ => false end)
   then print (con_screen c) t = Ok (con_screen c') else con_screen c' = con_screen c) /\
  sent (uart_of (con_dev c')) = sent (uart_of (con_dev c)) ++ (u8 <$> t).

Lemma debug_print_spec t (c : console D) : wf c ->
  exists c', debug_print spins t c = Ok (tt, c') /\ wf c' /\ printed stderr t c c'.
Proof.
  intros [Hs Hb Hl]. destruct (send_text_spec spins t (con_dev c) enough Hl) as (d' & He & Hc & _ & Ht).
  eexists. split.
  - unfold debug_print, mbind, io_bind, on_dev, debug_puts, mbind, io_bind. rewrite He. done.
  - split; [by split; cbn; rewrite ?Hc|]. split; [done|]. split; [done|]. cbn. by rewrite andb_false_r.
Qed.

Lemma fputs_spec f t (c : console D) : wf c -> f <> other_file ->
  exists c', fputs spins t f c = Ok (0, c') /\ wf c' /\ printed f t c c'.
Proof.
  intros Hw Hf. destruct f; [| |done]; cbn [fputs].
  - destruct (vga_initialized c) eqn:Ei.
    + destruct (write_text_wf (con_screen c) t (wf_screen c Hw)) as (s & Hp & Hs). fold (print (con_screen c) t) in Hp.
      set (c1 := Console s true (printf_buffer c) (con_dev c)).
      assert (vga_print t c = Ok (tt, c1)) as H1 by (unfold vga_print, on_screen; by rewrite Ei, Hp).
      rewrite (io_bind_step _ _ _ _ _ H1). assert (wf c1) as Hw1 by (split; [done|apply Hw..]).
      destruct (debug_print_spec t c1 Hw1) as (c2 & H2 & Hw2 & Hi & Hb & Hsc & Hse).
      rewrite (io_bind_step _ _ _ _ _ H2). exists c2. split; [done|]. split; [done|].
      unfold printed. rewrite Ei, Hi, Hb, Hse. cbn in Hsc |- *. by rewrite Hsc.
    + rewrite (io_bind_step _ _ _ tt c) by (unfold vga_print; by rewrite Ei).
      destruct (debug_print_spec t c Hw) as (c2 & H2 & Hw2 & Hp). rewrite (io_bind_step _ _ _ _ _ H2).
      exists c2. split; [done|]. split; [done|]. unfold printed in *. by rewrite Ei in *.
  - destruct (debug_print_spec t c Hw) as (c2 & H2 & Hw2 & Hp). rewrite (io_bind_step _ _ _ _ _ H2). by exists c2.
Qed.

(** [fputs(text); fputs("\n")] *)
Lemma libc_puts_spec t (c : console D) : wf c ->
  exists c1 c', libc_puts spins t c = Ok (0, c') /\ wf c' /\
    printed stdout t c c1 /\ printed stdout [10] c1 c'.
Proof.
  intros Hw. destruct (fputs_spec stdout t c Hw ltac:(done)) as (c1 & H1 & Hw1 & Hp1).
  destruct (fputs_spec stdout [10] c1 Hw1 ltac:(done)) as (c2 & H2 & Hw2 & Hp2).
  exists c1, c2. split; [|done]. unfold libc_puts. rewrite (io_bind_step _ _ _ _ _ H1).
  by rewrite (io_bind_step _ _ _ _ _ H2).
Qed.

Lemma buffer_after bytes o (c : console D) :
  wf c -> zlen o <= PRINTF_BUFFER_SIZE - 1 -> bytes = o \/ bytes = o ++ [0] ->
  exists front, bytes ++ drop (length bytes) (printf_buffer c) = front ++ [0] /\ zlen front = PRINTF_BUFFER_SIZE - 1.
Proof.
  intros [_ (front & -> & Hl) _] Ho Hb. unfold zlen, PRINTF_BUFFER_SIZE in *.
  assert (length bytes <= length front \/ bytes = o ++ [0%Z] /\ length o = length front)%nat as [Hc|[-> Hc]].
  { destruct Hb as [->| ->]; [left; lia|]. rewrite length_app. simpl.
    destruct (decide (length o = length front)); [by right|left; lia]. }
  - exists (bytes ++ drop (length bytes) front). rewrite drop_app_le, app_assoc by lia. split; [done|].
    rewrite length_app, length_drop. lia.
  - exists o. rewrite drop_ge, app_nil_r by (rewrite !length_app; simpl; lia). split; [done|lia].
Qed.

Lemma vfprintf_spec f fmt args n bytes ws (c : console D) :
  wf c -> f <> other_file -> 65 * zlen fmt + args_len args < 2 ^ 64 ->
  vsnprintf true PRINTF_BUFFER_SIZE (Some fmt) args = Ok (n, bytes, ws) ->
  exists t c', text_of (bytes ++ drop (length bytes) (printf_buffer c)) = Ok t /\
    vfprintf spins f (Some fmt) args c = Ok (0, c') /\ wf c' /\
    printed f t (Console (con_screen c) (vga_initialized c) (bytes ++ drop (length bytes) (printf_buffer c)) (con_dev c)) c'.
Proof.
  intros Hw Hf Hn Hv. destruct (vsnprintf_shape PRINTF_BUFFER_SIZE _ _ _ _ _ ltac:(done) Hn Hv) as (o & Ho & Hs).
  destruct (buffer_after bytes o c Hw) as (front & Hb & Hl); [unfold PRINTF_BUFFER_SIZE in *; lia|intuition|].
  destruct (text_of_zero (front ++ [0])) as (t & Ht); [apply elem_of_app; right; by left|].
  set (c1 := Console (con_screen c) (vga_initialized c) (front ++ [0]) (con_dev c)).
  assert (wf c1) as Hw1 by (split; [apply Hw|by exists front|apply Hw]).
  destruct (fputs_spec f t c1 Hw1 Hf) as (c' & He & Hw' & Hp).
  exists t, c'. rewrite Hb. split; [done|]. split; [|done].
  unfold vfprintf. rewrite Hv. cbn [mbind outcome_bind]. rewrite Hb. fold c1. destruct f; [| |done]; by rewrite Ht.
Qed.

(** ** Histories of printing *)

Definition request : Type := FILE * list Z * list arg.
Definition request_ok (r : request) : Prop :=
  let '(f, fmt, args) := r in f <> other_file /\ 65 * zlen fmt + args_len args < 2 ^ 64 /\
    exists x, vsnprintf true PRINTF_BUFFER_SIZE (Some fmt) args = Ok x.

Fixpoint run (l : list request) (c : console D) : outcome (console D) :=
  match l with
  | [] => Ok c
  | (f, fmt, args) :: l' => '(_, c') ← vfprintf spins f (Some fmt) args c; run l' c'
  end.

(** [C29] Printing never reads past the static buffer, although [vsnprintf] stores no
    NUL when it cuts a text: whatever is printed, in whatever order, to the screen
    and the serial line, every [vfprintf] whose formatting succeeds runs to its
    end, and the last byte of the buffer stays zero. *)
Theorem printing_stays_in_buffer l (c : console D) :
  wf c -> Forall request_ok l -> exists c', run l c = Ok c' /\ wf c'.
Proof.
  intros Hw Hl. revert c Hw. induction Hl as [|[[f fmt] args] l (Hf & Hn & [[n bytes] ws] & Hv) Hl IH]; intros c Hw; [by exists c|].
  destruct (vfprintf_spec f fmt args n bytes ws c Hw Hf Hn Hv) as (t & c1 & _ & He & Hw1 & _).
  cbn [run]. rewrite He. by apply IH.
Qed.

(** A text without conversions printed with [printf] appears on the screen, once
    there is one, and on the serial line, cut at 511 characters. *)
Theorem printf_text s args (c : console D) :
  wf c -> vga_initialized c = true -> Forall plain s -> zlen s < 2 ^ 31 -> args_len args < 2 ^ 32 ->
  exists c', printf spins (s ++ [0]) args c = Ok (0, c') /\ wf c' /\
    print (con_screen c) (take 511 s) = Ok (con_screen c') /\
    sent (uart_of (con_dev c')) = sent (uart_of (con_dev c)) ++ take 511 s.
Proof.
  intros Hw Hv Hp Hs Ha. assert (Forall (fun c => c <> 0) s) as Hnz by (eapply Forall_impl; [exact Hp|unfold plain; lia]).
  assert (Forall is_byte s) as Hb by (eapply Forall_impl; [exact Hp|unfold plain, is_byte; lia]).
  pose proof (vsnprintf_text PRINTF_BUFFER_SIZE s args Hp ltac:(done) Hs) as Hf.
  destruct (vfprintf_spec stdout (s ++ [0]) args _ _ _ c Hw ltac:(done) ltac:(zlen_lia) Hf)
    as (t & c' & Ht & He & Hw' & _ & _ & Hpr & Hse).
  cbn [vga_initialized con_screen con_dev] in *. rewrite Hv in Hpr. cbn [andb] in Hpr.
  assert (t = take 511 s) as ->.
  { destruct (wf_buffer c Hw) as (front & Hbuf & Hl). rewrite Hbuf in Ht. unfold zlen, PRINTF_BUFFER_SIZE in *.
    destruct (Z.of_nat (length s) <? 0x200) eqn:E; bool_to_prop.
    - rewrite <- app_assoc in Ht. cbn [app] in Ht. rewrite text_of_app in Ht by done. injection Ht as <-.
      by rewrite take_ge by lia.
    - change (Z.to_nat (0x200 - 1)) with 511%nat in Ht. rewrite length_take, drop_app_ge in Ht by lia.
      replace (511 `min` length s - length front)%nat with 0%nat in Ht by lia. cbn [drop] in Ht.
      rewrite text_of_app in Ht by (by apply Forall_take). by injection Ht as <-. }
  exists c'. split_and!; try done. by rewrite Hse, u8_fixed by (by apply Forall_take).
Qed.
End console_spec.

Definition boot_console : console line :=
  Console (Screen (replicate 2000 0) (Cursor 0 0)) true (replicate 512 0) (Line (Uart 3 0 0xC7 0xB 3 []) (true, true)).

Lemma boot_console_wf : wf boot_console.
Proof.
  split; [by split|exists (replicate 511 0); by split|done].
Qed.

Theorem printing_stays_in_buffer_witness :
  exists c', run 3 [(stdout, [37; 100; 0], [AWord 5]); (stderr, [104; 105; 0], [])] boot_console = Ok c' /\ wf c'.
Proof.
  apply printing_stays_in_buffer.
  - cbn. lia.
  - exact boot_console_wf.
  - repeat constructor; try done; eexists; reflexivity.
Defined.

Theorem printf_text_witness :
  exists c', printf 3 [104; 105; 0] [] boot_console = Ok (0, c') /\
    print (con_screen boot_console) [104; 105] = Ok (con_screen c') /\ sent (uart_of (con_dev c')) = [104; 105].
Proof.
  assert (max_busy (D := line) < 3)%nat as Hm by (cbn; lia).
  destruct (printf_text 3 Hm [104; 105] [] boot_console) as (c' & He & _ & Hp & Hs).
  - exact boot_console_wf.
  - done.
  - repeat constructor; lia.
  - vm_compute. done.
  - vm_compute. done.
  - exists c'. by split_and!.
Defined.
