(* ===== verification/Minishell.v ===== *)
(** * kernel/minishell.cpp: the shell

    A subscriber of the keyboard: it edits a line in [command_buffer], echoes it on
    the screen and runs the command when Enter is pressed.  What the commands
    start elsewhere in the kernel is the class [ShellServices]; its instance for
    the file system is at the end. *)
From S2P Require Import Prelude CString Io Stdio Serial Vga Console Keyboard Filesystem.

#[local] Arguments wrap : simpl never.

Definition LINE : Z := 0x100.

Record shell (W : Type) := Shell {
  command_buffer : list Z;      (* char[0x100] *)
  buffer_count : Z;             (* unsigned *)
  shift_held : bool;
  con : console W
}.
Arguments Shell {W}.
Arguments command_buffer {W}.
Arguments buffer_count {W}.
Arguments shift_held {W}.
Arguments con {W}.

Definition UPPERS : list Z := [
  0; 1; 2; 3; 4; 5; 6; 7; 8; 9; 10; 11; 12; 13; 14; 15;
  16; 17; 18; 19; 20; 21; 22; 23; 24; 25; 26; 27; 28; 29; 30; 31;
  32; 33; 34; 35; 36; 37; 38; 34; 40; 41; 42; 43; 60; 95; 62; 63;
  41; 33; 64; 35; 36; 37; 94; 38; 42; 40; 58; 58; 60; 43; 62; 63;
  64; 65; 66; 67; 68; 69; 70; 71; 72; 73; 74; 75; 76; 77; 78; 79;
  80; 81; 82; 83; 84; 85; 86; 87; 88; 89; 90; 123; 124; 125; 94; 95;
  126; 65; 66; 67; 68; 69; 70; 71; 72; 73; 74; 75; 76; 77; 78; 79;
  80; 81; 82; 83; 84; 85; 86; 87; 88; 89; 90; 123; 124; 125; 126; 127;
  128; 129; 130; 131; 132; 133; 134; 135; 136; 137; 138; 139; 140; 141; 142; 143;
  144; 145; 146; 147; 148; 149; 150; 151; 152; 153; 154; 155; 156; 157; 158; 159;
  160; 161; 162; 163; 164; 165; 166; 167; 168; 169; 170; 171; 172; 173; 174; 175;
  176; 177; 178; 179; 180; 181; 182; 183; 184; 185; 186; 187; 188; 189; 190; 191;
  192; 193; 194; 195; 196; 197; 198; 199; 200; 201; 202; 203; 204; 205; 206; 207;
  208; 209; 210; 211; 212; 213; 214; 215; 216; 217; 218; 219; 220; 221; 222; 223;
  224; 225; 226; 227; 228; 229; 230; 231; 232; 233; 234; 235; 236; 237; 238; 239;
  240; 241; 242; 243; 244; 245; 246; 247; 248; 249; 250; 251; 252; 253; 254; 255].

(** What the commands call: [page_tables::dump_to_file], [fs::dump_dir],
    [fs::read_file], [scheduler::schedule_user_task] with the printing task, and
    the 16-bit port write. *)
Class ShellServices (W : Type) := {
  dump_page_tables : io (console W) unit;
  dump_directory : list Z -> io (console W) unit;
  read_file_at : list Z -> io (console W) (option (list Z));
  schedule_user_task : list Z -> io (console W) unit;
  port_out_word : Z -> Z -> W -> W
}.

Section shell.
Context {W : Type} `{Ports W} `{!ShellServices W} (spins : nat).

Definition on_con {A} (m : io (console W) A) : io (shell W) A := fun s =>
  '(a, c) ← m (con s); Ok (a, Shell (command_buffer s) (buffer_count s) (shift_held s) c).

(** [vga::string::print], [puts] and [print_char], on the current screen *)
Definition vprint (t : list Z) : io (console W) unit := on_screen (fun s => print s t).
Definition vputs (t : list Z) : io (console W) unit := on_screen (fun s => puts s t).
Definition vputc (c : Z) : io (console W) unit := on_screen (fun s => put_char s c).

(** The first part of [handle_key_event]: whether Enter was pressed. *)
Definition type_key (e : event) : io (shell W) bool := fun s =>
  if code e =? 1 then Ok (false, Shell (command_buffer s) (buffer_count s) (pressed e) (con s))
  else if pressed e then
    if code e =? 10 then Ok (true, s)
    else if isprint (code e) then
      c ← (if shift_held s then u ← aget UPPERS (code e); Ok (s8 u) else Ok (code e));
      if buffer_count s <? LINE then
        b ← aset (command_buffer s) (buffer_count s) c;
        '(_, c') ← vputc c (con s);
        Ok (false, Shell b (u32 (buffer_count s + 1)) (shift_held s) c')
      else Ok (false, s)
    else if code e =? 8 then
      if 0 <? buffer_count s then
        b ← aset (command_buffer s) (buffer_count s) 0;
        '(_, c') ← vputc (code e) (con s);
        Ok (false, Shell b (u32 (buffer_count s - 1)) (shift_held s) c')
      else Ok (false, s)
    else Ok (false, s)
  else Ok (false, s).

(** [strcmp(command_buffer, name) == 0] *)
Definition buffer_is (b : list Z) (name : string) : bool := strncmp_equal (length b) b (chars name).

(** The chain of comparisons; [b] is the terminated [command_buffer]. *)
Definition run_command (b : list Z) : io (console W) unit :=
  if buffer_is b "help" then vputs (chars "commands: help, clear, pages, ls, shutdown(q)")
  else if buffer_is b "clear" then on_screen clear
  else if buffer_is b "pages" then dump_page_tables
  else if buffer_is b "ls" then dump_directory (chars "/")
  else if strncmp_equal 4 b (chars "cat ") then
    path ← io_lift (text_of (drop 4 b));
    contents ← read_file_at path;
    match contents with
    | None => _ ← printf spins (chars "Can't find file with path: `%s`" ++ [10; 0]) [AStr path]; mret tt
    | Some block => t ← io_lift (text_of block); vputs t
    end
  else if buffer_is b "shutdown" || buffer_is b "q" then
    _ ← on_dev (fun w => Ok (tt, port_out_word 0x604 0x2000 w));
    _ ← on_dev (outb 0x501 0x42);
    io_lift (Fail Diverges)               (* SPIN_FOREVER *)
  else if buffer_is b "test" then schedule_user_task (chars "I'm a user!")
  else
    _ ← vprint (chars "error: `");
    t ← io_lift (text_of b);
    _ ← vprint t;
    vputs (chars "`: command not recognized").

(** What follows once Enter was pressed. *)
Definition run_line : io (shell W) unit := fun s =>
  b ← aset (command_buffer s) (Z.min (buffer_count s) 0xFF) 0;
  '(_, c) ← run_command b (con s);
  '(_, c') ← vprint (chars "> ") c;
  Ok (tt, Shell (replicate (Z.to_nat LINE) 0) 0 (shift_held s) c').

Definition handle_key_event (e : event) : io (shell W) unit :=
  enter_pressed ← type_key e;
  if negb enter_pressed then mret tt
  else
    _ ← on_con (on_screen (fun s => Ok (advance_cursor_to_newline s)));
    run_line.

(** [loop] up to its first [yield]: the prompt and the subscription. *)
Definition start (c : console W) (k : managed_pump) (handler : subscriber) :
  outcome (console W * option managed_pump) :=
  '(_, c') ← vprint (chars "> ") c; k' ← subscribe k handler; Ok (c', k').
End shell.

(** ** Comparing with string literals *)

Lemma strncmp_equal_strings a : forall n ra name,
  Forall (fun c => c <> 0) a -> Forall (fun c => c <> 0) name -> (length a < n)%nat ->
  strncmp_equal n (a ++ 0 :: ra) name = bool_decide (a = name).
Proof.
  induction a as [|x a IH]; intros [|n] ra name Ha Hn Hl; simpl in Hl; try lia; cbn [strncmp_equal app head tail].
  - destruct name as [|y name]; [done|]. apply Forall_cons in Hn as [Hy _]. cbn [default from_option head]. unfold id.
    destruct (0 =? y) eqn:E; bool_to_prop; [congruence|done].
  - apply Forall_cons in Ha as [Hx Ha]. destruct name as [|y name]; cbn [default from_option head tail]; unfold id.
    + destruct (x =? 0) eqn:E; bool_to_prop; done.
    + apply Forall_cons in Hn as [Hy Hn]. destruct (x =? y) eqn:E; bool_to_prop; cbn [negb].
      * subst. replace (y =? 0) with false by (symmetry; by apply Z.eqb_neq). cbn [andb]. rewrite IH by (done || lia).
        apply bool_decide_ext. naive_solver.
      * symmetry. apply bool_decide_eq_false. naive_solver.
Qed.

Lemma strncmp_equal_prefix p : forall a ra,
  Forall (fun c => c <> 0) a -> Forall (fun c => c <> 0) p ->
  strncmp_equal (length p) (a ++ 0 :: ra) p = bool_decide (take (length p) a = p).
Proof.
  induction p as [|y p IH]; intros a ra Ha Hp; [by rewrite bool_decide_true|].
  apply Forall_cons in Hp as [Hy Hp]. cbn [strncmp_equal length head tail default from_option]. unfold id.
  destruct a as [|x a]; cbn [app head tail take default from_option].
  - destruct (0 =? y) eqn:E; bool_to_prop; [congruence|done].
  - apply Forall_cons in Ha as [Hx Ha]. destruct (x =? y) eqn:E; bool_to_prop; cbn [negb].
    + subst. replace (y =? 0) with false by (symmetry; by apply Z.eqb_neq). cbn [andb]. rewrite IH by done.
      apply bool_decide_ext. split; [by intros ->|by injection 1].
    + symmetry. apply bool_decide_eq_false. naive_solver.
Qed.

(** ** The line editor *)

Definition upper (c : Z) : Z := s8 (default 0 (zget UPPERS c)).

Lemma upper_printable c : isprint c = true -> aget UPPERS c = Ok (default 0 (zget UPPERS c)) /\ isprint (upper c) = true.
Proof.
  intros Hc. unfold isprint in Hc. bool_to_prop.
  assert (forallb (fun c => isprint (upper c)) (seqZ 32 95) = true) as Hall by (vm_compute; done).
  rewrite forallb_forall in Hall. split.
  - destruct (zget_is_Some UPPERS c) as [u Hu]; [change (zlen UPPERS) with 256; lia|]. unfold aget. by rewrite Hu.
  - apply Hall, list_elem_of_In, elem_of_seqZ. lia.
Qed.

(** What one key does to the line and the shift key, and what it echoes. *)
Definition edit (ls : list Z * bool) (e : event) : list Z * bool :=
  let '(l, shift) := ls in
  if code e =? 1 then (l, pressed e)
  else if pressed e && isprint (code e) then
    if zlen l <? LINE then (l ++ [if shift then upper (code e) else code e], shift) else (l, shift)
  else if pressed e && (code e =? 8) then (removelast l, shift)
  else (l, shift).

Definition echo (ls : list Z * bool) (e : event) : list Z :=
  let '(l, shift) := ls in
  if code e =? 1 then []
  else if pressed e && isprint (code e) then
    if zlen l <? LINE then [if shift then upper (code e) else code e] else []
  else if pressed e && (code e =? 8) then
    match l with [] => [] | _ => [8] end
  else [].

Fixpoint echoes (ls : list Z * bool) (es : list event) : list Z :=
  match es with [] => [] | e :: es' => echo ls e ++ echoes (edit ls e) es' end.

Definition is_enter (e : event) : bool := pressed e && (code e =? 10).

Section shell_spec.
Context {W : Type} `{Ports W} `{!ShellServices W} (spins : nat).

(** The line being typed: the first [buffer_count] characters of the buffer. *)
Definition line_of (s : shell W) : list Z := take (Z.to_nat (buffer_count s)) (command_buffer s).

Record wf (s : shell W) : Prop := {
  wf_size : zlen (command_buffer s) = LINE;
  wf_count : 0 <= buffer_count s <= LINE;
  wf_line : Forall (fun c => isprint c = true) (line_of s);
  wf_screen : Vga.wf (con_screen (con s))
}.

Lemma line_length s : wf s -> zlen (line_of s) = buffer_count s.
Proof. intros [Hs Hc _ _]. unfold line_of, zlen in *. rewrite length_take. unfold LINE in *. lia. Qed.

(** The buffer in two parts. *)
Lemma buffer_split s : wf s -> exists rest, command_buffer s = line_of s ++ rest /\ zlen (line_of s) + zlen rest = LINE.
Proof.
  intros Hw. exists (drop (Z.to_nat (buffer_count s)) (command_buffer s)). unfold line_of at 1. rewrite take_drop.
  split; [done|]. rewrite line_length by done. destruct Hw as [Hs Hc _ _]. unfold zlen, LINE in *. rewrite length_drop. lia.
Qed.

Definition with_screen (c : console W) (v : screen) : console W := Console v (vga_initialized c) (printf_buffer c) (con_dev c).

Lemma vputc_spec c k : Vga.wf (con_screen c) ->
  exists v, print_char (con_screen c) k white black = Ok v /\ Vga.wf v /\ vputc k c = Ok (tt, with_screen c v).
Proof.
  intros Hw. destruct (print_char_wf (con_screen c) k white black Hw) as (v & Hv & Hwv).
  exists v. split; [done|]. split; [done|]. unfold vputc, on_screen, put_char. by rewrite Hv.
Qed.

(** One key against the line editor. *)
Definition key_step (s : shell W) (e : event) (s' : shell W) : Prop :=
  wf s' /\ (line_of s', shift_held s') = edit (line_of s, shift_held s) e /\
  exists v, print_chars (con_screen (con s)) (echo (line_of s, shift_held s) e) white black = Ok v /\
    con s' = with_screen (con s) v.

Lemma key_idle s e : wf s -> edit (line_of s, shift_held s) e = (line_of s, shift_held s) ->
  echo (line_of s, shift_held s) e = [] -> key_step s e s.
Proof.
  intros Hw He Hecho. split; [done|]. split; [done|]. rewrite Hecho. exists (con_screen (con s)). split; [done|].
  by destruct (con s).
Qed.

Lemma store_at_end (l rest : list Z) x y b : b = l ++ x :: rest -> aset b (zlen l) y = Ok (l ++ y :: rest).
Proof.
  intros ->. apply aset_Ok. rewrite zset_middle. split; [|done]. pose proof (zlen_nonneg l). pose proof (zlen_nonneg rest).
  rewrite zlen_app, zlen_cons. lia.
Qed.

(** A shell with a given line. *)
Lemma key_result l rest sh c v :
  Forall (fun c => isprint c = true) l -> zlen l + zlen rest = LINE -> Vga.wf v ->
  wf (Shell (l ++ rest) (zlen l) sh (with_screen c v)) /\ line_of (Shell (l ++ rest) (zlen l) sh (with_screen c v)) = l.
Proof.
  intros Hl Hn Hv. pose proof (zlen_nonneg l). pose proof (zlen_nonneg rest).
  assert (line_of (Shell (l ++ rest) (zlen l) sh (with_screen c v)) = l) as Hline.
  { unfold line_of. cbn. apply take_app_length'. unfold zlen. lia. }
  split; [|done]. split; cbn [command_buffer buffer_count con]; [by rewrite zlen_app|lia|by rewrite Hline|done].
Qed.

Lemma type_char s e : wf s -> code e <> 1 -> pressed e = true -> isprint (code e) = true ->
  exists s', type_key e s = Ok (false, s') /\ key_step s e s'.
Proof.
  intros Hw H1 Hp Hi. unfold type_key, key_step, edit, echo. rewrite (proj2 (Z.eqb_neq _ _) H1), Hp, Hi. cbn [andb].
  assert (code e =? 10 = false) as -> by (apply Z.eqb_neq; intros E; rewrite E in Hi; done).
  destruct (upper_printable _ Hi) as [Hu Hup]. set (c := if shift_held s then upper (code e) else code e).
  assert ((if shift_held s then u ← aget UPPERS (code e); Ok (s8 u) else Ok (code e)) = Ok c) as ->
    by (unfold c, upper; destruct (shift_held s); [by rewrite Hu|done]).
  cbn [mbind outcome_bind]. rewrite <- line_length by done.
  assert (isprint c = true) as Hc by (unfold c; by destruct (shift_held s)).
  destruct (zlen (line_of s) <? LINE) eqn:El; bool_to_prop.
  2: { exists s. split; [done|]. split; [done|]. split; [done|]. exists (con_screen (con s)). split; [done|]. by destruct (con s). }
  destruct (buffer_split s Hw) as ([|x rest] & Hb & Hl); [change (zlen []) with 0 in Hl; lia|].
  rewrite (store_at_end _ _ _ c _ Hb). cbn [mbind outcome_bind].
  destruct (vputc_spec (con s) c (wf_screen s Hw)) as (v & Hv & Hwv & ->). cbn [mbind outcome_bind].
  eexists. split; [done|]. rewrite zlen_cons in Hl. pose proof (zlen_nonneg rest). pose proof (zlen_nonneg (line_of s)).
  assert (u32 (zlen (line_of s) + 1) = zlen (line_of s) + 1) as Hn by (apply wrap_small; unfold LINE in *; lia).
  rewrite Hn, cons_middle, app_assoc. replace (zlen (line_of s) + 1) with (zlen (line_of s ++ [c])) by zlen_lia.
  destruct (key_result (line_of s ++ [c]) rest (shift_held s) (con s) v) as [Hwf Hline];
    [apply Forall_app; split; [apply Hw|by constructor]|zlen_lia|done|].
  rewrite Hline. split; [done|]. split; [done|]. exists v. split; [|done]. cbn [print_chars]. by rewrite Hv.
Qed.

(** Backspace stores its NUL one place behind the last character, which is outside
    the buffer when the line fills it. *)
Lemma type_backspace s e : wf s -> pressed e = true -> code e = 8 -> buffer_count s < LINE ->
  exists s', type_key e s = Ok (false, s') /\ key_step s e s'.
Proof.
  intros Hw Hp H8 Hroom. pose proof (line_length s Hw) as Hlen.
  destruct (Z.eq_dec (buffer_count s) 0) as [H0|H0].
  { exists s. unfold type_key. rewrite H8, Hp, H0. split; [done|].
    assert (line_of s = []) as Hl by (apply length_zero_iff_nil; unfold zlen in Hlen; lia).
    apply key_idle; [done|..]; unfold edit, echo; by rewrite H8, Hp, Hl. }
  destruct (wf_count s Hw) as [Hpos _].
  destruct (exists_last (l := line_of s)) as (l & y & Hly); [intros E; rewrite E in Hlen; change (zlen []) with 0 in Hlen; lia|].
  destruct (buffer_split s Hw) as ([|x rest] & Hb & Hl); [change (zlen []) with 0 in Hl; lia|].
  unfold type_key. rewrite H8, Hp. cbn [Z.eqb Pos.eqb isprint Z.leb Z.compare Pos.compare Pos.compare_cont andb].
  replace (0 <? buffer_count s) with true by lia. rewrite <- Hlen, (store_at_end _ _ _ 0 _ Hb). cbn [mbind outcome_bind].
  destruct (vputc_spec (con s) 8 (wf_screen s Hw)) as (v & Hv & Hwv & ->). cbn [mbind outcome_bind].
  eexists. split; [done|]. pose proof (wf_line s Hw) as Hprint. rewrite Hly in Hprint. apply Forall_app in Hprint as [Hprint _].
  unfold key_step, edit, echo. rewrite H8, Hp, Hly.
  assert (u32 (zlen (l ++ [y]) - 1) = zlen l) as ->.
  { rewrite Hly in Hlen. rewrite wrap_small; unfold LINE in *; zlen_lia. }
  rewrite <- app_assoc. rewrite Hly in Hl.
  destruct (key_result l ([y] ++ 0 :: rest) (shift_held s) (con s) v) as [Hwf Hline]; [done|zlen_lia|done|].
  rewrite Hline. split; [done|]. cbn. rewrite removelast_last. split; [done|]. exists v. split; [|done].
  destruct (l ++ [y]) eqn:E; [by destruct l|]. cbn [print_chars]. by rewrite Hv.
Qed.

Lemma type_key_spec s e : wf s -> is_enter e = false ->
  (pressed e = true -> code e = 8 -> buffer_count s < LINE) ->
  exists s', type_key e s = Ok (false, s') /\ key_step s e s'.
Proof.
  intros Hw He Hb. unfold is_enter in He. destruct (code e =? 1) eqn:E1.
  { eexists. unfold type_key. rewrite E1. split; [done|]. split; [by destruct Hw; split|].
    unfold edit, echo. rewrite E1. split; [done|]. exists (con_screen (con s)). split; [done|]. by destruct (con s). }
  destruct (pressed e) eqn:Ep.
  2: { exists s. unfold type_key. rewrite E1, Ep. split; [done|]. apply key_idle; [done|..]; unfold edit, echo; by rewrite E1, Ep. }
  destruct (isprint (code e)) eqn:Ei; [bool_to_prop; by apply type_char|].
  destruct (code e =? 8) eqn:E8; [bool_to_prop; apply type_backspace; auto|].
  exists s. cbn [andb] in He. unfold type_key. rewrite E1, Ep, He, Ei, E8. split; [done|].
  apply key_idle; [done|..]; unfold edit, echo; by rewrite E1, Ep, Ei, E8.
Qed.

(** ** Commands *)

Fixpoint handle_all (es : list event) : io (shell W) unit :=
  match es with [] => mret tt | e :: es' => _ ← handle_key_event spins e; handle_all es' end.

(** A command line and what it runs. *)
Definition execute (l : list Z) : io (console W) unit :=
  if decide (l = chars "help") then vputs (chars "commands: help, clear, pages, ls, shutdown(q)")
  else if decide (l = chars "clear") then on_screen clear
  else if decide (l = chars "pages") then dump_page_tables
  else if decide (l = chars "ls") then dump_directory (chars "/")
  else if decide (take 4 l = chars "cat ") then
    contents ← read_file_at (drop 4 l);
    match contents with
    | None => _ ← printf spins (chars "Can't find file with path: `%s`" ++ [10; 0]) [AStr (drop 4 l)]; mret tt
    | Some block => t ← io_lift (text_of block); vputs t
    end
  else if decide (l = chars "shutdown" \/ l = chars "q") then
    _ ← on_dev (fun w => Ok (tt, port_out_word 0x604 0x2000 w));
    _ ← on_dev (outb 0x501 0x42);
    io_lift (Fail Diverges)
  else if decide (l = chars "test") then schedule_user_task (chars "I'm a user!")
  else
    _ ← vprint (chars "error: `"); _ ← vprint l; vputs (chars "`: command not recognized").

Lemma buffer_is_name l r name :
  Forall (fun c => c <> 0) l -> Forall (fun c => c <> 0) (chars name) ->
  buffer_is (l ++ 0 :: r) name = bool_decide (l = chars name).
Proof. intros Hl Hn. apply strncmp_equal_strings; [done..|]. rewrite length_app. simpl. lia. Qed.

Lemma isprint_nonzero l : Forall (fun c => isprint c = true) l -> Forall (fun c => c <> 0) l.
Proof. intros Hl. eapply Forall_impl; [exact Hl|]. intros c Hc ->. done. Qed.

Lemma io_lift_bind {B A} (a : A) (f : A -> io (console W) B) c : (io_lift (Ok a) ≫= f) c = f a c.
Proof. done. Qed.

Lemma run_command_execute l r c : Forall (fun c => c <> 0) l -> run_command spins (l ++ 0 :: r) c = execute l c.
Proof.
  intros Hl. unfold run_command, execute.
  rewrite !buffer_is_name by (done || (vm_compute; repeat constructor; done)).
  change 4%nat with (length (chars "cat ")) at 1.
  rewrite strncmp_equal_prefix by (done || (vm_compute; repeat constructor; done)).
  change (length (chars "cat ")) with 4%nat.
  assert (text_of (l ++ 0 :: r) = Ok l) as Ht by (by apply text_of_app).
  do 4 (case_bool_decide; case_decide; try done).
  case_bool_decide as Hc; case_decide; try done.
  { assert (4 <= length l)%nat by (rewrite <- (take_drop 4 l), length_app, Hc; vm_compute; lia).
    rewrite drop_app_le by done. rewrite text_of_app by (by apply Forall_drop). done. }
  rewrite <- bool_decide_or. case_bool_decide; case_decide; try done.
  case_bool_decide; case_decide; try done. by rewrite Ht.
Qed.

Definition edits (ls : list Z * bool) (es : list event) : list Z * bool := fold_left edit es ls.

Lemma edit_length ls e : zlen (edit ls e).1 <= zlen ls.1 + 1.
Proof.
  destruct ls as [l sh]. unfold edit. pose proof (zlen_nonneg l).
  assert (zlen (removelast l) <= zlen l) as Hr.
  { destruct (decide (l = [])) as [->|Hn]; [done|]. destruct (exists_last Hn) as (l' & y & ->).
    rewrite removelast_last. zlen_lia. }
  repeat case_match; cbn [fst]; zlen_lia.
Qed.

Lemma with_screen_trans (c : console W) v v' : with_screen (with_screen c v) v' = with_screen c v'.
Proof. done. Qed.

Lemma print_chars_app t : forall t' v fg bg,
  print_chars v (t ++ t') fg bg = (v' ← print_chars v t fg bg; print_chars v' t' fg bg).
Proof.
  induction t as [|c t IH]; intros t' v fg bg; [done|]. cbn [app print_chars].
  destruct (print_char v c fg bg); cbn [mbind outcome_bind]; [apply IH|done].
Qed.

(** Any keys but Enter, on a line that stays shorter than the buffer. *)
Lemma handle_all_spec es : forall s, wf s -> Forall (fun e => is_enter e = false) es ->
  zlen (line_of s) + zlen es < LINE ->
  exists s' v, handle_all es s = Ok (tt, s') /\ wf s' /\
    (line_of s', shift_held s') = edits (line_of s, shift_held s) es /\
    zlen (line_of s') < LINE /\
    print_chars (con_screen (con s)) (echoes (line_of s, shift_held s) es) white black = Ok v /\
    con s' = with_screen (con s) v.
Proof.
  induction es as [|e es IH]; intros s Hw Hes Hl.
  { exists s, (con_screen (con s)). change (zlen []) with 0 in Hl. split_and!; try done; [lia|by destruct (con s)]. }
  apply Forall_cons in Hes as [He Hes]. rewrite zlen_cons in Hl. pose proof (zlen_nonneg es).
  destruct (type_key_spec s e Hw He) as (s1 & H1 & Hw1 & Hed & v1 & Hv1 & Hc1).
  { intros _ _. rewrite <- (line_length s Hw). lia. }
  pose proof (edit_length (line_of s, shift_held s) e) as Hlen. rewrite <- Hed in Hlen. cbn [fst] in Hlen.
  destruct (IH s1 Hw1 Hes) as (s' & v & Hr & Hw' & Hed' & Hlt & Hv & Hc); [lia|].
  exists s', v. cbn [handle_all]. rewrite (io_bind_step _ _ s tt s1).
  2: { unfold handle_key_event. by rewrite (io_bind_step _ _ _ _ _ H1). }
  split_and!; try done.
  - rewrite Hed'. cbn [edits fold_left]. by rewrite Hed.
  - cbn [echoes]. rewrite print_chars_app, Hv1. cbn [mbind outcome_bind].
    rewrite Hc1 in Hv. cbn [with_screen con_screen] in Hv. by rewrite <- Hed.
  - by rewrite Hc, Hc1, with_screen_trans.
Qed.

Lemma handle_all_app es1 es2 s s1 : handle_all es1 s = Ok (tt, s1) -> handle_all (es1 ++ es2) s = handle_all es2 s1.
Proof.
  revert s. induction es1 as [|e es1 IH]; intros s Hr; cbn [handle_all app] in *; [by injection Hr as <-|].
  unfold mbind, io_bind in *. destruct (handle_key_event spins e s) as [[[] s2]|]; [|done]. by apply IH.
Qed.

Definition with_con (s : shell W) (c : console W) : shell W := Shell (command_buffer s) (buffer_count s) (shift_held s) c.

Lemma handle_enter s :
  handle_key_event spins (Event 10 true) s =
    run_line spins (with_con s (with_screen (con s) (advance_cursor_to_newline (con_screen (con s))))).
Proof. done. Qed.

Lemma run_line_spec s c : wf s -> zlen (line_of s) < LINE ->
  run_line spins (with_con s c) =
    ('(_, c1) ← execute (line_of s) c; '(_, c2) ← vprint (chars "> ") c1;
     Ok (tt, Shell (replicate (Z.to_nat LINE) 0) 0 (shift_held s) c2)).
Proof.
  intros Hw Hlt. unfold run_line, with_con. cbn [command_buffer buffer_count shift_held con].
  destruct (buffer_split s Hw) as ([|x rest] & Hb & Hn); [change (zlen []) with 0 in Hn; lia|].
  rewrite Z.min_l by (rewrite <- (line_length s Hw); unfold LINE in *; lia).
  rewrite <- (line_length s Hw), (store_at_end _ _ _ 0 _ Hb). cbn [mbind outcome_bind].
  by rewrite run_command_execute by (apply isprint_nonzero, Hw).
Qed.

(** A line typed and finished with Enter is run as typed: whatever keys are
    pressed and released, shifted or taken back, as long as the line stays
    shorter than the buffer, the keys are echoed, the command that runs is the
    edited line, and behind it stand the prompt and an empty line. *)
Theorem typed_line_runs es s :
  wf s -> Forall (fun e => is_enter e = false) es -> zlen (line_of s) + zlen es < LINE ->
  exists v line shift,
    (line, shift) = edits (line_of s, shift_held s) es /\
    print_chars (con_screen (con s)) (echoes (line_of s, shift_held s) es) white black = Ok v /\
    handle_all (es ++ [Event 10 true]) s =
      ('(_, c) ← execute line (with_screen (con s) (advance_cursor_to_newline v));
       '(_, c') ← vprint (chars "> ") c;
       Ok (tt, Shell (replicate 256 0) 0 shift c')).
Proof.
  intros Hw Hes Hl. destruct (handle_all_spec es s Hw Hes Hl) as (s' & v & Hr & Hw' & Hed & Hlt & Hv & Hc).
  exists v, (line_of s'), (shift_held s'). split; [done|]. split; [done|].
  rewrite (handle_all_app _ _ _ _ Hr). cbn [handle_all]. unfold mbind at 1, io_bind at 1.
  rewrite handle_enter, run_line_spec, Hc by done. cbn [with_screen con_screen].
  change (with_screen (with_screen (con s) v)) with (with_screen (con s)).
  change (Z.to_nat LINE) with 256%nat.
  destruct (execute _ _) as [[[] c]|]; cbn [mbind outcome_bind]; [|done].
  by destruct (vprint _ c) as [[[] c']|].
Qed.

(** Backspace on a line that fills the buffer writes behind the buffer. *)
Theorem backspace_on_full_line s :
  wf s -> buffer_count s = LINE -> handle_key_event spins (Event 8 true) s = Fail OutOfBounds.
Proof.
  intros Hw Hn. unfold handle_key_event, mbind at 1, io_bind at 1.
  assert (type_key (Event 8 true) s = Fail OutOfBounds) as ->; [|done].
  change (type_key (Event 8 true) s) with
    (if 0 <? buffer_count s then
       b ← aset (command_buffer s) (buffer_count s) 0;
       '(_, c') ← vputc 8 (con s);
       Ok (false, Shell b (u32 (buffer_count s - 1)) (shift_held s) c')
     else Ok (false, s)).
  rewrite Hn. unfold aset. by rewrite (wf_size s Hw).
Qed.
End shell_spec.

(** ** The commands on a file system *)

Record world (D : Type) := World { w_dev : D; w_fs : fs }.
Arguments World {D}.
Arguments w_dev {D}.
Arguments w_fs {D}.

#[export] Instance world_ports {D} `{Ports D} : Ports (world D) := {
  port_in p w := let '(v, d) := port_in p (w_dev w) in (v, World d (w_fs w));
  port_out p v w := World (port_out p v (w_dev w)) (w_fs w)
}.

Section services.
Context {D : Type} `{Ports D} `{BlockDevice D} (spins : nat) (fresh : Z -> list Z).

(** The lines of [ls]. *)
Fixpoint print_entries (l : list (list Z * Z)) : io (console (world D)) unit :=
  match l with
  | [] => mret tt
  | (name, size) :: l' =>
      _ ← printf spins (chars "/%s: size=%uB" ++ [10; 0]) [AStr name; AWord size]; print_entries l'
  end.

Definition list_directory (path : list Z) : io (console (world D)) unit := fun c =>
  l ← dump_dir (w_fs (con_dev c)) path; print_entries l c.

Definition cat_file (path : list Z) : io (console (world D)) (option (list Z)) :=
  on_dev (fun w => '(r, fs', d) ← read_file fresh (w_fs w) path (w_dev w); Ok (r, World d fs')).

Context (pages : io (console (world D)) unit) (task : list Z -> io (console (world D)) unit) (outw : Z -> Z -> D -> D).
Definition fs_services : ShellServices (world D) := {|
  dump_page_tables := pages;
  dump_directory := list_directory;
  read_file_at := cat_file;
  schedule_user_task := task;
  port_out_word p v w := World (outw p v (w_dev w)) (w_fs w)
|}.
End services.

(** A machine with a disk, a serial line that is always ready and nothing else. *)
#[export] Instance disk_ports : Ports ram_disk := {
  port_in p d := (if p =? COM1 + 5 then 0x20 else 0, d);
  port_out _ _ d := d
}.
#[export] Instance disk_services : ShellServices (world ram_disk) :=
  fs_services 1 heap_block (fun c => Ok (tt, c)) (fun _ c => Ok (tt, c)) (fun _ _ d => d).

Definition sample_shell : shell (world ram_disk) :=
  Shell (replicate 256 0) 0 false (Console (Screen (replicate 2000 0x20) (Cursor 2 0)) true (replicate 512 0)
    (World sample_disk sample_fs)).

Definition type_text (t : list Z) : list event := concat ((fun c => [Event c true; Event c false]) <$> t).

(** "ls", with an "x" taken back, on the sample disk. *)
Theorem typed_line_runs_witness : exists v c c',
  print_chars (con_screen (con sample_shell)) [108; 120; 8; 115] white black = Ok v /\
  execute 1 (chars "ls") (with_screen (con sample_shell) (advance_cursor_to_newline v)) = Ok (tt, c) /\
  handle_all 1 (type_text [108; 120; 8; 115] ++ [Event 10 true]) sample_shell =
    Ok (tt, Shell (replicate 256 0) 0 false c').
Proof.
  destruct (typed_line_runs 1 (type_text [108; 120; 8; 115]) sample_shell) as (v & line & shift & He & Hv & Hr).
  - split; [done|done|by constructor|split; done].
  - repeat constructor; done.
  - vm_compute. done.
  - change (edits (line_of sample_shell, shift_held sample_shell) (type_text [108; 120; 8; 115])) with
      (chars "ls", false) in He. injection He as -> ->.
    change (echoes (line_of sample_shell, shift_held sample_shell) (type_text [108; 120; 8; 115])) with [108; 120; 8; 115] in Hv.
    assert (match print_chars (con_screen (con sample_shell)) [108; 120; 8; 115] white black with
      | Ok v => is_ok ('(_, c) ← execute 1 (chars "ls") (with_screen (con sample_shell) (advance_cursor_to_newline v));
          vprint (chars "> ") c)
      | _ => false end = true) as Hok by (vm_compute; done).
    rewrite Hv in Hok. destruct (execute _ _ _) as [[[] c]|] eqn:Ex; [|done]. cbn [mbind outcome_bind] in Hr, Hok.
    destruct (vprint _ c) as [[[] c']|] eqn:Ep; [|done]. exists v, c, c'. split; [exact Hv|]. split; [exact Ex|exact Hr].
Defined.
