(* ===== verification/Terminal.v ===== *)
(** * From the keyboard to the shell: kernel/input.cpp with kernel/minishell.cpp

    The way of a key through the kernel: interrupts queue the events of its scan
    codes, turns of the dispatching task hand them to the shell, which edits its line
    and runs it.  A schedule is any order of interrupts, with the codes that have
    arrived, and turns; what arrives in the middle of a turn is lost and no part of
    it ([Keyboard.typing_while_locked_is_lost]). *)
From S2P Require Import Prelude RingBuffer Io Vga Console Filesystem Keyboard Minishell.

#[local] Arguments wrap : simpl never.

Inductive step :=
| Arrive (codes : list Z)      (* scan codes arrive, and their interrupt is served *)
| Turn.                        (* one turn of dispatch_key_events *)

(** A keyboard whose controller takes codes from the line. *)
Class KeyLine (D : Type) `{Hps2 : Ps2Controller D} := {
  receive : list Z -> D -> D;
  received codes d : Forall (fun b => 0 <= b < 256) codes -> pending (receive codes d) = pending d ++ codes
}.

(** What has arrived, and that the queue never overflows: at most 256 codes wait for a
    turn. *)
Fixpoint arrived (steps : list step) : list Z :=
  match steps with [] => [] | Arrive codes :: rest => codes ++ arrived rest | Turn :: rest => arrived rest end.
Fixpoint fits (steps : list step) (waiting : Z) : Prop :=
  match steps with
  | [] => True
  | Arrive codes :: rest => waiting + zlen codes <= QUEUE /\ fits rest (waiting + zlen codes)
  | Turn :: rest => fits rest 0
  end.

Definition code_ok (b : Z) : Prop := 0 < b < 256.

Section terminal.
Context {W : Type} `{Ports W} `{!ShellServices W} {D : Type} `{Hline : KeyLine D} (spins : nat).

(** [handle_key_event] as the subscriber's handler. *)
Definition shell_handles (_ : subscriber) (e : event) (s : shell W) : outcome (shell W) :=
  '(_, s') ← handle_key_event spins e s; Ok s'.

Definition run_step (st : step) (k : managed_pump) (d : D) (s : shell W) : outcome (managed_pump * D * shell W) :=
  match st with
  | Arrive codes => '(k, d) ← handle_interrupt (S (length codes)) k (receive codes d); Ok (k, d, s)
  | Turn => '(k, s) ← dispatch_key_events shell_handles k s; Ok (k, d, s)
  end.

Fixpoint run_steps (steps : list step) (k : managed_pump) (d : D) (s : shell W) : outcome (managed_pump * D * shell W) :=
  match steps with
  | [] => Ok (k, d, s)
  | st :: rest => '(k, d, s) ← run_step st k d s; run_steps rest k d s
  end.

(** ** The shell behind the dispatcher *)

Lemma handle_all_cons e es (s : shell W) :
  handle_all spins (e :: es) s = ('(_, s') ← handle_key_event spins e s; handle_all spins es s').
Proof. cbn [handle_all]. unfold mbind, io_bind. by destruct (handle_key_event spins e s) as [[[] s']|]. Qed.

Lemma deliver_handle_all h es : forall s, deliver shell_handles [h] es s = ('(_, s') ← handle_all spins es s; Ok s').
Proof.
  induction es as [|e es IH]; intros s; [done|]. rewrite handle_all_cons. cbn [deliver notify].
  assert (shell_handles h e s = ('(_, s') ← handle_key_event spins e s; Ok s')) as -> by done.
  destruct (handle_key_event spins e s) as [[[] s']|]; [|done]. rewrite !bind_ok. apply IH.
Qed.

Lemma handle_all_seq es1 es2 s :
  ('(_, s1) ← handle_all spins es1 s; handle_all spins es2 s1) = handle_all spins (es1 ++ es2) s.
Proof.
  revert s. induction es1 as [|e es1 IH]; intros s; [done|]. cbn [app]. rewrite !handle_all_cons.
  destruct (handle_key_event spins e s) as [[[] s']|]; [|done]. rewrite !bind_ok. apply IH.
Qed.

(** The queue between two steps, with the shell as its only subscriber. *)
Record between (h : subscriber) (q : list event) (k : managed_pump) (d : D) : Prop := {
  between_lock : pump_locked k = false;
  between_wf : wf_pump (pump k);
  between_queue : queued (pump k) = q;
  between_shell : subscribed (pump k) = [h];
  between_line : pending d = []
}.

Lemma decoded_count codes : zlen (omap decoded codes) <= zlen codes.
Proof. unfold zlen. induction codes as [|b codes IH]; cbn; [lia|]. destruct (decoded b); cbn; lia. Qed.

Lemma arrive_step h q k d s codes : between h q k d -> Forall code_ok codes -> zlen q + zlen codes <= QUEUE ->
  exists k' d', run_step (Arrive codes) k d s = Ok (k', d', s) /\ between h (q ++ omap decoded codes) k' d'.
Proof.
  intros [Hl Hw Hq Hs Hp] Hc Hroom.
  assert (pending (receive codes d) = codes) as Hr.
  { rewrite received, Hp; [done|]. eapply Forall_impl; [exact Hc|]. unfold code_ok. lia. }
  destruct (handle_interrupt_spec (S (length codes)) k (receive codes d)) as (k' & d' & He & Hp' & Hl' & Hw' & Hq' & Hs'); rewrite ?Hr.
  - lia.
  - eapply Forall_impl; [exact Hc|]. unfold code_ok. lia.
  - done.
  - by rewrite Hq.
  - exists k', d'. cbn [run_step]. rewrite He. split; [done|]. rewrite Hl, Hr, Hq in Hq'.
    split; [congruence|done|done|unfold subscribed in *; by rewrite Hs'|done].
Qed.

Lemma turn_step h q k d s : between h q k d -> zlen q <= QUEUE ->
  exists k', run_step Turn k d s = ('(_, s') ← handle_all spins q s; Ok (k', d, s')) /\ between h [] k' d.
Proof.
  intros [Hl Hw Hq Hs Hp] Hroom.
  destruct (dispatch_loop_spec shell_handles DISPATCH_FUEL (pump k) s) as (evs & Hwe & Hce & Hd); [|done|by rewrite Hs|].
  { rewrite Hq. unfold zlen, QUEUE, DISPATCH_FUEL in *. lia. }
  exists (ManagedPump false (EventPump evs (subscribers (pump k)))). split.
  - cbn [run_step]. unfold dispatch_key_events. rewrite Hl, Hd, Hs, Hq, deliver_handle_all.
    by destruct (handle_all spins q s) as [[[] s']|].
  - split; [done|split; [done|apply Hw]|exact Hce|exact Hs|done].
Qed.

(** A schedule that ends in a turn comes to what the shell does with the events of
    the codes in order. *)
Lemma run_steps_spec h steps : forall q k d s waiting, between h q k d -> zlen q <= waiting -> fits steps waiting ->
  Forall code_ok (arrived steps) -> waiting <= QUEUE ->
  exists k' d', between h [] k' d' /\
    run_steps (steps ++ [Turn]) k d s = ('(_, s') ← handle_all spins (q ++ omap decoded (arrived steps)) s; Ok (k', d', s')).
Proof.
  induction steps as [|[codes|] steps IH]; intros q k d s waiting Hb Hq Hf Hc Hwait; cbn [app run_steps arrived fits] in *.
  - destruct (turn_step h q k d s Hb ltac:(lia)) as (k' & Ht & Hb'). exists k', d. split; [done|].
    rewrite Ht, app_nil_r. by destruct (handle_all spins q s) as [[[] s']|].
  - apply Forall_app in Hc as [Hc Hrest]. destruct Hf as [Hroom Hf]. pose proof (decoded_count codes).
    destruct (arrive_step h q k d s codes Hb Hc ltac:(lia)) as (k1 & d1 & E1 & Hb1).
    destruct (IH (q ++ omap decoded codes) k1 d1 s (waiting + zlen codes)) as (k' & d' & Hb' & Hr); [done|rewrite zlen_app; lia|done..|].
    exists k', d'. split; [done|]. rewrite E1, bind_ok, Hr. by rewrite omap_app, app_assoc.
  - destruct (turn_step h q k d s Hb ltac:(lia)) as (k1 & E1 & Hb1).
    destruct (handle_all spins q s) as [[[] s1]|e] eqn:Eq.
    + rewrite bind_ok in E1. destruct (IH [] k1 d s1 0 Hb1 ltac:(done) Hf Hc ltac:(done)) as (k' & d' & Hb' & Hr).
      exists k', d'. split; [done|]. rewrite E1, bind_ok, Hr. cbn [app].
      rewrite <- handle_all_seq, Eq, bind_ok. done.
    + exists k1, d. split; [done|]. rewrite E1, <- handle_all_seq, Eq. done.
Qed.

(** ** From [minishell::loop] on *)

Definition empty_shell (c : console W) : shell W := Shell (replicate (Z.to_nat LINE) 0) 0 false c.

Lemma start_between h c c' k (d : D) : start c (ManagedPump false fresh_pump) h = Ok (c', Some k) -> Vga.wf (con_screen c) ->
  pending d = [] -> between h [] k d /\ wf (empty_shell c').
Proof.
  intros He Hw Hp. unfold start in He. apply bind_Ok in He as ([u c1] & Hv & He). apply bind_Ok in He as (k1 & Hk & He).
  injection He as -> ->. destruct fresh_pump_wf as ([Hwe Hws] & Hq & Hs).
  destruct (push_back_spec (0 : subscriber) QUEUE ltac:(done) (subscribers fresh_pump) h Hws) as (ok & b' & Hb & Hwb & Hc).
  unfold subscribe in Hk. cbn [pump_locked pump] in Hk. rewrite Hb, bind_ok in Hk. injection Hk as <-. split.
  - split; [done|done|exact Hq| |done]. unfold subscribed, subscriber in *. cbn [pump subscribers].
    rewrite Hs in Hc. cbn [zlen] in Hc. by destruct Hc as [_ ->].
  - split; [done|done|by constructor|]. cbn [con empty_shell]. unfold vprint, on_screen in Hv.
    apply bind_Ok in Hv as (v & Hv & E). injection E as _ <-. cbn [con_screen].
    destruct (write_text_wf (con_screen c) (chars "> ") Hw) as (v' & Hv' & Hw'). unfold print in Hv. congruence.
Qed.

(** [C28] A command typed at the keyboard runs: from the prompt of [minishell::loop] on,
    however its scan codes arrive and the dispatcher's turns fall between them, as
    long as the queue and the line have room, the keys edit the line as the abstract
    editor says, are echoed, and Enter runs the edited line; behind it stand the
    prompt, an empty line and an empty queue, ready for the next. *)
Theorem keyboard_runs_line h steps es c c' k (d : D)
    (Hstart : start c (ManagedPump false fresh_pump) h = Ok (c', Some k)) (Hscreen : Vga.wf (con_screen c)) (Hquiet : pending d = [])
    (Hroom : fits steps 0) (Hcodes : Forall code_ok (arrived steps))
    (Hkeys : omap decoded (arrived steps) = es ++ [Event 10 true])
    (Hes : Forall (fun e => is_enter e = false) es) (Hlen : zlen es < LINE) :
  exists v line shift, (line, shift) = edits ([], false) es /\
    print_chars (con_screen c') (echoes ([], false) es) white black = Ok v /\
    match ('(_, c1) ← execute spins line (with_screen c' (advance_cursor_to_newline v)); vprint (chars "> ") c1) with
    | Fail e => run_steps (steps ++ [Turn]) k d (empty_shell c') = Fail e
    | Ok (_, c2) => exists k' d', run_steps (steps ++ [Turn]) k d (empty_shell c') =
        Ok (k', d', Shell (replicate (Z.to_nat LINE) 0) 0 shift c2) /\ between h [] k' d'
    end.
Proof.
  destruct (start_between h c c' k d Hstart Hscreen Hquiet) as [Hb Hw].
  destruct (typed_line_runs spins es (empty_shell c') Hw Hes) as (v & line & shift & He & Hv & Hr); [by cbn|].
  exists v, line, shift. split; [exact He|]. split; [exact Hv|].
  destruct (run_steps_spec h steps [] k d (empty_shell c') 0 Hb ltac:(done) Hroom Hcodes ltac:(done)) as (k' & d' & Hb' & Hrun).
  cbn [app] in Hrun. rewrite Hrun, Hkeys, Hr. cbn [con empty_shell].
  destruct (execute spins line _) as [[[] c1]|e]; [|done]. rewrite !bind_ok.
  destruct (vprint (chars "> ") c1) as [[[] c2]|e]; [|done]. by exists k', d'.
Qed.
End terminal.

(** ** A keyboard and a shell *)

#[export] Instance plain_line : KeyLine plain_keyboard.
Proof.
  refine {| receive codes d := d ++ codes |}.
  intros codes d Hc. cbn [pending plain_controller]. rewrite fmap_app. f_equal.
  induction Hc as [|b codes Hb Hc IH]; [done|]. by rewrite fmap_cons, IH, (wrap_small 8).
Defined.

(** "ls" and Enter, with the dispatcher's turn in between and the codes of two keys in
    one interrupt. *)
Definition ls_steps : list step := [Arrive [0x26; 0xA6]; Turn; Arrive [0x1F]; Arrive [0x9F; 0x1C]].
Definition sample_console : console (world ram_disk) :=
  Console (Screen (replicate 2000 0x20) (Cursor 0 0)) true (replicate 512 0) (World Filesystem.sample_disk Filesystem.sample_fs).

Lemma sample_screen : Vga.wf (con_screen sample_console).
Proof. by split. Qed.

Lemma keyboard_runs_line_witness : exists c' k line c1 k' d' c2,
  start sample_console (ManagedPump false fresh_pump) 7 = Ok (c', Some k) /\
  line = chars "ls" /\ execute 1 line c1 = Ok (tt, c2) /\
  exists c3, run_steps (Hline := plain_line) 1 (ls_steps ++ [Turn]) k ([] : plain_keyboard) (empty_shell c') = Ok (k', d', Shell (replicate 256 0) 0 false c3) /\
    between 7 [] k' d'.
Proof.
  assert (is_ok (start sample_console (ManagedPump false fresh_pump) 7) = true) as Hok by (vm_compute; reflexivity).
  assert (match start sample_console (ManagedPump false fresh_pump) 7 with Ok (c', Some k) =>
    is_ok (run_steps (Hline := plain_line) 1 (ls_steps ++ [Turn]) k ([] : plain_keyboard) (empty_shell c')) | _ => false end = true) as Hrun by (vm_compute; reflexivity).
  destruct (start sample_console (ManagedPump false fresh_pump) 7) as [[c' [k|]]|e] eqn:Es; [|discriminate Hrun..].
  destruct (keyboard_runs_line (Hline := plain_line) 1 7 ls_steps [Event 108 true; Event 108 false; Event 115 true; Event 115 false]
    sample_console c' k ([] : plain_keyboard) Es sample_screen ltac:(reflexivity)) as (v & line & shift & He & _ & Hr).
  - cbn. unfold QUEUE. zlen_nil. repeat split; vm_compute; discriminate.
  - repeat constructor; done.
  - reflexivity.
  - repeat constructor; done.
  - done.
  - injection He as -> ->.
    destruct (execute 1 _ _) as [[[] c1]|e] eqn:Ex; [|rewrite Hr in Hrun; discriminate Hrun]. rewrite bind_ok in Hr.
    destruct (vprint (chars "> ") c1) as [[[] c2]|e]; [|rewrite Hr in Hrun; discriminate Hrun].
    destruct Hr as (k' & d' & Hr & Hb). eexists c', k, _, _, k', d', c1. split; [done|]. split; [reflexivity|]. split; [exact Ex|].
    exists c2. split; [exact Hr|exact Hb].
Defined.
