(* ===== verification/HashMap.v ===== *)
(** * libadt/hash_map.h: the open-addressing hash map

    Integral keys, the only ones [hash_traits] covers.  The loops carry fuel, one
    unit per turn and per call; the theorems about divergence hold for every fuel. *)
From S2P Require Import Prelude.

#[local] Arguments wrap : simpl never.

Section hash_map.
Context {V : Type} (V0 : V).

Record entry := Entry { e_empty : bool; e_sentinel : bool; e_data : Z * V }.
(** An entry of a block that [memset] has zeroed. *)
Definition zero_entry : entry := Entry false false (0, V0).

(** [data] is [None] for the null pointer. *)
Record hash_map := HashMap { log2capacity : Z; num_elems : Z; data : option (list entry) }.
Definition new_map : hash_map := HashMap 0 0 None.

Definition hash (k : Z) : Z := u64 k.
Definition capacity (m : hash_map) : Z := u64 (s32 (Z.shiftl 1 (log2capacity m))).
Definition bucket (m : hash_map) (k : Z) : Z := Z.land (hash k) (u64 (capacity m - 1)).
Definition size (m : hash_map) : Z := num_elems m.

(** [data[idx]] *)
Definition slot (m : hash_map) (idx : Z) : outcome entry :=
  es ← of_option (Undefined "null pointer") (data m); aget es idx.

Definition set_slot (m : hash_map) (idx : Z) (e : entry) : outcome hash_map :=
  es ← of_option (Undefined "null pointer") (data m);
  es' ← aset es idx e;
  Ok (HashMap (log2capacity m) (num_elems m) (Some es')).

(** ** Iterators: the index of [current], or [None] at the end *)

Fixpoint advance_til_non_empty_or_end (fuel : nat) (m : hash_map) (current : Z) : outcome (option Z) :=
  match fuel with
  | O => Fail Diverges
  | S f =>
      e ← slot m current;
      if e_empty e && negb (e_sentinel e) then advance_til_non_empty_or_end f m (current + 1)
      else Ok (if e_sentinel e then None else Some current)
  end.

Definition begin (fuel : nat) (m : hash_map) : outcome (option Z) :=
  match data m with
  | None => Ok None
  | Some _ =>
      e ← slot m 0;
      if e_empty e then advance_til_non_empty_or_end fuel m 0
      else Ok (if e_sentinel e then None else Some 0)
  end.

(** [operator++] *)
Definition next (fuel : nat) (m : hash_map) (it : option Z) : outcome (option Z) :=
  match it with None => Ok None | Some current => advance_til_non_empty_or_end fuel m current end.

(** ** Lookup and insertion *)

Fixpoint lookup_loop (fuel : nat) (m : hash_map) (k idx : Z) : outcome (option V) :=
  match fuel with
  | O => Fail Diverges
  | S f =>
      e ← slot m idx;
      if e_empty e then Ok None
      else if (e_data e).1 =? k then Ok (Some (e_data e).2)
      else lookup_loop f m k (if e_sentinel e then 0 else idx)
  end.
Definition lookup (fuel : nat) (m : hash_map) (k : Z) : outcome (option V) := lookup_loop fuel m k (bucket m k).
Definition contains (fuel : nat) (m : hash_map) (k : Z) : outcome bool :=
  v ← lookup fuel m k; Ok (match v with Some _ => true | None => false end).

(** The search of [insert]: [None] when the key is there, or the empty place. *)
Fixpoint probe (fuel : nat) (m : hash_map) (k idx : Z) : outcome (option Z) :=
  match fuel with
  | O => Fail Diverges
  | S f =>
      e ← slot m idx;
      if (e_data e).1 =? k then Ok None
      else if e_empty e then Ok (Some idx)
      else probe f m k (if e_sentinel e then 0 else idx + 1)
  end.

(** The table of [NewMap] in [reserve]. *)
Definition fresh_table (n : Z) : outcome (list entry) :=
  aset (replicate (Z.to_nat n) zero_entry) (n - 1) (Entry false true (0, V0)).

(** [for (auto &[key, value] : *this) NewMap.insert({key, value});] *)
Fixpoint rehash (insert : hash_map -> Z * V -> outcome (bool * hash_map)) (fuel : nat)
    (m new_map : hash_map) (it : option Z) : outcome hash_map :=
  match it with
  | None => Ok new_map
  | Some current =>
      match fuel with
      | O => Fail Diverges
      | S f =>
          e ← slot m current;
          '(_, new') ← insert new_map (e_data e);
          it' ← next f m it;
          rehash insert f m new' it'
      end
  end.

Definition reserve (insert : hash_map -> Z * V -> outcome (bool * hash_map)) (fuel : nat)
    (m : hash_map) (bytes : Z) : outcome hash_map :=
  if u64 (bytes + 1) <=? u64 (capacity m - 1) then Ok m
  else
    let l := if capacity m =? 0 then 6 else u64 (log2capacity m + 1) in
    let m1 := HashMap l (num_elems m) (data m) in
    table ← fresh_table (capacity m1);
    it ← begin fuel m1;
    new' ← rehash insert fuel m1 (HashMap l 0 (Some table)) it;
    Ok (HashMap l (num_elems m) (data new')).

Fixpoint insert (fuel : nat) (m : hash_map) (kv : Z * V) : outcome (bool * hash_map) :=
  match fuel with
  | O => Fail Diverges
  | S f =>
      m1 ← reserve (insert f) f m (u64 (size m + 1));
      p ← probe f m1 kv.1 (bucket m1 kv.1);
      match p with
      | None => Ok (true, m1)
      | Some idx =>
          e ← slot m1 idx;
          m2 ← set_slot m1 idx (Entry false (e_sentinel e) kv);
          Ok (false, HashMap (log2capacity m2) (u64 (num_elems m2 + 1)) (data m2))
      end
  end.

(** ** A zeroed entry does not count as empty *)

Definition sentinel_entry : entry := Entry false true (0, V0).

(** A table as [reserve] makes it. *)
Definition zeroed (m : hash_map) (n : nat) : Prop := data m = Some (replicate n zero_entry ++ [sentinel_entry]).

Lemma zeroed_slot m n idx : zeroed m n -> 0 <= idx <= Z.of_nat n ->
  slot m idx = Ok (if idx =? Z.of_nat n then sentinel_entry else zero_entry).
Proof.
  intros Hz Hi. unfold slot. rewrite Hz. cbn [of_option mbind outcome_bind]. apply aget_Ok. unfold zget.
  case_if; [lia|]. case_if.
  - subst idx. rewrite Nat2Z.id. apply list_lookup_middle. by rewrite length_replicate.
  - rewrite lookup_app_l by (rewrite length_replicate; lia). apply lookup_replicate_2. lia.
Qed.

(** The search for any other key than 0 goes round and round. *)
Lemma probe_diverges fuel : forall m n k idx, zeroed m n -> k <> 0 -> 0 <= idx <= Z.of_nat n -> probe fuel m k idx = Fail Diverges.
Proof.
  induction fuel as [|f IH]; intros m n k idx Hz Hk Hi; [done|]. cbn [probe].
  rewrite (zeroed_slot m n) by done. cbn [mbind outcome_bind].
  destruct (idx =? Z.of_nat n) eqn:E; bool_to_prop; cbn [e_data e_empty e_sentinel sentinel_entry zero_entry fst];
    (destruct (0 =? k) eqn:E0; bool_to_prop; [congruence|]); apply (IH m n); done || lia.
Qed.

Lemma lookup_diverges fuel : forall m n k idx, zeroed m n -> k <> 0 -> 0 <= idx <= Z.of_nat n -> lookup_loop fuel m k idx = Fail Diverges.
Proof.
  induction fuel as [|f IH]; intros m n k idx Hz Hk Hi; [done|]. cbn [lookup_loop].
  rewrite (zeroed_slot m n) by done. cbn [mbind outcome_bind].
  destruct (idx =? Z.of_nat n) eqn:E; bool_to_prop; cbn [e_data e_empty e_sentinel sentinel_entry zero_entry fst];
    (destruct (0 =? k) eqn:E0; bool_to_prop; [congruence|]); apply (IH m n); done || lia.
Qed.

Lemma bucket_two m k : capacity m = 2 -> 0 <= bucket m k <= 1.
Proof.
  intros Hc. unfold bucket, hash. rewrite Hc, (wrap_small 64 (2 - 1)) by lia. change (2 - 1) with (Z.ones 1).
  rewrite Z.land_ones by lia. change (2 ^ 1) with 2. pose proof (Z.mod_pos_bound (u64 k) 2). lia.
Qed.

(** The map after the first call: two places, none of them empty. *)
Definition first_map : hash_map := HashMap 1 0 (Some [zero_entry; sentinel_entry]).

Lemma insert_first f kv :
  insert (S f) new_map kv = (p ← probe f first_map kv.1 (bucket first_map kv.1);
    match p with
    | None => Ok (true, first_map)
    | Some idx =>
        e ← slot first_map idx; m2 ← set_slot first_map idx (Entry false (e_sentinel e) kv);
        Ok (false, HashMap (log2capacity m2) (u64 (num_elems m2 + 1)) (data m2))
    end).
Proof. by destruct f. Qed.

(** A range-for over a map whose first place is in use never leaves it. *)
Lemma rehash_stuck ins fuel : forall m n new', zeroed m (S n) ->
  (ins new' (0, V0) = Ok (true, new') \/ ins new' (0, V0) = Fail Diverges) ->
  rehash ins fuel m new' (Some 0) = Fail Diverges.
Proof.
  induction fuel as [|f IH]; intros m n new' Hz Hins; [done|]. cbn [rehash].
  rewrite (zeroed_slot m (S n)) by (done || lia). assert (0 =? Z.of_nat (S n) = false) as -> by (apply Z.eqb_neq; lia).
  cbn [mbind outcome_bind e_data zero_entry]. destruct Hins as [Hi|Hi]; rewrite Hi; [|done]. cbn [mbind outcome_bind next].
  destruct f as [|f]; [done|]. cbn [advance_til_non_empty_or_end].
  rewrite (zeroed_slot m (S n)) by (done || lia). assert (0 =? Z.of_nat (S n) = false) as -> by (apply Z.eqb_neq; lia).
  apply (IH m n); [done|by left].
Qed.

(** The table of the second growth. *)
Definition second_map : hash_map := HashMap 2 0 (Some (replicate 3 zero_entry ++ [sentinel_entry])).

Lemma insert_second f : insert f second_map (0, V0) = Ok (true, second_map) \/ insert f second_map (0, V0) = Fail Diverges.
Proof. destruct f as [|[|f]]; [by right..|by left]. Qed.

(** [C40] The map cannot store anything: inserting a key other than 0 into a new map
    never ends, inserting 0 reports the key as present without storing its value,
    and the insertion after that never ends either, whatever its key. *)
Theorem hash_map_stores_nothing v :
  (forall k fuel, k <> 0 -> insert fuel new_map (k, v) = Fail Diverges) /\
  (forall fuel, insert (S (S fuel)) new_map (0, v) = Ok (true, first_map) /\ lookup (S fuel) first_map 0 = Ok (Some V0)) /\
  (forall fuel kv, insert fuel first_map kv = Fail Diverges).
Proof.
  split; [|split].
  - intros k [|f] Hk; [done|]. rewrite insert_first. cbn [fst].
    by rewrite (probe_diverges f first_map 1) by (done || by apply bucket_two).
  - done.
  - intros [|f] kv; [done|]. cbn [insert].
    assert (reserve (insert f) f first_map (u64 (size first_map + 1)) =
      ('new' ← rehash (insert f) f (HashMap 2 0 (data first_map)) second_map (Some 0); Ok (HashMap 2 0 (data new')))) as -> by done.
    by rewrite (rehash_stuck _ f (HashMap 2 0 (data first_map)) 0 second_map) by (done || apply insert_second).
Qed.

(** A lookup of any key but 0 does not end either. *)
Theorem lookup_never_ends k fuel : k <> 0 -> lookup fuel first_map k = Fail Diverges.
Proof. intros Hk. apply (lookup_diverges fuel first_map 1); [done..|]. by apply bucket_two. Qed.
End hash_map.
