(* ===== verification/HashMapOwner.v ===== *)
(** * libadt/hash_map.h: copies, moves and the ownership of the tables

    HashMap.v has the table of one map; here the maps are objects in slots that own
    their tables through pointers, so that aliasing shows.  The allocator is a
    class; a table it gives has no contents yet ([None] per entry). *)
From S2P Require Import Prelude HashMap.

#[local] Arguments wrap : simpl never.

Section maps.
Context {V : Type}.

Abbreviation entry := (@HashMap.entry V) (only parsing).

(** [data] is an address, 0 for the null pointer. *)
Record object := Object { log2capacity : Z; num_elems : Z; data : Z }.
Definition new_object : object := Object 0 0 0.
Definition capacity (log2capacity : Z) : Z := u64 (s32 (Z.shiftl 1 log2capacity)).

Abbreviation tables := (gmap Z (list (option entry))) (only parsing).
Record store := Store { maps : gmap nat object; blocks : tables }.

(** The template parameter [Allocator]: a null pointer or a block that is not in use. *)
Class TableAllocator := {
  alloc_array_of : tables -> Z -> Z;
  alloc_fresh t n : alloc_array_of t n <> 0 -> t !! alloc_array_of t n = None
}.
Context `{TableAllocator}.

Definition set_map (s : store) (i : nat) (o : object) : store := Store (<[i := o]> (maps s)) (blocks s).
Definition object_at (s : store) (i : nat) : outcome object := of_option (Undefined "object is not alive") (maps s !! i).
Definition vacant (s : store) (i : nat) : outcome unit := assert_ (bool_decide (maps s !! i = None)) "slot is in use".

(** [allocator_type::alloc_array_of<entry>(n)] and [allocator_type::free] *)
Definition alloc_table (s : store) (n : Z) : Z * store :=
  let p := alloc_array_of (blocks s) n in
  (p, if p =? 0 then s else Store (maps s) (<[p := replicate (Z.to_nat n) None]> (blocks s))).
Definition free_table (s : store) (p : Z) : outcome store :=
  if p =? 0 then Ok s
  else match blocks s !! p with
       | Some _ => Ok (Store (maps s) (delete p (blocks s)))
       | None => Fail (Undefined "block is not allocated")
       end.

(** [memcpy(dst, src, sizeof(entry) * n)] *)
Definition copy_table (s : store) (dst src n : Z) : outcome store :=
  d ← of_option (Undefined "no block there") (blocks s !! dst);
  e ← of_option (Undefined "no block there") (blocks s !! src);
  if (n <=? zlen d) && (n <=? zlen e) then
    Ok (Store (maps s) (<[dst := take (Z.to_nat n) e ++ drop (Z.to_nat n) d]> (blocks s)))
  else Fail OutOfBounds.

(** [hash_map(const hash_map &other)]: object [i] from object [j]. *)
Definition copy_construct (s : store) (i j : nat) : outcome store :=
  _ ← vacant s i; other ← object_at s j;
  let '(p, s) := alloc_table s (capacity (log2capacity other)) in
  let s := set_map s i (Object (log2capacity other) (num_elems other) p) in
  copy_table s p (data other) (capacity (log2capacity other)).

(** [operator=(const hash_map &other)]; [other] may be the object itself. *)
Definition copy_assign (s : store) (i j : nat) : outcome store :=
  other ← object_at s j; self ← object_at s i;
  s ← free_table s (data self);
  let '(p, s) := alloc_table s (capacity (log2capacity other)) in
  let s := set_map s i (Object (log2capacity other) (num_elems other) p) in
  other ← object_at s j;
  copy_table s p (data other) (capacity (log2capacity other)).

(** [operator=(hash_map &&other)] exchanges the objects. *)
Definition move_assign (s : store) (i j : nat) : outcome store :=
  self ← object_at s i; other ← object_at s j;
  Ok (set_map (set_map s i other) j self).
Definition move_construct (s : store) (i j : nat) : outcome store :=
  _ ← vacant s i; _ ← object_at s j; move_assign (set_map s i new_object) i j.

(** [~hash_map] *)
Definition destroy (s : store) (i : nat) : outcome store :=
  self ← object_at s i; s ← free_table s (data self); Ok (Store (delete i (maps s)) (blocks s)).

(** The exchange at the end of [reserve]: the table [es] of the local map becomes the
    object's, and the object's old one goes with the local map. *)
Definition exchange_table (s : store) (i : nat) (l : Z) (es : list entry) : outcome store :=
  self ← object_at s i;
  let '(p, s) := alloc_table s (capacity l) in
  if p =? 0 then Fail (Undefined "no block there") else
  let s := Store (<[i := Object l (num_elems self) p]> (maps s)) (<[p := Some <$> es]> (blocks s)) in
  free_table s (data self).

Inductive op :=
| New (i : nat)                            (* hash_map i *)
| Copy (i j : nat)                         (* hash_map i(j) *)
| CopyAssign (i j : nat)                   (* i = j *)
| Move (i j : nat)                         (* hash_map i(std::move(j)) *)
| MoveAssign (i j : nat)                   (* i = std::move(j) *)
| Reserve (i : nat) (l : Z) (es : list entry)
| Destroy (i : nat).

Definition step (s : store) (o : op) : outcome store :=
  match o with
  | New i => _ ← vacant s i; Ok (set_map s i new_object)
  | Copy i j => copy_construct s i j
  | CopyAssign i j => copy_assign s i j
  | Move i j => move_construct s i j
  | MoveAssign i j => move_assign s i j
  | Reserve i l es => exchange_table s i l es
  | Destroy i => destroy s i
  end.

Fixpoint run (s : store) (os : list op) : outcome store :=
  match os with
  | [] => Ok s
  | o :: os' => s' ← step s o; run s' os'
  end.

Definition nothing : store := Store ∅ ∅.

(** ** Ownership *)

(** The live objects own the allocated tables, one each. *)
Record owned (s : store) : Prop := Owned {
  has_table i o : maps s !! i = Some o -> data o <> 0 -> is_Some (blocks s !! data o);
  one_owner i j o o' : maps s !! i = Some o -> maps s !! j = Some o' -> data o = data o' -> data o <> 0 -> i = j;
  has_owner p : is_Some (blocks s !! p) -> p <> 0 /\ exists i o, maps s !! i = Some o /\ data o = p
}.

(** The tables of a store with the given objects, up to a change of the contents. *)
Lemma owned_contents s p b b' : owned s -> blocks s !! p = Some b -> owned (Store (maps s) (<[p := b']> (blocks s))).
Proof.
  intros [H1 H2 H3] Hp. split; cbn [maps blocks].
  - intros i o Hi Hd. destruct (decide (data o = p)) as [->|]; [rewrite lookup_insert_eq; eauto|rewrite lookup_insert_ne by done; eauto].
  - exact H2.
  - intros q Hq. apply H3. destruct (decide (p = q)) as [->|]; [eauto|by rewrite lookup_insert_ne in Hq].
Qed.

(** An object without a table takes a new one. *)
Lemma owned_grant s i o p b : owned s -> p <> 0 -> blocks s !! p = None -> data o = p ->
  (forall o', maps s !! i = Some o' -> data o' = 0) -> owned (Store (<[i := o]> (maps s)) (<[p := b]> (blocks s))).
Proof.
  intros [H1 H2 H3] Hp0 Hp Ho Hi.
  assert (forall j o', maps s !! j = Some o' -> data o' <> p) as Hn.
  { intros j o' Hj E. destruct (H1 j o' Hj ltac:(congruence)) as [? Hb]. congruence. }
  split; cbn [maps blocks].
  - intros j o' Hj Hd. apply lookup_insert_Some in Hj as [[-> <-]|[Hne Hj]].
    + rewrite Ho, lookup_insert_eq. eauto.
    + rewrite lookup_insert_ne by (intros E; by apply (Hn j o')). eauto.
  - intros j k o1 o2 Hj Hk E Hd. apply lookup_insert_Some in Hj as [[-> <-]|[Hj1 Hj]], Hk as [[-> <-]|[Hk1 Hk]]; [done| | |eauto].
    + exfalso. by apply (Hn k o2 Hk); congruence.
    + exfalso. by apply (Hn j o1 Hj); congruence.
  - intros q Hq. destruct (decide (p = q)) as [<-|Hne].
    + split; [done|]. exists i, o. by rewrite lookup_insert_eq.
    + rewrite lookup_insert_ne in Hq by done. destruct (H3 q Hq) as (Hq0 & j & o' & Hj & Hd). split; [done|].
      exists j, o'. rewrite lookup_insert_ne; [done|]. intros ->. specialize (Hi o' Hj). congruence.
Qed.

(** A block freed through the object that owned it. *)
Lemma owned_release s i o o' : owned s -> maps s !! i = Some o -> data o' = 0 ->
  owned (Store (<[i := o']> (maps s)) (delete (data o) (blocks s))).
Proof.
  intros [H1 H2 H3] Hi Ho'. split; cbn [maps blocks].
  - intros j x Hj Hd. apply lookup_insert_Some in Hj as [[-> <-]|[Hne Hj]]; [done|].
    rewrite lookup_delete_ne; [eauto|]. intros E. apply Hne. symmetry. apply (H2 j i x o); done || congruence.
  - intros j k o1 o2 Hj Hk E Hd. apply lookup_insert_Some in Hj as [[-> <-]|[Hj1 Hj]]; [done|].
    apply lookup_insert_Some in Hk as [[-> <-]|[Hk1 Hk]]; [congruence|eauto].
  - intros q Hq. destruct (decide (data o = q)) as [<-|Hne]; [by rewrite lookup_delete_eq in Hq; destruct Hq|].
    rewrite lookup_delete_ne in Hq by done. destruct (H3 q Hq) as (Hq0 & j & x & Hj & Hd). split; [done|].
    exists j, x. rewrite lookup_insert_ne; [done|]. intros ->. congruence.
Qed.

(** An object without a table begins or ends its life. *)
Lemma owned_unused s i o : owned s -> data o = 0 -> (forall o', maps s !! i = Some o' -> data o' = 0) -> owned (set_map s i o).
Proof.
  intros [H1 H2 H3] Ho Hi. split; cbn [maps blocks set_map].
  - intros j x Hj Hd. apply lookup_insert_Some in Hj as [[-> <-]|[Hne Hj]]; [done|eauto].
  - intros j k o1 o2 Hj Hk E Hd. apply lookup_insert_Some in Hj as [[-> <-]|[Hj1 Hj]]; [done|].
    apply lookup_insert_Some in Hk as [[-> <-]|[Hk1 Hk]]; [congruence|eauto].
  - intros q Hq. destruct (H3 q Hq) as (Hq0 & j & x & Hj & Hd). split; [done|].
    exists j, x. rewrite lookup_insert_ne; [done|]. intros ->. specialize (Hi x Hj). congruence.
Qed.

Lemma owned_ended s i o : owned s -> maps s !! i = Some o -> data o = 0 -> owned (Store (delete i (maps s)) (blocks s)).
Proof.
  intros [H1 H2 H3] Hi Ho. split; cbn [maps blocks].
  - intros j x Hj Hd. apply lookup_delete_Some in Hj as [? Hj]. eauto.
  - intros j k o1 o2 Hj Hk E Hd. apply lookup_delete_Some in Hj as [? Hj], Hk as [? Hk]. eauto.
  - intros q Hq. destruct (H3 q Hq) as (Hq0 & j & x & Hj & Hd). split; [done|].
    exists j, x. rewrite lookup_delete_ne; [done|]. intros ->. congruence.
Qed.
(** The parts of the operations. *)
Lemma freed s i o : owned s -> maps s !! i = Some o ->
  exists b, free_table s (data o) = Ok (Store (maps s) b) /\ owned (Store (<[i := new_object]> (maps s)) b).
Proof.
  intros Hs Hi. unfold free_table. destruct (data o =? 0) eqn:E; bool_to_prop.
  - exists (blocks s). split; [by destruct s|]. apply (owned_unused s i new_object Hs); [done|]. intros o' Ho'. congruence.
  - destruct (has_table s Hs i o Hi E) as [b ->]. exists (delete (data o) (blocks s)).
    split; [done|]. by apply (owned_release s i o new_object).
Qed.

Lemma granted m b i n l k : owned (Store (<[i := new_object]> m) b) ->
  owned (set_map (alloc_table (Store m b) n).2 i (Object l k (alloc_table (Store m b) n).1)).
Proof.
  intros Hs. unfold alloc_table. cbn [blocks maps fst snd]. set (p := alloc_array_of b n).
  assert (forall o', maps (Store (<[i := new_object]> m) b) !! i = Some o' -> data o' = 0) as Hn.
  { cbn [maps]. intros o'. rewrite lookup_insert_eq. by intros [= <-]. }
  destruct (p =? 0) eqn:E; bool_to_prop.
  - rewrite E. pose proof (owned_unused _ i (Object l k 0) Hs eq_refl Hn) as Ho. unfold set_map in *. cbn [maps blocks] in *.
    by rewrite insert_insert_eq in Ho.
  - pose proof (owned_grant _ i (Object l k p) p (replicate (Z.to_nat n) None) Hs E (alloc_fresh b n E) eq_refl Hn) as Ho.
    unfold set_map in *. cbn [maps blocks] in *. by rewrite insert_insert_eq in Ho.
Qed.

Lemma copied s d e n s' : copy_table s d e n = Ok s' ->
  exists x y, blocks s !! d = Some x /\ blocks s !! e = Some y /\ n <= zlen x /\ n <= zlen y /\
    s' = Store (maps s) (<[d := take (Z.to_nat n) y ++ drop (Z.to_nat n) x]> (blocks s)).
Proof.
  unfold copy_table. destruct (blocks s !! d) as [x|]; [|done]. destruct (blocks s !! e) as [y|]; [|done].
  cbn [of_option mbind outcome_bind]. case_if; [|done]. intros [= <-]. bool_to_prop. exists x, y. by repeat split.
Qed.

Lemma copied_owned s d e n s' : owned s -> copy_table s d e n = Ok s' -> owned s'.
Proof. intros Hs Hc. apply copied in Hc as (x & y & Hx & _ & _ & _ & ->). by eapply owned_contents. Qed.

Lemma vacant_Ok s i u : vacant s i = Ok u -> maps s !! i = None.
Proof. unfold vacant, assert_. case_bool_decide; done. Qed.

Lemma object_Ok s i o : object_at s i = Ok o -> maps s !! i = Some o.
Proof. unfold object_at. destruct (maps s !! i); [|done]. by intros [= ->]. Qed.

Lemma object_at_set s i o : object_at (set_map s i o) i = Ok o.
Proof. unfold object_at, set_map. cbn [maps]. by rewrite lookup_insert_eq. Qed.

(** Two objects exchange their tables. *)
Lemma owned_swap s i j a b : owned s -> maps s !! i = Some a -> maps s !! j = Some b -> owned (set_map (set_map s i b) j a).
Proof.
  intros [H1 H2 H3] Hi Hj.
  assert (forall k x, maps (set_map (set_map s i b) j a) !! k = Some x ->
    exists k', maps s !! k' = Some x /\ k' = (if decide (k = j) then i else if decide (k = i) then j else k)) as Hk.
  { intros k x. cbn [set_map maps]. rewrite !lookup_insert. repeat case_decide; subst; try done; intros Hx; simplify_eq; eauto. }
  split.
  - intros k x Hx Hd. apply Hk in Hx as (k' & Hx & _). by apply (H1 k').
  - intros k1 k2 x1 x2 Hx1 Hx2 E Hd. apply Hk in Hx1 as (k1' & Hx1 & E1), Hx2 as (k2' & Hx2 & E2).
    pose proof (H2 _ _ _ _ Hx1 Hx2 E Hd). subst. repeat case_decide; congruence.
  - intros q Hq. destruct (H3 q Hq) as (Hq0 & k & x & Hx & Hd). split; [done|].
    exists (if decide (k = i) then j else if decide (k = j) then i else k), x. split; [|done].
    cbn [set_map maps]. rewrite !lookup_insert. repeat case_decide; subst; congruence.
Qed.

Lemma exchanged_owned s i l es s' : owned s -> exchange_table s i l es = Ok s' -> owned s'.
Proof.
  intros Hs He. unfold exchange_table in He. apply bind_Ok in He as (o & Ho & He). apply object_Ok in Ho.
  destruct (freed s i o Hs Ho) as (b & Hf & Hs1). unfold alloc_table in He. set (p := alloc_array_of (blocks s) (capacity l)) in *.
  destruct (p =? 0) eqn:E; [done|]. cbn [maps blocks] in He. rewrite insert_insert_eq in He. bool_to_prop.
  pose proof (alloc_fresh (blocks s) (capacity l) E) as Hp. fold p in Hp.
  assert (forall c, c !! p = None -> owned (Store (<[i := new_object]> (maps s)) c) -> owned (Store (<[i := Object l (num_elems o) p]> (maps s)) (<[p := Some <$> es]> c))) as Hg.
  { intros c Hc Hs2. pose proof (owned_grant _ i (Object l (num_elems o) p) p (Some <$> es) Hs2 E Hc eq_refl) as Hr.
    cbn [maps blocks] in Hr. rewrite insert_insert_eq in Hr. apply Hr. intros o'. rewrite lookup_insert_eq. by intros [= <-]. }
  unfold free_table in *. destruct (data o =? 0) eqn:E0; bool_to_prop.
  - injection Hf as Hf. apply (f_equal blocks) in Hf. cbn [blocks] in Hf. subst b. injection He as <-. by apply Hg.
  - destruct (has_table s Hs i o Ho E0) as [x Hx]. rewrite Hx in Hf. injection Hf as Hf. subst b.
    assert (data o <> p) as Hne by congruence. cbn [maps blocks] in He.
    rewrite lookup_insert_ne, Hx in He by done. injection He as <-. rewrite delete_insert_ne by done.
    apply Hg; [|done]. by rewrite lookup_delete_ne.
Qed.

Lemma step_owned s o s' : owned s -> step s o = Ok s' -> owned s'.
Proof.
  intros Hs He. destruct o as [i|i j|i j|i j|i j|i l es|i]; cbn [step] in He.
  - apply bind_Ok in He as (u & Hv & He). injection He as <-. apply vacant_Ok in Hv.
    apply (owned_unused s i new_object Hs); [done|]. intros o' ?. congruence.
  - unfold copy_construct in He. apply bind_Ok in He as (u & Hv & He). apply bind_Ok in He as (o & Ho & He). apply vacant_Ok in Hv.
    pose proof (owned_unused s i new_object Hs eq_refl ltac:(intros; congruence)) as Hs1.
    pose proof (granted _ _ i (capacity (log2capacity o)) (log2capacity o) (num_elems o) Hs1) as Hg. destruct s as [m b]. cbn [maps blocks] in *.
    destruct (alloc_table _ _) as [p s2]. by eapply copied_owned.
  - unfold copy_assign in He. apply bind_Ok in He as (o & Ho & He). apply bind_Ok in He as (o2 & Ho2 & He). apply object_Ok in Ho2.
    destruct (freed s i o2 Hs Ho2) as (b & Hf & Hs1). rewrite Hf in He. cbn [mbind outcome_bind] in He.
    pose proof (granted _ _ i (capacity (log2capacity o)) (log2capacity o) (num_elems o) Hs1) as Hg.
    destruct (alloc_table _ _) as [p s2]. apply bind_Ok in He as (o3 & Ho3 & He). by eapply copied_owned.
  - unfold move_construct in He. apply bind_Ok in He as (u & Hv & He). apply bind_Ok in He as (o & Ho & He). apply vacant_Ok in Hv.
    pose proof (owned_unused s i new_object Hs eq_refl ltac:(intros; congruence)) as Hs1. unfold move_assign in He.
    apply bind_Ok in He as (a & Ha & He). apply bind_Ok in He as (b & Hb & He). injection He as <-.
    apply object_Ok in Ha, Hb. by apply owned_swap.
  - unfold move_assign in He. apply bind_Ok in He as (a & Ha & He). apply bind_Ok in He as (b & Hb & He). injection He as <-.
    apply object_Ok in Ha, Hb. by apply owned_swap.
  - by eapply exchanged_owned.
  - unfold destroy in He. apply bind_Ok in He as (o & Ho & He). apply object_Ok in Ho.
    destruct (freed s i o Hs Ho) as (b & Hf & Hs1). rewrite Hf in He. cbn [mbind outcome_bind maps blocks] in He. injection He as <-.
    pose proof (owned_ended _ i new_object Hs1) as He. cbn [maps blocks] in He. rewrite lookup_insert_eq, delete_insert_eq in He.
    by apply He.
Qed.

(** No step frees a block that is not allocated. *)
Definition sound {A} (m : outcome A) : Prop := m <> Fail (Undefined "block is not allocated").

Lemma sound_bind {A B} (m : outcome A) (f : A -> outcome B) : sound m -> (forall a, m = Ok a -> sound (f a)) -> sound (mbind f m).
Proof. unfold sound. destruct m; cbn [mbind outcome_bind]; [auto|congruence]. Qed.

Lemma sound_object s i : sound (object_at s i).
Proof. unfold object_at. by destruct (maps s !! i). Qed.
Lemma sound_vacant s i : sound (vacant s i).
Proof. unfold vacant, assert_. by case_match. Qed.
Lemma sound_copy s d e n : sound (copy_table s d e n).
Proof. unfold copy_table. destruct (blocks s !! d); [|done]. destruct (blocks s !! e); [|done]. cbn. by case_if. Qed.
Lemma sound_free s i o : owned s -> object_at s i = Ok o -> sound (free_table s (data o)).
Proof. intros Hs Ho. apply object_Ok in Ho. destruct (freed s i o Hs Ho) as (b & -> & _). done. Qed.

#[local] Hint Resolve sound_object sound_vacant sound_copy sound_free : sound.

Lemma sound_exchange s i l es : owned s -> sound (exchange_table s i l es).
Proof.
  intros Hs. unfold exchange_table. apply sound_bind; [auto with sound|]. intros o Ho. unfold alloc_table.
  destruct (alloc_array_of (blocks s) (capacity l) =? 0) eqn:E; [done|]. bool_to_prop.
  pose proof (alloc_fresh _ _ E) as Hp. apply object_Ok in Ho. unfold free_table, sound. case_if; [done|]. bool_to_prop. cbn [blocks maps].
  destruct (has_table s Hs i o Ho ltac:(done)) as [x Hx]. rewrite !lookup_insert_ne, Hx by congruence. done.
Qed.

Lemma step_sound s o : owned s -> sound (step s o).
Proof.
  intros Hs. destruct o as [i|i j|i j|i j|i j|i l es|i]; cbn [step].
  - apply sound_bind; [auto with sound|done].
  - unfold copy_construct. apply sound_bind; [auto with sound|]. intros u _. apply sound_bind; [auto with sound|]. intros o _.
    destruct (alloc_table s _). auto with sound.
  - unfold copy_assign. apply sound_bind; [auto with sound|]. intros o _. apply sound_bind; [auto with sound|]. intros o2 Ho2.
    apply sound_bind; [eauto with sound|]. intros s1 _. destruct (alloc_table s1 _). apply sound_bind; [auto with sound|]. auto with sound.
  - unfold move_construct. apply sound_bind; [auto with sound|]. intros u _. apply sound_bind; [auto with sound|]. intros o _.
    unfold move_assign. do 2 (apply sound_bind; [auto with sound|]; intros ? _). done.
  - unfold move_assign. do 2 (apply sound_bind; [auto with sound|]; intros ? _). done.
  - by apply sound_exchange.
  - unfold destroy. apply sound_bind; [auto with sound|]. intros o Ho. apply sound_bind; [eauto with sound|]. done.
Qed.

(** Every program over hash maps keeps the ownership exact: each live map owns its
    table alone, nothing is freed twice, and when no map lives any more no table is
    left. *)
Theorem tables_owned_once os s (Hs : owned s) :
  sound (run s os) /\ forall s', run s os = Ok s' -> owned s' /\ (maps s' = ∅ -> blocks s' = ∅).
Proof.
  revert s Hs. induction os as [|o os IH]; intros s Hs; cbn [run].
  - split; [done|]. intros s' [= <-]. split; [done|]. intros Hm. apply map_eq. intros p. rewrite lookup_empty.
    destruct (blocks s !! p) as [b|] eqn:E; [|done]. destruct (has_owner s Hs p) as (_ & i & x & Hi & _); [eauto|].
    by rewrite Hm in Hi.
  - split.
    + apply sound_bind; [by apply step_sound|]. intros s1 H1. by apply IH, (step_owned s o).
    + intros s' He. apply bind_Ok in He as (s1 & H1 & He). apply (IH s1); [by eapply step_owned|done].
Qed.

(** A copy has a table of its own with the entries of the original. *)
Theorem copy_is_deep s i j s' : owned s -> copy_construct s i j = Ok s' ->
  exists o p es, maps s !! j = Some o /\ blocks s !! data o = Some es /\
    p <> data o /\ maps s' = <[i := Object (log2capacity o) (num_elems o) p]> (maps s) /\
    blocks s' !! data o = Some es /\ blocks s' !! p = Some (take (Z.to_nat (capacity (log2capacity o))) es).
Proof.
  intros Hs He. unfold copy_construct in He. apply bind_Ok in He as (u & Hv & He). apply bind_Ok in He as (o & Ho & He).
  apply object_Ok in Ho. unfold alloc_table in He. set (p := alloc_array_of (blocks s) (capacity (log2capacity o))) in *.
  apply copied in He as (x & y & Hx & Hy & Hnx & Hny & ->). cbn [maps blocks set_map] in *.
  destruct (p =? 0) eqn:E; bool_to_prop; cbn [maps blocks] in *.
  { destruct (has_owner s Hs 0) as [? _]; [rewrite <- E; eauto|done]. }
  pose proof (alloc_fresh (blocks s) (capacity (log2capacity o)) E) as Hp. fold p in Hp.
  rewrite lookup_insert_eq in Hx. injection Hx as <-.
  assert (p <> data o) as Hne.
  { intros Eq. destruct (decide (data o = 0)) as [E0|E0]; [congruence|].
    destruct (has_table s Hs j o Ho E0) as [z Hz]. congruence. }
  rewrite lookup_insert_ne in Hy by done.
  exists o, p, y. split; [done|]. split; [done|]. split; [done|]. split; [done|].
  split; [by rewrite !lookup_insert_ne by done|].
  rewrite lookup_insert_eq. f_equal. rewrite drop_ge; [by rewrite app_nil_r|]. rewrite length_replicate. done.
Qed.

(** Assigning a map to itself loses its entries: the table is freed, and the new one
    is copied onto itself. *)
Theorem self_assignment_loses s i o s' : owned s -> maps s !! i = Some o -> copy_assign s i i = Ok s' ->
  exists p, maps s' !! i = Some (Object (log2capacity o) (num_elems o) p) /\
    blocks s' !! p = Some (replicate (Z.to_nat (capacity (log2capacity o))) None).
Proof.
  intros Hs Hi He. unfold copy_assign in He. assert (object_at s i = Ok o) as Ho by (unfold object_at; by rewrite Hi).
  rewrite Ho in He. cbn [mbind outcome_bind] in He.
  destruct (freed s i o Hs Hi) as (b & Hf & Hs1). rewrite Hf in He. cbn [mbind outcome_bind] in He. unfold alloc_table in He. cbn [blocks maps] in He.
  set (p := alloc_array_of b (capacity (log2capacity o))) in *. exists p.
  destruct (p =? 0) eqn:E; rewrite object_at_set in He; cbn [mbind outcome_bind data log2capacity num_elems set_map maps blocks] in He;
    apply copied in He as (x & y & Hx & Hy & _ & _ & ->); unfold set_map in *; cbn [maps blocks] in *.
  - bool_to_prop. destruct (has_owner _ Hs1 0) as [? _]; [cbn [blocks]; rewrite <- E; eauto|done].
  - split; [by rewrite lookup_insert_eq|]. rewrite lookup_insert_eq in *. simplify_eq. by rewrite take_drop.
Qed.

(** Copying a map that has no table yet reads through the null pointer. *)
Theorem copy_of_new_map_faults s i j o : owned s -> maps s !! i = None -> maps s !! j = Some o -> data o = 0 ->
  copy_construct s i j = Fail (Undefined "no block there").
Proof.
  intros Hs Hi Hj Hd. unfold copy_construct, vacant, assert_, object_at. rewrite Hj, bool_decide_eq_true_2 by done.
  cbn [of_option mbind outcome_bind]. rewrite Hd.
  assert (blocks s !! 0 = None) as H0.
  { destruct (blocks s !! 0) eqn:E; [|done]. destruct (has_owner s Hs 0) as [? _]; [eauto|done]. }
  unfold alloc_table. set (p := alloc_array_of (blocks s) (capacity (log2capacity o))) in *.
  destruct (p =? 0) eqn:E; unfold copy_table, set_map; cbn [blocks maps]; bool_to_prop.
  - rewrite E, H0. done.
  - rewrite lookup_insert_eq, lookup_insert_ne, H0 by done. done.
Qed.
End maps.

(** An allocator with room for everything. *)
#[export] Instance fresh_tables {V} : @TableAllocator V := {
  alloc_array_of t _ := next_block t;
  alloc_fresh t _ _ := next_block_fresh t
}.

(** Filling a map, copying it, assigning over it and destroying both leaves nothing. *)
Lemma tables_owned_once_witness : sound (run (V := Z) nothing
    [New 0%nat; Reserve 0%nat 1 [Entry false false (1, 2); Entry false true (0, 0)]; Copy 1%nat 0%nat; CopyAssign 0%nat 1%nat;
     MoveAssign 1%nat 0%nat; Destroy 0%nat; Destroy 1%nat]) /\
  (forall s', run (V := Z) nothing [New 0%nat; Destroy 0%nat] = Ok s' -> owned s' /\ (maps s' = ∅ -> blocks s' = ∅)).
Proof.
  assert (owned (V := Z) nothing) as H0 by (split; [done|done|intros p [x Hx]; done]).
  split; [apply (tables_owned_once _ nothing H0)|apply (tables_owned_once [New 0%nat; Destroy 0%nat] nothing H0)].
Defined.

Example run_leaves_nothing : (s ← run (V := Z) nothing
    [New 0%nat; Reserve 0%nat 1 [Entry false false (1, 2); Entry false true (0, 0)]; Copy 1%nat 0%nat; CopyAssign 0%nat 1%nat;
     MoveAssign 1%nat 0%nat; Destroy 0%nat; Destroy 1%nat]; Ok (map_to_list (blocks s))) = Ok [].
Proof. by vm_compute. Qed.
