(* ===== verification/Mutex.v ===== *)
(** * kernel/mutex.h: mutexes, guards and handles

    The tasks' operations on mutexes are interleaved in any order; each is one
    atomic step, since [try_acquire] is a compare-and-swap and the others only
    touch objects of their own task.  A task that spins in [acquire] makes no step
    until the mutex is free. *)
From S2P Require Import Prelude.

(** The mutexes, by address, with their flag; the guards, by address, with the
    mutex they refer to, if any. *)
Record heap := Heap { locked : gmap Z bool; guards : gmap Z (option Z) }.
#[export] Instance heap_eq_dec : EqDecision heap.
Proof. solve_decision. Defined.

Definition new_mutex (h : heap) (m : Z) : heap := Heap (<[m := false]> (locked h)) (guards h).

(** [__sync_bool_compare_and_swap(&locked, false, true)] *)
Definition try_acquire (h : heap) (m : Z) : outcome (bool * heap) :=
  l ← of_option OutOfBounds (locked h !! m);
  if l : bool then Ok (false, h) else Ok (true, Heap (<[m := true]> (locked h)) (guards h)).

(** [mutex::release] *)
Definition release_mutex (h : heap) (m : Z) : outcome heap :=
  _ ← of_option OutOfBounds (locked h !! m); Ok (Heap (<[m := false]> (locked h)) (guards h)).

Definition set_guard (h : heap) (g : Z) (mtx : option Z) : heap := Heap (locked h) (<[g := mtx]> (guards h)).

(** [guard::release] *)
Definition release_guard (h : heap) (g : Z) : outcome heap :=
  mtx ← of_option OutOfBounds (guards h !! g);
  h' ← (match mtx with Some m => release_mutex h m | None => Ok h end);
  Ok (set_guard h' g None).

(** [guard(mutex &)]: the successful turn of the loop in [acquire]; [None] while the
    mutex is taken. *)
Definition lock (h : heap) (m g : Z) : outcome (option heap) :=
  '(ok, h') ← try_acquire h m;
  if ok : bool then Ok (Some (set_guard h' g (Some m))) else Ok None.

(** [managed_by_mutex::try_lock]: a handle on success, else an empty optional. *)
Definition try_lock (h : heap) (m g : Z) : outcome heap :=
  '(ok, h') ← try_acquire h m;
  if ok : bool then Ok (set_guard h' g (Some m)) else Ok (set_guard h g None).

(** [~guard] *)
Definition destroy_guard (h : heap) (g : Z) : outcome heap :=
  h' ← release_guard h g; Ok (Heap (locked h') (delete g (guards h'))).

(** [guard::operator=(guard &&)]: the two guards trade places. *)
Definition move_assign (h : heap) (dst src : Z) : outcome heap :=
  d ← of_option OutOfBounds (guards h !! dst);
  s ← of_option OutOfBounds (guards h !! src);
  Ok (set_guard (set_guard h dst s) src d).

(** [guard(guard &&)]: a default guard that is then moved to. *)
Definition move_construct (h : heap) (dst src : Z) : outcome heap := move_assign (set_guard h dst None) dst src.

(** ** Interleaved steps *)

(** The guards of an object under construction do not exist yet. *)
Inductive step (h : heap) : heap -> Prop :=
| StepNew m : locked h !! m = None -> step h (new_mutex h m)
| StepLock m g h' : guards h !! g = None -> lock h m g = Ok (Some h') -> step h h'
| StepTryLock m g h' : guards h !! g = None -> try_lock h m g = Ok h' -> step h h'
| StepRelease g h' : release_guard h g = Ok h' -> step h h'
| StepDestroy g h' : destroy_guard h g = Ok h' -> step h h'
| StepMove dst src h' : move_assign h dst src = Ok h' -> step h h'
| StepMoveNew dst src h' : guards h !! dst = None -> move_construct h dst src = Ok h' -> step h h'.

Definition no_objects : heap := Heap ∅ ∅.

Inductive reachable : heap -> Prop :=
| ReachBoot : reachable no_objects
| ReachStep h h' : reachable h -> step h h' -> reachable h'.

Definition holds (h : heap) (g m : Z) : Prop := guards h !! g = Some (Some m).

(** A mutex is locked exactly while one guard holds it. *)
Record inv (h : heap) : Prop := {
  inv_locked m : locked h !! m = Some true <-> exists g, holds h g m;
  inv_unique g1 g2 m : holds h g1 m -> holds h g2 m -> g1 = g2
}.

Lemma inv_boot : inv no_objects.
Proof.
  split; unfold holds; cbn.
  - intros m. split; [by rewrite lookup_empty|]. intros [g Hg]. by rewrite lookup_empty in Hg.
  - intros g1 g2 m H1. by rewrite lookup_empty in H1.
Qed.

Lemma inv_new h m : inv h -> locked h !! m = None -> inv (new_mutex h m).
Proof.
  intros [Hl Hu] Hm. split; [|exact Hu]. intros m'. change (exists g, holds (new_mutex h m) g m') with (exists g, holds h g m'). rewrite <- Hl. cbn.
  destruct (decide (m = m')) as [->|]; simplify_map_eq; [|done]. split; congruence.
Qed.

(** A guard that takes a free mutex. *)
Lemma inv_take h m g : inv h -> locked h !! m = Some false -> guards h !! g = None ->
  inv (set_guard (Heap (<[m := true]> (locked h)) (guards h)) g (Some m)).
Proof.
  intros [Hl Hu] Hm Hg.
  assert (forall g', ~ holds h g' m) as Hfree by (intros g' Hh; assert (locked h !! m = Some true) by (apply Hl; by exists g'); congruence).
  split; unfold holds in *; cbn in *.
  - intros m'. destruct (decide (m = m')) as [->|Hne].
    + rewrite lookup_insert_eq. split; [|done]. intros _. exists g. by simplify_map_eq.
    + rewrite lookup_insert_ne, Hl by done. split; intros [g' Hg']; exists g';
        (destruct (decide (g = g')) as [->|]; simplify_map_eq; done).
  - intros g1 g2 m' H1 H2. destruct (decide (g = g1)) as [<-|], (decide (g = g2)) as [<-|]; simplify_map_eq; try done.
    + by destruct (Hfree g2).
    + by destruct (Hfree g1).
    + by apply (Hu g1 g2 m').
Qed.

(** What releasing does to the flags: the guard's mutex, if any, becomes free. *)
Lemma release_Ok h g h' : release_guard h g = Ok h' ->
  (exists m, holds h g m /\ h' = set_guard (Heap (<[m := false]> (locked h)) (guards h)) g None) \/
  (guards h !! g = Some None /\ h' = set_guard h g None).
Proof.
  unfold release_guard, release_mutex, holds. intros H. apply bind_Ok in H as (mtx & Hg & H). apply of_option_Ok in Hg.
  apply bind_Ok in H as (h1 & H1 & H). injection H as <-. destruct mtx as [m|].
  - left. exists m. apply bind_Ok in H1 as (l & _ & H1). by injection H1 as <-.
  - right. by injection H1 as <-.
Qed.

(** A guard that gives up its mutex, whether it stays or not. *)
Lemma inv_give_up h g m gs : inv h -> holds h g m ->
  (forall g', g' <> g -> gs !! g' = guards h !! g') -> (forall m', gs !! g <> Some (Some m')) ->
  inv (Heap (<[m := false]> (locked h)) gs).
Proof.
  intros [Hl Hu] Hg Hsame Hgone. split; unfold holds in *; cbn.
  - intros m'. destruct (decide (m = m')) as [<-|Hne].
    + rewrite lookup_insert_eq. split; [done|]. intros [g' Hg']. destruct (decide (g' = g)) as [->|Hn]; [by apply Hgone in Hg'|].
      rewrite Hsame in Hg' by done. by destruct Hn, (Hu g' g m).
    + rewrite lookup_insert_ne, Hl by done. split; intros [g' Hg']; exists g'.
      * rewrite Hsame; [done|]. intros ->. congruence.
      * rewrite Hsame in Hg'; [done|]. intros ->. by apply Hgone in Hg'.
  - intros g1 g2 m' H1 H2. assert (g1 <> g /\ g2 <> g) as [Hn1 Hn2] by (split; intros ->; by eapply Hgone).
    rewrite Hsame in H1, H2 by done. by apply (Hu g1 g2 m').
Qed.

(** A guard without a mutex may come, go or be reset. *)
Lemma inv_no_mutex h g gs : inv h -> (forall m, ~ holds h g m) ->
  (forall g', g' <> g -> gs !! g' = guards h !! g') -> (forall m', gs !! g <> Some (Some m')) ->
  inv (Heap (locked h) gs).
Proof.
  intros [Hl Hu] Hg Hsame Hgone. unfold holds in *.
  assert (forall g' m, gs !! g' = Some (Some m) <-> guards h !! g' = Some (Some m)) as Heq.
  { intros g' m. destruct (decide (g' = g)) as [->|Hn]; [|by rewrite Hsame]. split; intros H; [by apply Hgone in H|by apply Hg in H]. }
  split; unfold holds; cbn.
  - intros m. rewrite Hl. split; intros [g' Hg']; exists g'; by apply Heq.
  - intros g1 g2 m H1 H2. apply (Hu g1 g2 m); by apply Heq.
Qed.

Lemma inv_release h g h' : inv h -> release_guard h g = Ok h' -> inv h'.
Proof.
  intros Hi [(m & Hg & ->)|[Hg ->]]%release_Ok.
  - apply (inv_give_up h g m); [done..| |]; cbn; intros; by simplify_map_eq.
  - apply (inv_no_mutex h g); [done| | |]; unfold holds; cbn; intros; by simplify_map_eq.
Qed.

Lemma inv_destroy h g h' : inv h -> destroy_guard h g = Ok h' -> inv h'.
Proof.
  intros Hi H. unfold destroy_guard in H. apply bind_Ok in H as (h1 & H1 & H). injection H as <-.
  apply release_Ok in H1 as [(m & Hg & ->)|[Hg ->]]; cbn [locked guards set_guard].
  - apply (inv_give_up h g m); [done..| |]; cbn; intros; by simplify_map_eq.
  - apply (inv_no_mutex h g); [done| | |]; unfold holds; cbn; intros; by simplify_map_eq.
Qed.

Lemma inv_swap h dst src h' : inv h -> move_assign h dst src = Ok h' -> inv h'.
Proof.
  intros [Hl Hu] H. unfold move_assign in H. apply bind_Ok in H as (d & Hd & H). apply bind_Ok in H as (s & Hs & H).
  apply of_option_Ok in Hd, Hs. injection H as <-. unfold holds in *.
  set (f := fun g => if decide (g = src) then dst else if decide (g = dst) then src else g).
  assert (forall g, guards (set_guard (set_guard h dst s) src d) !! g = guards h !! f g) as Hf.
  { intros g. unfold f. cbn. repeat case_decide; subst; by simplify_map_eq. }
  assert (forall g, f (f g) = g) as Hff by (intros g; unfold f; repeat case_decide; congruence).
  split; unfold holds.
  - intros m. cbn [locked set_guard]. rewrite Hl. split; intros [g Hg]; exists (f g); rewrite ?Hf, ?Hff; [done|by rewrite <- Hf].
  - intros g1 g2 m. rewrite !Hf. intros H1 H2. rewrite <- (Hff g1), <- (Hff g2). f_equal. by apply (Hu (f g1) (f g2) m).
Qed.

Lemma try_acquire_Ok h m ok h' : try_acquire h m = Ok (ok, h') ->
  if ok then locked h !! m = Some false /\ h' = Heap (<[m := true]> (locked h)) (guards h)
  else locked h !! m = Some true /\ h' = h.
Proof.
  unfold try_acquire. intros H. apply bind_Ok in H as (l & Hl & H). apply of_option_Ok in Hl.
  destruct l; injection H as <- <-; done.
Qed.

Lemma inv_fresh_none h g : inv h -> guards h !! g = None -> inv (set_guard h g None).
Proof.
  intros Hi Hg. apply (inv_no_mutex h g); [done| | |]; unfold holds; cbn; intros; simplify_map_eq; congruence.
Qed.

Lemma step_inv h h' : step h h' -> inv h -> inv h'.
Proof.
  destruct 1 as [m Hm|m g h' Hg H|m g h' Hg H|g h' H|g h' H|dst src h' H|dst src h' Hd H]; intros Hi.
  - by apply inv_new.
  - unfold lock in H. apply bind_Ok in H as ([ok h1] & Ha & H). apply try_acquire_Ok in Ha. destruct ok; [|done].
    destruct Ha as [Hm ->]. injection H as <-. by apply inv_take.
  - unfold try_lock in H. apply bind_Ok in H as ([ok h1] & Ha & H). apply try_acquire_Ok in Ha.
    destruct ok, Ha as [Hm ->]; injection H as <-; [by apply inv_take|by apply inv_fresh_none].
  - by apply (inv_release h g).
  - by apply (inv_destroy h g).
  - by apply (inv_swap h dst src).
  - apply (inv_swap (set_guard h dst None) dst src); [by apply inv_fresh_none|done].
Qed.

Lemma reachable_inv h : reachable h -> inv h.
Proof. induction 1 as [|h h' _ IH Hs]; [apply inv_boot|by apply (step_inv h)]. Qed.

(** Mutual exclusion: however the tasks' steps interleave, and whichever guards
    are moved, released early or destroyed, a mutex is locked exactly while some
    guard holds it and no two guards hold it at once; and when its holder is
    destroyed, the next [lock] gets it. *)
Theorem mutual_exclusion h m : reachable h ->
  (locked h !! m = Some true <-> exists g, holds h g m) /\
  (forall g1 g2, holds h g1 m -> holds h g2 m -> g1 = g2) /\
  (forall g g', holds h g m -> guards h !! g' = None -> exists h1 h2,
     lock h m g' = Ok None /\ destroy_guard h g = Ok h1 /\ lock h1 m g' = Ok (Some h2) /\ holds h2 g' m).
Proof.
  intros Hr. destruct (reachable_inv h Hr) as [Hl Hu]. split; [done|]. split; [by intros g1 g2; apply Hu|].
  intros g g' Hg Hg'. assert (locked h !! m = Some true) as Hm by (apply Hl; by exists g).
  eexists _, _. split; [|split; [|split]].
  - unfold lock, try_acquire. by rewrite Hm.
  - unfold destroy_guard, release_guard, release_mutex. unfold holds in Hg. rewrite Hg. cbn [of_option mbind outcome_bind].
    rewrite Hm. done.
  - unfold lock, try_acquire. cbn [locked set_guard]. rewrite lookup_insert_eq. done.
  - unfold holds. cbn. by rewrite lookup_insert_eq.
Qed.

(** Two tasks: the first takes the mutex and moves its guard, the second tries. *)
Theorem mutual_exclusion_witness : exists h, reachable h /\ holds h 11 7 /\ guards h !! 12 = Some None /\
  (forall g, holds h g 7 -> g = 11).
Proof.
  exists (Heap {[7 := true]} {[10 := None; 11 := Some 7; 12 := None]}).
  assert (reachable (Heap {[7 := true]} {[10 := None; 11 := Some 7; 12 := None]})) as Hr.
  { eapply ReachStep; [eapply ReachStep; [eapply ReachStep; [eapply ReachStep; [apply ReachBoot|]|]|]|].
    - by apply (StepNew _ 7).
    - apply (StepLock _ 7 10); [done|reflexivity].
    - apply (StepMoveNew _ 11 10); [done|reflexivity].
    - apply (StepTryLock _ 7 12); [done|vm_compute; reflexivity]. }
  split; [done|]. split; [done|]. split; [done|]. intros g Hg.
  by apply (mutual_exclusion _ 7 Hr).
Defined.
