(* ===== verification/Handles.v ===== *)
(** * kernel/mutex.h: data guarded by a mutex

    A [managed_by_mutex] joins a mutex and the data it protects; a [mutex_handle]
    is a guard with a pointer to the data, and [adt::optional] of a handle is the
    handle itself, empty when the pointer is null.  A handle's guard is its first
    member, so both have one address; the objects are named by their addresses,
    and a data pointer by the object it points into. *)
From S2P Require Import Prelude Mutex.

(** [handle_data]: null is [None]. *)
Record state := State { mtx : heap; handle_data : gmap Z (option Z) }.

Definition new_managed (s : state) (o : Z) : state := State (new_mutex (mtx s) o) (handle_data s).

(** [managed_by_mutex::lock], when its turn comes; [None] while it spins. *)
Definition lock (s : state) (o h : Z) : outcome (option state) :=
  r ← Mutex.lock (mtx s) o h;
  Ok (match r with Some m => Some (State m (<[h := Some o]> (handle_data s))) | None => None end).

(** [managed_by_mutex::try_lock]: the optional at [h]. *)
Definition try_lock (s : state) (o h : Z) : outcome (bool * state) :=
  '(ok, m) ← try_acquire (mtx s) o;
  if ok : bool then Ok (true, State (set_guard m h (Some o)) (<[h := Some o]> (handle_data s)))
  else Ok (false, State (set_guard m h None) (<[h := None]> (handle_data s))).

(** [mutex_handle::release], which is [optional_storage::destroy]. *)
Definition release (s : state) (h : Z) : outcome state :=
  m ← release_guard (mtx s) h; Ok (State m (<[h := None]> (handle_data s))).

(** [optional_storage::has_data] *)
Definition has_data (s : state) (h : Z) : bool := match handle_data s !! h with Some (Some _) => true | _ => false end.

(** [~mutex_handle] is [~guard]. *)
Definition destroy (s : state) (h : Z) : outcome state :=
  m ← destroy_guard (mtx s) h; Ok (State m (delete h (handle_data s))).

(** [mutex_handle::operator=(mutex_handle &&)], which is [optional_storage::set_value]. *)
Definition move_assign (s : state) (dst src : Z) : outcome state :=
  m ← Mutex.move_assign (mtx s) dst src;
  d ← of_option OutOfBounds (handle_data s !! src);
  Ok (State m (<[src := None]> (<[dst := d]> (handle_data s)))).

(** [mutex_handle(mutex_handle &&)] *)
Definition move_construct (s : state) (dst src : Z) : outcome state :=
  m ← Mutex.move_construct (mtx s) dst src;
  d ← of_option OutOfBounds (handle_data s !! src);
  Ok (State m (<[src := None]> (<[dst := d]> (handle_data s)))).

(** [operator*] *)
Definition deref (s : state) (h : Z) : outcome Z :=
  d ← of_option OutOfBounds (handle_data s !! h); of_option (Undefined "null data") d.

(** ** Waiting for a lock *)

(** [try_lock_for]: between two tries [busy_sleep(1_us)] lets the other tasks run,
    which turns state [s] into [others waited s].  The result is whether the lock
    was taken, and the microseconds waited. *)
Fixpoint try_lock_for_loop (n : nat) (others : Z -> state -> state) (s : state) (o h waited : Z)
    : outcome (bool * Z * state) :=
  match n with
  | O => Ok (false, waited, s)
  | S n' =>
      '(ok, s1) ← try_lock s o h;
      if ok : bool then Ok (true, waited, s1)
      else
        s2 ← destroy s1 h;
        try_lock_for_loop n' others (others waited s2) o h (waited + 1)
  end.

Definition try_lock_for (others : Z -> state -> state) (s : state) (o h us : Z) : outcome (bool * Z * state) :=
  try_lock_for_loop (Z.to_nat us) others s o h 0.

(** ** Interleavings *)

Definition fresh (s : state) (h : Z) : Prop := guards (mtx s) !! h = None /\ handle_data s !! h = None.

Inductive step (s : state) : state -> Prop :=
| StepNew o : locked (mtx s) !! o = None -> step s (new_managed s o)
| StepLock o h s' : fresh s h -> lock s o h = Ok (Some s') -> step s s'
| StepTryLock o h ok s' : fresh s h -> try_lock s o h = Ok (ok, s') -> step s s'
| StepRelease h s' : release s h = Ok s' -> step s s'
| StepDestroy h s' : destroy s h = Ok s' -> step s s'
| StepMove dst src s' : move_assign s dst src = Ok s' -> step s s'
| StepMoveNew dst src s' : fresh s dst -> move_construct s dst src = Ok s' -> step s s'.

Inductive reachable : state -> Prop :=
| ReachBoot : reachable (State no_objects ∅)
| ReachStep s s' : reachable s -> step s s' -> reachable s'.

(** Every step of the handles is a step of their guards. *)
Lemma step_guards s s' : step s s' -> Mutex.step (mtx s) (mtx s').
Proof.
  destruct 1 as [o Ho|o h s' [Hf _] H|o h ok s' [Hf _] H|h s' H|h s' H|dst src s' H|dst src s' [Hf _] H].
  - by apply Mutex.StepNew.
  - unfold lock in H. apply bind_Ok in H as ([m|] & Hm & H); [|done]. injection H as <-. by eapply Mutex.StepLock.
  - unfold try_lock in H. apply bind_Ok in H as ([ok' m] & Hm & H). eapply (Mutex.StepTryLock _ o h); [done|].
    unfold Mutex.try_lock. rewrite Hm. cbn [mbind outcome_bind].
    apply try_acquire_Ok in Hm. destruct ok'; injection H as <- <-; [done|]. by destruct Hm as [_ ->].
  - unfold release in H. apply bind_Ok in H as (m & Hm & H). injection H as <-. by eapply Mutex.StepRelease.
  - unfold destroy in H. apply bind_Ok in H as (m & Hm & H). injection H as <-. by eapply Mutex.StepDestroy.
  - unfold move_assign in H. apply bind_Ok in H as (m & Hm & H). apply bind_Ok in H as (d & _ & H).
    injection H as <-. by eapply Mutex.StepMove.
  - unfold move_construct in H. apply bind_Ok in H as (m & Hm & H). apply bind_Ok in H as (d & _ & H).
    injection H as <-. by eapply Mutex.StepMoveNew.
Qed.

Lemma reachable_guards s : reachable s -> Mutex.reachable (mtx s).
Proof.
  induction 1 as [|s s' _ IH Hs]; [apply Mutex.ReachBoot|].
  eapply Mutex.ReachStep; [exact IH|by apply step_guards].
Qed.

(** A pointer to guarded data is held only together with the mutex. *)
Definition guarded (s : state) : Prop := forall h o, handle_data s !! h = Some (Some o) -> holds (mtx s) h o.

(** A step at handle [h] leaves the guards of the others alone. *)
Lemma guarded_at s m d h : guarded s ->
  (forall h', h' <> h -> d !! h' = handle_data s !! h') ->
  (forall h', h' <> h -> guards m !! h' = guards (mtx s) !! h') ->
  (forall o, d !! h = Some (Some o) -> holds m h o) -> guarded (State m d).
Proof.
  intros Hg Hd Hm Hh h' o Ho. cbn [mtx handle_data] in *. destruct (decide (h' = h)) as [->|Hne]; [by apply Hh|].
  unfold holds. rewrite Hm by done. apply Hg. by rewrite <- Hd.
Qed.

Lemma release_guards h g h' : release_guard h g = Ok h' ->
  guards h' !! g = Some None /\ forall g', g' <> g -> guards h' !! g' = guards h !! g'.
Proof.
  intros [(m & _ & ->)|[_ ->]]%release_Ok; cbn; split; intros; by simplify_map_eq.
Qed.

Lemma move_guards h dst src h' : Mutex.move_assign h dst src = Ok h' ->
  exists d s, guards h !! dst = Some d /\ guards h !! src = Some s /\ locked h' = locked h /\
    guards h' = <[src := d]> (<[dst := s]> (guards h)).
Proof.
  unfold Mutex.move_assign. intros H. apply bind_Ok in H as (d & Hd & H). apply bind_Ok in H as (s & Hs & H).
  apply of_option_Ok in Hd, Hs. injection H as <-. by exists d, s.
Qed.

(** The pointer goes where the guard goes. *)
Lemma guarded_move s m dst src d dg sg gs : guarded s -> handle_data s !! src = Some d ->
  gs !! src = guards (mtx s) !! src -> (forall h, h <> dst -> gs !! h = guards (mtx s) !! h) ->
  gs !! dst = Some dg -> gs !! src = Some sg -> guards m = <[src := dg]> (<[dst := sg]> gs) ->
  guarded (State m (<[src := None]> (<[dst := d]> (handle_data s)))).
Proof.
  intros Hg Hd Hsrc Hother Hdg Hsg Hm h o Ho. cbn [mtx handle_data] in *. unfold holds. rewrite Hm.
  destruct (decide (h = src)) as [->|Hs]; [by rewrite lookup_insert_eq in Ho|]. rewrite lookup_insert_ne in Ho |- * by done.
  destruct (decide (h = dst)) as [->|Hn].
  - rewrite lookup_insert_eq in Ho |- *. injection Ho as ->. apply Hg in Hd. unfold holds in Hd. congruence.
  - rewrite lookup_insert_ne in Ho |- * by done. rewrite Hother by done. by apply Hg.
Qed.

Lemma step_guarded s s' : step s s' -> guarded s -> guarded s'.
Proof.
  destruct 1 as [o Ho|o h s' [Hf _] H|o h ok s' [Hf _] H|h s' H|h s' H|dst src s' H|dst src s' [Hf Hf'] H]; intros Hg.
  - exact Hg.
  - unfold lock, Mutex.lock in H. apply bind_Ok in H as ([m|] & Hm & H); [|done]. injection H as <-.
    apply bind_Ok in Hm as ([[] m1] & Ha & Hm); [|done]. apply try_acquire_Ok in Ha as [_ ->]. injection Hm as <-.
    apply (guarded_at s _ _ h); [done|..]; unfold holds; cbn; intros; by simplify_map_eq.
  - unfold try_lock in H. apply bind_Ok in H as ([ok' m] & Ha & H). apply try_acquire_Ok in Ha.
    destruct ok', Ha as [_ ->]; injection H as <- <-;
      (apply (guarded_at s _ _ h); [done|..]; unfold holds; cbn; intros; by simplify_map_eq).
  - unfold release in H. apply bind_Ok in H as (m & Hm & H). injection H as <-. apply release_guards in Hm as [Hm Ho].
    apply (guarded_at s _ _ h); [done| |done|]; cbn; intros; by simplify_map_eq.
  - unfold destroy, destroy_guard in H. apply bind_Ok in H as (m & Hm & H). injection H as <-.
    apply bind_Ok in Hm as (m1 & Hm & H). injection H as <-. apply release_guards in Hm as [Hm Ho].
    apply (guarded_at s _ _ h); [done|..]; cbn; intros; simplify_map_eq; auto.
  - unfold move_assign in H. apply bind_Ok in H as (m & Hm & H). apply bind_Ok in H as (d & Hd & H). injection H as <-.
    apply of_option_Ok in Hd. apply move_guards in Hm as (dg & sg & Hdg & Hsg & _ & Hm).
    by apply (guarded_move s m dst src d dg sg (guards (mtx s))).
  - unfold move_construct, Mutex.move_construct in H. apply bind_Ok in H as (m & Hm & H).
    apply bind_Ok in H as (d & Hd & H). injection H as <-. apply of_option_Ok in Hd.
    apply move_guards in Hm as (dg & sg & Hdg & Hsg & _ & Hm). cbn [guards set_guard] in *.
    assert (dst <> src) as Hne by (intros ->; congruence).
    apply (guarded_move s m dst src d dg sg (<[dst := None]> (guards (mtx s)))); try done; intros; by rewrite lookup_insert_ne.
Qed.

Lemma reachable_guarded s : reachable s -> guarded s.
Proof.
  induction 1 as [|s s' _ IH Hs]; [|by apply (step_guarded s)]. intros h o H. cbn in H. by rewrite lookup_empty in H.
Qed.

(** [C35] Exclusive access: however the tasks' steps interleave, and whichever
    handles and optionals are moved, released or destroyed, a handle that can be
    dereferenced holds the mutex of the data it leads to, and no other handle
    leads to the same data. *)
Theorem exclusive_access s h o : reachable s -> deref s h = Ok o ->
  has_data s h = true /\ locked (mtx s) !! o = Some true /\ holds (mtx s) h o /\
  forall h', deref s h' = Ok o -> h' = h.
Proof.
  intros Hr Hd. pose proof (reachable_guarded s Hr) as Hg.
  destruct (reachable_inv _ (reachable_guards s Hr)) as [Hl Hu].
  assert (forall h, deref s h = Ok o -> handle_data s !! h = Some (Some o)) as Hx.
  { intros h' H. unfold deref in H. apply bind_Ok in H as (d & H1 & H2). apply of_option_Ok in H1, H2. by subst. }
  pose proof (Hg _ _ (Hx h Hd)) as Hh. split; [|split; [|split; [exact Hh|]]].
  - unfold has_data. by rewrite (Hx h Hd).
  - apply Hl. by exists h.
  - intros h' Hd'. by apply (Hu h' h o); [apply Hg, Hx|].
Qed.

(** Two objects; the handle of the first is moved over the handle of the second. *)
Definition moved_over : outcome state :=
  let s := new_managed (new_managed (State no_objects ∅) 100) 200 in
  s ← lock s 100 1; s ← (match s with Some s => Ok s | None => Fail Diverges end);
  '(_, s) ← try_lock s 200 2;
  move_assign s 1 2.

Lemma moved_over_reachable : exists s, moved_over = Ok s /\ reachable s.
Proof.
  eexists. split; [reflexivity|].
  eapply ReachStep; [eapply ReachStep; [eapply ReachStep; [eapply ReachStep; [eapply ReachStep; [apply ReachBoot|]|]|]|]|].
  - by apply (StepNew _ 100).
  - by apply (StepNew _ 200).
  - apply (StepLock _ 100 1); [done|reflexivity].
  - apply (StepTryLock _ 200 2 true); [done|reflexivity].
  - apply (StepMove _ 1 2). reflexivity.
Qed.

Lemma exclusive_access_witness : exists s, moved_over = Ok s /\ deref s 1 = Ok 200 /\
  forall h, deref s h = Ok 200 -> h = 1.
Proof.
  destruct moved_over_reachable as (s & Hs & Hr). exists s. split; [exact Hs|].
  assert (deref s 1 = Ok 200) as Hd by (injection Hs as <-; reflexivity).
  split; [exact Hd|]. exact (proj2 (proj2 (proj2 (exclusive_access s 1 200 Hr Hd)))).
Defined.

(** A handle that is assigned over gives its mutex to the handle it was assigned
    from, which looks empty: the first object stays locked until that handle is
    destroyed. *)
Theorem assigned_over_stays_locked : exists s s', moved_over = Ok s /\
  has_data s 2 = false /\ locked (mtx s) !! 100 = Some true /\
  destroy s 2 = Ok s' /\ locked (mtx s') !! 100 = Some false.
Proof. do 2 eexists. split; [reflexivity|]. by vm_compute. Qed.

(** ** [try_lock_for] *)

(** The state at the [k]-th try, when all tries before it failed. *)
Fixpoint at_try (k : nat) (others : Z -> state -> state) (s : state) (w : Z) : state :=
  match k with
  | O => s
  | S k' => at_try k' others (others w s) (w + 1)
  end.

(** The object exists and nobody else has made the handle. *)
Definition waiting_for (o h : Z) (s : state) : Prop := fresh s h /\ exists b, locked (mtx s) !! o = Some b.

Definition taken (s : state) (o h : Z) : state :=
  State (set_guard (Heap (<[o := true]> (locked (mtx s))) (guards (mtx s))) h (Some o)) (<[h := Some o]> (handle_data s)).

(** A failed try leaves nothing behind. *)
Lemma failed_try s o h : fresh s h -> locked (mtx s) !! o = Some true ->
  exists s1, try_lock s o h = Ok (false, s1) /\ destroy s1 h = Ok s.
Proof.
  intros [Hg Hd] Ho. unfold try_lock, try_acquire. rewrite Ho. cbn [of_option mbind outcome_bind].
  eexists. split; [done|]. unfold destroy, destroy_guard, release_guard. cbn [mtx guards set_guard handle_data].
  rewrite lookup_insert_eq. cbn [of_option mbind outcome_bind locked guards set_guard].
  rewrite insert_insert_eq, !delete_insert_id by done. destruct s as [[l g] d]. done.
Qed.

Lemma successful_try s o h : locked (mtx s) !! o = Some false -> try_lock s o h = Ok (true, taken s o h).
Proof. intros Ho. unfold try_lock, try_acquire. by rewrite Ho. Qed.

(** [try_lock_for] ends after at most [us] tries, one microsecond apart,
    whatever the other tasks do meanwhile: it takes the lock at the first try that
    finds it free, and gives up, leaving nothing behind, when all of them find it
    taken. *)
Theorem try_lock_for_correct others s o h us
    (Hothers : forall w t, waiting_for o h t -> waiting_for o h (others w t)) (Hs : waiting_for o h s) :
  match try_lock_for others s o h us with
  | Ok (true, w, s') => exists k : nat, w = Z.of_nat k /\ Z.of_nat k < us /\ s' = taken (at_try k others s 0) o h /\
      locked (mtx (at_try k others s 0)) !! o = Some false /\
      forall j, (j < k)%nat -> locked (mtx (at_try j others s 0)) !! o = Some true
  | Ok (false, w, s') => w = Z.max 0 us /\ s' = at_try (Z.to_nat us) others s 0 /\
      forall j, (j < Z.to_nat us)%nat -> locked (mtx (at_try j others s 0)) !! o = Some true
  | Fail _ => False
  end.
Proof.
  unfold try_lock_for.
  enough (forall n s w, waiting_for o h s ->
    (exists k, (k < n)%nat /\ try_lock_for_loop n others s o h w = Ok (true, w + Z.of_nat k, taken (at_try k others s w) o h) /\
      locked (mtx (at_try k others s w)) !! o = Some false /\
      forall j, (j < k)%nat -> locked (mtx (at_try j others s w)) !! o = Some true) \/
    (try_lock_for_loop n others s o h w = Ok (false, w + Z.of_nat n, at_try n others s w) /\
      forall j, (j < n)%nat -> locked (mtx (at_try j others s w)) !! o = Some true)) as H.
  { destruct (H (Z.to_nat us) s 0 Hs) as [(k & Hk & -> & Hf & Ht)|[-> Ht]].
    - exists k. rewrite Z.add_0_l. split; [done|]. split; [lia|]. done.
    - split; [lia|]. done. }
  clear s us Hs. induction n as [|n IH]; intros s w Hs.
  - right. cbn. rewrite Z.add_0_r. split; [done|lia].
  - destruct Hs as [Hf [b Hb]]. cbn [try_lock_for_loop]. destruct b.
    + destruct (failed_try s o h Hf Hb) as (s1 & -> & Hd). cbn [mbind outcome_bind]. rewrite Hd. cbn [mbind outcome_bind].
      assert (waiting_for o h s) as Hw by (split; [done|by exists true]).
      destruct (IH (others w s) (w + 1) (Hothers w s Hw)) as [(k & Hk & -> & Hfr & Ht)|[-> Ht]].
      * left. exists (S k). split; [lia|]. cbn [at_try]. split; [do 3 f_equal; lia|]. split; [done|].
        intros [|j] Hj; [done|]. cbn [at_try]. apply Ht. lia.
      * right. cbn [at_try]. split; [do 3 f_equal; lia|]. intros [|j] Hj; [done|]. cbn [at_try]. apply Ht. lia.
    + left. exists 0%nat. rewrite successful_try by done. cbn [mbind outcome_bind]. split; [lia|].
      rewrite Z.add_0_r. split; [done|]. split; [done|lia].
Qed.

(** Task 1 holds the object and releases it during the third microsecond. *)
Definition held_by_1 : state := State (Heap {[100 := true]} {[1 := Some 100]}) {[1 := Some 100]}.
Definition holder (w : Z) (t : state) : state :=
  if w =? 2 then match release t 1 with Ok t' => t' | Fail _ => t end else t.

Lemma holder_waits w t : waiting_for 100 2 t -> waiting_for 100 2 (holder w t).
Proof.
  intros [[Hg Hd] [b Hb]]. unfold holder. case_if; [|by split; [|exists b]].
  destruct (release t 1) as [t'|] eqn:Hr; [|by split; [|exists b]]. unfold release in Hr.
  apply bind_Ok in Hr as (m & Hm & Hr). injection Hr as <-. split; [split; cbn|].
  - by rewrite (proj2 (release_guards _ _ _ Hm)).
  - by rewrite lookup_insert_ne.
  - cbn [mtx]. apply release_Ok in Hm as [(m0 & _ & ->)|[_ ->]]; cbn [locked set_guard]; [|by exists b].
    destruct (decide (m0 = 100)) as [->|]; [exists false; by rewrite lookup_insert_eq|].
    exists b. by rewrite lookup_insert_ne.
Qed.

Lemma try_lock_for_correct_witness : exists k s', try_lock_for holder held_by_1 100 2 5 = Ok (true, Z.of_nat k, s') /\
  locked (mtx (at_try k holder held_by_1 0)) !! 100 = Some false.
Proof.
  assert (waiting_for 100 2 held_by_1) as Hw by (split; [done|by exists true]).
  pose proof (try_lock_for_correct holder held_by_1 100 2 5 holder_waits Hw) as H.
  assert ((fun r => r.1.1) <$> try_lock_for holder held_by_1 100 2 5 = Ok true) as Ht by (vm_compute; reflexivity).
  destruct (try_lock_for holder held_by_1 100 2 5) as [[[[] w] s']|]; [|discriminate Ht..].
  destruct H as (k & -> & _ & _ & Hf & _). exists k, s'. split; [reflexivity|exact Hf].
Defined.
