(* ===== verification/Timing.v ===== *)
(** * kernel/timing.cpp, kernel/pit.cpp: the clock

    The timer interrupt calls [tick]; the counters say how much time has passed. *)
From S2P Require Import Prelude Io Pic.

#[local] Arguments wrap : simpl never.

Definition ticks_per_second : Z := 1193182.
Definition millis_per_second : Z := 1000.
Definition micros_per_milli : Z := 1000.
Definition ticks_per_micro : Z := ticks_per_second / millis_per_second / micros_per_milli.

Record clock := Clock {
  micros_since_start : Z;       (* uint64_t *)
  millis_since_start : Z;       (* uint64_t *)
  ticks_in_this_micro : Z;      (* unsigned *)
  micros_in_this_milli : Z      (* unsigned *)
}.
Definition boot_clock : clock := Clock 0 0 0 0.

Definition tick (c : clock) : clock :=
  let t := u32 (ticks_in_this_micro c + 1) in
  if ticks_per_micro <? t then
    let micros := u64 (micros_since_start c + 1) in
    let u := u32 (micros_in_this_milli c + 1) in
    let '(millis, u') :=
      if micros_per_milli <? u then (u64 (millis_since_start c + 1), u32 (u - micros_per_milli))
      else (millis_since_start c, u) in
    Clock micros millis (u32 (t - ticks_per_micro)) u'
  else Clock (micros_since_start c) (millis_since_start c) t (micros_in_this_milli c).

Definition get_millis_since_start (c : clock) : Z := millis_since_start c.
Definition get_micros_since_start (c : clock) : Z := micros_since_start c.

(** [busy_sleep] on either counter, given the clocks the successive reads see; the
    number of reads, or divergence when the reads run out. *)
Fixpoint sleep_loop (counter : clock -> Z) (begin val : Z) (reads : list clock) : outcome nat :=
  match reads with
  | [] => Fail Diverges
  | c :: reads' =>
      if u64 (counter c - begin) <? val then n ← sleep_loop counter begin val reads'; Ok (S n) else Ok 1%nat
  end.
Definition busy_sleep (counter : clock -> Z) (val : Z) (now : clock) (reads : list clock) : outcome nat :=
  sleep_loop counter (counter now) val reads.

(** ** The programmable interval timer *)

Definition PIT_0_DATA : Z := 0x40.
Definition PIT_COMMAND : Z := 0x43.
Definition PIT_BINARY : Z := 0.
Definition PIT_LO_BYTE_HI_BYTE : Z := Z.shiftl 3 4.
Definition PIT_MODE_2 : Z := Z.shiftl 2 1.
Definition PIT_SELECT_CHANNEL_0 : Z := Z.shiftl 0 6.
Definition reload_count_lo : Z := 0x00.
Definition reload_count_hi : Z := 0x01.

Definition init_pit {D} `{Ports D} : io D unit :=
  _ ← outb PIT_COMMAND (Z.lor (Z.lor (Z.lor PIT_SELECT_CHANNEL_0 PIT_MODE_2) PIT_LO_BYTE_HI_BYTE) PIT_BINARY);
  _ ← outb PIT_0_DATA reload_count_lo;
  _ ← outb PIT_0_DATA reload_count_hi;
  unmask_irq PIT.

(** ** What the counters count *)

Lemma ticks_per_micro_1 : ticks_per_micro = 1.
Proof. done. Qed.

(** After [n] ticks. *)
Definition clock_at (n : Z) : clock :=
  Clock (Z.max 0 (n - 1)) (Z.max 0 (n - 2) / 1000) (Z.min n 1) (if n <=? 1 then 0 else (n - 2) mod 1000 + 1).

Lemma tick_clock_at n : 0 <= n < 2 ^ 64 -> tick (clock_at n) = clock_at (n + 1).
Proof.
  intros Hn. destruct (Z.eq_dec n 0) as [->|H0]; [done|]. destruct (Z.eq_dec n 1) as [->|H1]; [done|].
  assert (tick (clock_at n) =
    (let u := u32 ((n - 2) mod 1000 + 1 + 1) in
     let '(millis, u') := if 1000 <? u then (u64 ((n - 2) / 1000 + 1), u32 (u - 1000)) else ((n - 2) / 1000, u) in
     Clock (u64 (n - 1 + 1)) millis 1 u')) as ->.
  { unfold tick, clock_at. cbn [micros_since_start millis_since_start ticks_in_this_micro micros_in_this_milli].
    rewrite ticks_per_micro_1, Z.min_r, !Z.max_r by lia. destruct (n <=? 1) eqn:E; bool_to_prop; [lia|done]. }
  pose proof (Z.mod_pos_bound (n - 2) 1000). pose proof (Z.div_pos (n - 2) 1000).
  pose proof (Z.div_mod (n - 2) 1000). pose proof (Z.div_le_upper_bound (n - 2) 1000 (n - 2)).
  unfold clock_at. rewrite !Z.max_r, Z.min_r by lia. destruct (n + 1 <=? 1) eqn:E; bool_to_prop; [lia|].
  rewrite (wrap_small 64 (n - 1 + 1)), (wrap_small 32 ((n - 2) mod 1000 + 1 + 1)) by lia. cbn zeta.
  replace (n + 1 - 2) with (n - 2 + 1) by lia.
  destruct (1000 <? _) eqn:Eu; bool_to_prop.
  - assert ((n - 2 + 1) / 1000 = (n - 2) / 1000 + 1 /\ (n - 2 + 1) mod 1000 = 0) as [-> ->] by zdiv.
    rewrite wrap_small by lia. replace ((n - 2) mod 1000 + 1 + 1 - 1000) with 1 by lia. f_equal; lia.
  - assert ((n - 2 + 1) / 1000 = (n - 2) / 1000 /\ (n - 2 + 1) mod 1000 = (n - 2) mod 1000 + 1) as [-> ->] by zdiv.
    f_equal; lia.
Qed.

(** The clock counts: [n] timer interrupts after boot it shows [n - 1]
    microseconds and as many whole milliseconds as [n - 2] has thousands. *)
Theorem clock_counts n : Z.of_nat n < 2 ^ 64 ->
  get_micros_since_start (Nat.iter n tick boot_clock) = Z.max 0 (Z.of_nat n - 1) /\
  get_millis_since_start (Nat.iter n tick boot_clock) = Z.max 0 (Z.of_nat n - 2) / 1000.
Proof.
  intros Hn. assert (Nat.iter n tick boot_clock = clock_at (Z.of_nat n)) as ->; [|done].
  induction n as [|n IH]; [done|]. rewrite Nat.iter_succ, IH, tick_clock_at by lia. f_equal. lia.
Qed.

Theorem clock_counts_witness : get_micros_since_start (Nat.iter 2003 tick boot_clock) = 2002 /\
  get_millis_since_start (Nat.iter 2003 tick boot_clock) = 2.
Proof. apply (clock_counts 2003). vm_compute. done. Defined.

(** A sleep that reads the clock after every timer interrupt returns at the read
    that shows [val] microseconds more than its first. *)
Lemma sleep_loop_ticks m val : forall j n, 1 <= n -> n + j + Z.of_nat m < 2 ^ 64 -> 0 <= j -> j + Z.of_nat m = val ->
  sleep_loop get_micros_since_start (n - 1) val (clock_at <$> seqZ (n + j) (Z.of_nat (S m))) = Ok (S m).
Proof.
  induction m as [|m IH]; intros j n Hn Hb Hj Hv; rewrite seqZ_cons by lia; cbn [fmap list_fmap sleep_loop];
    unfold get_micros_since_start at 1, clock_at at 1; cbn [micros_since_start]; rewrite Z.max_r, wrap_small by lia.
  - case_if; [lia|done].
  - case_if; [|lia]. replace (Z.succ (n + j)) with (n + (j + 1)) by lia.
    replace (Z.pred (Z.of_nat (S (S m)))) with (Z.of_nat (S m)) by lia. rewrite IH by lia. done.
Qed.

Lemma busy_sleep_ticks n val : 1 <= n -> n + Z.of_nat val < 2 ^ 64 ->
  busy_sleep get_micros_since_start (Z.of_nat val) (clock_at n) (clock_at <$> seqZ n (Z.of_nat (S val))) = Ok (S val).
Proof.
  intros Hn Hb. unfold busy_sleep. unfold get_micros_since_start at 2, clock_at at 1. cbn [micros_since_start].
  rewrite Z.max_r by lia. rewrite <- (Z.add_0_r n) at 2. apply sleep_loop_ticks; lia.
Qed.
