(* ===== verification/Descriptors.v ===== *)
(** * kernel/gdt.cpp, kernel/idt.cpp, kernel/interrupts.cpp: descriptor tables

    The segment and gate descriptors the kernel loads, as the processor reads
    them, and the routine every interrupt vector leads to.  The addresses of the
    tables and routines are the linker's: they are arguments. *)
From S2P Require Import Prelude Io Scheduler Pic.

#[local] Arguments wrap : simpl never.

(** ** Bit fields: the lowest of width [w], and the rest *)

Definition field (w lo rest : Z) : Z := lo + 2 ^ w * rest.

Lemma field_low w lo rest : 0 <= w -> 0 <= lo < 2 ^ w -> field w lo rest mod 2 ^ w = lo.
Proof. intros Hw Hl. unfold field. rewrite Z.mul_comm, Z.mod_add by lia. by apply Z.mod_small. Qed.

Lemma field_rest w lo rest : 0 <= w -> 0 <= lo < 2 ^ w -> field w lo rest / 2 ^ w = rest.
Proof. intros Hw Hl. unfold field. rewrite Z.mul_comm, Z.div_add by lia. rewrite Z.div_small; lia. Qed.

(** ** Segments *)

Record Entry := MkEntry {
  limit_lo : Z; base_lo : Z; base_hi_lo : Z; access : Z; limit_hi : Z; flags : Z; base_hi_hi : Z
}.

(** The eight bytes of an entry. *)
Definition quad (e : Entry) : Z :=
  field 16 (limit_lo e) (field 16 (base_lo e) (field 8 (base_hi_lo e) (field 8 (access e)
    (field 4 (limit_hi e) (field 4 (flags e) (base_hi_hi e)))))).

Definition GDT_PRESENT : Z := Z.shiftl 1 7.
Definition GDT_KERNEL_SEGMENT : Z := Z.shiftl 0 5.
Definition GDT_USER_SEGMENT : Z := Z.shiftl 3 5.
Definition GDT_NOT_TSS : Z := Z.shiftl 1 4.
Definition GDT_EXECUTABLE : Z := Z.shiftl 1 3.
Definition GDT_DATA_WRITABLE : Z := Z.shiftl 1 1.
Definition GDT_CODE_READABLE : Z := Z.shiftl 1 1.
Definition TSS_TYPE_AVAILABLE : Z := 0x9.
Definition GDT_PAGE_GRANULARITY : Z := Z.shiftl 1 3.
Definition GDT_64_BIT : Z := Z.shiftl 1 1.
Definition SIZEOF_TSS : Z := 104.

Definition lor_all (l : list Z) : Z := fold_left Z.lor l 0.

Definition segment (acc : Z) : Entry := MkEntry 0xFFFF 0 0 acc 0xF (Z.lor GDT_PAGE_GRANULARITY GDT_64_BIT) 0.

Definition tss_entry_low (tss : Z) : Entry :=
  MkEntry (u16 (Z.land SIZEOF_TSS 0xFFFF)) (u16 (Z.land tss 0xFFFF)) (u8 (Z.land (Z.shiftr tss 16) 0xFF))
    (Z.lor GDT_PRESENT TSS_TYPE_AVAILABLE) (u8 (Z.shiftr SIZEOF_TSS 16)) GDT_64_BIT (u8 (Z.land (Z.shiftr tss 24) 0xFF)).

(** [gdt::init]: the table; [tss] is the address of [tss_entry]. *)
Definition gdt (tss : Z) : list Z := [
  quad (MkEntry 0 0 0 0 0 0 0);
  quad (segment (lor_all [GDT_PRESENT; GDT_KERNEL_SEGMENT; GDT_NOT_TSS; GDT_EXECUTABLE; GDT_CODE_READABLE]));
  quad (segment (lor_all [GDT_PRESENT; GDT_KERNEL_SEGMENT; GDT_NOT_TSS; GDT_DATA_WRITABLE]));
  quad (segment (lor_all [GDT_PRESENT; GDT_USER_SEGMENT; GDT_NOT_TSS; GDT_EXECUTABLE; GDT_CODE_READABLE]));
  quad (segment (lor_all [GDT_PRESENT; GDT_USER_SEGMENT; GDT_NOT_TSS; GDT_DATA_WRITABLE]));
  quad (tss_entry_low tss);
  u32 (Z.shiftr tss 32)].

(** [init_tss]: [rsp0], the stack of the kernel's privilege level; [stack] is the
    address of [task_stack]. *)
Definition init_tss (stack : Z) : Z := u64 stack.

(** What the processor reads from a descriptor. *)
Definition seg_limit (q : Z) : Z := q mod 2 ^ 16 + 2 ^ 16 * (q / 2 ^ 48 mod 2 ^ 4).
Definition seg_base (q : Z) : Z := q / 2 ^ 16 mod 2 ^ 24 + 2 ^ 24 * (q / 2 ^ 56).
Definition seg_access (q : Z) : Z := q / 2 ^ 40 mod 2 ^ 8.
Definition seg_flags (q : Z) : Z := q / 2 ^ 52 mod 2 ^ 4.
Definition seg_dpl (q : Z) : Z := seg_access q / 2 ^ 5 mod 4.

Record sized (e : Entry) : Prop := {
  sized_limit_lo : 0 <= limit_lo e < 2 ^ 16; sized_base_lo : 0 <= base_lo e < 2 ^ 16;
  sized_base_hi_lo : 0 <= base_hi_lo e < 2 ^ 8; sized_access : 0 <= access e < 2 ^ 8;
  sized_limit_hi : 0 <= limit_hi e < 2 ^ 4; sized_flags : 0 <= flags e < 2 ^ 4;
  sized_base_hi_hi : 0 <= base_hi_hi e < 2 ^ 8
}.

Lemma div_pow q a b : 0 <= a -> 0 <= b -> q / 2 ^ (a + b) = q / 2 ^ a / 2 ^ b.
Proof. intros Ha Hb. rewrite Z.pow_add_r, Z.div_div by lia. done. Qed.

(** Reading a descriptor gives back the fields of the entry. *)
Lemma quad_fields e : sized e ->
  seg_limit (quad e) = limit_lo e + 2 ^ 16 * limit_hi e /\
  seg_base (quad e) = base_lo e + 2 ^ 16 * base_hi_lo e + 2 ^ 24 * base_hi_hi e /\
  seg_access (quad e) = access e /\ seg_flags (quad e) = flags e.
Proof.
  intros [H1 H2 H3 H4 H5 H6 H7]. unfold seg_limit, seg_base, seg_access, seg_flags.
  change 56 with (16 + (16 + (8 + (8 + (4 + 4))))). change 52 with (16 + (16 + (8 + (8 + 4)))).
  change 48 with (16 + (16 + (8 + 8))). change 40 with (16 + (16 + 8)).
  rewrite !div_pow by lia. unfold quad. rewrite !field_low, !field_rest, !field_low by lia.
  split; [done|]. split; [|done]. f_equal.
  change (2 ^ 24) with (2 ^ 16 * 2 ^ 8). rewrite Z.rem_mul_r, field_low, field_rest, field_low by lia. done.
Qed.

(** ** Gates *)

Record IDT_Entry := MkGate {
  offset_1 : Z; selector : Z; ist : Z; type_attr : Z; offset_2 : Z; offset_3 : Z; zero : Z
}.
Definition present : Z := 0x80.
Definition interrupt_32 : Z := 0xE.
Definition NUM_IDT_ENTRIES : Z := 0x100.

(** The routine of a vector. *)
Inductive handler :=
| general_protection_fault_handler | page_fault_handler | timer_handler | keyboard_handler | floppy_handler
| scheduler_interrupt | syscall_interrupt | interrupt_handler (n : Z).

(** The vectors of [UNHANDLED]. *)
Definition unhandled (i : Z) : bool :=
  (0 <=? i) && (i <=? 0xc) || (0xf <=? i) && (i <=? 0x1f) || (0x22 <=? i) && (i <=? 0x25) || (i =? 0x27).

Definition get_handler (index : Z) : handler :=
  if index =? 0x0D then general_protection_fault_handler
  else if index =? 0x0E then page_fault_handler
  else if index =? 0x20 then timer_handler
  else if index =? 0x21 then keyboard_handler
  else if index =? 0x26 then floppy_handler
  else if index =? 0x28 then scheduler_interrupt
  else if index =? 0x80 then syscall_interrupt
  else if unhandled index then interrupt_handler index
  else interrupt_handler (u8 (-1)).

Definition gate (address : Z) : IDT_Entry :=
  MkGate (u16 address) KERNEL_CODE_SELECTOR 0 (Z.lor present interrupt_32)
    (u16 (Z.shiftr address 16)) (u32 (Z.shiftr address 32)) 0.

Definition gate_bytes (g : IDT_Entry) : Z :=
  field 16 (offset_1 g) (field 16 (selector g) (field 8 (ist g) (field 8 (type_attr g)
    (field 16 (offset_2 g) (field 32 (offset_3 g) (zero g)))))).

Section idt.
Context (address : handler -> Z).

(** [idt::init] after [pic::remap_interrupts]: the table. *)
Definition idt : list Z := (fun i => gate_bytes (gate (address (get_handler (u8 i))))) <$> seqZ 0 NUM_IDT_ENTRIES.

(** The processor's reading of a gate: where it jumps to, in which segment, and how. *)
Definition gate_offset (g : Z) : Z := g mod 2 ^ 16 + 2 ^ 16 * (g / 2 ^ 48 mod 2 ^ 48).
Definition gate_selector (g : Z) : Z := g / 2 ^ 16 mod 2 ^ 16.
Definition gate_type (g : Z) : Z := g / 2 ^ 40 mod 2 ^ 8.

Lemma gate_fields a : 0 <= a < 2 ^ 64 ->
  gate_offset (gate_bytes (gate a)) = a /\
  gate_selector (gate_bytes (gate a)) = KERNEL_CODE_SELECTOR /\
  gate_type (gate_bytes (gate a)) = 0x8E.
Proof.
  intros Ha. unfold gate_offset, gate_selector, gate_type, gate_bytes, gate.
  cbn [offset_1 selector ist type_attr offset_2 offset_3 zero].
  pose proof (wrap_range 16 a ltac:(lia)). pose proof (wrap_range 16 (Z.shiftr a 16) ltac:(lia)).
  pose proof (wrap_range 32 (Z.shiftr a 32) ltac:(lia)).
  split_and!.
  - change (2 ^ 48) with (2 ^ (16 + (16 + (8 + 8)))) at 1. rewrite !div_pow, field_low, !field_rest by (done || lia).
    change (2 ^ 48) with (2 ^ 16 * 2 ^ 32). rewrite Z.rem_mul_r, field_low, field_rest, field_low by (done || lia).
    rewrite !Z.shiftr_div_pow2 by lia. unfold wrap. clear -Ha.
    change (2 ^ 32) with (2 ^ 16 * 2 ^ 16). rewrite <- (Z.div_div a) by lia.
    pose proof (Z.div_mod a (2 ^ 16) ltac:(lia)). pose proof (Z.div_mod (a / 2 ^ 16) (2 ^ 16) ltac:(lia)).
    rewrite (Z.mod_small (a / 2 ^ 16 / 2 ^ 16)); [lia|]. split; [apply Z.div_pos; [apply Z.div_pos|]; lia|].
    apply Z.div_lt_upper_bound; [lia|]. apply Z.div_lt_upper_bound; lia.
  - by rewrite field_rest, field_low by (done || lia).
  - change 40 with (16 + (16 + 8)). by rewrite !div_pow, !field_rest, field_low by (done || lia).
Qed.

(** [idt::init] *)
Definition idt_init {D} `{Ports D} : io D (list Z) := _ ← remap_interrupts; mret idt.

Lemma idt_lookup v : 0 <= v < 256 -> zget idt v = Some (gate_bytes (gate (address (get_handler v)))).
Proof.
  intros Hv. unfold idt, zget. case_if; [lia|]. rewrite list_lookup_fmap, lookup_seqZ_lt by (unfold NUM_IDT_ENTRIES; lia).
  cbn [fmap option_fmap option_map]. rewrite Z2Nat.id, Z.add_0_l, wrap_small by lia. done.
Qed.
End idt.

(** The routine each interrupt line is meant for. *)
Definition routine_of (c : irq) : handler :=
  match c with
  | PIT => timer_handler
  | KEYBOARD => keyboard_handler
  | FLOPPY => floppy_handler
  | CMOS_RTC => scheduler_interrupt
  | CASCADE | COM2 | COM1 | LPT2 | LPT1 => interrupt_handler (0x20 + irq_val c)
  | _ => interrupt_handler 0xFF
  end.

(** [C36] Interrupts reach their routines: after [idt::init] on idle 8259A chips every
    one of the 256 gates sends the processor, in the kernel's code segment, to the
    64-bit address of its vector's routine, as a present gate of ring 0; and each
    of the sixteen interrupt lines arrives at the vector of the routine meant for
    it. *)
Theorem interrupts_reach_routines {D} `{Pic8259 D} (address : handler -> Z) (d : D) :
  idle d -> (forall h, 0 <= address h < 2 ^ 64) ->
  exists d', idt_init address d = Ok (idt address, d') /\ idle d' /\
    (forall v, 0 <= v < 256 -> exists g, zget (idt address) v = Some g /\
       gate_offset g = address (get_handler v) /\ gate_selector g = KERNEL_CODE_SELECTOR /\ gate_type g = 0x8E) /\
    (forall c, get_handler (vector_of c d') = routine_of c).
Proof.
  intros Hd Ha. destruct (remap_interrupts_spec d Hd) as (d' & Hr & Hi & Hm & Hs & _).
  exists d'. split; [unfold idt_init; by rewrite (io_bind_step _ _ _ _ _ Hr)|]. split; [done|]. split.
  - intros v Hv. rewrite idt_lookup by done. eexists. split; [done|]. by apply gate_fields.
  - intros c. unfold vector_of, chip_of. by destruct c; cbn [irq_val Z.ltb Z.compare Pos.compare Pos.compare_cont line]; rewrite ?Hm, ?Hs.
Qed.

Definition sample_address (h : handler) : Z :=
  0xFFFFFE0000100000 + 16 * (match h with
    | general_protection_fault_handler => 0x0D | page_fault_handler => 0x0E | timer_handler => 0x20
    | keyboard_handler => 0x21 | floppy_handler => 0x26 | scheduler_interrupt => 0x28 | syscall_interrupt => 0x80
    | interrupt_handler n => u8 n end).

Theorem interrupts_reach_routines_witness : exists d', idt_init sample_address boot_chips = Ok (idt sample_address, d') /\
  get_handler (vector_of FLOPPY d') = floppy_handler /\
  exists g, zget (idt sample_address) 0x26 = Some g /\ gate_offset g = 0xFFFFFE0000100260.
Proof.
  destruct (interrupts_reach_routines sample_address boot_chips) as (d' & Hr & _ & Hg & Hv).
  - by repeat split.
  - intros h. unfold sample_address. destruct h as [| | | | | | |n]; [lia..|]. pose proof (wrap_range 8 n). lia.
  - exists d'. split; [exact Hr|]. split; [apply (Hv FLOPPY)|]. destruct (Hg 0x26 ltac:(lia)) as (g & Hl & Ho & _).
    exists g. split; [exact Hl|exact Ho].
Defined.

(** The descriptors: four flat 4 GiB segments, of the kernel and of user tasks, and
    the task state segment at its 64-bit address.  Its limit counts one byte more
    than the segment has. *)
Lemma gdt_descriptors tss : 0 <= tss < 2 ^ 64 -> exists null kc kd uc ud t1 t2,
  gdt tss = [null; kc; kd; uc; ud; t1; t2] /\ null = 0 /\
  Forall (fun q => seg_base q = 0 /\ seg_limit q = 0xFFFFF) [kc; kd; uc; ud] /\
  seg_dpl kc = 0 /\ seg_dpl kd = 0 /\ seg_dpl uc = 3 /\ seg_dpl ud = 3 /\
  seg_access t1 = 0x89 /\ seg_limit t1 = SIZEOF_TSS /\ seg_base t1 + 2 ^ 32 * t2 = tss.
Proof.
  intros Ht. eexists _, _, _, _, _, _, _. split; [reflexivity|].
  assert (sized (tss_entry_low tss)) as Hs.
  { split; cbn [limit_lo base_lo base_hi_lo access limit_hi flags base_hi_hi tss_entry_low]; try done; apply wrap_range; lia. }
  destruct (quad_fields _ Hs) as (Hl & Hb & Hac & _). rewrite Hl, Hb, Hac. split; [done|]. split; [repeat constructor|].
  do 4 (split; [by vm_compute|]). split; [done|]. split; [done|].
  { cbn [base_lo base_hi_lo base_hi_hi tss_entry_low].
    change 0xFFFF with (Z.ones 16). change 0xFF with (Z.ones 8). rewrite !Z.land_ones, !Z.shiftr_div_pow2 by lia.
    unfold wrap. rewrite !Zmod_mod. clear -Ht.
    pose proof (Z.div_mod tss (2 ^ 16) ltac:(lia)). pose proof (Z.div_mod (tss / 2 ^ 16) (2 ^ 8) ltac:(lia)).
    pose proof (Z.div_mod (tss / 2 ^ 24) (2 ^ 8) ltac:(lia)).
    replace (tss / 2 ^ 16 / 2 ^ 8) with (tss / 2 ^ 24) in * by (by rewrite Z.div_div).
    replace (tss / 2 ^ 24 / 2 ^ 8) with (tss / 2 ^ 32) in * by (by rewrite Z.div_div).
    rewrite (Z.mod_small (tss / 2 ^ 32)); [lia|]. split; [apply Z.div_pos; lia|apply Z.div_lt_upper_bound; lia]. }
Qed.
