(* ===== verification/Interrupts.v ===== *)
(** * kernel/interrupts.cpp, interrupts.h: what the interrupt routines do

    The device routines act on the clock, the keyboard queue and the floppy flag
    and acknowledge the interrupt; the fault routines decide what happens to the
    task that caused the fault (their messages are in Reports.v).  The interrupt
    flag, the scopes that clear it, and [yield], which looks at it, come first. *)
From S2P Require Import Prelude RingBuffer Io Scheduler Keyboard Pic Timing.

#[local] Arguments wrap : simpl never.

(** ** The interrupt flag *)

Definition enable (rflags : Z) : Z := Z.lor rflags (2 ^ 9).
Definition disable (rflags : Z) : Z := Z.land rflags (wnot 64 (2 ^ 9)).
Definition enabled (rflags : Z) : bool := negb (Z.land rflags (2 ^ 9) =? 0).

(** The flags of the processor, the scheduler's switches, and the tasks. *)
Record cpu (H : Type) := Cpu {
  flags : Z;
  task_switching_enabled : bool;
  no_scheduler_tick : bool;
  scheduling : sched H
}.
Arguments Cpu {H}.
Arguments flags {H}.
Arguments task_switching_enabled {H}.
Arguments no_scheduler_tick {H}.
Arguments scheduling {H}.

Section flag.
Context {H : Type} `{KernelHeap H}.

Definition with_flags (c : cpu H) (f : Z) : cpu H :=
  Cpu f (task_switching_enabled c) (no_scheduler_tick c) (scheduling c).

(** [scoped_disable] around [action]: the destructor enables interrupts whatever
    they were before. *)
Definition with_interrupts_disabled {A} (action : cpu H -> outcome (A * cpu H)) (c : cpu H) : outcome (A * cpu H) :=
  '(a, c') ← action (with_flags c (disable (flags c)));
  Ok (a, with_flags c' (enable (flags c'))).

Definition enable_task_switch (c : cpu H) : outcome (unit * cpu H) :=
  with_interrupts_disabled (fun c => Ok (tt, Cpu (flags c) true (no_scheduler_tick c) (scheduling c))) c.

(** [yield]: the software interrupt enters [task_switch] with the frame [tcb] of
    the running task, and its stub resets [no_scheduler_tick]; without it the task
    goes on ([None]). *)
Definition yield (c : cpu H) (tcb : task_frame) : outcome (option task_frame * cpu H) :=
  if enabled (flags c) && task_switching_enabled c then
    '(loaded, s) ← task_switch (scheduling c) tcb;
    Ok (Some loaded, Cpu (flags c) true false s)
  else Ok (None, c).

(** [exit]; a task that is not switched away from stays in the loop at its end. *)
Definition exit (c : cpu H) (tcb : task_frame) : outcome (task_frame * cpu H) :=
  '(_, c) ← with_interrupts_disabled (fun c =>
     s ← kill (scheduling c) (current_task_id (scheduling c));
     Ok (tt, Cpu (flags c) (task_switching_enabled c) (no_scheduler_tick c) s)) c;
  '(loaded, c) ← yield (with_flags c (enable (flags c))) tcb;
  match loaded with Some f => Ok (f, c) | None => Fail Diverges end.

Lemma enabled_testbit f : enabled f = Z.testbit f 9.
Proof. unfold enabled. rewrite land_pow2 by lia. by destruct (Z.testbit f 9). Qed.

Lemma enabled_enable f : enabled (enable f) = true.
Proof. rewrite enabled_testbit. unfold enable. by rewrite Z.lor_spec, orb_true_r. Qed.

Lemma enabled_disable f : enabled (disable f) = false.
Proof. rewrite enabled_testbit. unfold disable. rewrite Z.land_spec, wnot_testbit by lia. apply andb_false_r. Qed.

(** An action runs with interrupts disabled, but a scope inside another one ends
    both: what the outer scope still has to do runs with interrupts enabled. *)
Theorem inner_scope_ends_outer {A B} (inner : cpu H -> outcome (A * cpu H)) (rest : A -> cpu H -> outcome (B * cpu H)) c a c' :
  inner (with_flags c (disable (flags (with_flags c (disable (flags c)))))) = Ok (a, c') ->
  enabled (flags (with_flags c (disable (flags c)))) = false /\
  enabled (flags (with_flags c' (enable (flags c')))) = true /\
  with_interrupts_disabled (fun c => '(a, c) ← with_interrupts_disabled inner c; rest a c) c =
    ('(b, c2) ← rest a (with_flags c' (enable (flags c'))); Ok (b, with_flags c2 (enable (flags c2)))).
Proof.
  intros Hi. split; [apply enabled_disable|]. split; [apply enabled_enable|].
  unfold with_interrupts_disabled at 1 2. cbn [flags with_flags] in *.
  unfold with_flags at 3. cbn [flags task_switching_enabled no_scheduler_tick scheduling]. unfold with_flags at 1 in Hi.
  cbn [task_switching_enabled no_scheduler_tick scheduling] in Hi. unfold with_flags. cbn [task_switching_enabled no_scheduler_tick scheduling flags]. rewrite Hi. done.
Qed.

(** Ending a task always stops the kernel: with task switching on, the assertion of
    [task_switch] fails; without it the task spins. *)
Theorem exit_never_ends c tcb r : wf (scheduling c) -> exit c tcb <> Ok r.
Proof.
  intros Hw Hr. unfold exit, with_interrupts_disabled in Hr. cbn [scheduling with_flags] in Hr.
  apply bind_Ok in Hr as ([[] c1] & H1 & Hr). apply bind_Ok in H1 as ([[] c2] & H1 & H2). injection H2 as <-.
  apply bind_Ok in H1 as (s & Hk & H1). injection H1 as <-. cbn [flags with_flags task_switching_enabled no_scheduler_tick scheduling] in Hr.
  apply bind_Ok in Hr as ([l c3] & Hy & Hr). unfold yield in Hy. cbn [flags with_flags task_switching_enabled no_scheduler_tick scheduling] in Hy.
  rewrite enabled_enable in Hy. destruct (task_switching_enabled c); cbn [andb] in Hy; [|by injection Hy as <- <-].
  apply bind_Ok in Hy as ([f s'] & Ht & _). apply (exit_fails (scheduling c) tcb (f, s') Hw).
  unfold exit_. by rewrite Hk.
Qed.
End flag.

(** ** Devices *)

Record machine (D : Type) := Machine {
  clk : clock;
  keys : managed_pump;
  disk_interrupt_handled : bool;
  dev : D
}.
Arguments Machine {D}.
Arguments clk {D}.
Arguments keys {D}.
Arguments disk_interrupt_handled {D}.
Arguments dev {D}.

Section devices.
Context {D : Type} `{Ports D} (fuel : nat).

Definition on_device {A} (m : io D A) : io (machine D) A := fun s =>
  '(a, d) ← m (dev s); Ok (a, Machine (clk s) (keys s) (disk_interrupt_handled s) d).

Definition timer_handler : io (machine D) unit := fun s =>
  on_device (signal_end_of_interrupt PIT) (Machine (tick (clk s)) (keys s) (disk_interrupt_handled s) (dev s)).

(** [handle_floppy_interrupt] and the acknowledgement *)
Definition floppy_handler : io (machine D) unit := fun s =>
  on_device (signal_end_of_interrupt FLOPPY) (Machine (clk s) (keys s) true (dev s)).

Definition keyboard_handler : io (machine D) unit := fun s =>
  '(k, d) ← handle_interrupt fuel (keys s) (dev s);
  on_device (signal_end_of_interrupt KEYBOARD) (Machine (clk s) k (disk_interrupt_handled s) d).
End devices.

(** ** Faults *)

(** [selector_error_code] *)
Definition is_external (v : Z) : bool := negb (Z.land v 1 =? 0).
Definition get_table (v : Z) : Z := Z.land (Z.shiftr v 1) 3.
Definition get_index (v : Z) : Z := Z.land (Z.shiftr v 3) 0x1FFF.
Definition get_selector (v : Z) : Z := if get_table v =? 0 then get_index v * 8 else 0.

(** [general_protection_fault_handler_impl]; a task is ended by [kill] and [yield],
    which is what [exit_] does. *)
Definition general_protection_fault {H} `{KernelHeap H} (s : sched H) (error_code : Z) (tcb : task_frame) :
  outcome (task_frame * sched H) :=
  if get_selector error_code =? USER_CODE_SELECTOR then
    u ← get_current_task_is_user s;
    _ ← assert_ u "current task is not user?";
    exit_ s tcb
  else if get_selector error_code =? KERNEL_CODE_SELECTOR then Fail Diverges
  else Fail (Panic "unknown task type!").

(** What [page_fault_handler_impl] reports. *)
Definition access_was_read (error_code : Z) : bool := Z.land error_code 2 =? 0.
Definition page_not_present (error_code : Z) : bool := negb (Z.lxor error_code 1 =? 0).

(** The error code of a selector of the global table: its index above three flag
    bits. *)
Lemma selector_roundtrip i ext : 0 <= i < 2 ^ 13 -> 0 <= ext < 2 ->
  get_selector (8 * i + ext) = 8 * i /\ is_external (8 * i + ext) = negb (ext =? 0).
Proof.
  intros Hi He. unfold get_selector, get_table, get_index, is_external.
  change 3 with (Z.ones 2) at 1. change 0x1FFF with (Z.ones 13). change 1 with (Z.ones 1) at 2.
  rewrite !Z.land_ones, !Z.shiftr_div_pow2 by lia.
  assert ((8 * i + ext) / 2 ^ 1 mod 2 ^ 2 = 0) as -> by zdiv.
  assert ((8 * i + ext) / 2 ^ 3 mod 2 ^ 13 = i) as -> by zdiv. cbn [Z.eqb].
  assert ((8 * i + ext) mod 2 ^ 1 = ext) as -> by zdiv. split; [lia|done].
Qed.

(** A general protection fault always stops the kernel: whatever its error code
    and whichever task caused it, the routine panics, spins or, for a user task,
    kills it and fails the scheduler's assertion; no task is ever resumed. *)
Theorem general_protection_fault_stops {H} `{KernelHeap H} (s : sched H) error_code tcb :
  wf s -> exists e, general_protection_fault s error_code tcb = Fail e.
Proof.
  intros Hw. unfold general_protection_fault. case_if; [|case_if; eauto].
  destruct (get_current_task_is_user s) as [[]|e]; cbn [mbind outcome_bind assert_]; [|eauto..].
  destruct (exit_ s tcb) as [r|e] eqn:Er; [by apply (exit_fails s tcb r) in Er|eauto].
Qed.

Theorem general_protection_fault_stops_witness : exists s e, two_tasks = Ok s /\
  general_protection_fault s 0x18 zero_frame = Fail e.
Proof.
  destruct two_tasks_wf as (s & Hs & Hw & _).
  destruct (general_protection_fault_stops s 0x18 zero_frame Hw) as [e He]. by exists s, e.
Defined.

(** The page fault routine compares the whole error code with 1: the message that
    the page was not present also comes for faults on present pages. *)
Theorem page_fault_message_wrong error_code :
  Z.testbit error_code 0 = true -> error_code <> 1 -> page_not_present error_code = true.
Proof.
  intros _ Hne. unfold page_not_present. destruct (Z.lxor error_code 1 =? 0) eqn:E; [|done].
  bool_to_prop. by apply Z.lxor_eq in E.
Qed.
