(* ===== verification/Reports.v ===== *)
(** * kernel/interrupts.cpp, kernel/panic.cpp: what the kernel reports

    The fault routines format their reports into a buffer of 512 bytes on the stack
    and hand it to [puts]; [panic] prints through [vfprintf].  A report ends in a
    halted machine or goes on to the scheduler; here it is the console it leaves. *)
From S2P Require Import Prelude Stdio Printf Io Serial Vga Scheduler Console Interrupts.

#[local] Arguments wrap : simpl never.

Record interrupt_frame := InterruptFrame { if_rip : Z; if_cs : Z; if_rflags : Z; if_rsp : Z; if_ss : Z }.

Definition nul (s : list Z) : list Z := s ++ [0].
Definition newline : list Z := [10].

(** [snprintf(buffer, n, fmt, ...)]: the buffer afterwards. *)
Definition snprintf (buffer : list Z) (n : Z) (fmt : list Z) (args : list arg) : outcome (list Z) :=
  '(_, bytes, _) ← vsnprintf true n (Some fmt) args;
  if zlen bytes <=? zlen buffer then Ok (bytes ++ drop (length bytes) buffer) else Fail OutOfBounds.

Definition sprintf (buffer : list Z) (fmt : list Z) (args : list arg) : outcome (list Z) := snprintf buffer SIZE_MAX fmt args.

Definition frame_format : list Z := nul (
  chars "RIP:     0x%lx" ++ newline ++ chars "CS:      0x%lx" ++ newline ++ chars "RFLAGS:  0x%lx" ++ newline ++
  chars "RSP:     0x%lx" ++ newline ++ chars "SS:      0x%lx" ++ newline ++ chars "TASK ID: %u (%s)").

Section reports.
Context {D : Type} `{HP : Ports D} (spins : nat) {H : Type} `{HK : KernelHeap H}.

Definition puts_buffer (buffer : list Z) : io (console D) Z := fun c =>
  t ← text_of buffer; libc_puts spins t c.

Definition print_interrupt_frame (s : sched H) (buffer : list Z) (f : interrupt_frame) : io (console D) (list Z) := fun c =>
  is_kernel ← get_current_task_is_kernel s;
  b ← snprintf buffer 512 frame_format
    [AWord (if_rip f); AWord (if_cs f); AWord (if_rflags f); AWord (if_rsp f); AWord (if_ss f);
     AWord (u32 (current_task_id s)); AStr (chars (if is_kernel : bool then "kernel" else "user"))];
  b ← aset b 511 0;
  '(_, c') ← puts_buffer b c; Ok (b, c').

(** The table a selector error code names. *)
Definition table_name (error_code : Z) : string :=
  if get_table error_code =? 0 then "gdt" else if get_table error_code =? 2 then "ldt" else "idt".

(** [general_protection_fault_handler_impl] up to its decision. *)
Definition general_protection_report (s : sched H) (buffer : list Z) (f : interrupt_frame) (error_code : Z) : io (console D) Z := fun c =>
  '(b, c1) ← print_interrupt_frame s buffer f c;
  b ← sprintf b (nul (chars "General protection (GP) fault occurred at %p (tbl=%s, idx=%x)"))
    [AWord (if_rip f); AStr (chars (table_name error_code)); AWord (get_index error_code)];
  puts_buffer b c1.

(** [page_fault_handler_impl] up to its halt; [cr2] is the address that faulted. *)
Definition page_fault_report (s : sched H) (buffer : list Z) (f : interrupt_frame) (error_code cr2 : Z) : io (console D) Z := fun c =>
  let action := if access_was_read error_code then "reading from" else "writing to" in
  b ← snprintf buffer 64 (nul (chars "Page fault occurred %s 0x%p")) [AStr (chars action); AWord cr2];
  '(_, c1) ← puts_buffer b c;
  '(_, c2) ← print_interrupt_frame s b f c1;
  if page_not_present error_code then libc_puts spins (chars "Page was not present!") c2 else Ok (0, c2).

(** [panic] up to its halt. *)
Definition panic (msg : list Z) (args : list arg) : io (console D) Z := vfprintf spins stdout (Some msg) args.

(** [interrupt_handler<N>] *)
Definition interrupt_handler (N : Z) (s : sched H) (buffer : list Z) (f : interrupt_frame) : io (console D) Z := fun c =>
  '(_, c1) ← print_interrupt_frame s buffer f c;
  if N =? 0 then panic (nul (chars "Divide by zero!")) [] c1
  else panic (nul (chars "Unhandled unknown interrupt: 0x%x!")) [AWord (u8 N)] c1.
End reports.

(** ** The texts fit *)

Lemma numeral_length base sh md (pad : bool) v (n : nat) : 2 <= base -> 0 <= v < base ^ Z.of_nat n -> (1 <= n)%nat ->
  md <= Z.of_nat n -> zlen (numeral base sh md pad v) <= Z.of_nat n.
Proof.
  intros Hb Hv Hn Hm. unfold numeral. case_if; [rewrite zlen_cons; zlen_nil; lia|].
  unfold zlen. rewrite length_reverse, digits_rev_length. pose proof (ndigits_le DIGIT_FUEL base v n Hb Hv). destruct pad; lia.
Qed.

(** The report of a frame, of a page fault and of a protection fault. *)
Definition frame_pieces (f : interrupt_frame) (id : Z) (mode : list Z) : list piece :=
  [Text (chars "RIP:     0x"); Hex false false long_int (if_rip f); Text newline;
   Text (chars "CS:      0x"); Hex false false long_int (if_cs f); Text newline;
   Text (chars "RFLAGS:  0x"); Hex false false long_int (if_rflags f); Text newline;
   Text (chars "RSP:     0x"); Hex false false long_int (if_rsp f); Text newline;
   Text (chars "SS:      0x"); Hex false false long_int (if_ss f); Text newline;
   Text (chars "TASK ID: "); Udec false none id; Text (chars " ("); Str mode; Text (chars ")")].

Definition page_fault_pieces (action : list Z) (cr2 : Z) : list piece :=
  [Text (chars "Page fault occurred "); Str action; Text (chars " 0x"); Ptr cr2].

Definition protection_pieces (f : interrupt_frame) (table : list Z) (index : Z) : list piece :=
  [Text (chars "General protection (GP) fault occurred at "); Ptr (if_rip f); Text (chars " (tbl="); Str table;
   Text (chars ", idx="); Hex false false none index; Text (chars ")")].

(** The formats of the source. *)
Lemma page_fault_format a cr2 : nul (format_of (page_fault_pieces a cr2)) = nul (chars "Page fault occurred %s 0x%p").
Proof. reflexivity. Qed.
Lemma protection_format f t i : nul (format_of (protection_pieces f t i)) =
  nul (chars "General protection (GP) fault occurred at %p (tbl=%s, idx=%x)").
Proof. reflexivity. Qed.
Lemma frame_format_pieces f id m : nul (format_of (frame_pieces f id m)) = frame_format.
Proof. reflexivity. Qed.

Lemma hex_length cap w l : zlen (rendered (Hex cap false l w)) <= 16.
Proof.
  cbn [rendered]. apply (numeral_length 16 _ _ false _ 16); [lia| |lia|destruct l; vm_compute; discriminate].
  pose proof (unsigned_arg_range w l). change (16 ^ Z.of_nat 16) with (2 ^ 64). lia.
Qed.

Lemma ptr_length w : zlen (rendered (Ptr w)) <= 16.
Proof.
  cbn [rendered]. apply (numeral_length 16 _ _ true _ 16); [lia| |lia|lia].
  change (16 ^ Z.of_nat 16) with (2 ^ 64). apply wrap_range. lia.
Qed.

Lemma udec_length w : zlen (rendered (Udec false none w)) <= 10.
Proof.
  cbn [rendered]. apply (numeral_length 10 _ _ false _ 10); [lia| |lia|vm_compute; discriminate].
  pose proof (wrap_range 32 w ltac:(lia)). cbn [unsigned_integer_arg_of_length]. change (10 ^ Z.of_nat 10) with 10000000000. lia.
Qed.

(** Bounds the text of a list of pieces: literal text by computing its length. *)
Ltac pieces_length :=
  unfold rendering; cbn [fmap list_fmap concat];
  repeat match goal with |- context [rendered (Text ?s)] =>
    let n := eval vm_compute in (zlen s) in
    let E := fresh in assert (zlen (rendered (Text s)) = n) as E by (vm_compute; reflexivity);
    generalize dependent (rendered (Text s)); intros end;
  cbn [rendered] in *; rewrite !zlen_app; zlen_nil; lia.

(** Each report fits its buffer with its NUL; the first line of a page fault is
    given only 64 bytes. *)
Lemma frame_fits f id mode : zlen mode <= 6 -> zlen (rendering (frame_pieces f id mode)) < 512.
Proof.
  intros Hm. unfold frame_pieces.
  pose proof (hex_length false (if_rip f) long_int). pose proof (hex_length false (if_cs f) long_int).
  pose proof (hex_length false (if_rflags f) long_int). pose proof (hex_length false (if_rsp f) long_int).
  pose proof (hex_length false (if_ss f) long_int). pose proof (udec_length id). pieces_length.
Qed.

Lemma page_fault_fits action cr2 : zlen action <= 12 -> zlen (rendering (page_fault_pieces action cr2)) < 64.
Proof. intros Ha. unfold page_fault_pieces. pose proof (ptr_length cr2). pieces_length. Qed.

Lemma protection_fits f table index : zlen table <= 3 -> zlen (rendering (protection_pieces f table index)) < 512.
Proof.
  intros Ht. unfold protection_pieces. pose proof (ptr_length (if_rip f)). pose proof (hex_length false index none). pieces_length.
Qed.

(** ** From the buffer to [puts] *)

(** A text in a buffer, its NUL behind it. *)
Definition holds_text (b t : list Z) : Prop := exists r, b = t ++ 0 :: r.

Definition nonzero (s : list Z) : Prop := Forall (fun c => c <> 0) s.

(** Pieces whose text has no NUL. *)
Definition no_nul (p : piece) : Prop := match p with Str s => nonzero s | Chr w => u8 w <> 0 | _ => True end.

Lemma digits_rev_nonzero k base sh v : 8 <= base <= 16 -> sh = 65 \/ sh = 97 -> nonzero (digits_rev k base sh v).
Proof.
  intros Hb Hsh. revert v. induction k as [|k IH]; intros v; cbn [digits_rev]; constructor; [|apply IH].
  pose proof (Z.mod_pos_bound v base ltac:(lia)). unfold digit_char. case_if; lia.
Qed.

Lemma numeral_nonzero base sh md (pad : bool) v : 8 <= base <= 16 -> sh = 65 \/ sh = 97 -> nonzero (numeral base sh md pad v).
Proof. intros. unfold numeral. case_if; [by constructor|]. apply Forall_reverse. by apply digits_rev_nonzero. Qed.

Lemma rendering_nonzero ps : Forall piece_ok ps -> Forall no_nul ps -> nonzero (rendering ps).
Proof.
  unfold rendering. induction 1 as [|p ps Hp Hps IH]; intros Hn; [constructor|].
  apply Forall_cons in Hn as [Hn Hns]. cbn [fmap list_fmap concat]. apply Forall_app. split; [|by apply IH].
  destruct p; cbn [piece_ok no_nul rendered] in *; try (apply numeral_nonzero; [lia|destruct cap || idtac; auto; fail]).
  - eapply Forall_impl; [exact Hp|]. unfold plain. lia.
  - by constructor.
  - done.
  - by constructor.
  - unfold signed_numeral. case_if; [constructor; [done|]|]; apply numeral_nonzero; auto; lia.
  - unfold signed_numeral. case_if; [constructor; [done|]|]; apply numeral_nonzero; auto; lia.
Qed.

Lemma snprintf_pieces buffer n ps : Forall piece_ok ps -> 0 < n <= 2 ^ 64 ->
  zlen (rendering ps) < n -> zlen (rendering ps) < zlen buffer ->
  exists b, snprintf buffer n (nul (format_of ps)) (args_of ps) = Ok b /\ zlen b = zlen buffer /\ holds_text b (rendering ps).
Proof.
  intros Hp Hn Hf Hb. unfold snprintf, nul. rewrite vsnprintf_whole by done. cbn [mbind outcome_bind].
  rewrite zlen_app, zlen_cons. zlen_nil. replace (zlen (rendering ps) + (1 + 0) <=? zlen buffer) with true by lia.
  eexists. split; [done|]. split; [|exists (drop (length (rendering ps ++ [0])) buffer); by rewrite <- app_assoc].
  rewrite !zlen_app, zlen_cons. zlen_nil. unfold zlen in *. rewrite length_drop, length_app. cbn [length]. lia.
Qed.

Lemma sprintf_pieces buffer ps : Forall piece_ok ps -> zlen (rendering ps) < zlen buffer -> zlen buffer <= SIZE_MAX ->
  exists b, sprintf buffer (nul (format_of ps)) (args_of ps) = Ok b /\ zlen b = zlen buffer /\ holds_text b (rendering ps).
Proof. intros Hp Hb Hs. apply snprintf_pieces; [done|unfold SIZE_MAX; lia|lia|done]. Qed.

Lemma set_last_holds b t : zlen b = 512 -> holds_text b t -> zlen t < 512 ->
  exists b', aset b 511 0 = Ok b' /\ zlen b' = 512 /\ holds_text b' t.
Proof.
  intros Hl [r ->] Ht. unfold aset. rewrite Hl. cbn [Z.leb Z.ltb Z.compare andb].
  eexists. split; [reflexivity|]. split; [by rewrite zlen_zset|]. unfold zset. cbn [Z.ltb Z.compare].
  change (511 <? 0) with false. cbv iota. rewrite insert_app_r_alt by (unfold zlen in Ht; lia).
  destruct (Z.to_nat 511 - length t)%nat as [|k]; [by exists r|]. by exists (<[k := 0]> r).
Qed.

Lemma page_fault_ok (read : bool) cr2 :
  let ps := page_fault_pieces (chars (if read then "reading from" else "writing to")) cr2 in
  Forall piece_ok ps /\ Forall no_nul ps /\ zlen (rendering ps) < 64.
Proof. split; [|split; [|apply page_fault_fits; by destruct read]]; destruct read; repeat constructor; done. Qed.

Lemma protection_ok f error_code index : let ps := protection_pieces f (chars (table_name error_code)) index in
  Forall piece_ok ps /\ Forall no_nul ps /\ zlen (rendering ps) < 512.
Proof.
  unfold table_name. split; [|split; [|apply protection_fits; repeat case_if; done]]; repeat case_if; repeat constructor; done.
Qed.

(** The error codes' bits. *)
Lemma access_bit v : access_was_read v = negb (Z.testbit v 1).
Proof. unfold access_was_read. change 2 with (2 ^ 1). rewrite land_pow2 by lia. by destruct (Z.testbit v 1). Qed.

Lemma present_message v : page_not_present v = negb (v =? 1).
Proof.
  unfold page_not_present. f_equal. apply Bool.eq_iff_eq_true. rewrite !Z.eqb_eq. apply Z.lxor_eq_0_iff.
Qed.

Lemma table_bits v : table_name v = (if Z.testbit v 1 then "idt" else if Z.testbit v 2 then "ldt" else "gdt")%string.
Proof.
  assert (get_table v = Z.b2z (Z.testbit v 1) + 2 * Z.b2z (Z.testbit v 2)) as E.
  { unfold get_table. change 3 with (Z.ones 2). rewrite Z.land_ones, Z.shiftr_div_pow2, !Z.testbit_spec' by lia.
    change (2 ^ 1) with 2. change (2 ^ 2) with 4. zdiv. }
  unfold table_name. rewrite E. by destruct (Z.testbit v 1), (Z.testbit v 2).
Qed.

Lemma index_bits v : get_index v = (v / 8) `mod` 8192.
Proof. unfold get_index. change 0x1FFF with (Z.ones 13). by rewrite Z.land_ones, Z.shiftr_div_pow2 by lia. Qed.

Section texts.
Context {D : Type} `{HP : Ports D} (spins : nat) {H : Type} `{HK : KernelHeap H}.

Lemma puts_buffer_text b t (c : console D) : holds_text b t -> nonzero t -> puts_buffer spins b c = libc_puts spins t c.
Proof. intros [r ->] Ht. unfold puts_buffer. by rewrite text_of_app. Qed.

(** The frame as [print_interrupt_frame] reports it. *)
Definition frame_text (s : sched H) (f : interrupt_frame) (is_kernel : bool) : list Z :=
  rendering (frame_pieces f (u32 (current_task_id s)) (chars (if is_kernel then "kernel" else "user"))).

Lemma string_nonzero s : bool_decide (Forall (fun c => c <> 0) (chars s)) = true -> nonzero (chars s).
Proof. apply bool_decide_eq_true. Qed.

Lemma frame_ok f id (is_kernel : bool) : let ps := frame_pieces f id (chars (if is_kernel then "kernel" else "user")) in
  Forall piece_ok ps /\ Forall no_nul ps.
Proof. split; destruct is_kernel; repeat constructor; done. Qed.

Lemma print_interrupt_frame_spec s buffer f k (c : console D) : zlen buffer = 512 -> get_current_task_is_kernel s = Ok k ->
  exists b, zlen b = 512 /\
    print_interrupt_frame spins s buffer f c = ('(_, c') ← libc_puts spins (frame_text s f k) c; Ok (b, c')).
Proof.
  intros Hb Hk. unfold print_interrupt_frame. rewrite Hk. cbn [mbind outcome_bind].
  set (ps := frame_pieces f (u32 (current_task_id s)) (chars (if k then "kernel" else "user"))).
  destruct (frame_ok f (u32 (current_task_id s)) k) as [Hok Hnn]. fold ps in Hok, Hnn.
  pose proof (frame_fits f (u32 (current_task_id s)) (chars (if k then "kernel" else "user")) ltac:(by destruct k)) as Hfit.
  fold ps in Hfit. destruct (snprintf_pieces buffer 512 ps Hok ltac:(lia) Hfit ltac:(lia)) as (b & Hs & Hl & Ht).
  unfold ps in Hs. rewrite frame_format_pieces in Hs. fold ps in Hs. change (args_of ps) with
    [AWord (if_rip f); AWord (if_cs f); AWord (if_rflags f); AWord (if_rsp f); AWord (if_ss f);
     AWord (u32 (current_task_id s)); AStr (chars (if k then "kernel" else "user"))] in Hs.
  rewrite Hs. cbn [mbind outcome_bind]. destruct (set_last_holds b _ ltac:(lia) Ht Hfit) as (b' & -> & Hl' & Ht').
  cbn [mbind outcome_bind]. exists b'. split; [done|].
  by rewrite (puts_buffer_text b' (rendering ps) c Ht' (rendering_nonzero ps Hok Hnn)).
Qed.

Lemma page_fault_report_whole s buffer f error_code cr2 k (c : console D) :
  zlen buffer = 512 -> get_current_task_is_kernel s = Ok k ->
  page_fault_report spins s buffer f error_code cr2 c =
    ('(_, c1) ← libc_puts spins (rendering (page_fault_pieces
        (chars (if access_was_read error_code then "reading from" else "writing to")) cr2)) c;
     '(_, c2) ← libc_puts spins (frame_text s f k) c1;
     if page_not_present error_code then libc_puts spins (chars "Page was not present!") c2 else Ok (0, c2)).
Proof.
  intros Hb Hk. unfold page_fault_report.
  destruct (page_fault_ok (access_was_read error_code) cr2) as (Hok & Hnn & Hfit).
  set (a := chars (if access_was_read _ then _ else _)) in *.
  destruct (snprintf_pieces buffer 64 _ Hok ltac:(lia) Hfit ltac:(lia)) as (b & Hs & Hl & Ht).
  rewrite page_fault_format in Hs. change (args_of _) with [AStr a; AWord cr2] in Hs. rewrite Hs. cbn [mbind outcome_bind].
  rewrite (puts_buffer_text b _ c Ht (rendering_nonzero _ Hok Hnn)).
  destruct (libc_puts spins _ c) as [[n c1]|e]; cbn [mbind outcome_bind]; [|reflexivity].
  destruct (print_interrupt_frame_spec s b f k c1 ltac:(lia) Hk) as (b' & _ & ->).
  destruct (libc_puts spins (frame_text s f k) c1) as [[n' c2]|e]; reflexivity.
Qed.

Lemma protection_line f error_code b (c : console D) : zlen b = 512 ->
  (b' ← sprintf b (nul (chars "General protection (GP) fault occurred at %p (tbl=%s, idx=%x)"))
     [AWord (if_rip f); AStr (chars (table_name error_code)); AWord (get_index error_code)];
   puts_buffer spins b' c) =
  libc_puts spins (rendering (protection_pieces f (chars (table_name error_code)) (get_index error_code))) c.
Proof.
  intros Hlb. destruct (protection_ok f error_code (get_index error_code)) as (Hok & Hnn & Hfit).
  destruct (sprintf_pieces b _ Hok ltac:(lia) ltac:(unfold SIZE_MAX; lia)) as (b' & Hs & Hl & Ht).
  rewrite protection_format in Hs.
  change (args_of _) with [AWord (if_rip f); AStr (chars (table_name error_code)); AWord (get_index error_code)] in Hs.
  rewrite Hs. cbn [mbind outcome_bind]. exact (puts_buffer_text b' _ c Ht (rendering_nonzero _ Hok Hnn)).
Qed.

Lemma protection_report_whole s buffer f error_code k (c : console D) :
  zlen buffer = 512 -> get_current_task_is_kernel s = Ok k ->
  general_protection_report spins s buffer f error_code c =
    ('(_, c1) ← libc_puts spins (frame_text s f k) c;
     libc_puts spins (rendering (protection_pieces f (chars (table_name error_code)) (get_index error_code))) c1).
Proof.
  intros Hb Hk. destruct (print_interrupt_frame_spec s buffer f k c Hb Hk) as (b & Hlb & E).
  unfold general_protection_report. rewrite E.
  destruct (libc_puts spins (frame_text s f k) c) as [[n c1]|e]; [|by rewrite !bind_fail].
  rewrite !bind_ok. exact (protection_line f error_code b c1 Hlb).
Qed.

(** [C25] The reports of the fault routines are whole: whatever the frame, the error
    code and the address, and whatever was on the stack before, every line fits the
    buffer it is formatted into (64 bytes for the first line of a page fault) with
    its NUL, and [puts] gets exactly these lines.  A page fault: the access, by bit 1
    of the error code, and the address; the five registers in hexadecimal with the
    task; and "Page was not present!" unless the error code is exactly 1, so always
    where bit 0 says that the page was not present, and also, wrongly, for every
    access to a present page but a read by the kernel.  A protection fault: the frame,
    and the table by bits 1 and 2 of the error code with the index above them. *)
Theorem fault_reports_whole s buffer f error_code cr2 k (c : console D)
    (Hb : zlen buffer = 512) (Hk : get_current_task_is_kernel s = Ok k) :
  page_fault_report spins s buffer f error_code cr2 c =
    ('(_, c1) ← libc_puts spins (rendering (page_fault_pieces
        (chars (if Z.testbit error_code 1 then "writing to" else "reading from")) cr2)) c;
     '(_, c2) ← libc_puts spins (frame_text s f k) c1;
     if error_code =? 1 then Ok (0, c2) else libc_puts spins (chars "Page was not present!") c2) /\
  general_protection_report spins s buffer f error_code c =
    ('(_, c1) ← libc_puts spins (frame_text s f k) c;
     libc_puts spins (rendering (protection_pieces f
       (chars (if Z.testbit error_code 1 then "idt" else if Z.testbit error_code 2 then "ldt" else "gdt"))
       ((error_code / 8) `mod` 8192))) c1).
Proof.
  split.
  - rewrite (page_fault_report_whole s buffer f error_code cr2 k c Hb Hk), access_bit, present_message.
    destruct (Z.testbit error_code 1), (error_code =? 1); reflexivity.
  - rewrite (protection_report_whole s buffer f error_code k c Hb Hk), table_bits, index_bits. reflexivity.
Qed.
End texts.

(** The first task of two on the console of the boot, with a buffer of garbage. *)
Definition sample_frame : interrupt_frame := InterruptFrame 0x1234 8 2 0x8000 16.

Lemma fault_reports_whole_witness : exists s, two_tasks = Ok s /\
  general_protection_report 3 s (replicate 512 170) sample_frame 0x18 boot_console =
    ('(_, c1) ← libc_puts 3 (frame_text s sample_frame false) boot_console;
     libc_puts 3 (rendering (protection_pieces sample_frame (chars "gdt") 3)) c1).
Proof.
  destruct two_tasks_wf as (s & Hs & _).
  assert ((s ← two_tasks; get_current_task_is_kernel s) = Ok false) as Hk by (vm_compute; reflexivity).
  rewrite Hs in Hk. change (get_current_task_is_kernel s = Ok false) in Hk. exists s. split; [exact Hs|].
  exact (proj2 (fault_reports_whole 3 s (replicate 512 170) sample_frame 0x18 0 false boot_console eq_refl Hk)).
Defined.

(** The line of a fault that wrote to 0x1000. *)
Example page_fault_line :
  rendering (page_fault_pieces (chars "writing to") 0x1000) = chars "Page fault occurred writing to 0x0000000000001000".
Proof. reflexivity. Qed.
