(* ===== verification/Boot.v ===== *)
(** * kernel/main.cpp: bringing up memory

    [memory::finish_init] starts the three allocators on top of the boot page
    tables, [paging::finish_init] takes 512 contiguous pages for further page
    tables, and [kmain] runs both between [paging::early_init] and the first
    allocation.  The theorems put the components together: after
    [paging::finish_init] the tree invariant holds with the new pool.

    The page map, the page of the free list, the page of the allocation nodes and
    the page tables are kept apart here, as components of their own; that they lie
    apart in memory is part of [boot_heap_consistent]. *)
From S2P Require Import CString Prelude Util Bitmap Memory Paging PageTables PagingInit PageOps Pma Vma Alloc Crc32 LowMemory.

#[local] Arguments Z.land : simpl never.
#[local] Arguments Z.lor : simpl never.
#[local] Arguments wrap : simpl never.

(** [memory::finish_init]; [page] is what the virtual allocator's page held. *)
Definition memory_finish_init (pt : paging) (mm : memory_state) (page : list free_node)
    : outcome heap :=
  '(pm, pt) ← Pma.early_init pt mm;
  '(vm, pm, pt) ← Vma.init pm pt page;
  Alloc.init (Heap pm vm pt 0 ∅ ∅ []).

(** [memset(dynamic_tables, 0, ...)] on the words of the page tables. *)
Definition zero_words (m : gmap Z Z) (a len : Z) : gmap Z Z :=
  filter (fun kv => ~ (a <= kv.1 < a + len)) m.

(** [dynamic_tables = t; memset(...); num_dynamic_tables_left = n] *)
Definition with_dynamic (s : paging) (t n : Z) : paging :=
  Paging (zero_words (mem s) t (n * PAGE_SIZE)) (root s) (allocate_set s) (static_tables s)
    (num_static_tables_left s) t n.

(** [paging::finish_init]; the final reload of [cr3] flushes the TLB. *)
Definition paging_finish_init (h : heap) : outcome heap :=
  '(physical_pages, pm) ← get_contiguous_physical_pages (h_pma h) MAX_DYNAMIC_TABLES;
  '(virtual_addr, pt) ←
    identity_map_pages_into_kernel_space (h_paging h) physical_pages MAX_DYNAMIC_TABLES DEFAULT_ATTRS;
  vm ← remove_from_free_list (h_vma h) virtual_addr (PAGE_SIZE * MAX_DYNAMIC_TABLES);
  Ok (Heap pm vm (with_dynamic pt virtual_addr MAX_DYNAMIC_TABLES) (first h) (nodes h) (words h) (said h)).

(** ** A new pool of zeroed tables *)

Lemma load_zero_words m a len x :
  load (zero_words m a len) x = if decide (a <= x < a + len) then 0 else load m x.
Proof.
  unfold load, zero_words. case_decide as Hx.
  - rewrite map_lookup_filter_None_2; [done|]. right. intros v _ Hn. by apply Hn.
  - destruct (m !! x) as [v|] eqn:E.
    + by rewrite (map_lookup_filter_Some_2 _ _ x v).
    + rewrite map_lookup_filter_None_2; [done|by left].
Qed.

(** The tables of [s] lie outside the [n] pages from [t] on. *)
Definition outside (s : paging) (t n : Z) : Prop :=
  forall u, owned s u -> u + PAGE_SIZE <= t \/ t + n * PAGE_SIZE <= u.

Lemma outside_within s s' t n : within s s' -> outside s t n -> outside s' t n.
Proof. intros Hi Ho u Hu. by apply Ho, Hi. Qed.

Lemma table_pool_elem t n u :
  u ∈ table_pool t n <-> exists k, 0 <= k < n /\ u = t + PAGE_SIZE * k.
Proof.
  unfold table_pool. rewrite list_elem_of_fmap. split.
  - intros (k & -> & Hk). rewrite elem_of_reverse, elem_of_seqZ in Hk. exists k. split; [lia|done].
  - intros (k & Hk & ->). exists k. split; [done|]. rewrite elem_of_reverse, elem_of_seqZ. lia.
Qed.

Lemma table_pool_NoDup t n : NoDup (table_pool t n).
Proof.
  unfold table_pool. apply NoDup_fmap_2; [intros x y; unfold PAGE_SIZE; lia|].
  rewrite reverse_Permutation. apply NoDup_seqZ.
Qed.

Lemma table_pool_zlen t n : 0 <= n -> zlen (table_pool t n) = n.
Proof.
  intros. unfold table_pool, zlen. rewrite length_fmap, length_reverse, length_seqZ. lia.
Qed.

Section zeroed.
Context (s : paging) (t n : Z).
Context (HSw : PageTables.wf s) (HSt : aligned_table t) (HSn : 0 <= n) (HStop : t + n * PAGE_SIZE < 2 ^ 64).
Context (HSbase : 0xFFFFFFFF80000000 < t) (HSo : outside s t n).

#[local] Notation s' := (with_dynamic s t n).

(** An entry of a table of [s] keeps its word; an entry of a new table is 0. *)
Lemma zeroed_load u i :
  owned s u -> idx i -> load (mem s') (entry_addr u i) = load (mem s) (entry_addr u i).
Proof.
  intros Hu Hi. simpl. rewrite load_zero_words, decide_False; [done|].
  destruct (HSo u Hu); unfold idx, entry_addr, PAGE_SIZE, NUM_PAGE_TABLE_ENTRIES in *; lia.
Qed.

Lemma zeroed_walk q : forall r u,
  reach s r u -> (length (r ++ q) <= 3)%nat -> Forall idx q ->
  walk (mem s') u q = walk (mem s) u q.
Proof.
  induction q as [|j q IH]; intros r u Hr Hl Hq; [done|].
  inversion Hq; subst. rewrite length_app in Hl. simpl in Hl. cbn [walk].
  rewrite zeroed_load by (try done; left; by exists r). destruct (present_bit _) eqn:E; [|done].
  apply (IH (r ++ [j])); [|rewrite !length_app; simpl; lia|done].
  apply reach_snoc; [done|lia|done|done].
Qed.

Lemma zeroed_reach p u : reach s' p u <-> reach s p u.
Proof.
  unfold reach. change (root s') with (root s).
  split; intros (Hp & Hl & Hf); (split_and!; [|done..]);
    rewrite (zeroed_walk p [] (root s)) in *; try done; (split_and!; [done|simpl; lia|constructor]).
Qed.

Lemma zeroed_pool :
  pool s' = table_pool (static_tables s) (num_static_tables_left s) ++ table_pool t n.
Proof.
  unfold pool. cbn [static_tables num_static_tables_left dynamic_tables num_dynamic_tables_left with_dynamic].
  destruct HSt as [[Ht _] _]. destruct (t =? 0) eqn:E; bool_to_prop; [lia|done].
Qed.

Lemma new_table_facts u :
  u ∈ table_pool t n -> aligned_table u /\ u <> 0xFFFFFFFF80000000 /\ ~ owned s u /\
    forall i, idx i -> load (mem s') (entry_addr u i) = 0.
Proof.
  intros (k & Hk & ->)%table_pool_elem. destruct HSt as [Hr Ha].
  assert (PAGE_SIZE * k + PAGE_SIZE <= n * PAGE_SIZE) as Hkn by (unfold PAGE_SIZE; lia).
  unfold aligned_table, PAGE_SIZE in *. split; [split; [lia|zdiv]|]. split; [lia|]. split.
  - intros Ho. specialize (HSo _ Ho). unfold PAGE_SIZE in HSo. lia.
  - intros i Hi. simpl. rewrite load_zero_words, decide_True; [done|].
    unfold idx, entry_addr, NUM_PAGE_TABLE_ENTRIES, PAGE_SIZE in *. lia.
Qed.

Lemma static_owned u :
  u ∈ table_pool (static_tables s) (num_static_tables_left s) -> u ∈ pool s.
Proof. intros Hu. unfold pool. apply elem_of_app. by left. Qed.

Lemma zeroed_wf : PageTables.wf s'.
Proof.
  split.
  - apply HSw.
  - intros p q u. rewrite !zeroed_reach. apply HSw.
  - intros p u. rewrite zeroed_reach. apply HSw.
  - intros p u i. rewrite zeroed_reach. intros Hr Hl Hi.
    rewrite zeroed_load by (try done; left; by exists p). by eapply wf_inner.
  - rewrite zeroed_pool. pose proof (wf_nodup s HSw) as Hnd. unfold pool in Hnd.
    apply NoDup_app in Hnd as (Hnd & _ & _). apply NoDup_app. split; [done|].
    split; [|apply table_pool_NoDup]. intros u Hu Hn.
    destruct (new_table_facts u Hn) as (_ & _ & Hno & _). apply Hno. right. by apply static_owned.
  - intros u. rewrite zeroed_pool. intros [Hu|Hu]%elem_of_app.
    + destruct (wf_pool s HSw u (static_owned u Hu)) as (? & ? & Hnr & Hz).
      split_and!; [done..| |].
      * intros p. rewrite zeroed_reach. apply Hnr.
      * intros i Hi. rewrite zeroed_load; [by apply Hz| |done]. right. by apply static_owned.
    + destruct (new_table_facts u Hu) as (? & ? & Hno & Hz). split_and!; [done..| |done].
      intros p. rewrite zeroed_reach. intros Hp. apply Hno. left. by exists p.
Qed.

Lemma zeroed_pte va : pte s' va = pte s va.
Proof.
  unfold pte. change (root s') with (root s).
  rewrite (zeroed_walk (path va) [] (root s)); [| |done|apply path_idx].
  - destruct (walk _ _ (path va)) as [u|] eqn:E; [|done]. apply zeroed_load.
    + left. exists (path va). split_and!; [done|simpl; lia|apply path_idx].
    + apply prefix_idx. lia.
  - split_and!; [done|simpl; lia|constructor].
Qed.
End zeroed.

(** ** Each step keeps the invariants of the allocators *)

Lemma kernel_ptr_small phys : 0 <= phys < 2 ^ 31 -> kernel_ptr phys = 0xFFFFFFFF80000000 + phys.
Proof.
  intros Hp. unfold kernel_ptr. assert (KERNEL_VMA_OFFSET = - 2 ^ 31) as -> by done.
  unfold wrap. zdiv.
Qed.

(** The physical pages lie above 3 MiB and inside the kernel's 2 GiB window. *)
Definition pages_in_window (pm : pma) : Prop :=
  0x300000 <= physical_page_base pm /\
  physical_page_base pm + num_pages pm * PAGE_SIZE < 2 ^ 31 - 2 ^ 21.

Definition bases_nonzero (vm : vma) : Prop := Forall (fun n => n.1 <> 0) (live vm).

Lemma pages_in_window_page pm p pm' :
  Pma.wf pm -> pages_in_window pm -> get_physical_page pm = Ok (p, pm') ->
  Pma.wf pm' /\ pages_in_window pm' /\ 0x300000 <= p < 2 ^ 31 - 2 ^ 21.
Proof.
  intros Hw [H1 H2] Hg. destruct (get_physical_page_Ok pm p pm' Hw Hg)
    as (idx & -> & Hi & _ & (Hw' & Hb & Hn & _)).
  destruct (page_address_spec pm idx Hw Hi) as [-> _]. split; [done|].
  unfold pages_in_window. rewrite Hb, Hn. unfold PAGE_SIZE in *. lia.
Qed.

Lemma vma_init_Ok pm pt page vm pm' pt' :
  Pma.wf pm -> pages_in_window pm -> PageTables.wf pt -> zlen page = NODES_PER_PAGE ->
  Vma.init pm pt page = Ok (vm, pm', pt') ->
  Pma.wf pm' /\ pages_in_window pm' /\ sound pt pt' /\ Vma.wf vm /\
  exists ptr, 0 < ptr /\ live vm = booted_nodes ptr.
Proof.
  intros Hwp Hwin Hwt Hlen H. unfold Vma.init in H. apply bind_Ok in H as ([p pm1] & Hg & H).
  destruct (pages_in_window_page pm p pm1 Hwp Hwin Hg) as (Hwp' & Hwin' & Hp).
  apply bind_Ok in H as ([ptr pt1] & Hid & H). unfold identity_map_page_into_kernel_space in Hid.
  apply identity_map_Ok in Hid as [Hk Hptr]; [|done]. rewrite kernel_ptr_small in Hptr by lia.
  destruct (init_list_spec ptr page Hlen) as (s & Hs & Hwv & Hlive & _).
  { assert (KERNEL_VMA_END = 0xFFFFFFFF80200000) as -> by done. lia. }
  { unfold PAGE_SIZE. lia. }
  rewrite Hs in H. cbn [mbind outcome_bind] in H. simplify_eq.
  split; [done|]. split; [done|]. split; [by apply keeps_tables_sound|]. split; [done|].
  eexists. split; [|done]. lia.
Qed.

Lemma alloc_init_Ok h h' ptr :
  Alloc.wf h -> pages_in_window (h_pma h) -> 0 < ptr -> live (h_vma h) = booted_nodes ptr ->
  Alloc.init h = Ok h' ->
  Alloc.wf h' /\ pages_in_window (h_pma h') /\ sound (h_paging h) (h_paging h') /\
  bases_nonzero (h_vma h').
Proof.
  intros Hw Hwin Hptr Hlive H. unfold Alloc.init in H. apply bind_Ok in H as ([a s1] & Hm & H).
  destruct (map_node_page_Ok h a s1 Hw Hm) as ([Hwp Hwv Hwt] & _).
  unfold map_node_page in Hm. apply bind_Ok in Hm as ([p pm] & Hg & Hm).
  destruct (pages_in_window_page _ _ _ (wf_pma h Hw) Hwin Hg) as (_ & Hwin' & _).
  apply bind_Ok in Hm as ([v vm] & Hv & Hm). apply bind_Ok in Hm as ([r pt] & Hmp & Hm).
  pose proof (get_virtual_pages_cases (h_vma h) PAGE_SIZE (wf_vma h Hw) ltac:(done) ltac:(done)) as Hc.
  rewrite Hlive in Hc. unfold booted_nodes in Hc. cbn [carve] in Hc.
  change (PAGE_SIZE <=? 2 ^ 42 - 0x200000) with true in Hc. cbv iota in Hc.
  destruct Hc as (vm' & Hv' & _ & Hlive' & _ & _ & Ha & _). rewrite Hv in Hv'.
  simplify_eq. cbn [h_pma h_vma h_paging] in *. split; [by split|]. split; [done|].
  split.
  - apply keeps_tables_sound. eapply map_page_keeps; [apply Hw| |exact Hmp].
    unfold area_ok in Ha. lia.
  - unfold bases_nonzero. cbn [h_vma]. rewrite Hlive'. unfold PAGE_SIZE.
    repeat constructor; cbn [fst]; lia || done.
Qed.

Lemma memory_finish_init_Ok pt mm largest rest page h :
  PageTables.wf pt -> zlen page = NODES_PER_PAGE ->
  get_memory_map mm = Ok (largest :: rest) -> small_region largest ->
  memory_finish_init pt mm page = Ok h ->
  Alloc.wf h /\ pages_in_window (h_pma h) /\ sound pt (h_paging h) /\ bases_nonzero (h_vma h).
Proof.
  intros Hwt Hlen Hmap Hreg H. unfold memory_finish_init in H.
  apply bind_Ok in H as ([pm pt1] & Hp & H).
  destruct (early_init_Ok pt mm largest rest pm pt1 Hmap Hreg Hp) as (Hwp & Hlo & Hhi & n & v & Hid).
  apply identity_map_Ok in Hid as [Hk1 _]; [|done]. apply keeps_tables_sound in Hk1.
  apply bind_Ok in H as ([[vm pm2] pt2] & Hv & H).
  assert (pages_in_window pm) as Hwin.
  { split; [|done]. destruct Hreg. lia. }
  destruct (vma_init_Ok pm pt1 page vm pm2 pt2 Hwp Hwin ltac:(apply Hk1) Hlen Hv)
    as (Hwp2 & Hwin2 & Hk2 & Hwv & ptr & Hptr & Hlive).
  destruct (alloc_init_Ok (Heap pm2 vm pt2 0 ∅ ∅ []) h ptr) as (Hw & Hwin' & Hk3 & Hnz);
    [by split; [..|apply Hk2]|done|done|done|done|].
  split; [done|]. split; [done|]. split; [|done].
  eapply sound_trans; [exact Hk1|]. eapply sound_trans; [exact Hk2|exact Hk3].
Qed.

(** ** [paging::finish_init] *)

Lemma paging_finish_init_Ok h h' :
  Alloc.wf h -> pages_in_window (h_pma h) -> bases_nonzero (h_vma h) ->
  (forall t, owned (h_paging h) t -> t + PAGE_SIZE <= 0xFFFFFFFF80300000) ->
  paging_finish_init h = Ok h' ->
  Alloc.wf h' /\ MAX_DYNAMIC_TABLES <= zlen (pool (h_paging h')) /\ first h' = first h.
Proof.
  intros [Hwp Hwv Hwt] [Hlo Hhi] Hnz Hown H. unfold paging_finish_init in H.
  apply bind_Ok in H as ([p pm] & Hg & H).
  destruct (get_contiguous_Ok (h_pma h) MAX_DYNAMIC_TABLES p pm Hwp ltac:(done) Hg)
    as (Hwp' & Hp1 & Hpa & Hp2).
  apply bind_Ok in H as ([v pt] & Hid & H). apply identity_map_Ok in Hid as [Hk ->]; [|done].
  unfold MAX_DYNAMIC_TABLES, PAGE_SIZE in Hp2, Hpa, Hhi.
  apply bind_Ok in H as (vm & Hr & H). rewrite kernel_ptr_small in Hr, H by lia.
  set (t := 0xFFFFFFFF80000000 + p) in *. injection H as <-.
  assert (Vma.wf vm) as Hwv'.
  { eapply (remove_Ok (h_vma h) t); [done|done|unfold t; lia| | | |exact Hr]; [done| |done].
    unfold PAGE_SIZE, MAX_DYNAMIC_TABLES, t. lia. }
  assert (aligned_table t) as Ht by (unfold aligned_table, PAGE_SIZE, t; split; [lia|zdiv]).
  assert (outside pt t MAX_DYNAMIC_TABLES) as Ho.
  { intros u Hu. left. destruct Hk as (_ & Hi & _). specialize (Hown u (Hi u Hu)). unfold t. lia. }
  cbn [h_pma h_vma h_paging first]. split; [|split; [|done]].
  - apply Alloc.Build_wf; [exact Hwp'|exact Hwv'|].
    apply zeroed_wf; [apply Hk|done|unfold PAGE_SIZE, MAX_DYNAMIC_TABLES, t; lia|unfold t; lia|done].
  - rewrite zeroed_pool by (exact Ht || (unfold t; lia)). rewrite <- (table_pool_zlen t MAX_DYNAMIC_TABLES) at 1 by done.
    unfold zlen. rewrite length_app. lia.
Qed.

(** ** [kmain] up to the first allocation *)

Record boot_info := BootInfo {
  num_memory_map_entries : Z;
  memory_map_base : Z;
  bi_avail_low_mem_start : Z;
  bi_avail_low_mem_end : Z;
  kernel_image_start : Z;
  kernel_image_size : Z;
  drive_number : Z;
  kernel_expected_crc32 : Z;
  kernel_stack_base : Z
}.

(** What the boot loader and the linker left behind: the array at
    [memory_map_base], the registers and the bytes of low memory, with the image
    of the kernel among them, the placement of the static tables and of the
    segments, and the old contents of the page the virtual allocator gets. *)
Record image := Image {
  boot_map : list memory_map_entry;
  loaded : processor;
  static_layout : layout;
  kernel_segments : segments;
  garbage : list free_node
}.

(** [crc32] of the [kernel_image_size] bytes at [kernel_image_start]. *)
Definition image_crc32 (boot : boot_info) (m : gmap Z Z) : outcome Z :=
  data ← CString.load_bytes m (kernel_image_start boot) (Z.to_nat (kernel_image_size boot));
  crc32 data.

(** The statements of [kmain] between [idt::init] and [vga::init]. *)
Definition kmain_memory (boot : boot_info) (i : image) : outcome (heap * low_memory * processor) :=
  mm ← Memory.early_init (boot_map i) (num_memory_map_entries boot);
  let pt := Paging.early_init (static_layout i) in
  low ← LowMemory.init (bi_avail_low_mem_start boot) (bi_avail_low_mem_end boot);
  computed_crc32 ← image_crc32 boot (low_bytes (loaded i));
  '(k, pt) ← enable_kernel_page_protection (loaded i) pt (kernel_segments i) (kernel_stack_base boot);
  h ← memory_finish_init pt mm (garbage i);
  h ← paging_finish_init h;
  _ ← assert_ (kernel_expected_crc32 boot =? computed_crc32) "kernel integrity check failed!";
  Ok (h, low, k).

(** Two bytes of an image, the second of them at 0x10000. *)
Definition sample_processor : processor :=
  Processor 0x100 0x80000011 {[0xFFFF := 0x55; 0x10000 := 0xAA; 0x10001 := 0]}.

Definition sample_image : image := Image
  [MemoryMapEntry 0 0x9FC00 usable 1; MemoryMapEntry 0x9FC00 0x400 2 1;
   MemoryMapEntry 0x100000 0x3F00000 usable 1; MemoryMapEntry 0xFFFC0000 0x40000 2 1]
  sample_processor sample_layout
  (Segments 0xFFFFFFFF80100000 0xFFFFFFFF80110000 0xFFFFFFFF80110000 0xFFFFFFFF80114000
     0xFFFFFFFF80114000 0xFFFFFFFF80116000 0xFFFFFFFF80116000 0xFFFFFFFF80160000)
  sample_page.
Definition sample_boot_info (crc : Z) : boot_info :=
  BootInfo 4 0x8000 0x1000 0x7000 0xFFFF 2 0 crc 0xFFFFFFFF80200000.

(** ** Properties *)

(** The linker places the page tables of the kernel image below 3 MiB. *)
Definition tables_in_image (L : layout) : Prop :=
  Forall (fun t => t + PAGE_SIZE <= 0xFFFFFFFF80300000)
    (layout_tables L ++ table_pool (static_tables_addr L) MAX_STATIC_TABLES).

Lemma sample_tables_in_image : tables_in_image sample_layout.
Proof. unfold tables_in_image. apply (bool_decide_unpack _). vm_compute. exact I. Qed.

Lemma boot_owned L t :
  layout_ok L -> tables_in_image L -> owned (Paging.early_init L) t ->
  t + PAGE_SIZE <= 0xFFFFFFFF80300000.
Proof.
  intros HL Hb Ho. unfold tables_in_image in Hb. rewrite Forall_forall in Hb. apply Hb.
  apply elem_of_app. destruct Ho as [[p Hp]|Hp].
  - left. apply boot_reach in Hp; [|done]. by apply boot_path_table in Hp as [? _].
  - right. by rewrite boot_pool in Hp.
Qed.

(** Areas (address, size) no two of which share a byte. *)
Fixpoint apart (l : list (Z * Z)) : Prop :=
  match l with
  | [] => True
  | (a, n) :: l' => Forall (fun r => a + n <= r.1 \/ r.1 + r.2 <= a) l' /\ apart l'
  end.

(** *** Where the allocators keep their data *)

(** The first page goes to the free list and the second to the nodes. *)
Lemma first_free_page pm k p pm' :
  Pma.wf pm -> 0 <= k -> (forall j, 0 <= j -> occupied pm j = (j <? k)) -> get_physical_page pm = Ok (p, pm') ->
  p = physical_page_base pm + k * PAGE_SIZE /\ Pma.wf pm' /\ physical_page_base pm' = physical_page_base pm /\
  num_pages pm' = num_pages pm /\ physical_page_map pm' = physical_page_map pm /\
  forall j, 0 <= j -> occupied pm' j = (j <? k + 1).
Proof.
  intros Hw Hk Hocc Hg. pose proof (get_physical_page_map _ _ _ Hg) as Hmap.
  destruct (get_physical_page_cases pm Hw) as
    [(idx & s1 & Hg' & Hi & Hf & Hbelow & (Hw' & Hb & Hn & Hm) & _)|[[Hg' _]|[Hg' _]]]; rewrite Hg in Hg'; simplify_eq.
  assert (idx = k) as ->.
  { rewrite Hocc in Hf by lia. apply Z.ltb_ge in Hf. destruct (decide (k < idx)) as [Hlt|]; [|lia].
    specialize (Hbelow k ltac:(lia)). rewrite Hocc in Hbelow by lia. apply Z.ltb_lt in Hbelow. lia. }
  destruct (page_address_spec pm k Hw Hi) as [-> _]. split_and!; try done. intros j Hj. rewrite Hm, Hocc by lia.
  destruct (Z.eqb_spec j k), (Z.ltb_spec j k), (Z.ltb_spec j (k + 1)); lia || done.
Qed.

Record placed (h : heap) (base : Z) : Prop := {
  pl_base : physical_page_base (h_pma h) = base;
  pl_list : virtual_free_list (h_vma h) = kernel_ptr base;
  pl_first : first h = 0x200000;
  pl_nodes : pte (h_paging h) 0x200000 = mapped_entry (base + PAGE_SIZE) DEFAULT_ATTRS;
  pl_taken : forall j, 0 <= j < 2 -> occupied (h_pma h) j = true
}.

Lemma memory_finish_init_placed pt mm largest rest page h :
  PageTables.wf pt -> zlen page = NODES_PER_PAGE ->
  get_memory_map mm = Ok (largest :: rest) -> small_region largest ->
  memory_finish_init pt mm page = Ok h ->
  placed h (mm_base largest + pages_needed (mm_length largest / PAGE_SIZE) * PAGE_SIZE) /\
  physical_page_map (h_pma h) = kernel_ptr (mm_base largest).
Proof.
  intros Hwt Hlen Hmap Hreg H. unfold memory_finish_init in H.
  apply bind_Ok in H as ([pm pt1] & Hp & H).
  destruct (early_init_Ok pt mm largest rest pm pt1 Hmap Hreg Hp) as (Hwp & Hlo & Hhi & n & v & Hid).
  destruct (early_init_places pt mm largest rest pm pt1 Hmap Hreg Hp) as (Pm & Pb & Pf).
  apply identity_map_Ok in Hid as [(Hw1 & _) _]; [|done].
  set (base := mm_base largest + _) in *.
  apply bind_Ok in H as ([[vm pm2] pt2] & Hv & H).
  assert (pages_in_window pm) as Hwin by (split; [destruct Hreg; lia|done]).
  destruct (vma_init_Ok pm pt1 page vm pm2 pt2 Hwp Hwin Hw1 Hlen Hv) as (_ & _ & [Hw2 _] & Hwv & ptr & Hptr & Hlive).
  unfold Vma.init in Hv. apply bind_Ok in Hv as ([p pm2'] & Hg & Hv). apply bind_Ok in Hv as ([ptr' pt2'] & Hid2 & Hv).
  apply bind_Ok in Hv as (vm' & Hil & Hv). injection Hv as -> -> ->.
  destruct (first_free_page pm 0 p pm2 Hwp ltac:(lia)
    ltac:(intros j Hj; rewrite Pf by done; symmetry; by apply Z.ltb_ge) Hg) as (-> & Hwp2 & B2 & N2 & M2 & O2).
  rewrite Z.mul_0_l, Z.add_0_r in Hid2.
  unfold identity_map_page_into_kernel_space in Hid2. apply identity_map_Ok in Hid2 as [_ ->]; [|done].
  apply init_list_ptr in Hil. unfold Alloc.init in H. apply bind_Ok in H as ([a s1] & Hm & H). injection H as <-.
  unfold map_node_page in Hm. apply bind_Ok in Hm as ([q pm3] & Hg3 & Hm).
  apply bind_Ok in Hm as ([v3 vm3] & Hv3 & Hm). apply bind_Ok in Hm as ([r3 pt3] & Hm3 & Hm).
  injection Hm as <- <-. cbn [h_pma h_vma h_paging first] in *.
  destruct (first_free_page pm2 1 q pm3 Hwp2 ltac:(lia) O2 Hg3) as (-> & _ & B3 & N3 & M3 & O3).
  pose proof (get_virtual_pages_cases vm PAGE_SIZE Hwv ltac:(done) ltac:(done)) as Hc.
  rewrite Hlive in Hc. unfold booted_nodes in Hc. cbn [carve] in Hc.
  change (PAGE_SIZE <=? 2 ^ 42 - 0x200000) with true in Hc. cbv iota in Hc.
  destruct Hc as (vm' & Hv' & _). rewrite Hv3 in Hv'. simplify_eq.
  destruct (map_page_Ok pt2 _ 0x200000 DEFAULT_ATTRS r3 pt3 Hw2 ltac:(lia) Hm3) as (_ & _ & _ & -> & (_ & _ & Hu)).
  split; [|congruence]. split; cbn [h_pma h_vma h_paging first].
  - congruence.
  - rewrite (get_virtual_pages_keeps_ptr _ _ _ _ Hv3), Hil. by rewrite Pb.
  - by vm_compute.
  - rewrite Hu, decide_True by done. rewrite B2, Pb, Z.mul_1_l. reflexivity.
  - intros j Hj. rewrite O3 by lia. apply Z.ltb_lt. lia.
Qed.

(** The tables of [paging::finish_init] come behind them. *)
Lemma paging_finish_init_placed h h' base :
  Alloc.wf h -> pages_in_window (h_pma h) ->
  (forall t, owned (h_paging h) t -> t + PAGE_SIZE <= 0xFFFFFFFF80300000) ->
  placed h base -> paging_finish_init h = Ok h' ->
  exists t, dynamic_tables (h_paging h') = kernel_ptr t /\ base + 2 * PAGE_SIZE <= t < 2 ^ 31 - 2 ^ 21 /\
    virtual_free_list (h_vma h') = kernel_ptr base /\ first h' = 0x200000 /\
    pte (h_paging h') 0x200000 = mapped_entry (base + PAGE_SIZE) DEFAULT_ATTRS /\
    physical_page_map (h_pma h') = physical_page_map (h_pma h).
Proof.
  intros [Hwp Hwv Hwt] [Hlo Hhi] Hown [Pb Pl Pf Pn Pt] H. unfold paging_finish_init in H.
  apply bind_Ok in H as ([p pm] & Hg & H).
  destruct (get_contiguous_Ok (h_pma h) MAX_DYNAMIC_TABLES p pm Hwp ltac:(done) Hg) as (_ & Hp1 & _ & Hp2).
  destruct (get_contiguous_places (h_pma h) MAX_DYNAMIC_TABLES p pm 2 Hwp ltac:(done) Hg ltac:(lia) Pt) as [Hp3 Hpm].
  apply bind_Ok in H as ([v pt] & Hid & H). apply identity_map_Ok in Hid as [(Hw & Hi & Hk) ->]; [|done].
  unfold MAX_DYNAMIC_TABLES, PAGE_SIZE in Hp2, Hhi, Hp3.
  apply bind_Ok in H as (vm & Hr & H). injection H as <-. exists p.
  cbn [h_pma h_vma h_paging first dynamic_tables with_dynamic]. split; [done|]. split; [unfold PAGE_SIZE; lia|].
  split; [rewrite (remove_keeps_ptr _ _ _ _ Hr); exact Pl|]. split; [done|]. split; [|done].
  rewrite zeroed_pte.
  - rewrite <- Pn. apply Hk. rewrite Pn. apply mapped_entry_present.
  - intros u Hu. left. specialize (Hown u (Hi u Hu)). rewrite kernel_ptr_small by lia. lia.
Qed.

(** [C8] A [kmain] that gets past its integrity check, on a machine whose largest
    usable region is page aligned and lies between 3 MiB and 1 GiB, with the kernel
    and its static page tables below 3 MiB and a page map that fits its pages
    ([page_map_fits]), hands over a kernel heap in which every allocator is
    consistent: no physical page is handed out twice by the page map, no virtual
    address is free twice, and the page tables form a tree whose pool holds at
    least 512 zeroed tables that nothing refers to.  The kernel, the page map, the
    free list, the allocation nodes and the new tables lie apart in memory.  The
    image had the checksum the boot loader announced when it was loaded; since then
    the eight bytes from 0x10000 on have been changed, and no other byte of low
    memory, and [cr0] is what it was. *)
Theorem boot_heap_consistent boot i mm largest rest h low k
    (HL : layout_ok (static_layout i)) (Himg : tables_in_image (static_layout i))
    (Hpage : zlen (garbage i) = NODES_PER_PAGE)
    (Hmm : Memory.early_init (boot_map i) (num_memory_map_entries boot) = Ok mm)
    (Hmap : get_memory_map mm = Ok (largest :: rest)) (Hreg : small_region largest)
    (Hfit : page_map_fits (mm_length largest / PAGE_SIZE))
    (Hrun : kmain_memory boot i = Ok (h, low, k)) :
  Alloc.wf h /\ MAX_DYNAMIC_TABLES <= zlen (pool (h_paging h)) /\
  (exists free_list nodes_page tables,
     physical_page_map (h_pma h) = kernel_ptr (mm_base largest) /\
     virtual_free_list (h_vma h) = kernel_ptr free_list /\
     get_physical_address (h_paging h) (first h) = Ok nodes_page /\
     dynamic_tables (h_paging h) = kernel_ptr tables /\
     apart [(0, 0x300000); (mm_base largest, page_map_size (mm_length largest / PAGE_SIZE));
            (free_list, PAGE_SIZE); (nodes_page, PAGE_SIZE); (tables, MAX_DYNAMIC_TABLES * PAGE_SIZE)]) /\
  image_crc32 boot (low_bytes (loaded i)) = Ok (kernel_expected_crc32 boot) /\
  cr0 k = cr0 (loaded i) /\
  forall x, low_bytes k !! x =
    if decide (0x10000 <= x < 0x10008) then
      (fun b => Z.lor b (u8 (Z.shiftr (cr0 (loaded i)) (8 * (x - 0x10000))))) <$> low_bytes (loaded i) !! x
    else low_bytes (loaded i) !! x.
Proof.
  unfold kmain_memory in Hrun. rewrite Hmm in Hrun. cbn [mbind outcome_bind] in Hrun.
  apply bind_Ok in Hrun as (lm & _ & Hrun). apply bind_Ok in Hrun as (crc & Hcrc & Hrun).
  apply bind_Ok in Hrun as ([k' pt] & Hp & Hrun). unfold enable_kernel_page_protection in Hp.
  apply bind_Ok in Hp as (pt' & Hp & E). injection E as <- ->. apply bind_Ok in Hrun as (h1 & H1 & Hrun).
  apply bind_Ok in Hrun as (h2 & H2 & Hrun). apply bind_Ok in Hrun as (u & Ha & Hrun).
  apply assert_Ok in Ha. apply Z.eqb_eq in Ha. injection Hrun as -> -> <-.
  pose proof (boot_wf (static_layout i) HL) as Hw0.
  apply protect_kernel_pages_Ok in Hp as Hs; [|done].
  destruct (memory_finish_init_Ok pt mm largest rest (garbage i) h1 ltac:(apply Hs) Hpage Hmap Hreg H1)
    as (Hw1 & Hwin & Hs1 & Hnz).
  assert (forall t, owned (h_paging h1) t -> t + PAGE_SIZE <= 0xFFFFFFFF80300000) as Hown.
  { intros t Ht. apply (boot_owned (static_layout i)); [done..|].
    destruct (sound_trans _ _ _ Hs Hs1) as [_ Hi]. by apply Hi. }
  destruct (paging_finish_init_Ok h1 h Hw1 Hwin Hnz Hown H2) as (Hw2 & Hpool & _).
  destruct (memory_finish_init_placed pt mm largest rest (garbage i) h1 ltac:(apply Hs) Hpage Hmap Hreg H1) as [Hpl Hpm].
  set (base := mm_base largest + _) in Hpl.
  destruct (paging_finish_init_placed h1 h base Hw1 Hwin Hown Hpl H2) as (t & Ht & Htr & Hl & Hf & Hn & Hm).
  split; [exact Hw2|]. split; [done|]. split.
  - exists base, (base + PAGE_SIZE), t. split; [congruence|]. split; [done|].
    unfold page_map_fits in Hfit. unfold small_region in Hreg. unfold PAGE_SIZE in Htr, Hfit.
    assert (base `mod` 4096 = 0) as Hal by (unfold base, PAGE_SIZE in *; zdiv).
    assert (0x300000 <= base) by (rewrite <- (pl_base _ _ Hpl); apply Hwin). split; [|split; [done|]].
    + rewrite Hf. rewrite (translate_mapped _ 0x200000 (base + PAGE_SIZE) DEFAULT_ATTRS); [|apply Hw2|lia|unfold PAGE_SIZE; lia|unfold PAGE_SIZE; zdiv|reflexivity|exact Hn].
      change (0x200000 `mod` PAGE_SIZE) with 0. f_equal. lia.
    + assert (mm_base largest + page_map_size (mm_length largest / 4096) <= base) by (unfold base, PAGE_SIZE in *; lia).
      unfold apart, PAGE_SIZE in *. repeat (split || apply Forall_cons_2 || apply Forall_nil_2); cbn [fst snd]; lia.
  - split; [congruence|]. apply (set_protection_bits_spec (loaded i)).
Qed.

Lemma sample_image_boots : is_ok (kmain_memory (sample_boot_info 2250458971) sample_image) = true.
Proof. vm_compute. reflexivity. Qed.

(** The sample's page map fits, and the last byte of its image does not survive. *)
Lemma boot_heap_consistent_witness :
  exists h low k, kmain_memory (sample_boot_info 2250458971) sample_image = Ok (h, low, k) /\ Alloc.wf h /\
    low_bytes (loaded sample_image) !! 0x10000 = Some 0xAA /\ low_bytes k !! 0x10000 = Some 0xBB.
Proof.
  pose proof sample_image_boots as Hok.
  destruct (kmain_memory (sample_boot_info 2250458971) sample_image) as [[[h low] k]|] eqn:E;
    [|discriminate Hok].
  exists h, low, k. split; [reflexivity|].
  destruct (Memory.early_init (boot_map sample_image) 4) as [mm|] eqn:Em; [|discriminate Em].
  destruct (boot_heap_consistent (sample_boot_info 2250458971) sample_image mm
    (MemoryMapEntry 0x300000 0x3D00000 usable 1) (tail (g_memory_map mm)) h low k
    sample_layout_ok sample_tables_in_image eq_refl Em) as (Hw & _ & _ & _ & _ & Hb).
  - vm_compute in Em. injection Em as <-. reflexivity.
  - unfold small_region, PAGE_SIZE. simpl. split; [lia|]. split; [reflexivity|]. lia.
  - vm_compute. discriminate.
  - exact E.
  - split; [exact Hw|]. split; [reflexivity|]. rewrite Hb. reflexivity.
Defined.

(** The identity mapping of [n] free pages below 2 GiB. *)
Lemma identity_map_pages_spec s p n attrs :
  PageTables.wf s -> p `mod` PAGE_SIZE = 0 -> 0 < p -> 0 < n -> p + n * PAGE_SIZE < 2 ^ 31 ->
  unmapped_range s (kernel_ptr p) n -> tables_needed (kernel_ptr p) n <= zlen (pool s) ->
  exists s', identity_map_pages_into_kernel_space s p n attrs = Ok (kernel_ptr p, s') /\
    maps_range s s' p (kernel_ptr p) n attrs /\ within s s'.
Proof.
  intros Hw Hp Hp0 Hn Hpn Hun Hpool. unfold PAGE_SIZE in Hpn.
  rewrite kernel_ptr_small in * by lia. set (va := 0xFFFFFFFF80000000 + p) in *.
  destruct (map_range_spec s p va n attrs Hw) as (s' & Hm & Hmaps & Hi & _);
    [unfold va, PAGE_SIZE in *; zdiv|done|lia|unfold PAGE_SIZE; lia| |done..|].
  { unfold canonical_range, va, PAGE_SIZE. lia. }
  exists s'. split; [|done].
  unfold identity_map_pages_into_kernel_space, identity_map_page_range_into_kernel_space,
    map_range_size.
  assert ((0 <? n) = true) as -> by (apply Z.ltb_lt; lia). cbn [assert_ mbind outcome_bind].
  rewrite (wrap_small 64 (n * PAGE_SIZE)) by (unfold PAGE_SIZE; lia).
  rewrite align_to_aligned by (unfold PAGE_SIZE; zdiv || lia). cbn [mbind outcome_bind].
  rewrite kernel_ptr_small by lia. fold va.
  rewrite (wrap_small 64 (p + _)), (wrap_small 64 (va + _)) by (unfold va, PAGE_SIZE; lia).
  exact Hm.
Qed.

(** [C10] [paging::finish_init] where its two requests succeed: the page map has 512
    contiguous pages, below 2 GiB, and the virtual range at their kernel addresses can
    be removed from the free list.  If that range is unmapped and holds none of the
    tables in use, and six tables are left in the pool, it succeeds: the 512 new
    tables join the pool as zeroed pages that translate to the physical pages found,
    no other page changes, and the tree invariant holds. *)
Theorem finish_init_correct h p pm vm
    (Hw : PageTables.wf (h_paging h))
    (Hfound : get_contiguous_physical_pages (h_pma h) MAX_DYNAMIC_TABLES = Ok (p, pm))
    (Hp : p `mod` PAGE_SIZE = 0) (Hr : 0 < p < 2 ^ 31 - 2 ^ 21)
    (Hun : unmapped_range (h_paging h) (kernel_ptr p) MAX_DYNAMIC_TABLES)
    (Hout : outside (h_paging h) (kernel_ptr p) MAX_DYNAMIC_TABLES)
    (Hpool : 6 <= zlen (pool (h_paging h)))
    (Hvm : remove_from_free_list (h_vma h) (kernel_ptr p) (PAGE_SIZE * MAX_DYNAMIC_TABLES) = Ok vm) :
  exists pt, paging_finish_init h = Ok (Heap pm vm pt (first h) (nodes h) (words h) (said h)) /\
    PageTables.wf pt /\ MAX_DYNAMIC_TABLES <= zlen (pool pt) /\
    (forall t, t ∈ table_pool (kernel_ptr p) MAX_DYNAMIC_TABLES -> t ∈ pool pt) /\
    (forall off, 0 <= off < MAX_DYNAMIC_TABLES * PAGE_SIZE ->
       get_physical_address pt (kernel_ptr p + off) = Ok (p + off)) /\
    (forall va, ~ (0 <= page48 va - page48 (kernel_ptr p) < MAX_DYNAMIC_TABLES) ->
       pte pt va = pte (h_paging h) va).
Proof.
  assert (tables_needed (kernel_ptr p) MAX_DYNAMIC_TABLES = 6) as Ht
    by (unfold tables_needed, crossings, MAX_DYNAMIC_TABLES, NUM_PAGE_TABLE_ENTRIES; zdiv).
  destruct (identity_map_pages_spec (h_paging h) p MAX_DYNAMIC_TABLES DEFAULT_ATTRS Hw Hp)
    as (s' & Hm & Hmaps & Hi); [lia|done|unfold MAX_DYNAMIC_TABLES, PAGE_SIZE; lia|done|lia|].
  unfold paging_finish_init. rewrite Hfound. cbn [mbind outcome_bind]. rewrite Hm.
  cbn [mbind outcome_bind]. rewrite Hvm. cbn [mbind outcome_bind].
  rewrite kernel_ptr_small in * by lia. set (va := 0xFFFFFFFF80000000 + p) in *.
  assert (va `mod` PAGE_SIZE = 0) as Hva by (unfold va, PAGE_SIZE in *; zdiv).
  assert (aligned_table va) as Hal by (split; [unfold va; lia|done]).
  assert (outside s' va MAX_DYNAMIC_TABLES) as Ho by (by eapply outside_within).
  assert (va + MAX_DYNAMIC_TABLES * PAGE_SIZE < 2 ^ 64) as Htop
    by (unfold va, MAX_DYNAMIC_TABLES, PAGE_SIZE; lia).
  assert (0xFFFFFFFF80000000 < va) as Hbase by (unfold va; lia).
  destruct Hmaps as (Hw' & Hroot & Hpte).
  pose proof (zeroed_wf s' va MAX_DYNAMIC_TABLES Hw' Hal Htop Hbase Ho) as Hwz.
  exists (with_dynamic s' va MAX_DYNAMIC_TABLES). split; [reflexivity|]. split; [exact Hwz|].
  rewrite zeroed_pool by assumption. split.
  { rewrite <- (table_pool_zlen va MAX_DYNAMIC_TABLES) at 1 by done.
    unfold zlen. rewrite length_app. lia. }
  split; [intros t ?; apply elem_of_app; by right|]. split.
  - intros off Hoff.
    apply (maps_range_translates (h_paging h) _ p va MAX_DYNAMIC_TABLES DEFAULT_ATTRS);
      [|exact Hva|exact Hp|lia|unfold MAX_DYNAMIC_TABLES, PAGE_SIZE; lia| |reflexivity|exact Hoff].
    + split; [exact Hwz|]. split; [exact Hroot|]. intros va'. rewrite zeroed_pte by exact Ho. apply Hpte.
    + unfold canonical_range, va, MAX_DYNAMIC_TABLES, PAGE_SIZE. lia.
  - intros va' Hn. rewrite zeroed_pte by exact Ho. rewrite Hpte. by rewrite decide_False.
Qed.

(** The heap of the sample image when [paging::finish_init] is called. *)
Definition before_finish : outcome heap :=
  mm ← Memory.early_init (boot_map sample_image) 4;
  pt ← protect_kernel_pages (Paging.early_init sample_layout)
         (kernel_segments sample_image) 0xFFFFFFFF80200000;
  memory_finish_init pt mm sample_page.

Definition finish_ready (h : heap) : bool :=
  match get_contiguous_physical_pages (h_pma h) MAX_DYNAMIC_TABLES with
  | Ok (p, _) =>
      (p =? 0x303000) && (zlen (pool (h_paging h)) =? 6) &&
      forallb (fun k => negb (present_bit (pte (h_paging h) (kernel_ptr 0x303000 + k * PAGE_SIZE))))
        (seqZ 0 MAX_DYNAMIC_TABLES) &&
      is_ok (remove_from_free_list (h_vma h) (kernel_ptr 0x303000) (PAGE_SIZE * MAX_DYNAMIC_TABLES))
  | Fail _ => false
  end.

Lemma before_finish_ready :
  match before_finish with Ok h => finish_ready h | Fail _ => false end = true.
Proof. vm_compute. reflexivity. Qed.

(** The page tables there are consistent and lie in the kernel image. *)
Lemma before_finish_tables h :
  before_finish = Ok h ->
  PageTables.wf (h_paging h) /\ forall t, owned (h_paging h) t -> t + PAGE_SIZE <= 0xFFFFFFFF80300000.
Proof.
  intros H. unfold before_finish in H. apply bind_Ok in H as (mm & Hmm & H).
  apply bind_Ok in H as (pt & Hp & H).
  apply protect_kernel_pages_Ok in Hp as Hs; [|apply boot_wf, sample_layout_ok].
  destruct (memory_finish_init_Ok pt mm (MemoryMapEntry 0x300000 0x3D00000 usable 1)
    (tail (g_memory_map mm)) sample_page h) as (Hw & _ & Hs' & _);
    [apply Hs|reflexivity| | |exact H|].
  - vm_compute in Hmm. injection Hmm as <-. reflexivity.
  - unfold small_region, PAGE_SIZE. simpl. split; [lia|]. split; [reflexivity|]. lia.
  - split; [apply Hw|]. intros t Ht. apply (boot_owned sample_layout);
      [exact sample_layout_ok|exact sample_tables_in_image|].
    destruct (sound_trans _ _ _ Hs Hs') as [_ Hi]. by apply Hi.
Qed.

Lemma finish_init_correct_witness :
  exists h h', before_finish = Ok h /\ paging_finish_init h = Ok h' /\ PageTables.wf (h_paging h').
Proof.
  pose proof before_finish_ready as Hr.
  destruct before_finish as [h|] eqn:E; [|discriminate Hr].
  destruct (before_finish_tables h E) as [Hw Hown]. unfold finish_ready in Hr.
  destruct (get_contiguous_physical_pages (h_pma h) MAX_DYNAMIC_TABLES) as [[p pm]|] eqn:Ec;
    [|discriminate Hr].
  apply andb_true_iff in Hr as [Hr Hvm]. apply andb_true_iff in Hr as [Hr Hall].
  apply andb_true_iff in Hr as [Hp Hpl]. apply Z.eqb_eq in Hp, Hpl. subst p.
  destruct (remove_from_free_list _ _ _) as [vm|] eqn:Ev; [|discriminate Hvm].
  destruct (finish_init_correct h 0x303000 pm vm Hw Ec) as (pt & H1 & H2 & _);
    [reflexivity|lia| | |lia|exact Ev|].
  - intros k Hk. rewrite forallb_forall in Hall. apply negb_true_iff, Hall.
    apply list_elem_of_In, elem_of_seqZ. lia.
  - intros u Hu. left. specialize (Hown u Hu). rewrite kernel_ptr_small by lia. lia.
  - eexists h, _. split; [reflexivity|]. split; [exact H1|exact H2].
Defined.
