(* ===== verification/PageDump.v ===== *)
(** * paging.cpp: [page_tables::dump_to_file]

    The dump walks the four levels and prints a line for every present page.  It
    follows the physical addresses in the entries without adding
    [KERNEL_VMA_OFFSET], so each read goes through the page tables being
    dumped: [mmu_load] is the word the processor finds at a linear address. *)
From S2P Require Import Prelude Util Memory Paging PageTables PagingInit PageOps.

#[local] Arguments Z.land : simpl never.
#[local] Arguments Z.lor : simpl never.
#[local] Arguments wrap : simpl never.

(** The word at a linear address; an address that does not translate is a
    page fault.  Table words are kept under their kernel address. *)
Definition mmu_load (s : paging) (a : Z) : outcome Z :=
  p ← get_physical_address s a; Ok (load (mem s) (kernel_ptr p)).

(** The arguments of the [fprintf]. *)
Record dump_line := DumpLine {
  dl_virtual : Z;
  dl_physical : Z;
  dl_rw : string;
  dl_x : string
}.

Definition line_of (i j k l e : Z) : dump_line :=
  DumpLine
    (u64 (sign_extend (Z.lor (Z.lor (Z.lor (Z.shiftl l 12) (Z.shiftl k 21)) (Z.shiftl j 30))
                         (Z.shiftl i 39)) 42))
    (Z.land e ADDRESS_MASK)
    (if Z.land e RW =? 0 then "r" else "rw")
    (if Z.land e XD =? 0 then "x" else "").

(** One of the loops [for (uint64_t i = 0; i < NUM_PAGE_TABLE_ENTRIES; ++i)]
    that skips entries without [PRESENT]. *)
Fixpoint each_present (n : nat) (i : Z) (read : Z -> outcome Z)
    (body : Z -> Z -> outcome (list dump_line)) : outcome (list dump_line) :=
  match n with
  | O => Ok []
  | S n' =>
      e ← read i;
      ls ← (if Z.land e PRESENT =? 0 then Ok [] else body i e);
      rest ← each_present n' (i + 1) read body;
      Ok (ls ++ rest)
  end.

Definition entries : nat := Z.to_nat NUM_PAGE_TABLE_ENTRIES.

Definition dump_to_file (s : paging) : outcome (list dump_line) :=
  each_present entries 0 (fun i => Ok (load (mem s) (entry_addr (root s) i))) (fun i pml4_entry =>
  each_present entries 0 (fun j => mmu_load s (entry_addr (entry_table_phys pml4_entry) j)) (fun j pml3_entry =>
  each_present entries 0 (fun k => mmu_load s (entry_addr (entry_table_phys pml3_entry) k)) (fun k pml2_entry =>
  each_present entries 0 (fun l => mmu_load s (entry_addr (entry_table_phys pml2_entry) l)) (fun l pml1_entry =>
    Ok [line_of i j k l pml1_entry])))).
(** ** The lines of one loop *)

(** The keys of the present entries, entry by entry. *)
Definition pick {A} (f : Z -> Z) (K : Z -> list A) (lo n : Z) : list A :=
  concat ((fun i => if present_bit (f i) then K i else []) <$> seqZ lo n).

Lemma elem_of_pick {A} f (K : Z -> list A) lo n x :
  x ∈ pick f K lo n <-> exists i, lo <= i < lo + n /\ present_bit (f i) = true /\ x ∈ K i.
Proof.
  unfold pick. rewrite list_elem_of_In, in_concat. setoid_rewrite <- list_elem_of_In. split.
  - intros (ls & (i & -> & Hi%elem_of_seqZ)%list_elem_of_fmap & Hx). destruct (present_bit (f i)) eqn:E; [by exists i|by apply elem_of_nil in Hx].
  - intros (i & Hi & Hp & Hx). exists (K i). split; [|done]. apply list_elem_of_fmap. exists i. rewrite Hp, elem_of_seqZ. done.
Qed.

(** Keys in their entries' ranges come in ascending order. *)
Lemma pick_sorted f (K : Z -> list Z) b w lo n : 0 <= w -> 0 <= n ->
  (forall i x, lo <= i < lo + n -> x ∈ K i -> b + i * w <= x < b + (i + 1) * w) ->
  (forall i, lo <= i < lo + n -> StronglySorted Z.lt (K i)) -> StronglySorted Z.lt (pick f K lo n).
Proof.
  intros Hw Hn. revert lo. pattern n. apply natlike_ind; [intros lo _ _; constructor| |done].
  clear n Hn. intros n Hn IH lo Hb Hs. unfold pick. rewrite seqZ_cons by lia. rewrite Z.pred_succ. cbn [fmap list_fmap concat].
  fold (pick f K (Z.succ lo) n).
  assert (StronglySorted Z.lt (pick f K (Z.succ lo) n)) as Hrest
    by (apply IH; [intros i x Hi; apply Hb; lia|intros i Hi; apply Hs; lia]).
  destruct (present_bit (f lo)); [|done]. apply StronglySorted_app_2; [|apply Hs; lia|done].
  intros x y Hx (i & Hi & _ & Hy)%elem_of_pick. apply Hb in Hx; [|lia]. apply Hb in Hy; [|lia]. nia.
Qed.

Lemma each_present_spec {A} (g : A -> dump_line) n lo read f body (K : Z -> list A) :
  (forall i, lo <= i < lo + Z.of_nat n -> read i = Ok (f i)) ->
  (forall i, lo <= i < lo + Z.of_nat n -> present_bit (f i) = true -> body i (f i) = Ok (g <$> K i)) ->
  each_present n lo read body = Ok (g <$> pick f K lo (Z.of_nat n)).
Proof.
  revert lo. induction n as [|n IH]; intros lo Hr Hb; cbn [each_present]; [done|].
  rewrite (Hr lo) by lia. cbn [mbind outcome_bind].
  unfold pick. rewrite seqZ_cons by lia. cbn [fmap list_fmap concat]. rewrite fmap_app.
  replace (Z.pred (Z.of_nat (S n))) with (Z.of_nat n) by lia. rewrite <- Z.add_1_r. fold (pick f K (lo + 1) (Z.of_nat n)).
  assert ((if Z.land (f lo) PRESENT =? 0 then Ok [] else body lo (f lo)) =
    Ok (g <$> (if present_bit (f lo) then K lo else []))) as ->.
  { pose proof (Hb lo ltac:(lia)) as Hlo. unfold present_bit in *.
    destruct (Z.land (f lo) PRESENT =? 0); cbn [negb] in *; [done|by apply Hlo]. }
  cbn [mbind outcome_bind]. rewrite IH; [done|intros; apply Hr; lia|intros; apply Hb; [lia|done]].
Qed.

(** A loop that returns has read every entry. *)
Lemma each_present_Ok n lo read body ls i :
  each_present n lo read body = Ok ls -> lo <= i < lo + Z.of_nat n ->
  exists e, read i = Ok e /\ (present_bit e = true -> exists ls', body i e = Ok ls').
Proof.
  revert lo ls. induction n as [|n IH]; intros lo ls H Hi; [lia|]. cbn [each_present] in H.
  apply bind_Ok in H as (e & He & H). apply bind_Ok in H as (ls1 & Hb & H).
  apply bind_Ok in H as (rest & Hrest & H). destruct (decide (i = lo)) as [->|].
  - exists e. split; [done|]. unfold present_bit. destruct (Z.land e PRESENT =? 0); [done|]. eauto.
  - apply (IH (lo + 1) rest); [done|lia].
Qed.

(** ** Tables through their physical addresses *)

Definition phys_of (t : Z) : Z := u64 (t - KERNEL_VMA_OFFSET).

(** Every table is mapped at its own physical address. *)
Definition readable (s : paging) : Prop :=
  forall p t j, reach s p t -> p <> [] -> idx j ->
    mmu_load s (entry_addr (phys_of t) j) = Ok (load (mem s) (entry_addr t j)).

Lemma entry_table_phys_range e : 0 <= entry_table_phys e < 2 ^ 64.
Proof.
  unfold entry_table_phys.
  assert (wnot 64 PREFIX_MASK = Z.land (wnot 64 PREFIX_MASK) (Z.ones 64)) as -> by done.
  rewrite Z.land_assoc, Z.land_ones by lia. by apply Z.mod_pos_bound.
Qed.

Lemma phys_of_next e : phys_of (next_table e) = entry_table_phys e.
Proof.
  unfold phys_of, next_table, kernel_ptr. rewrite wrap_sub_l.
  rewrite Z.add_simpl_r. apply wrap_small, entry_table_phys_range.
Qed.

Lemma readable_entry s p t i j :
  readable s -> reach s p t -> (length p <= 2)%nat -> idx i -> idx j ->
  present_bit (load (mem s) (entry_addr t i)) = true ->
  let e := load (mem s) (entry_addr t i) in
  mmu_load s (entry_addr (entry_table_phys e) j) = Ok (load (mem s) (entry_addr (next_table e) j)).
Proof.
  intros Hs Hr Hl Hi Hj Hp e. rewrite <- phys_of_next.
  apply (Hs (p ++ [i])); [by apply reach_snoc|by destruct p|done].
Qed.

(** ** Properties *)

(** The line of the page at [va]. *)
Definition page_line (va e : Z) : dump_line :=
  DumpLine (u64 (swrap 42 va)) (Z.land e ADDRESS_MASK)
    (if Z.land e RW =? 0 then "r" else "rw") (if Z.land e XD =? 0 then "x" else "").

Definition join (i j k l : Z) : Z := i * 2 ^ 39 + j * 2 ^ 30 + k * 2 ^ 21 + l * 2 ^ 12.

Lemma join_prefix i j k l :
  idx i -> idx j -> idx k -> idx l ->
  path (join i j k l) = [i; j; k] /\ prefix (join i j k l) 1 = l /\
  0 <= join i j k l < 2 ^ 48 /\ join i j k l `mod` PAGE_SIZE = 0.
Proof.
  unfold idx, NUM_PAGE_TABLE_ENTRIES. intros. unfold path, join, PAGE_SIZE. rewrite !prefix_div by lia.
  split; [repeat apply (f_equal2 cons); try done|]; simpl (12 + _); zdiv.
Qed.

Lemma prefix_join va :
  0 <= va < 2 ^ 48 -> va `mod` PAGE_SIZE = 0 ->
  join (prefix va 4) (prefix va 3) (prefix va 2) (prefix va 1) = va.
Proof.
  intros Hv Ha. unfold join, PAGE_SIZE in *. rewrite !prefix_div by lia. simpl (12 + _). zdiv.
Qed.

Lemma line_of_page i j k l e :
  idx i -> idx j -> idx k -> idx l -> line_of i j k l e = page_line (join i j k l) e.
Proof.
  intros Hi Hj Hk Hl. destruct (join_prefix i j k l Hi Hj Hk Hl) as (Hp & Hp1 & Hr & Ha).
  unfold path in Hp. injection Hp as H4 H3 H2.
  pose proof (virtual_page_address_at [] 0 (join i j k l) Ha ltac:(lia)) as Hv.
  unfold virtual_page_address, lget, zget in Hv. simpl in Hv. rewrite H2, H3, H4, Hp1 in Hv.
  unfold line_of, page_line. rewrite <- Hv. do 3 f_equal.
  apply Z.bits_inj'. intros n Hn. rewrite !Z.lor_spec. btauto.
Qed.

Section dump.
Context (s : paging) (HSw : wf s) (HSr : readable s).

#[local] Definition word (t i : Z) : Z := load (mem s) (entry_addr t i).

(** The pages below a table, in the order of the walk. *)
#[local] Definition pages1 (i j k t : Z) : list Z := pick (word t) (fun l => [join i j k l]) 0 512.
#[local] Definition pages2 (i j t : Z) : list Z := pick (word t) (fun k => pages1 i j k (next_table (word t k))) 0 512.
#[local] Definition pages3 (i t : Z) : list Z := pick (word t) (fun j => pages2 i j (next_table (word t j))) 0 512.
#[local] Definition pages : list Z := pick (word (root s)) (fun i => pages3 i (next_table (word (root s) i))) 0 512.

(** One loop of the dump over the table at the end of path [p ++ [i]]. *)
Lemma level_spec {A} (g : A -> dump_line) p t i body (K : Z -> list A) :
  reach s p t -> (length p <= 2)%nat -> idx i -> present_bit (word t i) = true ->
  let t' := next_table (word t i) in
  (forall j, idx j -> present_bit (word t' j) = true -> reach s (p ++ [i]) t' -> body j (word t' j) = Ok (g <$> K j)) ->
  each_present entries 0 (fun j => mmu_load s (entry_addr (entry_table_phys (word t i)) j)) body = Ok (g <$> pick (word t') K 0 512).
Proof.
  intros Hr Hl Hi Hp t' Hb. apply (each_present_spec g entries 0 _ (word t')).
  - intros j Hj. by apply (readable_entry s p t i j).
  - intros j Hj Hpj. apply Hb; [done|done|by apply reach_snoc].
Qed.

Lemma pte_join i j k l t : reach s [i; j; k] t -> idx l -> pte s (join i j k l) = word t l.
Proof.
  intros (Hw & _ & Hidx) Hl. repeat apply Forall_cons in Hidx as [? Hidx].
  destruct (join_prefix i j k l) as (Hp & Hp1 & _); [done..|]. unfold pte. by rewrite Hp, Hw, Hp1.
Qed.

Lemma dump_pages : dump_to_file s = Ok ((fun va => page_line va (pte s va)) <$> pages).
Proof.
  assert (reach s [] (root s)) as H0 by (split_and!; [done|simpl; lia|constructor]).
  unfold dump_to_file. apply (each_present_spec _ entries 0 _ (word (root s))); [done|].
  intros i Hi Hpi. apply (level_spec _ [] (root s) i); [done|simpl; lia|done|done|].
  intros j Hj Hpj H1. eapply level_spec; [exact H1|simpl; lia|done|done|].
  intros k Hk Hpk H2. eapply level_spec; [exact H2|simpl; lia|done|done|].
  intros l Hl Hpl H3. rewrite line_of_page by done. cbn [fmap list_fmap]. by rewrite (pte_join i j k l _ H3).
Qed.

Lemma elem_of_pages va : va ∈ pages <-> 0 <= va < 2 ^ 48 /\ va `mod` PAGE_SIZE = 0 /\ present_bit (pte s va) = true.
Proof.
  split.
  - intros (i & Hi & Hpi & (j & Hj & Hpj & (k & Hk & Hpk & (l & Hl & Hpl & ->%list_elem_of_singleton)%elem_of_pick)%elem_of_pick)%elem_of_pick)%elem_of_pick.
    destruct (join_prefix i j k l Hi Hj Hk Hl) as (Hp & Hp1 & Hr & Ha). split; [done|]. split; [done|].
    unfold pte. rewrite Hp, Hp1. unfold word in *. cbn [walk]. by rewrite Hpi, Hpj, Hpk.
  - intros (Hv & Ha & Hp). unfold pte in *.
    destruct (walk (mem s) (root s) (path va)) as [t|] eqn:Et; [|done].
    unfold path in Et. cbn [walk] in Et.
    match type of Et with (if ?b then _ else _) = _ => destruct b eqn:E4; [|discriminate Et] end.
    match type of Et with (if ?b then _ else _) = _ => destruct b eqn:E3; [|discriminate Et] end.
    match type of Et with (if ?b then _ else _) = _ => destruct b eqn:E2; [|discriminate Et] end.
    injection Et as <-. pose proof (prefix_idx va) as Hidx.
    apply elem_of_pick. exists (prefix va 4). split; [apply Hidx; lia|]. split; [exact E4|].
    apply elem_of_pick. exists (prefix va 3). split; [apply Hidx; lia|]. split; [exact E3|].
    apply elem_of_pick. exists (prefix va 2). split; [apply Hidx; lia|]. split; [exact E2|].
    apply elem_of_pick. exists (prefix va 1). split; [apply Hidx; lia|]. split; [exact Hp|].
    by rewrite (prefix_join va Hv Ha), list_elem_of_singleton.
Qed.

(** Each level keeps to its part of the address space. *)
Lemma pages1_bounds i j k t x : x ∈ pages1 i j k t -> join i j k 0 <= x < join i j (k + 1) 0.
Proof. intros (l & Hl & _ & ->%list_elem_of_singleton)%elem_of_pick. unfold join. lia. Qed.
Lemma pages2_bounds i j t x : x ∈ pages2 i j t -> join i j 0 0 <= x < join i (j + 1) 0 0.
Proof. intros (k & Hk & _ & Hx%pages1_bounds)%elem_of_pick. unfold join in *. lia. Qed.
Lemma pages3_bounds i t x : x ∈ pages3 i t -> join i 0 0 0 <= x < join (i + 1) 0 0 0.
Proof. intros (j & Hj & _ & Hx%pages2_bounds)%elem_of_pick. unfold join in *. lia. Qed.

Lemma pages_sorted : StronglySorted Z.lt pages.
Proof.
  assert (forall i j k t, StronglySorted Z.lt (pages1 i j k t)) as S1.
  { intros i j k t. apply (pick_sorted _ _ (join i j k 0) 4096); [lia|lia| |intros; repeat constructor].
    intros l x _ ->%list_elem_of_singleton. unfold join. lia. }
  assert (forall i j t, StronglySorted Z.lt (pages2 i j t)) as S2.
  { intros i j t. apply (pick_sorted _ _ (join i j 0 0) 2097152); [lia|lia| |intros; apply S1].
    intros k x _ Hx%pages1_bounds. unfold join in *. lia. }
  assert (forall i t, StronglySorted Z.lt (pages3 i t)) as S3.
  { intros i t. apply (pick_sorted _ _ (join i 0 0 0) 1073741824); [lia|lia| |intros; apply S2].
    intros j x _ Hx%pages2_bounds. unfold join in *. lia. }
  apply (pick_sorted _ _ 0 549755813888); [lia|lia| |intros; apply S3].
  intros i x _ Hx%pages3_bounds. unfold join in *. lia.
Qed.
End dump.

(** [C11] When every table is mapped at its own physical address, the dump returns and
    prints the present pages in ascending order, each once and nothing else: a line
    has the page's virtual address as a 42-bit signed number, the physical page, and
    the flags of its entry. *)
Theorem dump_lists_pages s (Hw : wf s) (Hs : readable s) :
  exists vas, StronglySorted Z.lt vas /\
    (forall va, va ∈ vas <-> 0 <= va < 2 ^ 48 /\ va `mod` PAGE_SIZE = 0 /\ present_bit (pte s va) = true) /\
    dump_to_file s = Ok ((fun va =>
      DumpLine (u64 (swrap 42 va)) (Z.land (pte s va) ADDRESS_MASK)
        (if Z.land (pte s va) RW =? 0 then "r" else "rw") (if Z.land (pte s va) XD =? 0 then "x" else "")) <$> vas).
Proof.
  exists (pages s). split; [apply pages_sorted|]. split; [apply elem_of_pages|]. exact (dump_pages s Hs).
Qed.

Lemma inner_table L p t :
  layout_ok L -> reach (early_init L) p t -> p <> [] -> t ∈ tail (layout_tables L).
Proof.
  intros HL Hr. apply boot_reach in Hr; [|exact HL]. revert Hr. unfold boot_paths, layout_tables. cbn [tail]. rewrite !elem_of_cons, elem_of_nil.
  intros H Hp. naive_solver.
Qed.

(** The six tables below the root, read through the identity mapping. *)
Definition boot_readable : bool :=
  forallb (fun t => forallb (fun j =>
      match mmu_load boot (entry_addr (phys_of t) j) with
      | Ok e => e =? load (mem boot) (entry_addr t j)
      | Fail _ => false
      end) (seqZ 0 NUM_PAGE_TABLE_ENTRIES))
    (tail (layout_tables sample_layout)).

Lemma boot_readable_ok : boot_readable = true.
Proof. vm_compute. reflexivity. Qed.

Lemma dump_lists_pages_witness :
  exists ls, dump_to_file boot = Ok ls /\ page_line 0x1000 (pte boot 0x1000) ∈ ls.
Proof.
  destruct (dump_lists_pages boot boot_state_wf) as (vas & _ & Hx & Hd).
  - intros p t j Hr Hp Hj.
    assert (t ∈ tail (layout_tables sample_layout)) as Ht.
    { exact (inner_table sample_layout p t sample_layout_ok Hr Hp). }
    pose proof boot_readable_ok as Hb. unfold boot_readable in Hb. rewrite forallb_forall in Hb.
    specialize (Hb t (proj1 (list_elem_of_In _ _) Ht)). rewrite forallb_forall in Hb.
    specialize (Hb j (proj1 (list_elem_of_In _ _) (proj2 (elem_of_seqZ 0 512 j) ltac:(unfold idx, NUM_PAGE_TABLE_ENTRIES in Hj; lia)))).
    destruct (mmu_load boot (entry_addr (phys_of t) j)) as [e|]; [|discriminate Hb].
    apply Z.eqb_eq in Hb. by rewrite Hb.
  - eexists. split; [exact Hd|]. apply list_elem_of_fmap. exists 0x1000. split; [reflexivity|]. apply Hx.
    split; [lia|]. split; [reflexivity|vm_compute; reflexivity].
Defined.

(** One step of a dump that returned down a readable path. *)
Lemma dump_step s r u i body ls j :
  each_present entries 0 (fun j => mmu_load s (entry_addr (entry_table_phys (word s u i)) j)) body = Ok ls ->
  reach s (r ++ [i]) (next_table (word s u i)) ->
  (forall j, idx j -> mmu_load s (entry_addr (phys_of (next_table (word s u i))) j)
     = Ok (word s (next_table (word s u i)) j)) ->
  idx j -> present_bit (word s (next_table (word s u i)) j) = true ->
  exists ls', body j (word s (next_table (word s u i)) j) = Ok ls'.
Proof.
  intros He Hr Hread Hj Hpj.
  destruct (each_present_Ok _ _ _ _ _ j He Hj) as (e & Hej & Hb). cbv beta in Hej.
  rewrite <- phys_of_next, Hread in Hej by done. injection Hej as <-. auto.
Qed.

Lemma dump_stuck s e err body ls :
  get_physical_address s (entry_table_phys e) = Fail err ->
  each_present entries 0 (fun j => mmu_load s (entry_addr (entry_table_phys e) j)) body = Ok ls -> False.
Proof.
  intros Hf He. destruct (each_present_Ok _ _ _ _ _ 0 He ltac:(done)) as (x & Hx & _).
  unfold mmu_load, entry_addr in Hx. rewrite Z.mul_0_r, Z.add_0_r, Hf in Hx. discriminate Hx.
Qed.

(** A table that is not mapped at its own physical address, as every
    table of the pool [paging::finish_init] builds, stops the dump (when the walk
    gets to it): its physical address is dereferenced, and that faults. *)
Theorem dump_needs_identity s p t err
    (Hr : reach s p t) (Hp : p <> []) (Hf : get_physical_address s (phys_of t) = Fail err)
    (Hup : forall r u j, reach s r u -> r <> [] -> (length r < length p)%nat -> idx j ->
       mmu_load s (entry_addr (phys_of u) j) = Ok (load (mem s) (entry_addr u j))) :
  exists e, dump_to_file s = Fail e.
Proof.
  destruct (dump_to_file s) as [ls|e] eqn:Ed; [exfalso|by exists e].
  destruct Hr as (Hw & Hl & Hidx). unfold dump_to_file in Ed.
  destruct p as [|i q]; [done|]. apply Forall_cons in Hidx as [Hi Hidx]. cbn [walk] in Hw.
  destruct (each_present_Ok _ _ _ _ _ i Ed Hi) as (e & He & Hb). injection He as <-.
  fold (word s (root s) i) in *. set (e1 := word s (root s) i) in *.
  destruct (present_bit e1) eqn:E1; [|done]. destruct (Hb eq_refl) as [l1 H1].
  assert (reach s [] (root s)) as R0 by (split_and!; [done|simpl; lia|constructor]).
  pose proof (reach_snoc s [] (root s) i R0 ltac:(simpl; lia) Hi E1) as R1.
  destruct q as [|j q].
  { injection Hw as <-. rewrite phys_of_next in Hf. by eapply dump_stuck. }
  apply Forall_cons in Hidx as [Hj Hidx]. cbn [walk] in Hw.
  fold (word s (next_table e1) j) in Hw. set (e2 := word s (next_table e1) j) in *.
  destruct (present_bit e2) eqn:E2; [|done].
  destruct (dump_step _ _ _ _ _ _ j H1 R1) as [l2 H2]; [|exact Hj|exact E2|].
  { intros x. apply (Hup [i]); [exact R1|done|simpl; lia]. }
  fold e1 e2 in H2. pose proof (reach_snoc s [i] _ j R1 ltac:(simpl; lia) Hj E2) as R2.
  destruct q as [|k q].
  { injection Hw as <-. rewrite phys_of_next in Hf. by eapply dump_stuck. }
  apply Forall_cons in Hidx as [Hk Hidx]. cbn [walk] in Hw.
  fold (word s (next_table e2) k) in Hw. set (e3 := word s (next_table e2) k) in *.
  destruct (present_bit e3) eqn:E3; [|done].
  destruct (dump_step _ _ _ _ _ _ k H2 R2) as [l3 H3]; [|exact Hk|exact E3|].
  { intros x. apply (Hup [i; j]); [exact R2|done|simpl; lia]. }
  fold e2 e3 in H3. destruct q as [|]; [|simpl in Hl; lia].
  injection Hw as <-. rewrite phys_of_next in Hf. by eapply dump_stuck.
Qed.

(** The boot tables after a page at 1 GiB was mapped with tables of a pool at
    physical address 0x303000. *)
Definition dynamic_state : paging :=
  match map_page (Paging (mem boot) (root boot) true 0 0 0xFFFFFFFF80303000 2)
          0x400000 0x40000000 DEFAULT_ATTRS with
  | Ok (_, s) => s
  | Fail _ => boot
  end.

Definition level3_readable (s : paging) : bool :=
  forallb (fun x => if present_bit (load (mem s) (entry_addr (root s) x)) then
      let u := next_table (load (mem s) (entry_addr (root s) x)) in
      forallb (fun j => match mmu_load s (entry_addr (phys_of u) j) with
        | Ok e => e =? load (mem s) (entry_addr u j)
        | Fail _ => false
        end) (seqZ 0 NUM_PAGE_TABLE_ENTRIES)
    else true) (seqZ 0 NUM_PAGE_TABLE_ENTRIES).

Lemma dynamic_level3_readable : level3_readable dynamic_state = true.
Proof. vm_compute. reflexivity. Qed.

Lemma level3_readable_spec s r u j :
  level3_readable s = true -> reach s r u -> r <> [] -> (length r < 2)%nat -> idx j ->
  mmu_load s (entry_addr (phys_of u) j) = Ok (load (mem s) (entry_addr u j)).
Proof.
  intros Hb (Hw & _ & Hidx) Hr Hl Hj. destruct r as [|x [|y r]]; [done| |simpl in Hl; lia].
  apply Forall_cons in Hidx as [Hx _]. cbn [walk] in Hw. unfold level3_readable in Hb.
  rewrite forallb_forall in Hb. specialize (Hb x (proj1 (list_elem_of_In _ _) (proj2 (elem_of_seqZ 0 512 x) Hx))).
  destruct (present_bit _); [|done]. injection Hw as <-. rewrite forallb_forall in Hb.
  specialize (Hb j (proj1 (list_elem_of_In _ _) (proj2 (elem_of_seqZ 0 512 j) Hj))).
  destruct (mmu_load _ _) as [e|]; [|discriminate Hb]. apply Z.eqb_eq in Hb. by rewrite Hb.
Qed.

Lemma dump_needs_identity_witness :
  exists e, dump_to_file dynamic_state = Fail e.
Proof.
  refine (dump_needs_identity dynamic_state [0; 1] 0xFFFFFFFF80304000
    (AssertFailed "couldn't find an entry for address!") _ _ _ _).
  - split; [vm_compute; reflexivity|]. split; [simpl; lia|].
    repeat constructor; unfold idx, NUM_PAGE_TABLE_ENTRIES; lia.
  - discriminate.
  - vm_compute. reflexivity.
  - intros r u j Hr Hn Hl Hj. exact (level3_readable_spec dynamic_state r u j dynamic_level3_readable Hr Hn Hl Hj).
Defined.
