(* ===== verification/Optional.v ===== *)
(** * libadt/optional.h: [adt::optional]

    The union's object is tracked together with its lifetime: [Raw] storage
    holds no object, [Object v] a constructed one, and [Written v] the bytes of a
    value that was assigned where no object had been constructed; for a class whose
    assignment needs one, that is undefined.  Every operation also yields the
    member-object events it performs, so that construction, assignment and
    destruction can be counted.  [content] is the abstract view, an [option]. *)
From S2P Require Import Prelude.

Section optional.
Context {T : Type} `{EqDecision T}.

Inductive cell := Raw | Object (v : T) | Written (v : T).

(** [optional_storage]: the union [data] and [has_value]. *)
Record optional := Optional { data : cell; has_value : bool }.

(** What happens to the object in the union. *)
Inductive event :=
| Constructed (v : T)
| Assigned (onto : cell) (v : T)      (* data.value = value *)
| MovedFrom (v : T)                   (* std::move(data.value) *)
| Destroyed (c : cell).               (* data.value.~T() *)

Definition traced (A : Type) : Type := A * list event.

(** [optional()], [optional(const T &)] and [optional(T &&)], [optional(none_t)] *)
Definition empty : optional := Optional Raw false.
Definition make (v : T) : traced optional := (Optional (Object v) true, [Constructed v]).

(** [optional_storage::destroy]; the destructor calls it too. *)
Definition destroy (o : optional) : traced optional :=
  if has_value o then (Optional Raw false, [Destroyed (data o)]) else (Optional (data o) false, []).

(** [data.value = value]: a constructed object takes the value; elsewhere nothing has
    begun an object's lifetime. *)
Definition assigned (c : cell) (v : T) : cell := match c with Object _ => Object v | Raw | Written _ => Written v end.
Definition set_value (o : optional) (v : T) : traced optional :=
  (Optional (assigned (data o) v) true, [Assigned (data o) v]).

(** [get() &&] gives up the value and forgets it. *)
Definition get_rvalue (o : optional) : option (T * traced optional) :=
  match data o with
  | Object v | Written v => Some (v, (Optional (data o) false, [MovedFrom v]))
  | Raw => None
  end.

(** [operator=(const optional &other)] for another object, and for itself. *)
Definition copy_assign (this other : optional) : traced optional :=
  let '(o, ev) := destroy this in
  if has_value other then
    match data other with
    | Object v | Written v => let '(o', ev') := set_value o v in (o', ev ++ ev')
    | Raw => (o, ev)
    end
  else (o, ev).
Definition copy_assign_self (this : optional) : traced optional := (this, []).
Definition copy (other : optional) : traced optional := copy_assign empty other.

(** [operator=(optional &&other)]: the result is [this] and [other]. *)
Definition move_assign (this other : optional) : traced (optional * optional) :=
  let '(o, ev) := destroy this in
  if has_value other then
    match get_rvalue other with
    | Some (v, (other', ev1)) => let '(o', ev2) := set_value o v in ((o', other'), ev ++ ev1 ++ ev2)
    | None => ((o, other), ev)
    end
  else ((o, other), ev).

(** On itself: [destroy] has already emptied the source when it is asked. *)
Definition move_assign_self (this : optional) : traced optional :=
  let '(o, ev) := destroy this in
  if has_value o then (o, ev) else (o, ev).
Definition move (other : optional) : traced (optional * optional) := move_assign empty other.

(** [operator=(T value)] and [operator=(none_t)] *)
Definition assign_value (this : optional) (v : T) : traced optional :=
  let '(tmp, ev1) := make v in
  let '((o, tmp'), ev2) := move_assign this tmp in
  let '(_, ev3) := destroy tmp' in
  (o, ev1 ++ ev2 ++ ev3).
Definition assign_none (this : optional) : traced optional := destroy this.

(** The value the dereference operators give; meaningless without one. *)
Definition deref (o : optional) : option T :=
  match data o with Object v | Written v => Some v | Raw => None end.

(** The comparisons of the friends. *)
Definition optional_eqb (lhs rhs : optional) : bool :=
  if has_value lhs && has_value rhs then
    match deref lhs, deref rhs with
    | Some a, Some b => bool_decide (a = b)
    | _, _ => false
    end
  else has_value lhs && has_value rhs.
Definition optional_neqb (lhs rhs : optional) : bool := negb (optional_eqb lhs rhs).
Definition eqb_value (lhs : optional) (rhs : T) : bool :=
  has_value lhs && match deref lhs with Some a => bool_decide (a = rhs) | None => false end.
Definition eqb_none (lhs : optional) : bool := negb (has_value lhs).

(** ** The abstract view *)

Definition content (o : optional) : option T := if has_value o then deref o else None.

(** Where there is a value, the storage has been given one. *)
Definition wf (o : optional) : Prop := has_value o = true -> data o <> Raw.

Lemma wf_cases o : wf o -> (exists v, (o = Optional (Object v) true \/ o = Optional (Written v) true) /\ content o = Some v) \/
  (exists c, o = Optional c false /\ content o = None).
Proof.
  destruct o as [[|v|v] []]; unfold wf, content, deref; simpl; intros H; try (right; by eexists); [by specialize (H eq_refl)|left..]; exists v; auto.
Qed.

(** [C38] What an [optional] holds behaves as an [option]: copying gives the source's
    content and leaves the source, moving gives the source's content and empties the
    source, assigning [none] empties, and assigning a value stores it.  A value that
    is stored is a constructed object only where one was left behind by a move out of
    the same optional: everywhere else the value is assigned to storage in which no
    object has been constructed, after its own has been destroyed if there was one. *)
Theorem optional_is_option this other v (Hw : wf this) (Hwo : wf other) :
  content (copy_assign this other).1 = content other /\
  (content (move_assign this other).1.1 = content other /\ content (move_assign this other).1.2 = None) /\
  content (assign_value this v).1 = Some v /\ content (assign_none this).1 = None /\
  (wf (copy_assign this other).1 /\ wf (move_assign this other).1.1 /\ wf (assign_value this v).1) /\
  (let onto w := match this with Optional (Object _) false => Object w | _ => Written w end in
   data (assign_value this v).1 = onto v /\
   forall w, content other = Some w ->
     data (copy_assign this other).1 = onto w /\ data (move_assign this other).1.1 = onto w).
Proof.
  destruct (wf_cases this Hw) as [(a & [-> | ->] & _)|([|a|a] & -> & _)];
    destruct (wf_cases other Hwo) as [(b & [-> | ->] & _)|([|d|d] & -> & _)];
    unfold wf, content; simpl; repeat split; try done; cbn in *; congruence.
Qed.

(** Comparing two optionals says "equal" exactly when both hold the same
    value: two empty ones compare unequal, although each compares equal to
    [none]. *)
Theorem equality_of_optionals a b (Ha : wf a) (Hb : wf b) :
  (optional_eqb a b = true <-> exists v, content a = Some v /\ content b = Some v) /\
  (content a = None -> eqb_none a = true /\ optional_eqb a a = false /\ optional_neqb a a = true).
Proof.
  destruct (wf_cases a Ha) as [(x & [-> | ->] & Hx)|(c & -> & Hx)];
    destruct (wf_cases b Hb) as [(y & [-> | ->] & Hy)|(d & -> & Hy)]; rewrite Hx, Hy;
    unfold optional_neqb, optional_eqb, eqb_none; simpl; rewrite ?bool_decide_eq_true; naive_solver.
Qed.

Definition onto_raw (e : event) : bool := match e with Assigned (Raw | Written _) _ => true | _ => false end.
Definition is_destroyed (e : event) : bool := match e with Destroyed _ => true | _ => false end.
Definition is_moved (e : event) : bool := match e with MovedFrom _ => true | _ => false end.

(** The member object's lifetime: a copy or move into an empty optional
    assigns to storage in which no object was constructed, and an object a value
    was moved out of is never destroyed, because its optional already counts as
    empty. *)
Theorem lifetime_of_values v :
  let src := (make v).1 in
  (existsb onto_raw (copy src).2 = true /\ existsb onto_raw (move src).2 = true) /\
  (existsb is_moved (move src).2 = true /\
   data (move src).1.2 = Object v /\ existsb is_destroyed (destroy (move src).1.2).2 = false).
Proof. done. Qed.
End optional.

#[global] Arguments cell : clear implicits.
#[global] Arguments optional : clear implicits.
#[global] Arguments event : clear implicits.

Lemma optional_is_option_witness :
  content (copy_assign (make 1).1 (make 2).1).1 = Some 2.
Proof.
  refine (proj1 (optional_is_option (make 1).1 (make 2).1 3 _ _)); intros _ H; discriminate H.
Defined.

Lemma equality_of_optionals_witness :
  optional_eqb (empty (T := Z)) empty = false /\ optional_eqb (make 1).1 (make 1).1 = true.
Proof.
  assert (wf (empty (T := Z))) as He by (intros H; discriminate H).
  assert (wf (make 1).1) as H1 by (intros _ H; discriminate H).
  split; [apply (proj2 (equality_of_optionals empty empty He He)); reflexivity|].
  apply (proj1 (equality_of_optionals _ _ H1 H1)). exists 1. split; reflexivity.
Defined.
