(* ===== verification/Elf.v ===== *)
(** * kernel/elf.h and kernel/dwarf.cpp: symbols of the kernel image

    The header accessors over the byte-addressed memory of [CString.v], and the
    decoder of LEB128 numbers.  [elf::init] only holds commented-out code, so the
    header pointer it would set stays null. *)
From S2P Require Import Prelude Util CString.

#[local] Arguments wrap : simpl never.

(** A little-endian field of [n] bytes at [a]. *)
Definition le_value (bs : list Z) : Z := foldr (fun b acc => b + 256 * acc) 0 bs.
Definition field_at (m : gmap Z Z) (a : Z) (n : nat) : outcome Z :=
  bs ← load_bytes m a n; Ok (le_value bs).

(** [sizeof(section)], the packed offsets of its fields, and those of [header]. *)
Definition SIZEOF_SECTION : Z := 64.
Definition section_name_field (m : gmap Z Z) (s : Z) : outcome Z := field_at m s 4.
Definition section_type (m : gmap Z Z) (s : Z) : outcome Z := field_at m (s + 4) 4.
Definition section_offset (m : gmap Z Z) (s : Z) : outcome Z := field_at m (s + 24) 8.
Definition section_size (m : gmap Z Z) (s : Z) : outcome Z := field_at m (s + 32) 8.

Definition section_header_table_offset (m : gmap Z Z) (h : Z) : outcome Z := field_at m (h + 40) 8.
Definition size_of_section_header_table_entry (m : gmap Z Z) (h : Z) : outcome Z := field_at m (h + 58) 2.
Definition num_of_section_header_table_entries (m : gmap Z Z) (h : Z) : outcome Z := field_at m (h + 60) 2.
Definition section_index_to_section_header_string_table (m : gmap Z Z) (h : Z) : outcome Z :=
  field_at m (h + 62) 2.

Definition sections_begin (m : gmap Z Z) (h : Z) : outcome Z :=
  off ← section_header_table_offset m h; Ok (u64 (h + off)).
Definition sections_end (m : gmap Z Z) (h : Z) : outcome Z :=
  b ← sections_begin m h;
  n ← num_of_section_header_table_entries m h;
  Ok (u64 (b + SIZEOF_SECTION * n)).

(** The sections a loop over [sections()] visits: a pointer to [section] moves
    by its size until it equals the end. *)
Definition sections (m : gmap Z Z) (h : Z) : outcome (list Z) :=
  b ← sections_begin m h;
  n ← num_of_section_header_table_entries m h;
  Ok ((fun i => u64 (b + SIZEOF_SECTION * i)) <$> seqZ 0 n).

Definition sections_size (m : gmap Z Z) (h : Z) : outcome Z :=
  s ← size_of_section_header_table_entry m h;
  n ← num_of_section_header_table_entries m h;
  Ok (u64 (s32 (s * n))).

(** 0 is the null pointer. *)
Definition section_by_index (m : gmap Z Z) (h index : Z) : outcome Z :=
  n ← num_of_section_header_table_entries m h;
  _ ← assert_ (index <? n) "section index out of range!";
  b ← sections_begin m h;
  s ← size_of_section_header_table_entry m h;
  let addr := u64 (b + u64 (s32 (index * s))) in
  ty ← section_type m addr;
  Ok (if ty =? 0 then 0 else addr).

Definition section_name_string_table (m : gmap Z Z) (h : Z) : outcome Z :=
  i ← section_index_to_section_header_string_table m h;
  string_section ← section_by_index m h i;
  off ← section_offset m string_section;
  let addr := u64 (h + off) in
  Ok (if negb (string_section =? 0) then addr else 0).

Definition section_name (m : gmap Z Z) (h s : Z) : outcome Z :=
  t ← section_name_string_table m h;
  n ← section_name_field m s;
  Ok (u64 (t + n)).

Definition string_table_size (m : gmap Z Z) (h : Z) : outcome Z :=
  i ← section_index_to_section_header_string_table m h;
  strings ← section_by_index m h i;
  if negb (strings =? 0) then section_size m strings else Ok 0.

(** ** [decode_leb128] *)

(** The loop from byte [i] on; [char] is signed.  The result is the number and
    the value stored through [len]. *)
Fixpoint decode_loop (fuel : nat) (data : Z -> Z) (result i : Z) : outcome (option (Z * Z)) :=
  match fuel with
  | O => Fail Diverges
  | S f =>
      let input := s8 (data i) in
      let result := u64 (Z.lor result (Z.shiftl (Z.land (u64 input) (wnot 64 0x80)) (8 * i))) in
      if Z.land input 0x80 =? 0 then Ok (Some (result, i))
      else
        let i := i + 1 in
        if 8 <=? i then Ok None else decode_loop f data result i
  end.

Definition decode_leb128 (data : Z -> Z) : outcome (option (Z * Z)) := decode_loop 8 data 0 0.

(** ** Header accessors *)

Lemma le_value_range bs : Forall (fun b => 0 <= b < 256) bs -> 0 <= le_value bs < 256 ^ Z.of_nat (length bs).
Proof.
  induction 1 as [|b bs Hb _ IH]; [done|]. cbn [le_value foldr length]. fold (le_value bs).
  rewrite Nat2Z.inj_succ, Z.pow_succ_r by lia. lia.
Qed.

(** Indexing by the header's entry size and walking [sections()] agree for
    entries of 64 bytes: the section of an index in range is the one the loop
    visits at that position, or null when its type is 0. *)
Theorem section_by_index_visited m h b n index ss
    (Hb : sections_begin m h = Ok b) (Hn : num_of_section_header_table_entries m h = Ok n)
    (Hs : size_of_section_header_table_entry m h = Ok SIZEOF_SECTION)
    (Hr : 0 <= index < 2 ^ 16) (Hss : sections m h = Ok ss) :
  if index <? n then
    exists s, ss !! Z.to_nat index = Some s /\
      section_by_index m h index = (ty ← section_type m s; Ok (if ty =? 0 then 0 else s))
  else section_by_index m h index = Fail (AssertFailed "section index out of range!").
Proof.
  unfold section_by_index, sections in *. rewrite Hn, Hb, Hs in *. cbn [mbind outcome_bind] in *.
  injection Hss as <-. destruct (index <? n) eqn:E; [|done]. bool_to_prop.
  cbn [assert_ mbind outcome_bind]. exists (u64 (b + SIZEOF_SECTION * index)). split.
  - rewrite list_lookup_fmap, lookup_seqZ_lt by lia. rewrite Z2Nat.id by lia. done.
  - unfold SIZEOF_SECTION. rewrite (swrap_small 32) by (simpl; lia).
    rewrite (wrap_small 64 (index * 64)), (Z.mul_comm 64 index) by lia. done.
Qed.

(** The check for a missing string table comes too late: when the header
    names a section of type 0, the field of the null section is read first, at
    address 24, and that faults where the first page is not mapped. *)
Theorem missing_string_table m h i
    (Hi : section_index_to_section_header_string_table m h = Ok i)
    (Hnull : section_by_index m h i = Ok 0) (Hpage : m !! 24 = None) :
  section_name_string_table m h = Fail OutOfBounds /\ string_table_size m h = Ok 0.
Proof.
  unfold section_name_string_table, string_table_size. rewrite Hi. cbn [mbind outcome_bind].
  rewrite Hnull. cbn [mbind outcome_bind]. split; [|done].
  unfold section_offset, field_at. cbn [load_bytes]. unfold load.
  change (0 + 24) with 24. by rewrite Hpage.
Qed.

(** ** What the decoder computes *)

Definition continues (b : Z) : bool := 128 <=? b.

(** The number a LEB128 sequence stands for. *)
Fixpoint leb128 (bs : list Z) : Z :=
  match bs with
  | [] => 0
  | b :: bs' => b mod 128 + 128 * leb128 bs'
  end.

Lemma input_bits b : 0 <= b < 256 ->
  (Z.land (s8 b) 0x80 =? 0) = negb (continues b) /\
  Z.land (u64 (s8 b)) (wnot 64 0x80) = if continues b then 2 ^ 64 - 256 + (b - 128) else b.
Proof.
  intros Hb.
  assert (forallb (fun b => eqb (Z.land (s8 b) 0x80 =? 0) (negb (continues b)) &&
    (Z.land (u64 (s8 b)) (wnot 64 0x80) =? if continues b then 2 ^ 64 - 256 + (b - 128) else b))
    (seqZ 0 256) = true) as H by (vm_compute; reflexivity).
  rewrite forallb_forall in H. specialize (H b).
  rewrite <- list_elem_of_In, elem_of_seqZ in H. specialize (H ltac:(lia)).
  apply andb_true_iff in H as [H1 H2]. apply eqb_prop in H1. by apply Z.eqb_eq in H2.
Qed.

(** All bits from 8 on are set once the first byte has its top bit. *)
Definition saturated (r low : Z) : Prop := r = 2 ^ 64 - 256 + low /\ 0 <= low < 128.

Lemma saturated_lor r low x i :
  saturated r low -> 1 <= i -> u64 (Z.lor r (Z.shiftl x (8 * i))) = r.
Proof.
  intros [-> Hl] Hi. apply Z.bits_inj'. intros n Hn.
  assert (2 ^ 64 - 256 + low = Z.lor (Z.shiftl (Z.ones 56) 8) low) as ->.
  { rewrite lor_shiftl by lia. change (Z.ones 56) with (2 ^ 56 - 1). lia. }
  destruct (Z.lt_ge_cases n 64).
  - rewrite wrap_testbit by lia. destruct (n <? 64) eqn:E; bool_to_prop; [|lia]. simpl.
    rewrite !Z.lor_spec, (Z.shiftl_spec x) by lia. destruct (Z.lt_ge_cases n 8).
    + rewrite (Z.testbit_neg_r x) by lia. by rewrite orb_false_r.
    + rewrite Z.shiftl_spec, Z.ones_spec_low by lia. done.
  - rewrite wrap_testbit by lia. destruct (n <? 64) eqn:E; bool_to_prop; [lia|]. simpl.
    rewrite !Z.lor_spec, Z.shiftl_spec, Z.ones_spec_high by lia.
    rewrite (testbit_high 8 low) by lia. done.
Qed.

Lemma leb128_range bs : 0 <= leb128 bs < 128 ^ Z.of_nat (length bs).
Proof.
  induction bs as [|b bs IH]; [done|]. cbn [leb128 length]. rewrite Nat2Z.inj_succ, Z.pow_succ_r by lia.
  pose proof (Z.mod_pos_bound b 128). lia.
Qed.

(** The first turn. *)
Lemma decode_first f data : (forall j, 0 <= data j < 256) ->
  decode_loop (S (S f)) data 0 0 =
    if continues (data 0) then decode_loop (S f) data (2 ^ 64 - 256 + (data 0 - 128)) 1
    else Ok (Some (data 0, 0)).
Proof.
  intros Hd. destruct (input_bits (data 0) (Hd 0)) as [Hc Hv]. specialize (Hd 0) as H0.
  assert (forall r i, decode_loop (S (S f)) data r i =
    (let result := u64 (Z.lor r (Z.shiftl (Z.land (u64 (s8 (data i))) (wnot 64 0x80)) (8 * i))) in
     if Z.land (s8 (data i)) 0x80 =? 0 then Ok (Some (result, i))
     else if 8 <=? i + 1 then Ok None else decode_loop (S f) data result (i + 1))) as Hstep by done.
  rewrite Hstep. cbv zeta. rewrite Z.mul_0_r, Z.shiftl_0_r, Z.lor_0_l, Hv, Hc.
  destruct (continues (data 0)) eqn:E; cbn [negb].
  - apply Z.leb_le in E. rewrite (wrap_small 64) by lia. done.
  - by rewrite (wrap_small 64) by lia.
Qed.

Lemma decode_saturated data low : forall fuel i,
  (8 <= Z.of_nat fuel + i) -> 1 <= i < 8 -> (forall j, 0 <= data j < 256) ->
  saturated (2 ^ 64 - 256 + low) low ->
  decode_loop fuel data (2 ^ 64 - 256 + low) i = Ok
    (match list_find (fun j => continues (data j) = false) (seqZ i (8 - i)) with
     | Some (_, j) => Some (2 ^ 64 - 256 + low, j)
     | None => None
     end).
Proof.
  induction fuel as [|f IH]; intros i Hf Hi Hd Hs; [lia|]. cbn [decode_loop].
  rewrite (saturated_lor _ low) by (done || lia).
  destruct (input_bits (data i) (Hd i)) as [-> _]. rewrite seqZ_cons by lia. cbn [list_find].
  destruct (continues (data i)) eqn:E; cbn [negb].
  - rewrite decide_False by congruence. destruct (8 <=? i + 1) eqn:E8; bool_to_prop.
    + rewrite seqZ_nil by lia. done.
    + rewrite IH by (done || lia). replace (Z.pred (8 - i)) with (8 - (i + 1)) by lia.
      change (Z.succ i) with (i + 1). by destruct (list_find _ _) as [[? ?]|].
  - by rewrite decide_True.
Qed.

(** [decode_leb128] on every input: a single byte is decoded to itself
    with length 0; a number of [n] bytes, 2 to 8, gives [2^64 - 256] plus the low
    seven bits of the first byte, whatever the other bytes are, and the length
    [n - 1]; nine or more bytes give [none].  A number of several bytes is never
    decoded correctly. *)
Theorem decode_leb128_exact data (Hd : forall j, 0 <= data j < 256) :
  decode_leb128 data = Ok
    (match list_find (fun j => continues (data j) = false) (seqZ 0 8) with
     | Some (_, j) => Some (if j =? 0 then data 0 else 2 ^ 64 - 256 + (data 0 - 128), j)
     | None => None
     end) /\
  forall bs, continues (data 0) = true -> (length bs <= 7)%nat ->
    leb128 (data 0 :: bs) <> 2 ^ 64 - 256 + (data 0 - 128).
Proof.
  specialize (Hd 0) as H0. split.
  - unfold decode_leb128. rewrite decode_first by done.
    change (seqZ 0 8) with (0 :: seqZ 1 7). cbn [list_find].
    destruct (continues (data 0)) eqn:E.
    + rewrite decide_False by congruence. apply Z.leb_le in E.
      rewrite (decode_saturated data (data 0 - 128) 7 1) by (done || lia || (split; [done|lia])).
      change (8 - 1) with 7. destruct (list_find _ (seqZ 1 7)) as [[k j]|] eqn:Ef; [|done].
      apply list_find_Some in Ef as (Hk & _). apply lookup_seqZ in Hk as [-> _]. cbn.
      by destruct (1 + Z.of_nat k =? 0) eqn:Ez; bool_to_prop; [lia|].
    + by rewrite decide_True.
  - intros bs Hcont Hlen. apply Z.leb_le in Hcont. pose proof (leb128_range (data 0 :: bs)) as Hr.
    assert (128 ^ Z.of_nat (length (data 0 :: bs)) <= 128 ^ 8)
      by (apply Z.pow_le_mono_r; [done|cbn [length]; lia]). change (128 ^ 8) with (2 ^ 56) in *. lia.
Qed.

(** The three bytes of 624485. *)
Definition sample_leb128 (j : Z) : Z := if j =? 0 then 0xE5 else if j =? 1 then 0x8E else 0x26.

Lemma sample_leb128_bytes j : 0 <= sample_leb128 j < 256.
Proof. unfold sample_leb128. destruct (j =? 0); [|destruct (j =? 1)]; lia. Qed.

Lemma decode_leb128_exact_witness :
  decode_leb128 sample_leb128 = Ok (Some (2 ^ 64 - 256 + 0x65, 2)) /\
  leb128 [0xE5; 0x8E; 0x26] = 624485.
Proof.
  split; [|reflexivity].
  rewrite (proj1 (decode_leb128_exact sample_leb128 sample_leb128_bytes)). reflexivity.
Defined.

(** Two section headers behind a header at 0x1000: the null one and a string table. *)
Definition sample_elf : gmap Z Z :=
  let zeros := list_to_map ((fun i => (0x1000 + i, 0)) <$> seqZ 0 256) in
  <[0x1028 := 64]> (<[0x103A := 64]> (<[0x103C := 2]> (<[0x103E := 0]> (<[0x1084 := 3]> zeros)))).

Lemma section_by_index_visited_witness :
  exists s, section_by_index sample_elf 0x1000 1 = Ok s /\ s = 0x1080.
Proof.
  pose proof (section_by_index_visited sample_elf 0x1000 0x1040 2 1 [0x1040; 0x1080]
    ltac:(vm_compute; reflexivity) ltac:(vm_compute; reflexivity) ltac:(vm_compute; reflexivity)
    ltac:(lia) ltac:(vm_compute; reflexivity)) as (s & Hs & Heq).
  exists s. injection Hs as <-. split; [|reflexivity]. rewrite Heq. vm_compute. reflexivity.
Defined.

Lemma missing_string_table_witness : section_name_string_table sample_elf 0x1000 = Fail OutOfBounds.
Proof.
  apply (missing_string_table sample_elf 0x1000 0); vm_compute; reflexivity.
Defined.
