(* ===== verification/Cast.v ===== *)
(** * kernel/util/cast.h: tagged downcasts

    An object is its two members.  The casts test [tag], which the constructors of
    [DerivedA] and [DerivedB] do not write: an object is built from whatever value
    its storage held. *)
From S2P Require Import Prelude.

(** [enum Tag { A, B } tag] and [int val]. *)
Definition A : Z := 0.
Definition B : Z := 1.
Record object := Object { tag : Z; val : Z }.

(** The classes with a [classof]. *)
Inductive class := DerivedA | DerivedB.

(** [int val = 1;] and [int val = 2;]; [tag] keeps the contents of the storage. *)
Definition construct (c : class) (storage : Z) : object :=
  Object storage (match c with DerivedA => 1 | DerivedB => 2 end).

Definition classof (to : class) (v : object) : bool :=
  match to with DerivedA => tag v =? A | DerivedB => tag v =? B end.

Definition isa (to : class) (v : object) : bool := classof to v.

(** A pointer is null or refers to the object. *)
Definition try_cast (to : class) (v : object) : option object := if isa to v then Some v else None.

Definition cast (to : class) (v : object) : outcome (option object) :=
  _ ← assert_ (isa to v) "not a valid cast!";
  Ok (if isa to v then Some v else None).

(** [foo], for the contents of the storage of its two objects. *)
Definition foo (storage_a storage_b : Z) : Z :=
  match try_cast DerivedA (construct DerivedA storage_a) with
  | Some AA => val AA
  | None =>
      match try_cast DerivedB (construct DerivedB storage_b) with
      | Some BB => val BB
      | None => 1
      end
  end.

(** What a cast of a freshly constructed object comes to is decided by its storage
    alone, not by its class: a [DerivedA] whose storage held 1 is cast to [DerivedB],
    and not to [DerivedA]. *)
Theorem constructors_do_not_tag c storage :
  try_cast DerivedA (construct c storage) = (if storage =? 0 then Some (construct c storage) else None) /\
  try_cast DerivedB (construct c storage) = (if storage =? 1 then Some (construct c storage) else None) /\
  cast DerivedB (construct DerivedA 1) = Ok (Some (construct DerivedA 1)) /\
  cast DerivedA (construct DerivedA 1) = Fail (AssertFailed "not a valid cast!").
Proof. done. Qed.

(** [foo] takes its first object for a [DerivedA] or not as the stack happens to be;
    its result is 2 only for an [A] that does not look like one and a [B] that does. *)
Theorem foo_depends_on_storage a b : foo a b = 2 <-> a <> 0 /\ b = 1.
Proof.
  unfold foo, try_cast, isa, classof. cbn [tag construct val]. unfold A, B.
  destruct (Z.eqb_spec a 0) as [->|Ha]; [split; [done|naive_solver]|]. cbn.
  destruct (Z.eqb_spec b 1) as [->|Hb]; cbn; naive_solver.
Qed.
