(* ===== verification/Thunk.v ===== *)
(** * kernel/thunk.h: lazily computed values

    A thunk keeps the function and its arguments until the value is asked for,
    and the value afterwards.  Calls of the function are counted in a trace, and
    the argument block on the heap is followed so that leaks and double frees
    would show. *)
From S2P Require Import Prelude.

Section thunk.
Context {T Args : Type}.

(** The function pointer with the arguments it will get. *)
Definition callable : Type := (Args -> T).

Inductive deleter := delete_fn | do_nothing.

Record Thunk := MkThunk {
  Cached : option T;
  F : option callable;            (* with [Getter]: both null after [clear] *)
  Deleter : deleter;
  ParamData : option (Z * Args)   (* the heap block and what it holds *)
}.

(** Heap and call events. *)
Inductive event :=
| Allocated (block : Z)
| Called (a : Args)
| Freed (block : Z).

(** The constructor: the tuple of arguments goes to a block [alloc::one] gives. *)
Definition construct (f : callable) (a : Args) (block : Z) : Thunk * list event :=
  (MkThunk None (Some f) delete_fn (Some (block, a)), [Allocated block]).

Definition make_thunk (f : callable) (a : Args) (block : Z) : Thunk * list event := construct f a block.

(** [compute]: a null [Getter] or block cannot be called. *)
Definition compute (t : Thunk) : outcome (T * list event) :=
  match F t, ParamData t with
  | Some f, Some (_, a) => Ok (f a, [Called a])
  | _, _ => Fail (Undefined "call through a null member pointer")
  end.

(** [operator*] *)
Definition deref (t : Thunk) : outcome (T * Thunk * list event) :=
  match Cached t with
  | Some v => Ok (v, t, [])
  | None => '(v, ev) ← compute t; Ok (v, MkThunk (Some v) (F t) (Deleter t) (ParamData t), ev)
  end.

(** [clear] does not touch [Cached]: a moved-from [std::optional] still holds
    its (moved-from) value. *)
Definition clear (t : Thunk) : Thunk := MkThunk (Cached t) None do_nothing None.

(** The move constructor: the new thunk and what is left of the old one. *)
Definition move (other : Thunk) : Thunk * Thunk :=
  (MkThunk (Cached other) (F other) (Deleter other) (ParamData other), clear other).

(** The two functions [Deleter] can point at, on the block it is given. *)
Definition run_deleter (d : deleter) (data : option (Z * Args)) : outcome (list event) :=
  match d with
  | do_nothing => Ok []
  | delete_fn => match data with Some (b, _) => Ok [Freed b] | None => Fail (Undefined "free of a null tuple") end
  end.

(** The destructor. *)
Definition destroy (t : Thunk) : outcome (list event) := run_deleter (Deleter t) (ParamData t).

(** ** A thunk computes once *)

Fixpoint derefs (n : nat) (t : Thunk) : outcome (list T * Thunk * list event) :=
  match n with
  | O => Ok ([], t, [])
  | S n' =>
      '(v, t1, ev1) ← deref t;
      '(vs, t2, ev2) ← derefs n' t1;
      Ok (v :: vs, t2, ev1 ++ ev2)
  end.

Lemma derefs_cached n t v :
  Cached t = Some v -> derefs n t = Ok (replicate n v, t, []).
Proof.
  intros H. induction n as [|n IH]; [done|]. cbn [derefs]. unfold deref. rewrite H.
  cbn [mbind outcome_bind]. rewrite IH. done.
Qed.

(** A thunk is lazy and computes once: making it and moving it calls
    nothing; however often it is dereferenced, before or after a move, every
    dereference gives the value of the function at the arguments, and the function
    has been called once if there was a dereference and not at all otherwise;
    its argument block is freed once, by the thunk moved to. *)
Theorem thunk_computes_once f a block (n k : nat) :
  let '(t0, ev0) := make_thunk f a block in
  exists t1 ev1 t3 ev3, derefs n t0 = Ok (replicate n (f a), t1, ev1) /\
    let '(t2, old) := move t1 in
    derefs k t2 = Ok (replicate k (f a), t3, ev3) /\
    ev0 ++ ev1 ++ ev3 = Allocated block :: (if (n + k =? 0)%nat then [] else [Called a]) /\
    destroy old = Ok [] /\ destroy t3 = Ok [Freed block].
Proof.
  unfold make_thunk, construct. destruct n as [|n].
  - do 2 eexists. destruct k as [|k].
    + do 2 eexists. split; [done|]. cbn. done.
    + do 2 eexists. split; [done|]. unfold move. cbn [derefs deref compute Cached F ParamData mbind outcome_bind].
      rewrite (derefs_cached k _ (f a)) by done. split; [done|]. done.
  - cbn [derefs deref compute Cached F ParamData mbind outcome_bind].
    rewrite (derefs_cached n _ (f a)) by done. do 4 eexists. split; [done|]. unfold move.
    rewrite (derefs_cached k _ (f a)) by done. done.
Qed.
End thunk.
