(* ===== verification/PageLookup.v ===== *)
(** * kernel/paging.h: the direct page lookup

    [page_entry_lookup_info] walks the four tables by address, without the
    iterator; [get_page_entry_info] of paging.cpp, which fills it, is the older
    form of [page_tables::get] and [find] and is still in the file between [#if 0]
    and [#endif].  The theorems compare the two: the allocating lookup is [get];
    the other one finds what [find] finds, but takes a missing table for a table
    at the kernel's base address. *)
From S2P Require Import Prelude Util Memory Paging PageTables PagingInit PageOps.

#[local] Arguments Z.land : simpl never.
#[local] Arguments Z.lor : simpl never.
#[local] Arguments wrap : simpl never.

(** [entry] is the address of the level-1 entry; [li_tables] is in the order of
    the source, the level-4 table first. *)
Record page_entry_lookup_info := LookupInfo {
  li_indices : list Z;
  entry : Z;
  li_tables : list Z
}.

(** The loop of the constructor, from [i] on. *)
Fixpoint fill_indices (n : nat) (i address : Z) (indices : list Z) : list Z :=
  match n with
  | O => indices
  | S n' =>
      fill_indices n' (i + 1) (Z.shiftr address LOG2_PAGE_TABLE_SIZE)
        (zset indices (3 - i) (Z.land address PREFIX_MASK))
  end.

Definition lookup_info (address : Z) : page_entry_lookup_info :=
  LookupInfo (fill_indices 4 0 (Z.shiftr address LOG2_PAGE_ALIGN) [0; 0; 0; 0]) 0 [0; 0; 0; 0].

Definition exists_ (h : page_entry_lookup_info) : outcome bool :=
  _ ← assert_ ((entry h =? 0) || forallb (fun t => negb (t =? 0)) (li_tables h)) "inconsistent lookup info!";
  Ok (negb (entry h =? 0)).

(** [*entry] *)
Definition deref (s : paging) (h : page_entry_lookup_info) : outcome Z :=
  if entry h =? 0 then Fail (Undefined "null entry") else Ok (load (mem s) (entry h)).

Definition present (s : paging) (h : page_entry_lookup_info) : outcome bool :=
  _ ← assert_ (negb (entry h =? 0)) "entry doesn't exist!";
  e ← deref s h; Ok (present_bit e).

(** [entry_at_level]: the address of the entry. *)
Definition entry_at_level (h : page_entry_lookup_info) (n : Z) : outcome Z :=
  _ ← assert_ ((1 <=? n) && (n <=? 4)) "valid levels are 1 - 4";
  let t := lget (li_tables h) (4 - n) in
  if t =? 0 then Fail (Undefined "null table") else Ok (entry_addr t (lget (li_indices h) (4 - n))).

Definition physical_page_address (s : paging) (h : page_entry_lookup_info) : outcome Z :=
  e ← deref s h; Ok (Z.land e ADDRESS_MASK).

Definition set_attributes (s : paging) (h : page_entry_lookup_info) (attrs : Z) : outcome paging :=
  e ← deref s h;
  Ok (with_mem s (<[entry h := Z.lor (Z.land e (wnot 64 ALL_MASK)) attrs]> (mem s))).

(** [allocate_table_if_null] on the entry at address [a]. *)
Definition allocate_table_if_null (s : paging) (a : Z) : outcome paging :=
  if load (mem s) a =? 0 then
    _ ← assert_ (allocate_set s) "tried to allocate before table allocator was initialized!";
    '(addr, s1) ← allocate_page_level s;
    Ok (with_mem s1 (<[a := Z.lor (Z.lor addr RW) PRESENT]> (mem s1)))
  else Ok s.

Definition with_table (h : page_entry_lookup_info) (i t : Z) : page_entry_lookup_info :=
  LookupInfo (li_indices h) (entry h) (zset (li_tables h) i t).

(** One level: the table behind the entry at level [n] becomes [tables[5 - n]]. *)
Definition allocate_level (s : paging) (h : page_entry_lookup_info) (n : Z)
    : outcome (page_entry_lookup_info * paging) :=
  a ← entry_at_level h n;
  s' ← allocate_table_if_null s a;
  Ok (with_table h (5 - n) (kernel_ptr (entry_table_phys (load (mem s') a))), s').

(** The nested [if]s of the other branch. *)
Fixpoint follow_levels (k : nat) (s : paging) (h : page_entry_lookup_info) (n : Z)
    : outcome page_entry_lookup_info :=
  match k with
  | O => Ok h
  | S k' =>
      a ← entry_at_level h n;
      let t := kernel_ptr (entry_table_phys (load (mem s) a)) in
      let h' := with_table h (5 - n) t in
      if t =? 0 then Ok h' else follow_levels k' s h' (n - 1)
  end.

Definition finish (h : page_entry_lookup_info) : outcome page_entry_lookup_info :=
  if lget (li_tables h) 3 =? 0 then Ok h
  else e ← entry_at_level h 1; Ok (LookupInfo (li_indices h) e (li_tables h)).

Definition get_page_entry_info (s : paging) (virtual_page_address : Z) (allocate_levels_if_null : bool)
    : outcome (page_entry_lookup_info * paging) :=
  let handle := with_table (lookup_info virtual_page_address) 0 (root s) in
  if allocate_levels_if_null then
    '(h1, s1) ← allocate_level s handle 4;
    '(h2, s2) ← allocate_level s1 h1 3;
    '(h3, s3) ← allocate_level s2 h2 2;
    h ← finish h3; Ok (h, s3)
  else
    h ← follow_levels 3 s handle 4;
    h ← finish h; Ok (h, s).

(** ** The lookup beside the iterator *)

Lemma lookup_indices va : li_indices (lookup_info va) = [prefix va 4; prefix va 3; prefix va 2; prefix va 1].
Proof.
  unfold lookup_info, prefix. cbn [li_indices fill_indices]. unfold LOG2_PAGE_ALIGN, LOG2_PAGE_TABLE_SIZE.
  rewrite !Z.shiftr_shiftr by lia. done.
Qed.

(** The lookup has the tables the iterator has visited after [k] descents. *)
Record beside (va : Z) (k : nat) (h : page_entry_lookup_info) (it : iterator) : Prop := {
  beside_indices : li_indices h = [prefix va 4; prefix va 3; prefix va 2; prefix va 1];
  beside_length : length (li_tables h) = 4%nat;
  beside_tables : forall j, (j <= k)%nat -> lget (li_tables h) (Z.of_nat j) = lget (tables it) (3 - Z.of_nat j)
}.

Lemma beside_begin s va : beside va 0 (with_table (lookup_info va) 0 (root s)) (iterator_at (root s) va).
Proof.
  split; [apply lookup_indices|done|]. intros j Hj. by replace j with 0%nat by lia.
Qed.

Lemma beside_entry s va k h it : wf s -> (k <= 3)%nat -> cursor s va k it -> beside va k h it ->
  entry_at_level h (4 - Z.of_nat k) = Ok (entry_addr (table it) (index it)).
Proof.
  intros Hw Hk Hc [Hi Hl Ht]. unfold entry_at_level. replace (4 - (4 - Z.of_nat k)) with (Z.of_nat k) by lia.
  rewrite Ht by done. pose proof (cursor_table _ _ _ _ Hw Hc) as [Hta _].
  assert (lget (tables it) (3 - Z.of_nat k) = table it) as ->.
  { unfold table. by rewrite (cursor_level _ _ _ _ Hc). }
  rewrite (cursor_index s va k it Hk Hc), Hi. case_if; [lia|].
  destruct k as [|[|[|[|]]]]; [done..|lia].
Qed.

Lemma beside_down va k h it t : (k <= 2)%nat -> _level it = 3 - Z.of_nat k -> length (tables it) = 4%nat ->
  beside va k h it -> beside va (S k) (with_table h (5 - (4 - Z.of_nat k)) t) (down_to it t).
Proof.
  intros Hk Hlv Hlt [Hi Hl Ht]. replace (5 - (4 - Z.of_nat k)) with (Z.of_nat (S k)) by lia.
  split; [done|cbn [li_tables with_table]; unfold zset; case_if; [done|by rewrite length_insert]|].
  intros j Hj. cbn [li_tables with_table tables down_to]. unfold lget. rewrite Hlv. destruct (decide (j = S k)) as [->|Hne].
  - replace (3 - Z.of_nat k - 1) with (3 - Z.of_nat (S k)) by lia.
    rewrite !zget_zset_eq by (unfold zlen; lia). done.
  - rewrite !zget_zset_ne by lia. apply Ht. lia.
Qed.

(** One allocating step does what the iterator's does. *)
Lemma allocate_level_spec s va k h it : wf s -> (k <= 2)%nat -> cursor s va k it -> beside va k h it ->
  match allocate_and_descend s it with
  | Ok (it', s') => exists h', allocate_level s h (4 - Z.of_nat k) = Ok (h', s') /\ beside va (S k) h' it'
  | Fail _ => exists e, allocate_level s h (4 - Z.of_nat k) = Fail e
  end.
Proof.
  intros Hw Hk Hc Hb. pose proof (cursor_table _ _ _ _ Hw Hc) as [Ht _].
  pose proof (cursor_idx s va k it ltac:(lia) Hc) as Hi.
  pose proof (cursor_load s va k it Hw ltac:(lia) Hc) as Hload.
  pose proof (path_take_length va k ltac:(lia)) as Hlen.
  unfold allocate_level. rewrite (beside_entry s va k h it Hw ltac:(lia) Hc Hb). cbn [mbind outcome_bind].
  unfold allocate_and_descend, allocate_table_if_null. set (a := entry_addr (table it) (index it)) in *.
  assert ((1 <? level it) = true) as -> by
    (apply Z.ltb_lt; unfold level; rewrite (cursor_level _ _ _ _ Hc); lia).
  assert ((index it <? NUM_PAGE_TABLE_ENTRIES) = true) as -> by (apply Z.ltb_lt, Hi).
  assert ((table it =? 0) = false) as -> by (apply Z.eqb_neq; lia).
  cbn [assert_ mbind outcome_bind negb]. rewrite Hload. cbn [mbind outcome_bind].
  pose proof (fun t => beside_down va k h it t Hk (cursor_level _ _ _ _ Hc) (cursor_tables _ _ _ _ Hc) Hb) as Hd.
  destruct (wf_inner s Hw _ _ _ (cursor_reach _ _ _ _ Hc) ltac:(lia) Hi) as [Hz|(Hp & Hne & Ha)]; fold a in Hz || fold a in Hp, Hne, Ha.
  - rewrite Hz. change (entry_table_phys 0 =? 0) with true. change (0 =? 0) with true. cbv iota.
    rewrite (wf_alloc s Hw). cbn [assert_ mbind outcome_bind].
    pose proof (allocate_page_level_spec s) as Hal.
    destruct (allocate_page_level s) as [[addr s1]|]; [|cbn [mbind outcome_bind]; by eexists].
    destruct Hal as (tn & Hpool & -> & Hm & Hroot & Hset). cbn [mbind outcome_bind].
    unfold it_store. rewrite (cursor_entry_ref s va k it Hw ltac:(lia) Hc). cbn [mbind outcome_bind]. fold a.
    destruct (new_table_pool s s1 tn Hw Hpool) as (Htn & Htn' & _ & _).
    destruct (pool_table_entry tn Htn Htn') as (_ & Hmod & Hk' & _ & Hph). rewrite Hmod, Hk'. cbn [Z.eqb assert_ mbind outcome_bind].
    eexists. split; [reflexivity|]. cbn [mem with_mem]. rewrite load_insert, decide_True by done.
    rewrite Hph, Hk'. apply Hd.
  - assert ((load (mem s) a =? 0) = false) as ->.
    { apply Z.eqb_neq. intros Hz. rewrite Hz in Hp. done. }
    apply Z.eqb_neq in Hne as ->. cbn [mbind outcome_bind]. rewrite Ha. cbn [Z.eqb assert_ mbind outcome_bind].
    eexists. split; [reflexivity|]. apply Hd.
Qed.

Lemma finish_spec s va h it : wf s -> cursor s va 3 it -> beside va 3 h it ->
  finish h = Ok (LookupInfo (li_indices h) (entry_addr (table it) (index it)) (li_tables h)).
Proof.
  intros Hw Hc Hb. unfold finish. pose proof (beside_tables _ _ _ _ Hb 3 ltac:(lia)) as E3.
  change (Z.of_nat 3) with 3 in E3. rewrite E3.
  pose proof (cursor_table _ _ _ _ Hw Hc) as [Ht _].
  assert (lget (tables it) (3 - 3) = table it) as ->.
  { unfold table. by rewrite (cursor_level _ _ _ _ Hc). }
  case_if; [lia|]. pose proof (beside_entry s va 3 h it Hw ltac:(lia) Hc Hb) as He.
  change (4 - Z.of_nat 3) with 1 in He. by rewrite He.
Qed.

(** All four tables of a complete lookup exist. *)
Lemma beside_exists s va h it : wf s -> cursor s va 3 it -> beside va 3 h it ->
  li_tables h = reverse (tables it) /\ forallb (fun t => negb (t =? 0)) (li_tables h) = true.
Proof.
  intros Hw [_ _ Hl' Hr] [_ Hl Hj].
  assert (forall j, (j <= 3)%nat -> negb (lget (li_tables h) (Z.of_nat j) =? 0) = true) as Hnz.
  { intros j Hle. rewrite Hj by done. destruct (wf_table s Hw _ _ (Hr j Hle)) as [H0 _].
    apply negb_true_iff, Z.eqb_neq. lia. }
  pose proof (Hnz 0%nat ltac:(lia)) as N0. pose proof (Hnz 1%nat ltac:(lia)) as N1.
  pose proof (Hnz 2%nat ltac:(lia)) as N2. pose proof (Hnz 3%nat ltac:(lia)) as N3.
  pose proof (Hj 0%nat ltac:(lia)) as J0. pose proof (Hj 1%nat ltac:(lia)) as J1.
  pose proof (Hj 2%nat ltac:(lia)) as J2. pose proof (Hj 3%nat ltac:(lia)) as J3.
  destruct (li_tables h) as [|a [|b [|c [|d [|]]]]]; try done.
  destruct (tables it) as [|a' [|b' [|c' [|d' [|]]]]]; try done.
  change (a = d') in J0. change (b = c') in J1. change (c = b') in J2. change (d = a') in J3.
  change (negb (a =? 0) = true) in N0. change (negb (b =? 0) = true) in N1.
  change (negb (c =? 0) = true) in N2. change (negb (d =? 0) = true) in N3.
  split; [by subst|]. cbn [forallb]. by rewrite N0, N1, N2, N3.
Qed.

Lemma cursor_entry_nonnull s va it : wf s -> cursor s va 3 it -> (entry_addr (table it) (index it) =? 0) = false.
Proof.
  intros Hw Hc. destruct (cursor_table _ _ _ _ Hw Hc) as [Ht _].
  destruct (cursor_idx s va 3 it ltac:(lia) Hc) as [Hi _]. apply Z.eqb_neq. unfold entry_addr. lia.
Qed.

(** [C7] The allocating lookup is [page_tables::get]: on every well-formed tree it
    allocates the same tables, leaves the same memory, and its [entry] is the
    entry the iterator of [get] refers to, reached through the same four tables;
    when the tables run out, both stop. *)
Theorem allocating_lookup_is_get s va (Hw : wf s) :
  match get s va with
  | Ok (it, s') => exists h, get_page_entry_info s va true = Ok (h, s') /\
      entry_ref it = Ok (entry h) /\ li_tables h = reverse (tables it) /\ li_indices h = reverse (indices it) /\
      exists_ h = Ok true
  | Fail _ => exists e, get_page_entry_info s va true = Fail e
  end.
Proof.
  unfold get, get_page_entry_info. rewrite (wf_alloc s Hw). cbn [assert_ mbind outcome_bind].
  set (h0 := with_table _ _ _).
  pose proof (cursor_begin s va Hw) as Hc0. pose proof (beside_begin s va) as Hb0. fold h0 in Hb0.
  pose proof (allocate_level_spec s va 0 h0 _ Hw ltac:(lia) Hc0 Hb0) as H1.
  pose proof (allocate_and_descend_spec s va 0 _ Hw ltac:(lia) Hc0) as K1.
  change (4 - Z.of_nat 0) with 4 in H1.
  destruct (allocate_and_descend s _) as [[c1 s1]|]; cbn [mbind outcome_bind];
    [|destruct H1 as [e ->]; by exists e].
  destruct H1 as (h1 & -> & Hb1), K1 as (Hw1 & Hc1 & _). cbn [mbind outcome_bind].
  pose proof (allocate_level_spec s1 va 1 h1 _ Hw1 ltac:(lia) Hc1 Hb1) as H2.
  pose proof (allocate_and_descend_spec s1 va 1 _ Hw1 ltac:(lia) Hc1) as K2.
  change (4 - Z.of_nat 1) with 3 in H2.
  destruct (allocate_and_descend s1 _) as [[c2 s2]|]; cbn [mbind outcome_bind];
    [|destruct H2 as [e ->]; by exists e].
  destruct H2 as (h2 & -> & Hb2), K2 as (Hw2 & Hc2 & _). cbn [mbind outcome_bind].
  pose proof (allocate_level_spec s2 va 2 h2 _ Hw2 ltac:(lia) Hc2 Hb2) as H3.
  pose proof (allocate_and_descend_spec s2 va 2 _ Hw2 ltac:(lia) Hc2) as K3.
  change (4 - Z.of_nat 2) with 2 in H3.
  destruct (allocate_and_descend s2 _) as [[c3 s3]|]; cbn [mbind outcome_bind];
    [|destruct H3 as [e ->]; by exists e].
  destruct H3 as (h3 & -> & Hb3), K3 as (Hw3 & Hc3 & _). cbn [mbind outcome_bind].
  unfold level. rewrite (cursor_level _ _ _ _ Hc3). change (3 - Z.of_nat 3 + 1 =? 1) with true. cbn [assert_ mbind outcome_bind].
  rewrite (finish_spec s3 va h3 c3 Hw3 Hc3 Hb3). cbn [mbind outcome_bind]. eexists. split; [reflexivity|].
  rewrite (cursor_entry_ref s3 va 3 c3 Hw3 ltac:(lia) Hc3). cbn [entry li_tables li_indices]. split; [done|].
  destruct (beside_exists s3 va h3 c3 Hw3 Hc3 Hb3) as [Ht Hf].
  split; [done|]. split; [rewrite (beside_indices _ _ _ _ Hb3), (cursor_indices _ _ _ _ Hc3); done|].
  unfold exists_. cbn [entry li_tables]. by rewrite Hf, (cursor_entry_nonnull s3 va c3).
Qed.

Lemma allocating_lookup_is_get_witness : exists it s' h, get boot 0x40000000 = Ok (it, s') /\
  get_page_entry_info boot 0x40000000 true = Ok (h, s') /\ entry_ref it = Ok (entry h).
Proof.
  pose proof (allocating_lookup_is_get boot 0x40000000 boot_state_wf) as H.
  assert (is_ok (get boot 0x40000000) = true) as Hok by (vm_compute; reflexivity).
  destruct (get boot 0x40000000) as [[it s']|] eqn:E; [|discriminate Hok].
  destruct H as (h & H1 & H2 & _). exists it, s', h. split; [reflexivity|]. split; assumption.
Defined.

(** One step of the other branch. *)
Lemma follow_levels_spec s va n k h it : wf s -> (n + k = 3)%nat -> cursor s va k it -> beside va k h it ->
  walk (mem s) (root s) (path va) <> None ->
  exists h' it', follow_levels n s h (4 - Z.of_nat k) = Ok h' /\ cursor s va 3 it' /\ beside va 3 h' it'.
Proof.
  intros Hw. revert k h it. induction n as [|n IH]; intros k h it Hn Hc Hb Hwalk.
  - replace k with 3%nat in * by lia. by exists h, it.
  - cbn [follow_levels]. rewrite (beside_entry s va k h it Hw ltac:(lia) Hc Hb). cbn [mbind outcome_bind].
    pose proof (descend_spec s va k it Hw ltac:(lia) Hc) as Hd. cbv zeta in Hd.
    destruct (present_bit _) eqn:Ep; [|by destruct Hd as [_ Hd]].
    set (e := load (mem s) (entry_addr (table it) (index it))) in *.
    assert (cursor s va (S k) (down_to it (next_table e))) as Hc'.
    { eapply cursor_down; [lia|exact Hc|auto|]. rewrite path_take_snoc by lia.
      erewrite <- cursor_index by (exact Hc || lia). unfold e.
      apply reach_snoc; [by apply cursor_reach|rewrite path_take_length; lia|apply (cursor_idx s va k it); [lia|done]|exact Ep]. }
    pose proof (cursor_table _ _ _ _ Hw Hc') as [Ht _].
    assert (table (down_to it (next_table e)) = next_table e) as Ete.
    { unfold table. cbn [down_to tables _level]. destruct Hc as [Hlv _ Htb _]. unfold lget.
      rewrite Hlv, zget_zset_eq; [done|]. unfold zlen. lia. }
    rewrite Ete in Ht. unfold next_table in Ht. case_if; [lia|].
    replace (4 - Z.of_nat k - 1) with (4 - Z.of_nat (S k)) by lia.
    apply (IH (S k) _ (down_to it (next_table e))); [lia|exact Hc'| |exact Hwalk].
    apply beside_down; [lia|apply Hc|apply Hc|exact Hb].
Qed.

(** Where [find] reaches a level-1 table, the lookup without allocation refers to
    the same entry. *)
Theorem plain_lookup_is_find s va it (Hw : wf s) (Hf : find s va = Ok it) (Hl : level it = 1) :
  exists h, get_page_entry_info s va false = Ok (h, s) /\ entry_ref it = Ok (entry h) /\
    exists_ h = Ok true /\ present s h = Paging.present s it /\
    physical_page_address s h = Paging.physical_page_address s it.
Proof.
  pose proof (find_spec s va Hw) as Hs. destruct (walk _ _ _) as [t|] eqn:Ew; [|by rewrite Hs in Hf; injection Hf as <-].
  destruct Hs as (it0 & Hf' & Hc & Ht). rewrite Hf in Hf'. injection Hf' as <-.
  destruct (follow_levels_spec s va 3 0 _ _ Hw ltac:(lia) (cursor_begin s va Hw) (beside_begin s va))
    as (h & it' & Hfl & Hc' & Hb); [by rewrite Ew|].
  assert (entry_addr (table it') (index it') = entry_addr (table it) (index it)) as Ee.
  { rewrite !(cursor_index s va 3) by (done || lia). f_equal.
    destruct (cursor_reach _ _ _ _ Hc) as [H1 _], (cursor_reach _ _ _ _ Hc') as [H2 _]. congruence. }
  unfold get_page_entry_info. change (4 - Z.of_nat 0) with 4 in Hfl. rewrite Hfl. cbn [mbind outcome_bind].
  rewrite (finish_spec s va h it' Hw Hc' Hb). cbn [mbind outcome_bind]. eexists. split; [reflexivity|].
  destruct (beside_exists s va h it' Hw Hc' Hb) as [_ Hall].
  pose proof (cursor_entry_nonnull s va it Hw Hc) as Hnz.
  unfold exists_, present, physical_page_address, deref, Paging.present, Paging.physical_page_address, it_load.
  cbn [entry li_tables]. rewrite Ee, Hnz, Hall, Hl, (cursor_entry_ref s va 3 it Hw ltac:(lia) Hc). done.
Qed.

Lemma entry_at_level_eq il e tl n t i : 1 <= n <= 4 -> lget tl (4 - n) = t -> t <> 0 -> lget il (4 - n) = i ->
  entry_at_level (LookupInfo il e tl) n = Ok (entry_addr t i).
Proof.
  intros Hn Ht Hne Hi. unfold entry_at_level. cbn [li_tables li_indices]. rewrite Ht, Hi.
  assert ((1 <=? n) && (n <=? 4) = true) as -> by lia. cbn [assert_ mbind outcome_bind]. by case_if.
Qed.

Lemma follow_zero k s h n a : entry_at_level h n = Ok a -> load (mem s) a = 0 ->
  follow_levels (S k) s h n = follow_levels k s (with_table h (5 - n) 0xFFFFFFFF80000000) (n - 1).
Proof.
  intros Ha Hz. cbn [follow_levels]. rewrite Ha. cbn [mbind outcome_bind]. rewrite Hz. done.
Qed.

(** A missing table is not noticed: its entry is 0, and 0 becomes the address
    [KERNEL_VMA_OFFSET], which is not null.  Without a level-3 table the lookup
    says that the entry exists, at an address where there is no table, while
    [find] reports the end. *)
Theorem missing_table_exists s va (Hw : wf s)
    (Hz : load (mem s) (entry_addr (root s) (prefix va 4)) = 0)
    (Hk : forall i, idx i -> load (mem s) (entry_addr 0xFFFFFFFF80000000 i) = 0) :
  find s va = Ok (iterator_end 4) /\
  exists h, get_page_entry_info s va false = Ok (h, s) /\ exists_ h = Ok true /\
    entry h = entry_addr 0xFFFFFFFF80000000 (prefix va 1).
Proof.
  pose proof (find_spec s va Hw) as Hf. unfold path in Hf. cbn [walk] in Hf. rewrite Hz in Hf.
  split; [exact Hf|].
  pose proof (wf_table s Hw [] (root s) ltac:(split; [done|split; [simpl; lia|constructor]])) as [Hr _].
  assert (kernel_ptr (entry_table_phys 0) = 0xFFFFFFFF80000000) as Ek by (vm_compute; reflexivity).
  unfold get_page_entry_info. unfold with_table at 1. rewrite lookup_indices. cbn [li_tables lookup_info entry].
  change (zset [0; 0; 0; 0] 0 (root s)) with [root s; 0; 0; 0].
  assert (forall l, 1 <= l -> load (mem s) (entry_addr 0xFFFFFFFF80000000 (prefix va l)) = 0) as Hk'
    by (intros; by apply Hk, prefix_idx).
  erewrite follow_zero; [|apply (entry_at_level_eq _ _ _ 4 (root s) (prefix va 4)); done || lia|exact Hz].
  change (4 - 1) with 3. unfold with_table at 1. cbn [li_indices entry li_tables].
  erewrite follow_zero; [|apply (entry_at_level_eq _ _ _ 3 0xFFFFFFFF80000000 (prefix va 3)); done || lia|by apply Hk'].
  change (3 - 1) with 2. unfold with_table at 1. cbn [li_indices entry li_tables].
  erewrite follow_zero; [|apply (entry_at_level_eq _ _ _ 2 0xFFFFFFFF80000000 (prefix va 2)); done || lia|by apply Hk'].
  unfold with_table at 1. cbn [li_indices entry li_tables follow_levels mbind outcome_bind].
  unfold finish. cbn [li_tables]. change (_ =? 0) with false at 1. cbv iota.
  rewrite (entry_at_level_eq _ _ _ 1 0xFFFFFFFF80000000 (prefix va 1)) by (done || lia). cbn [mbind outcome_bind].
  eexists. split; [reflexivity|]. split; [|done]. unfold exists_. cbn [entry li_tables li_indices].
  pose proof (prefix_idx va 1 ltac:(lia)) as [Hp _].
  assert ((entry_addr 0xFFFFFFFF80000000 (prefix va 1) =? 0) = false) as ->
    by (apply Z.eqb_neq; unfold entry_addr; lia).
  assert ((root s =? 0) = false) as Hr0 by (apply Z.eqb_neq; lia).
  match goal with |- context [forallb ?f ?l] => change (forallb f l) with (negb (root s =? 0) && true) end.
  by rewrite Hr0.
Qed.

(** [set_attributes] replaces the four attribute bits and nothing else: the page
    the entry refers to stays. *)
Theorem set_attributes_correct s h attrs (He : entry h <> 0) (Ha : Z.land attrs ALL_MASK = attrs) :
  exists s', set_attributes s h attrs = Ok s' /\
    let e := load (mem s) (entry h) in let e' := load (mem s') (entry h) in
    Z.land e' ALL_MASK = attrs /\ Z.land e' (wnot 64 ALL_MASK) = Z.land e (wnot 64 ALL_MASK) /\
    physical_page_address s' h = physical_page_address s h /\
    forall a, a <> entry h -> load (mem s') a = load (mem s) a.
Proof.
  unfold set_attributes, physical_page_address, deref. apply Z.eqb_neq in He. rewrite He. cbn [mbind outcome_bind].
  eexists. split; [reflexivity|]. cbn [mem with_mem]. rewrite load_insert, decide_True by done.
  set (e := load (mem s) (entry h)) in *. assert (ALL_MASK = 0x8000000000000007) as Em by (vm_compute; reflexivity).
  assert (wnot 64 ALL_MASK = 0x7FFFFFFFFFFFFFF8) as En by (vm_compute; reflexivity).
  rewrite En. rewrite Em in *.
  assert (Z.land attrs 0x7FFFFFFFFFFFFFF8 = 0) as H0 by (rewrite <- Ha, <- Z.land_assoc; apply Z.land_0_r).
  assert (Z.land attrs ADDRESS_MASK = 0) as H1 by (rewrite <- Ha, <- Z.land_assoc; apply Z.land_0_r).
  split; [|split; [|split]].
  - rewrite Z.land_lor_distr_l, <- Z.land_assoc. change (Z.land 0x7FFFFFFFFFFFFFF8 0x8000000000000007) with 0.
    by rewrite Z.land_0_r, Z.lor_0_l.
  - rewrite Z.land_lor_distr_l, <- Z.land_assoc, H0, Z.lor_0_r. done.
  - f_equal. rewrite Z.land_lor_distr_l, <- Z.land_assoc, H1, Z.lor_0_r. done.
  - intros a Hne. rewrite load_insert. by rewrite decide_False.
Qed.
