(* ===== verification/Dumps.v ===== *)
(** * kernel/memory.cpp, vma.cpp, debug.cpp, vga.cpp, serial.cpp: dumps and start-up

    What the memory components print about themselves, [debug::printf], and the
    initialisation of the screen and the serial line.  The texts are stated with
    the pieces of Printf.v, so the theorems say what arrives at the serial line. *)
From S2P Require Import Prelude Memory Paging PageTables PagingInit PageOps Stdio Printf Io Serial Vga Vma Console Reports.

#[local] Arguments wrap : simpl never.

(** ** Definitions *)

Section dumps.
Context {D : Type} `{Ports D} (spins : nat).

Definition entry_format : list Z := nul (
  chars "memory_map[%d]:" ++ newline ++ 9 :: chars "type: %s" ++ newline ++ 9 :: chars "base: %lx" ++ newline ++
  9 :: chars "size: %lx" ++ newline).

(** [dump_memory_map]: entry [i] and the [n - 1] behind it. *)
Fixpoint dump_entries (n : nat) (map : list memory_map_entry) (i : Z) : io (console D) unit := fun c =>
  match n with
  | O => Ok (tt, c)
  | S n' =>
      e ← aget map i;
      '(_, c') ← printf spins entry_format [AWord i; AStr (chars (type_str e)); AWord (mm_base e); AWord (mm_length e)] c;
      dump_entries n' map (i + 1) c'
  end.
Definition dump_memory_map (m : memory_state) : io (console D) unit :=
  dump_entries (Z.to_nat (g_num_of_memory_map_entries m)) (g_memory_map m) 0.

(** [dump_free_list]: the node of the free list to print, if any. *)
Fixpoint dump_nodes (fuel : nat) (l : list free_node) (node : option Z) : io (console D) unit := fun c =>
  match node with
  | None => Ok (tt, c)
  | Some i =>
      match fuel with
      | O => Fail Diverges
      | S f =>
          n ← aget l i;
          '(_, c') ← fprintf spins stderr (nul (chars "-- node: %p - %p (%zx)" ++ newline))
            [AWord (fn_base n); AWord (u64 (fn_base n + fn_size n - 1)); AWord (fn_size n)] c;
          dump_nodes f l (fn_next n) c'
      end
  end.
Definition dump_free_list (v : vma) : io (console D) unit := fun c =>
  '(_, c') ← fprintf spins stderr (nul (chars "dumping VMA free list:" ++ newline)) [] c;
  dump_nodes (S (length (free_nodes v))) (free_nodes v) (if virtual_free_list v =? 0 then None else Some 0) c'.

Definition WRITE_BUFFER_SIZE : Z := 0x200.

(** [debug::printf]; [write_buffer] is its static buffer.  It comes to the serial
    line first and to the screen afterwards. *)
Definition debug_printf (write_buffer fmt : list Z) (args : list arg) : io (console D) (list Z) := fun c =>
  b ← snprintf write_buffer WRITE_BUFFER_SIZE fmt args;
  t ← text_of b;
  '(_, c1) ← debug_print spins t c;
  '(_, c2) ← vga_print t c1;
  Ok (b, c2).

Definition VGA_MEMORY_BASE_ADDRESS : Z := 0xB8000.
Definition SIZEOF_CELL : Z := 2.

(** [vga::init] *)
Definition vga_init (pt : paging) : io (console D) paging := fun c =>
  '(_, pt') ← identity_map_page_range_into_kernel_space pt VGA_MEMORY_BASE_ADDRESS (SCREEN_HEIGHT * SCREEN_WIDTH * SIZEOF_CELL) DEFAULT_ATTRS;
  s ← clear (con_screen c);
  Ok (pt', Console s true (printf_buffer c) (con_dev c)).

(** [serial::init]; the flag [s_initialized] is the result. *)
Definition serial_init : io (console D) bool :=
  _ ← on_dev (init_port COM1);
  _ ← libc_puts spins (chars "serial: initialized");
  mret true.
End dumps.

(** ** The texts *)

(** Pieces whose text fits the buffer of [printf] and ends where it should. *)
Definition prints_whole (ps : list piece) : Prop :=
  Forall piece_ok ps /\ Forall no_nul ps /\ zlen (rendering ps) < PRINTF_BUFFER_SIZE.

(** The text of one entry of the memory map. *)
Definition entry_pieces (i : Z) (e : memory_map_entry) : list piece :=
  [Text (chars "memory_map["); Dec false none i; Text (chars "]:" ++ newline ++ 9 :: chars "type: ");
   Str (chars (type_str e)); Text (newline ++ 9 :: chars "base: "); Hex false false long_int (mm_base e);
   Text (newline ++ 9 :: chars "size: "); Hex false false long_int (mm_length e); Text newline].

Definition node_pieces (n : Z * Z) : list piece :=
  [Text (chars "-- node: "); Ptr n.1; Text (chars " - "); Ptr (u64 (n.1 + n.2 - 1)); Text (chars " (");
   Hex false false size_int n.2; Text (chars ")" ++ newline)].

Lemma entry_format_pieces i e : nul (format_of (entry_pieces i e)) = entry_format.
Proof. reflexivity. Qed.

Lemma dec_length w : signed_integer_arg_of_length w none <> - 2 ^ 63 -> zlen (rendered (Dec false none w)) <= 11.
Proof.
  intros _. cbn [rendered signed_integer_arg_of_length]. unfold signed_numeral.
  assert (- 2 ^ 31 <= s32 w < 2 ^ 31) as Hr.
  { unfold swrap. pose proof (Z.mod_pos_bound (w + 2 ^ (32 - 1)) (2 ^ 32) ltac:(lia)). lia. }
  assert (forall v, 0 <= v <= 2 ^ 31 -> zlen (numeral 10 97 (length_to_digits none 10) false v) <= 10) as Hn.
  { intros v Hv. apply (numeral_length 10 _ _ false v 10); [lia| |lia|vm_compute; discriminate].
    change (10 ^ Z.of_nat 10) with 10000000000. lia. }
  case_if; [rewrite zlen_cons; specialize (Hn (- s32 w)); lia|specialize (Hn (s32 w)); lia].
Qed.

Lemma type_str_cases e : zlen (chars (type_str e)) <= 11 /\ Forall is_byte (chars (type_str e)) /\ nonzero (chars (type_str e)).
Proof.
  assert (type_str e ∈ ["usable"; "reserved"; "reclaimable"; "nvs"; "badmemory"; "<error>"]%string) as Ht.
  { unfold type_str. repeat case_match; set_solver. }
  repeat (apply elem_of_cons in Ht as [->|Ht]; [split; [done|split; repeat constructor; done]|]). by apply elem_of_nil in Ht.
Qed.

Lemma signed_none_ok w : signed_integer_arg_of_length w none <> - 2 ^ 63.
Proof. cbn [signed_integer_arg_of_length]. unfold swrap. pose proof (Z.mod_pos_bound (w + 2 ^ (32 - 1)) (2 ^ 32) ltac:(lia)). lia. Qed.

Lemma entry_ok i e : Forall piece_ok (entry_pieces i e) /\ Forall no_nul (entry_pieces i e) /\
  zlen (rendering (entry_pieces i e)) < PRINTF_BUFFER_SIZE.
Proof.
  destruct (type_str_cases e) as (Hl & Hb & Hn). pose proof (signed_none_ok i) as Hi. split; [|split].
  - repeat constructor; done.
  - repeat constructor; done.
  - unfold entry_pieces, PRINTF_BUFFER_SIZE. pose proof (dec_length i Hi).
    pose proof (hex_length false (mm_base e) long_int). pose proof (hex_length false (mm_length e) long_int). pieces_length.
Qed.

Lemma node_ok_pieces n : Forall piece_ok (node_pieces n) /\ Forall no_nul (node_pieces n) /\
  zlen (rendering (node_pieces n)) < PRINTF_BUFFER_SIZE.
Proof.
  split; [|split]; [repeat constructor; done..|]. unfold node_pieces, PRINTF_BUFFER_SIZE.
  pose proof (ptr_length n.1). pose proof (ptr_length (u64 (n.1 + n.2 - 1))). pose proof (hex_length false n.2 size_int). pieces_length.
Qed.

(** ** Printing a text *)

Section printing.
Context {D : Type} `{Uart16550 D} (spins : nat).
Hypothesis enough : (max_busy < spins)%nat.

Definition line_of (c : console D) : list Z := sent (uart_of (con_dev c)).

(** What a text adds to a console, whose buffer aside. *)
Definition shows (on_screen : bool) (t : list Z) (c c' : console D) : Prop :=
  vga_initialized c' = vga_initialized c /\ line_of c' = line_of c ++ (u8 <$> t) /\
  (if vga_initialized c && on_screen then print (con_screen c) t = Ok (con_screen c') else con_screen c' = con_screen c).

(** A print whose text fits the buffer puts the text on the serial line, and on the
    screen if it goes to [stdout]. *)
Lemma vfprintf_shows f ps (c : console D) : Console.wf c -> f <> other_file ->
  Forall piece_ok ps -> Forall no_nul ps -> zlen (rendering ps) < PRINTF_BUFFER_SIZE ->
  exists c', vfprintf spins f (Some (nul (format_of ps))) (args_of ps) c = Ok (0, c') /\ Console.wf c' /\
    shows (match f with stdout => true | _ => false end) (rendering ps) c c'.
Proof.
  intros Hw Hf Hok Hnn Hfit. unfold PRINTF_BUFFER_SIZE in *.
  pose proof (vsnprintf_whole 512 ps ltac:(lia) Hok Hfit) as Hv.
  assert (text_of ((rendering ps ++ [0]) ++ drop (length (rendering ps ++ [0])) (printf_buffer c)) = Ok (rendering ps)) as Ht.
  { rewrite <- app_assoc. cbn [app]. by apply text_of_app, rendering_nonzero. }
  destruct (buffer_after spins enough (rendering ps ++ [0]) (rendering ps) c Hw) as (front & Hb & Hl);
    [unfold PRINTF_BUFFER_SIZE; lia|by right|].
  set (c1 := Console (con_screen c) (vga_initialized c) ((rendering ps ++ [0]) ++ drop (length (rendering ps ++ [0])) (printf_buffer c)) (con_dev c)).
  assert (Console.wf c1) as Hw1 by (split; [apply Hw|by exists front|apply Hw]).
  destruct (fputs_spec spins enough f (rendering ps) c1 Hw1 Hf) as (c' & He & Hw' & Hvg & _ & Hsc & Hs).
  exists c'. split; [|split; [exact Hw'|]; split; [exact Hvg|]; split; [exact Hs|exact Hsc]]. unfold vfprintf, nul, PRINTF_BUFFER_SIZE. rewrite Hv, bind_ok.
  destruct f; [| |done]; by rewrite Ht, bind_ok.
Qed.

Lemma vfprintf_pieces f ps (c : console D) : Console.wf c -> f <> other_file ->
  Forall piece_ok ps -> Forall no_nul ps -> zlen (rendering ps) < PRINTF_BUFFER_SIZE ->
  exists c', vfprintf spins f (Some (nul (format_of ps))) (args_of ps) c = Ok (0, c') /\ Console.wf c' /\
    line_of c' = line_of c ++ (u8 <$> rendering ps).
Proof.
  intros Hw Hf Hok Hnn Hfit. destruct (vfprintf_shows f ps c Hw Hf Hok Hnn Hfit) as (c' & He & Hw' & _ & Hl & _). by exists c'.
Qed.

(** ** The memory map *)

(** The texts of the entries from the [i]-th on. *)
Fixpoint entry_texts (map : list memory_map_entry) (i : Z) : list Z :=
  match map with
  | [] => []
  | e :: map' => rendering (entry_pieces i e) ++ entry_texts map' (i + 1)
  end.

Lemma dump_entries_spec l1 l2 l3 (c : console D) : Console.wf c ->
  exists c', dump_entries spins (length l2) (l1 ++ l2 ++ l3) (zlen l1) c = Ok (tt, c') /\ Console.wf c' /\
    line_of c' = line_of c ++ (u8 <$> entry_texts l2 (zlen l1)).
Proof.
  revert l1 c. induction l2 as [|e l2 IH]; intros l1 c Hw; cbn [dump_entries length entry_texts].
  { exists c. split; [done|]. split; [done|]. by rewrite app_nil_r. }
  assert (aget (l1 ++ (e :: l2) ++ l3) (zlen l1) = Ok e) as -> by (apply aget_Ok; apply zget_middle).
  rewrite bind_ok. destruct (entry_ok (zlen l1) e) as (Hok & Hnn & Hfit).
  destruct (vfprintf_pieces stdout (entry_pieces (zlen l1) e) c Hw ltac:(done) Hok Hnn Hfit) as (c1 & He & Hw1 & Hl1).
  rewrite entry_format_pieces in He. unfold printf.
  change (args_of (entry_pieces (zlen l1) e)) with [AWord (zlen l1); AStr (chars (type_str e)); AWord (mm_base e); AWord (mm_length e)] in He.
  rewrite He, bind_ok. destruct (IH (l1 ++ [e]) c1 Hw1) as (c2 & Hd & Hw2 & Hl2).
  rewrite <- app_assoc in Hd. rewrite zlen_app, zlen_cons in Hd, Hl2. zlen_nil. rewrite Z.add_0_r in Hd, Hl2.
  exists c2. split; [exact Hd|]. split; [done|]. rewrite Hl2, Hl1, fmap_app. by rewrite app_assoc.
Qed.

(** [dump_memory_map] prints every entry of the map once, in order, each whole:
    number, type, base and length. *)
Theorem dump_memory_map_prints m (c : console D) :
  Console.wf c -> 0 <= g_num_of_memory_map_entries m <= zlen (g_memory_map m) ->
  exists c', dump_memory_map spins m c = Ok (tt, c') /\ Console.wf c' /\
    line_of c' = line_of c ++ (u8 <$> entry_texts (take (Z.to_nat (g_num_of_memory_map_entries m)) (g_memory_map m)) 0).
Proof.
  intros Hw Hn. set (n := Z.to_nat (g_num_of_memory_map_entries m)).
  destruct (dump_entries_spec [] (take n (g_memory_map m)) (drop n (g_memory_map m)) c Hw) as (c' & Hd & Hr).
  exists c'. split; [|exact Hr]. unfold dump_memory_map. fold n. rewrite take_drop in Hd.
  rewrite length_take_le in Hd by (unfold zlen in Hn; lia). exact Hd.
Qed.

(** ** The free list *)

Definition header_pieces : list piece := [Text (chars "dumping VMA free list:" ++ newline)].

Lemma rep_ptr p l : rep p l -> ptr_at [] l = Some 0.
Proof. intros [? _]. by destruct l. Qed.

Lemma header_format : nul (format_of header_pieces) = nul (chars "dumping VMA free list:" ++ newline).
Proof. reflexivity. Qed.
Lemma node_format n : nul (format_of (node_pieces n)) = nul (chars "-- node: %p - %p (%zx)" ++ newline).
Proof. reflexivity. Qed.

Lemma dump_nodes_spec p l1 l2 fuel (c : console D) : rep p (l1 ++ l2) -> (length l2 < fuel)%nat -> Console.wf c ->
  exists c', dump_nodes spins fuel p (ptr_at l1 l2) c = Ok (tt, c') /\ Console.wf c' /\
    line_of c' = line_of c ++ (u8 <$> concat ((fun n => rendering (node_pieces n)) <$> l2)).
Proof.
  revert l1 fuel c. induction l2 as [|[b z] l2 IH]; intros l1 fuel c Hr Hf Hw.
  { exists c. split; [by destruct fuel|]. split; [done|]. by rewrite app_nil_r. }
  destruct fuel as [|fuel]; [cbn in Hf; lia|]. rewrite ptr_at_app. cbn [dump_nodes].
  rewrite (rep_at _ _ _ _ _ Hr), bind_ok. cbn [fn_base fn_size fn_next].
  destruct (node_ok_pieces (b, z)) as (Hok & Hnn & Hfit).
  destruct (vfprintf_pieces stderr (node_pieces (b, z)) c Hw ltac:(done) Hok Hnn Hfit) as (c1 & He & Hw1 & Hl1).
  change (args_of (node_pieces (b, z))) with [AWord b; AWord (u64 (b + z - 1)); AWord z] in He.
  rewrite node_format in He. unfold fprintf. rewrite He, bind_ok.
  destruct (IH (l1 ++ [(b, z)]) fuel c1) as (c2 & Hd & Hw2 & Hl2); [by rewrite <- app_assoc|cbn in Hf; lia|done|].
  exists c2. split; [exact Hd|]. split; [done|]. rewrite Hl2, Hl1. cbn [fmap list_fmap concat]. rewrite fmap_app. by rewrite app_assoc.
Qed.

(** What the dump of a free list with the nodes [l] prints. *)
Definition nodes_text (l : list node) : list Z :=
  rendering header_pieces ++ concat ((fun n => rendering (node_pieces n)) <$> l).

Lemma dump_list_spec v l (c : console D) : Console.wf c -> list_of v l ->
  exists c', dump_free_list spins v c = Ok (tt, c') /\ Console.wf c' /\ line_of c' = line_of c ++ (u8 <$> nodes_text l).
Proof.
  intros Hw [Hr Hlen Hsz _ Hp]. unfold dump_free_list, nodes_text.
  destruct (vfprintf_pieces stderr header_pieces c Hw ltac:(done)) as (c1 & He & Hw1 & Hl1);
    [repeat constructor; done|repeat constructor; done|by vm_compute|].
  rewrite header_format in He. unfold fprintf. change (args_of header_pieces) with (@nil arg) in He. rewrite He, bind_ok.
  replace (virtual_free_list v =? 0) with false by lia.
  pose proof (rep_ptr _ _ Hr) as Hp0.
  destruct (dump_nodes_spec (free_nodes v) [] l (S (length (free_nodes v))) c1 Hr) as (c2 & Hd & Hw2 & Hl2);
    [unfold zlen in *; lia|done|].
  rewrite Hp0 in Hd. exists c2. split; [exact Hd|]. split; [done|]. rewrite Hl2, Hl1, fmap_app. by rewrite app_assoc.
Qed.

(** [dump_free_list] ends and prints the nodes of the free list, each once, in the
    order of the list. *)
Theorem dump_free_list_prints v (c : console D) : Console.wf c -> Vma.wf v ->
  exists c', dump_free_list spins v c = Ok (tt, c') /\ Console.wf c' /\
    line_of c' = line_of c ++ (u8 <$> (rendering header_pieces ++ concat ((fun n => rendering (node_pieces n)) <$> live v))).
Proof. intros Hw Hv. apply dump_list_spec; [done|]. by apply wf_list. Qed.

(** ** Start-up *)

(** After [serial::init] the console can print, whatever state the line was in, and
    its message has been sent; the screen is left alone as long as there is none. *)
Theorem serial_init_announces (c : console D) :
  Vga.wf (con_screen c) -> (exists front, printf_buffer c = front ++ [0] /\ zlen front = PRINTF_BUFFER_SIZE - 1) ->
  exists c', serial_init spins c = Ok (true, c') /\ Console.wf c' /\ vga_initialized c' = vga_initialized c /\
    (vga_initialized c = false -> con_screen c' = con_screen c) /\
    line_of c' = line_of c ++ chars "serial: initialized" ++ [10].
Proof.
  intros Hs Hb. unfold serial_init. destruct (init_port_spec (con_dev c)) as (r & d & Hd & Hu).
  set (c1 := Console (con_screen c) (vga_initialized c) (printf_buffer c) d).
  assert (on_dev (init_port COM1) c = Ok (r, c1)) as H1 by (unfold on_dev; by rewrite Hd).
  rewrite (io_bind_step _ _ _ _ _ H1). assert (Console.wf c1) as Hw1 by (split; [done|done|by cbn [con_dev c1]; rewrite Hu]).
  destruct (libc_puts_spec spins enough (chars "serial: initialized") c1 Hw1) as (c2 & c3 & Hp & Hw3 & Hp1 & Hp2).
  rewrite (io_bind_step _ _ _ _ _ Hp). exists c3. split; [done|]. split; [done|].
  destruct Hp1 as (Hv1 & _ & Hsc1 & Hse1), Hp2 as (Hv2 & _ & Hsc2 & Hse2). split; [by rewrite Hv2, Hv1|]. split.
  - intros Hv. cbn [vga_initialized con_screen c1] in *. rewrite Hv1 in Hsc2. rewrite Hv in *. cbn [andb] in *. congruence.
  - unfold line_of. rewrite Hse2, Hse1, <- app_assoc. cbn [con_dev c1]. by rewrite Hu.
Qed.

(** [debug::printf] brings its text to the serial line, and to the screen once
    there is one. *)
Theorem debug_printf_prints ps buffer (c : console D) : Console.wf c -> zlen buffer = WRITE_BUFFER_SIZE ->
  Forall piece_ok ps -> Forall no_nul ps -> zlen (rendering ps) < WRITE_BUFFER_SIZE ->
  exists b c', debug_printf spins buffer (nul (format_of ps)) (args_of ps) c = Ok (b, c') /\ Console.wf c' /\
    zlen b = WRITE_BUFFER_SIZE /\ line_of c' = line_of c ++ (u8 <$> rendering ps) /\
    (if vga_initialized c then print (con_screen c) (rendering ps) = Ok (con_screen c') else con_screen c' = con_screen c).
Proof.
  intros Hw Hb Hok Hnn Hfit. unfold debug_printf.
  destruct (snprintf_pieces buffer WRITE_BUFFER_SIZE ps Hok ltac:(unfold WRITE_BUFFER_SIZE; lia) Hfit ltac:(lia)) as (b & Hs & Hl & [r Hr]).
  rewrite Hs, bind_ok, Hr, text_of_app by (by apply rendering_nonzero). rewrite bind_ok, <- Hr.
  destruct (debug_print_spec spins enough (rendering ps) c Hw) as (c1 & He & Hw1 & Hv1 & Hb1 & Hsc1 & Hse1).
  rewrite He, bind_ok. rewrite andb_false_r in Hsc1. unfold vga_print. rewrite Hv1. destruct (vga_initialized c) eqn:Ev.
  - destruct (write_text_wf (con_screen c1) (rendering ps) (wf_screen c1 Hw1)) as (s & Hp & Hws). fold (print (con_screen c1) (rendering ps)) in Hp.
    unfold on_screen. rewrite Hp, !bind_ok. eexists b, _. split; [reflexivity|].
    split; [split; [exact Hws|apply Hw1|apply Hw1]|]. split; [lia|]. split; [exact Hse1|]. by rewrite <- Hsc1.
  - rewrite bind_ok. exists b, c1. split; [reflexivity|]. split; [done|]. split; [lia|]. by split.
Qed.

(** [vga::init], when it returns, has mapped the screen's memory, keeping the tree
    invariant, and left a blank screen with the cursor in its corner. *)
Theorem vga_init_blank pt (c : console D) pt' c' : Console.wf c -> PageTables.wf pt -> vga_init pt c = Ok (pt', c') ->
  PageTables.wf pt' /\ Console.wf c' /\ vga_initialized c' = true /\
  con_screen c' = Screen (replicate 2000 blank) (Cursor 0 0) /\ line_of c' = line_of c.
Proof.
  intros Hw Hp Hi. unfold vga_init in Hi. apply bind_Ok in Hi as ([v pt1] & Hm & Hi). apply bind_Ok in Hi as (s & Hs & Hi).
  injection Hi as <- <-. rewrite clear_Ok in Hs by apply (wf_screen c Hw). injection Hs as <-.
  destruct (identity_map_range_Ok _ _ _ _ _ _ Hp Hm) as [Hk _]. split; [apply Hk|].
  split; [split; [by split|apply Hw|apply Hw]|]. done.
Qed.
End printing.
