(* ===== verification/HeapMessages.v ===== *)
(** * kernel/alloc.cpp: the messages of the heap

    [alloc] and [free] report what they do on [stderr].  Alloc.v keeps the lines
    with the heap they come from; here they are brought to the console: a step of
    the kernel that uses the heap prints what its calls have added. *)
From S2P Require Import Prelude Util Memory Alloc Scheduler Stdio Printf Io Serial Vga Console Reports Dumps.

#[local] Arguments wrap : simpl never.

(** ** Definitions *)

Definition message_format (t : message) : list Z := nul (
  match t with
  | Allocating _ _ => chars "allocating %zd bytes with %lx alignment"
  | HeaderSize _ => chars "-- header size: %lx"
  | StartingAddr _ => chars "-- starting addr: %p"
  | AllocationAddr _ => chars "-- allocation addr: %p"
  | HeaderAddr _ => chars "-- header addr: %p"
  | FinalAddr _ => chars "-- final addr: %p"
  | Freeing _ => chars "freeing %p"
  | FreeAlignment _ => chars " -- alignment: %lx"
  | FreeHeaderSize _ => chars " -- header size: %lx"
  | FreeHeaderAddr _ => chars " -- header addr: %p"
  | FreeAllocationAddr _ => chars " -- allocation addr: %p"
  end ++ newline).

Definition message_args (t : message) : list arg :=
  match t with
  | Allocating n alignment => [AWord n; AWord alignment]
  | HeaderSize x | StartingAddr x | AllocationAddr x | HeaderAddr x | FinalAddr x
  | Freeing x | FreeAlignment x | FreeHeaderSize x | FreeHeaderAddr x | FreeAllocationAddr x => [AWord x]
  end.

Section printing.
Context {D : Type} `{Ports D} (spins : nat).

Fixpoint print_messages (l : list message) : io (console D) unit :=
  match l with
  | [] => mret tt
  | t :: l' => _ ← fprintf spins stderr (message_format t) (message_args t); print_messages l'
  end.

(** What the calls between [h] and [h'] have added. *)
Definition news {H} `{KernelHeap H} (h h' : H) : list message := drop (length (ksaid h)) (ksaid h').

Definition print_news {H} `{KernelHeap H} (h h' : H) : io (console D) unit := print_messages (news h h').
End printing.

(** ** The texts *)

Definition message_pieces (t : message) : list piece :=
  match t with
  | Allocating n a => [Text (chars "allocating "); Dec false size_int n; Text (chars " bytes with ");
                       Hex false false long_int a; Text (chars " alignment" ++ newline)]
  | HeaderSize n => [Text (chars "-- header size: "); Hex false false long_int n; Text newline]
  | StartingAddr p => [Text (chars "-- starting addr: "); Ptr p; Text newline]
  | AllocationAddr p => [Text (chars "-- allocation addr: "); Ptr p; Text newline]
  | HeaderAddr p => [Text (chars "-- header addr: "); Ptr p; Text newline]
  | FinalAddr p => [Text (chars "-- final addr: "); Ptr p; Text newline]
  | Freeing p => [Text (chars "freeing "); Ptr p; Text newline]
  | FreeAlignment n => [Text (chars " -- alignment: "); Hex false false long_int n; Text newline]
  | FreeHeaderSize n => [Text (chars " -- header size: "); Hex false false long_int n; Text newline]
  | FreeHeaderAddr p => [Text (chars " -- header addr: "); Ptr p; Text newline]
  | FreeAllocationAddr p => [Text (chars " -- allocation addr: "); Ptr p; Text newline]
  end.

Definition messages_text (l : list message) : list Z := concat ((fun t => rendering (message_pieces t)) <$> l).

Lemma messages_text_app l1 l2 : messages_text (l1 ++ l2) = messages_text l1 ++ messages_text l2.
Proof. unfold messages_text. by rewrite fmap_app, concat_app. Qed.

Lemma message_format_pieces t : nul (format_of (message_pieces t)) = message_format t.
Proof. by destruct t. Qed.
Lemma message_args_pieces t : args_of (message_pieces t) = message_args t.
Proof. by destruct t. Qed.

Lemma size_length w : zlen (rendered (Dec false size_int w)) <= 20.
Proof.
  cbn [rendered signed_integer_arg_of_length]. unfold signed_numeral.
  assert (- 2 ^ 63 <= s64 w < 2 ^ 63) as Hr.
  { unfold swrap. pose proof (Z.mod_pos_bound (w + 2 ^ (64 - 1)) (2 ^ 64) ltac:(lia)). lia. }
  assert (forall v, 0 <= v <= 2 ^ 63 -> zlen (numeral 10 97 (length_to_digits size_int 10) false v) <= 19) as Hn.
  { intros v Hv. apply (numeral_length 10 _ _ false v 19); [lia| |lia|vm_compute; discriminate].
    change (10 ^ Z.of_nat 19) with 10000000000000000000. lia. }
  case_if; [rewrite zlen_cons; specialize (Hn (- s64 w)); lia|specialize (Hn (s64 w)); lia].
Qed.

Lemma message_fits t : message_ok t -> prints_whole (message_pieces t).
Proof.
  intros Ht. split; [destruct t; repeat constructor; done|]. split; [destruct t; repeat constructor; done|].
  unfold PRINTF_BUFFER_SIZE. destruct t as [n a|x|x|x|x|x|x|x|x|x|x]; cbn [message_pieces];
    [pose proof (size_length n); pose proof (hex_length false a long_int); pieces_length
    |pose proof (hex_length false x long_int); pose proof (ptr_length x); pieces_length..].
Qed.

(** ** On the console *)

Lemma print_app s t1 t2 : print s (t1 ++ t2) = (s' ← print s t1; print s' t2).
Proof.
  change (print_chars s (t1 ++ t2) white black = (s' ← print_chars s t1 white black; print_chars s' t2 white black)).
  revert s. induction t1 as [|c t1 IH]; intros s; [done|]. cbn [app print_chars].
  destruct (print_char s c white black) as [s1|]; [exact (IH s1)|done].
Qed.

Section told.
Context {D : Type} `{Uart16550 D}.

(** The text [line] has gone over the line and [shown] to the screen. *)
Record told (line shown : list Z) (c c' : console D) : Prop := Told {
  told_wf : Console.wf c';
  told_vga : vga_initialized c' = vga_initialized c;
  told_line : line_of c' = line_of c ++ (u8 <$> line);
  told_shown : if vga_initialized c then print (con_screen c) shown = Ok (con_screen c') else con_screen c' = con_screen c
}.

Lemma told_refl (c : console D) : Console.wf c -> told [] [] c c.
Proof. intros Hw. split; [done|done|by rewrite app_nil_r|by destruct (vga_initialized c)]. Qed.

Lemma told_trans l1 s1 l2 s2 (c1 c2 c3 : console D) : told l1 s1 c1 c2 -> told l2 s2 c2 c3 -> told (l1 ++ l2) (s1 ++ s2) c1 c3.
Proof.
  intros [W1 V1 L1 S1] [W2 V2 L2 S2]. split; [done|congruence|by rewrite L2, L1, fmap_app, app_assoc|].
  rewrite V1 in S2. destruct (vga_initialized c1); [|congruence]. by rewrite print_app, S1.
Qed.

Context (spins : nat).
Hypothesis enough : (max_busy < spins)%nat.

Lemma fprintf_told ps fmt args (c : console D) : prints_whole ps -> nul (format_of ps) = fmt -> args_of ps = args -> Console.wf c ->
  exists c', fprintf spins stderr fmt args c = Ok (0, c') /\ told (rendering ps) [] c c'.
Proof.
  intros (Hok & Hnn & Hfit) <- <- Hw.
  destruct (vfprintf_shows spins enough stderr ps c Hw ltac:(done) Hok Hnn Hfit) as (c' & He & Hw' & V & L & Sh).
  exists c'. split; [exact He|]. rewrite andb_false_r in Sh.
  split; [done|done|done|]. rewrite Sh. by destruct (vga_initialized c).
Qed.

Lemma puts_told t (c : console D) : Console.wf c ->
  exists c', libc_puts spins t c = Ok (0, c') /\ told (t ++ newline) (t ++ newline) c c'.
Proof.
  intros Hw. destruct (libc_puts_spec spins enough t c Hw) as (c1 & c' & He & Hw' & (V1 & _ & S1 & L1) & (V2 & _ & S2 & L2)).
  exists c'. split; [exact He|].
  rewrite !andb_true_r in *. rewrite V1 in S2. split; [done|congruence|unfold line_of; by rewrite L2, L1, fmap_app, app_assoc|].
  destruct (vga_initialized c); [|congruence]. by rewrite print_app, S1.
Qed.

(** The messages of the heap reach the line whole and in order; the screen, which
    [stderr] does not go to, stays as it is. *)
Lemma print_messages_told l (c : console D) : Forall message_ok l -> Console.wf c ->
  exists c', print_messages spins l c = Ok (tt, c') /\ told (messages_text l) [] c c'.
Proof.
  intros Hl. revert c. induction Hl as [|t l Ht Hl IH]; intros c Hw; cbn [print_messages].
  { exists c. split; [done|by apply told_refl]. }
  destruct (fprintf_told (message_pieces t) _ _ c (message_fits t Ht) (message_format_pieces t) (message_args_pieces t) Hw)
    as (c1 & E1 & T1).
  rewrite (io_bind_step _ _ _ _ _ E1). destruct (IH c1 (told_wf _ _ _ _ T1)) as (c2 & E2 & T2).
  exists c2. split; [exact E2|]. exact (told_trans _ _ _ _ _ _ _ T1 T2).
Qed.
End told.

(** ** News *)

Section news.
Context {H : Type} `{KernelHeap H}.

Lemma news_app (h h' : H) l : ksaid h' = ksaid h ++ l -> news h h' = l.
Proof. intros E. unfold news. by rewrite E, drop_app_length. Qed.

Lemma news_refl (h : H) : news h h = [].
Proof. apply news_app. by rewrite app_nil_r. Qed.

(** Only printable messages have been added. *)
Definition says (h h' : H) : Prop := exists l, ksaid h' = ksaid h ++ l /\ Forall message_ok l.

Lemma says_refl (h : H) : says h h.
Proof. exists []. by rewrite app_nil_r. Qed.

Lemma says_trans (h1 h2 h3 : H) : says h1 h2 -> says h2 h3 -> says h1 h3.
Proof.
  intros (l1 & E1 & F1) (l2 & E2 & F2). exists (l1 ++ l2). split; [by rewrite E2, E1, app_assoc|by apply Forall_app].
Qed.

Lemma says_news (h h' : H) : says h h' -> Forall message_ok (news h h').
Proof. intros (l & E & Hl). by rewrite (news_app h h' l E). Qed.

(** What scheduling does to the heap. *)
Lemma scheduler_init_says (s s' : sched H) b : Scheduler.init s b = Ok s' -> says (heap_ s) (heap_ s').
Proof.
  unfold Scheduler.init. intros Hi. apply bind_Ok in Hi as (u & _ & Hi). apply bind_Ok in Hi as ([p1 h1] & H1 & Hi).
  apply bind_Ok in Hi as (t & _ & Hi). apply bind_Ok in Hi as (ts & _ & Hi). apply bind_Ok in Hi as ([p2 h2] & H2 & Hi).
  injection Hi as <-. cbn [heap_]. eapply says_trans; eapply kalloc_says; [|done| |done];
    unfold SIZEOF_TASK_CONTEXT, SIZEOF_FXSAVE, MAX_TASKS; lia.
Qed.

Lemma schedule_task_says (s s' : sched H) ea k nt ctx id :
  schedule_task s ea k nt ctx = Ok (id, s') -> says (heap_ s) (heap_ s').
Proof.
  unfold schedule_task. intros Hi. apply bind_Ok in Hi as (ts & _ & Hi). apply bind_Ok in Hi as (slot & _ & Hi).
  apply bind_Ok in Hi as (u & _ & Hi). apply bind_Ok in Hi as (t & _ & Hi). apply bind_Ok in Hi as ([p h] & H1 & Hi).
  apply bind_Ok in Hi as (ts' & _ & Hi). injection Hi as _ <-. cbn [heap_].
  eapply kalloc_says; [|done]. unfold TASK_STACK_SIZE, PAGE_SIZE. lia.
Qed.
End news.

(** One line of an allocation, as it arrives. *)
Example allocating_line : rendering (message_pieces (Allocating 100 8)) = chars "allocating 100 bytes with 8 alignment" ++ newline.
Proof. reflexivity. Qed.
