(* ===== verification/Syscalls.v ===== *)
(** * kernel/syscalls.cpp, libc/stdlib.cpp, libc/platform_specific.h: system calls

    A program asks the kernel for memory, output and its own end with [int $0x80].
    [syscall_handler] is the kernel's side; the wrappers of the C library put the
    code and the arguments they have into registers and leave the others as they
    are, so those registers are arguments of the model.  The state joins the tasks
    with their heap, the console and the program's memory. *)
From S2P Require Import Prelude Util Bitmap Paging PageTables PageOps Pma Vma Alloc Scheduler CString Stdio Io Serial Vga Console Dumps HeapMessages.

#[local] Arguments wrap : simpl never.

Definition _SYSCALL_ABORT : Z := 0.
Definition _SYSCALL_EXIT : Z := 1.
Definition _SYSCALL_ALLOC : Z := 2.
Definition _SYSCALL_FREE : Z := 3.
Definition _SYSCALL_PRINT : Z := 4.

Section syscalls.
Context {D : Type} `{Ports D} (spins : nat).

Record os := OS { sch : sched heap; con : console D; user_memory : memory }.

Definition with_heap (s : os) (h : heap) (c : console D) : os :=
  OS (Sched (tasks (sch s)) (total_tasks (sch s)) (current_task_id (sch s)) (fxsave_blocks (sch s))
        (temp_fxsave (sch s)) h (stack_words (sch s))) c (user_memory s).

(** What a call comes to: a value in [rax], or another task's frame. *)
Inductive result := Returned (rax : Z) (s : os) | Switched (loaded : task_frame) (s : os).

(** The characters behind a [const char *]. *)
Definition string_at (m : memory) (a : Z) : outcome (list Z) :=
  n ← strlen m a; load_bytes m a (Z.to_nat n).

(** The kernel's heap reports on the console what it does for the program.
    [frame] is the frame the processor would save at the [yield] of [exit]; a task
    that had been ended and was resumed there would spin. *)
Definition syscall_handler (code arg0 arg1 arg2 : Z) (frame : task_frame) (s : os) : outcome result :=
  if code =? _SYSCALL_EXIT then
    '(loaded, k) ← exit_ (sch s) frame;
    '(_, c) ← print_news spins (heap_ (sch s)) (heap_ k) (con s); Ok (Switched loaded (OS k c (user_memory s)))
  else if code =? _SYSCALL_ABORT then Fail Diverges
  else if code =? _SYSCALL_ALLOC then
    '(p, h) ← alloc (heap_ (sch s)) arg0 arg1 READ_WRITE;
    '(_, c) ← print_news spins (heap_ (sch s)) h (con s); Ok (Returned p (with_heap s h c))
  else if code =? _SYSCALL_FREE then
    h ← free (heap_ (sch s)) arg0;
    '(_, c) ← print_news spins (heap_ (sch s)) h (con s); Ok (Returned 0 (with_heap s h c))
  else if code =? _SYSCALL_PRINT then
    t ← string_at (user_memory s) arg0;
    '(_, c) ← libc_puts spins t (con s); Ok (Returned 0 (OS (sch s) c (user_memory s)))
  else Fail (Panic "unknown syscall: %lx").

(** ** The program's side *)

(** The registers a wrapper does not set, and the frame of the interrupt. *)
Record registers := Registers { reg_rsi : Z; reg_rdx : Z; reg_rcx : Z; reg_frame : task_frame }.

Definition _syscall0 (r : registers) (code : Z) : os -> outcome result :=
  syscall_handler code (reg_rsi r) (reg_rdx r) (reg_rcx r) (reg_frame r).
Definition _syscall1 (r : registers) (code arg0 : Z) : os -> outcome result :=
  syscall_handler code arg0 (reg_rdx r) (reg_rcx r) (reg_frame r).
Definition _syscall2 (r : registers) (code arg0 arg1 : Z) : os -> outcome result :=
  syscall_handler code arg0 arg1 (reg_rcx r) (reg_frame r).
Definition _syscall3 (r : registers) (code arg0 arg1 arg2 : Z) : os -> outcome result :=
  syscall_handler code arg0 arg1 arg2 (reg_frame r).

(** Coming back from a call that does not return is undefined. *)
Definition unreachable (m : outcome result) : outcome result :=
  x ← m;
  match x with Returned _ _ => Fail (Undefined "unreachable") | Switched _ _ => Ok x end.

Definition abort (r : registers) (s : os) : outcome result := unreachable (_syscall0 r _SYSCALL_ABORT s).

(** [(uint64_t)exit_code] sign-extends. *)
Definition exit (r : registers) (exit_code : Z) (s : os) : outcome result :=
  unreachable (_syscall1 r _SYSCALL_EXIT (u64 (s32 exit_code)) s).

(** The parameters in the order of the definition in stdlib.cpp. *)
Definition aligned_alloc (r : registers) (size alignment : Z) : os -> outcome result :=
  _syscall2 r _SYSCALL_ALLOC size alignment.
Definition malloc (r : registers) (size : Z) : os -> outcome result := aligned_alloc r size 1.
Definition libc_free (r : registers) (ptr : Z) : os -> outcome result := _syscall1 r _SYSCALL_FREE ptr.

(** ** The end of a program *)

(** [exit] and [abort] never come back to the program, whatever its exit code: but
    instead of ending the program, both stop the kernel, because [exit] kills the
    running task before [yield] asks the scheduler, which asserts that the current
    task runs. *)
Theorem exit_stops_kernel r code s (Hw : Scheduler.wf (sch s)) :
  (exists e, exit r code s = Fail e) /\ (exists e, abort r s = Fail e).
Proof.
  split; [|by eexists]. unfold exit, unreachable, _syscall1, syscall_handler. cbn [Z.eqb].
  change (_SYSCALL_EXIT =? _SYSCALL_EXIT) with true. cbv iota.
  destruct (exit_ (sch s) (reg_frame r)) as [res|e] eqn:E; [by apply (exit_fails _ _ _ Hw) in E|].
  by eexists.
Qed.

(** A code that is not in the table stops the kernel as well. *)
Theorem unknown_syscall_panics code a0 a1 a2 f s :
  ~ (0 <= code <= 4) -> syscall_handler code a0 a1 a2 f s = Fail (Panic "unknown syscall: %lx").
Proof.
  intros Hc. unfold syscall_handler, _SYSCALL_EXIT, _SYSCALL_ABORT, _SYSCALL_ALLOC, _SYSCALL_FREE, _SYSCALL_PRINT.
  repeat case_if; try lia. done.
Qed.

(** ** Output *)

Lemma load_cstring m a l : cstring m a l -> load_bytes m a (length l) = Ok l.
Proof.
  revert a. induction l as [|b l IH]; intros a; [done|]. intros (Hb & _ & Hl). cbn [load_bytes length].
  unfold load. rewrite Hb. cbn [of_option mbind outcome_bind]. by rewrite (IH _ Hl).
Qed.

Lemma string_at_spec m a l : cstring m a l -> string_at m a = Ok l.
Proof.
  intros Hs. unfold string_at. rewrite (strlen_spec _ _ _ Hs). cbn [mbind outcome_bind].
  unfold zlen. rewrite Nat2Z.id. by apply load_cstring.
Qed.
End syscalls.

Arguments os : clear implicits.

Section output.
Context {D : Type} `{Uart16550 D} (spins : nat).
Hypothesis enough : (max_busy < spins)%nat.

(** *** Memory *)

Lemma news_said (h h' : heap) l : said h' = said h ++ l -> news h h' = l.
Proof. exact (news_app h h' l). Qed.

(** What a call of the heap that came to [h] prints. *)
Lemma call_told (s : os D) h : Console.wf (con s) -> Forall message_ok (news (heap_ (sch s)) h) ->
  exists c, print_news spins (heap_ (sch s)) h (con s) = Ok (tt, c) /\
    told (messages_text (news (heap_ (sch s)) h)) [] (con s) c.
Proof. intros Hc Hm. by apply print_messages_told. Qed.

Lemma alloc_call r n a (s : os D) p h : Console.wf (con s) -> 0 <= n < 2 ^ 63 ->
  alloc (heap_ (sch s)) n a READ_WRITE = Ok (p, h) ->
  exists c, aligned_alloc spins r n a s = Ok (Returned p (with_heap s h c)) /\
    told (messages_text (news (heap_ (sch s)) h)) [] (con s) c.
Proof.
  intros Hc Hn Ha. destruct (call_told s h Hc) as (c & He & Ht).
  { apply says_news. exact (kalloc_says (heap_ (sch s)) n a p h Hn Ha). }
  exists c. split; [|done]. unfold aligned_alloc, _syscall2, syscall_handler.
  change (_SYSCALL_ALLOC =? _SYSCALL_EXIT) with false. change (_SYSCALL_ALLOC =? _SYSCALL_ABORT) with false.
  change (_SYSCALL_ALLOC =? _SYSCALL_ALLOC) with true. cbv iota. by rewrite Ha, bind_ok, He, bind_ok.
Qed.

Lemma alloc_call_fails r n a (s : os D) e :
  alloc (heap_ (sch s)) n a READ_WRITE = Fail e -> aligned_alloc spins r n a s = Fail e.
Proof. intros Ha. unfold aligned_alloc, _syscall2, syscall_handler. cbn [Z.eqb]. by rewrite Ha. Qed.

(** Nothing to do is nothing to say. *)
Lemma malloc_nothing r (s : os D) : malloc spins r 0 s = Ok (Returned 0 (with_heap s (heap_ (sch s)) (con s))).
Proof.
  unfold malloc, aligned_alloc, _syscall2, syscall_handler, print_news. change (_SYSCALL_ALLOC =? _SYSCALL_EXIT) with false.
  change (_SYSCALL_ALLOC =? _SYSCALL_ABORT) with false. change (_SYSCALL_ALLOC =? _SYSCALL_ALLOC) with true. cbv iota.
  change (alloc (heap_ (sch s)) 0 1 READ_WRITE) with (Ok (0, heap_ (sch s))). by rewrite bind_ok, news_refl.
Qed.

Lemma free_nothing r (s : os D) : libc_free spins r 0 s = Ok (Returned 0 (with_heap s (heap_ (sch s)) (con s))).
Proof.
  unfold libc_free, _syscall1, syscall_handler, print_news. change (_SYSCALL_FREE =? _SYSCALL_EXIT) with false.
  change (_SYSCALL_FREE =? _SYSCALL_ABORT) with false. change (_SYSCALL_FREE =? _SYSCALL_ALLOC) with false.
  change (_SYSCALL_FREE =? _SYSCALL_FREE) with true. cbv iota.
  change (free (heap_ (sch s)) 0) with (Ok (heap_ (sch s)) : outcome heap). by rewrite bind_ok, news_refl.
Qed.

(** [free] with its messages, on every branch. *)
Lemma free_call r p (s : os D) : Console.wf (con s) ->
  match free (heap_ (sch s)) p with
  | Fail e => libc_free spins r p s = Fail e
  | Ok h => exists c, libc_free spins r p s = Ok (Returned 0 (with_heap s h c)) /\
      told (messages_text (news (heap_ (sch s)) h)) [] (con s) c
  end.
Proof.
  intros Hc. destruct (free (heap_ (sch s)) p) as [h|e] eqn:Ef.
  - destruct (call_told s h Hc) as (c & He & Ht).
    { destruct (Z.eqb_spec p 0) as [->|Hp].
      - unfold free in Ef. cbn in Ef. simplify_eq. rewrite news_refl. constructor.
      - destruct (free_says _ _ _ Ef Hp) as (al & hdr & Hs). rewrite (news_said _ _ _ Hs). repeat constructor. }
    exists c. split; [|done]. unfold libc_free, _syscall1, syscall_handler. cbn [Z.eqb].
    by rewrite Ef, bind_ok, He, bind_ok.
  - unfold libc_free, _syscall1, syscall_handler. cbn [Z.eqb]. by rewrite Ef.
Qed.

(** [C17] Memory through system calls.  [malloc(n)] for [n] below 2 TiB that comes
    back with an address has taken a block of [n] writable bytes from the kernel's
    heap, as [alloc] grants it, and changed nothing but the heap and the serial
    line, which has got the six lines of the allocation; the address is not null.
    [malloc(0)] gives null and is silent.  [free] does to the heap what the kernel's
    [free] does and sends its five lines; of null it does nothing.  None of them
    depends on registers the wrapper leaves unset. *)
Theorem malloc_correct r n (s : os D) (Hw : Alloc.wf (heap_ (sch s))) (Hc : Console.wf (con s)) (Hn : 0 <= n < 2 ^ 41) :
  match malloc spins r n s with
  | Ok (Returned p s') =>
      if n =? 0 then p = 0 /\ s' = with_heap s (heap_ (sch s)) (con s) else
      exists h c base hdr node, s' = with_heap s h c /\ Alloc.wf h /\ Alloc.keeps (heap_ (sch s)) h /\
        block_granted (heap_ (sch s)) h n 1 READ_WRITE p /\ 0 < p /\
        told (messages_text [Allocating n 1; HeaderSize hdr; StartingAddr base; AllocationAddr node;
                             HeaderAddr base; FinalAddr p]) [] (con s) c
  | Ok (Switched _ _) => False
  | Fail e => alloc (heap_ (sch s)) n 1 READ_WRITE = Fail e
  end /\
  (forall p, p <> 0 ->
     match free (heap_ (sch s)) p with
     | Fail e => libc_free spins r p s = Fail e
     | Ok h => exists c al hdr, libc_free spins r p s = Ok (Returned 0 (with_heap s h c)) /\
         told (messages_text [Freeing p; FreeAlignment al; FreeHeaderSize hdr;
                              FreeHeaderAddr (u64 (p - hdr)); FreeAllocationAddr (u64 (p - hdr))]) [] (con s) c
     end) /\
  libc_free spins r 0 s = Ok (Returned 0 (with_heap s (heap_ (sch s)) (con s))) /\
  forall r', malloc spins r' n s = malloc spins r n s.
Proof.
  split; [|split; [|split; [|done]]].
  - destruct (Z.eqb_spec n 0) as [->|E]; [by rewrite malloc_nothing|]. unfold malloc.
    destruct (alloc (heap_ (sch s)) n 1 READ_WRITE) as [[p h]|e] eqn:Ea;
      [|by rewrite (alloc_call_fails r n 1 s e Ea)].
    destruct (alloc_call r n 1 s p h Hc ltac:(lia) Ea) as (c & -> & Ht).
    + destruct (alloc_Ok _ n 1 READ_WRITE p h Hw ltac:(lia) ltac:(lia) ltac:(lia) Ea) as (Hwh & Hk & Hb).
      destruct (alloc_says _ _ _ _ _ _ Ea E) as (hdr & base & node & Hs). rewrite (news_said _ _ _ Hs) in Ht.
      exists h, c, base, hdr, node. do 4 (split; [done|]). split; [|exact Ht].
      destruct Hb as (b & size & ps & nd & x & Hb & _). lia.
  - intros p Hp. pose proof (free_call r p s Hc) as Hf. destruct (free (heap_ (sch s)) p) as [h|e] eqn:Ef; [|done].
    destruct Hf as (c & He & Ht). destruct (free_says _ _ _ Ef Hp) as (al & hdr & Hs). rewrite (news_said _ _ _ Hs) in Ht.
    by exists c, al, hdr.
  - apply free_nothing.
Qed.

(** The C standard and stdlib.h declare [aligned_alloc(alignment, size)], but
    stdlib.cpp takes the size first: who calls it as declared gets a block of
    [alignment] bytes at a multiple of [size].  (In the witness 24 bytes asked for
    at a multiple of 64 come out at an address that is none.) *)
Theorem aligned_alloc_swapped r alignment size (s : os D) p s'
    (Hw : Alloc.wf (heap_ (sch s))) (Ha : 0 < alignment) (Hs : 0 < size) (Hb : alignment + size < 2 ^ 42)
    (Hr : aligned_alloc spins r alignment size s = Ok (Returned p s')) :
  block_granted (heap_ (sch s)) (heap_ (sch s')) alignment size READ_WRITE p.
Proof.
  unfold aligned_alloc, _syscall2, syscall_handler in Hr. cbn [Z.eqb] in Hr.
  change (_SYSCALL_ALLOC =? _SYSCALL_EXIT) with false in Hr. change (_SYSCALL_ALLOC =? _SYSCALL_ABORT) with false in Hr.
  change (_SYSCALL_ALLOC =? _SYSCALL_ALLOC) with true in Hr. cbv iota in Hr.
  apply bind_Ok in Hr as ([q h] & Hq & Hr). apply bind_Ok in Hr as ([u c] & _ & Hr). injection Hr as <- <-.
  by apply alloc_Ok in Hq as (_ & _ & Hg).
Qed.

(** *** Text *)

(** The print system call writes the string its argument points at, and a line
    feed, to the screen and the serial line, returns 0, and changes nothing else;
    a pointer outside the program's memory stops it. *)
Theorem print_syscall r a t (s : os D) (Hc : Console.wf (con s)) (Hv : vga_initialized (con s) = true)
    (Ht : cstring (user_memory s) a t) (Hb : Forall is_byte t) :
  exists sc c', _syscall1 spins r _SYSCALL_PRINT a s = Ok (Returned 0 (OS (sch s) c' (user_memory s))) /\
    Console.wf c' /\ print (con_screen (con s)) t = Ok sc /\ print sc [10] = Ok (con_screen c') /\
    sent (uart_of (con_dev c')) = sent (uart_of (con_dev (con s))) ++ t ++ [10].
Proof.
  destruct (libc_puts_spec spins enough t (con s) Hc) as (c1 & c' & He & Hw & (Hv1 & _ & Hp1 & Hs1) & (_ & _ & Hp2 & Hs2)).
  rewrite Hv1 in Hp2. rewrite Hv in Hp1, Hp2. cbn [andb] in Hp1, Hp2. exists (con_screen c1), c'.
  split; [|split; [done|split; [done|split; [done|]]]].
  - unfold _syscall1, syscall_handler.
    change (_SYSCALL_PRINT =? _SYSCALL_EXIT) with false. change (_SYSCALL_PRINT =? _SYSCALL_ABORT) with false.
    change (_SYSCALL_PRINT =? _SYSCALL_ALLOC) with false. change (_SYSCALL_PRINT =? _SYSCALL_FREE) with false.
    change (_SYSCALL_PRINT =? _SYSCALL_PRINT) with true. cbv iota.
    rewrite (string_at_spec _ _ _ Ht). cbn [mbind outcome_bind]. by rewrite He.
  - rewrite Hs2, Hs1, u8_fixed by done. by rewrite <- app_assoc.
Qed.
End output.

(** ** A running system *)

Definition no_registers : registers := Registers 0 0 0 zero_frame.

(** The text "hi" at address 64. *)
Definition sample_memory : memory := <[64 := 104]> (<[65 := 105]> (<[66 := 0]> ∅)).

Lemma sample_string : cstring sample_memory 64 [104; 105].
Proof. repeat split; done. Qed.

(** One kernel task, the heap of Alloc.v, and that memory. *)
Definition sample_os : outcome (os line) :=
  h ← sample_heap;
  Ok (OS (Sched (Some (replicate 256 (TaskContext zero_frame running 0))) 1 0 (replicate 256 zero_fxsave) zero_fxsave h ∅)
        boot_console sample_memory).

Lemma sample_os_wf : exists s, sample_os = Ok s /\ Alloc.wf (heap_ (sch s)) /\ Scheduler.wf (sch s) /\
  con s = boot_console /\ cstring (user_memory s) 64 [104; 105].
Proof.
  destruct sample_heap_wf as (h & Hh & Hw). unfold sample_os. rewrite Hh. cbn [mbind outcome_bind].
  eexists. split; [reflexivity|]. cbn [sch heap_ con user_memory]. split; [exact Hw|].
  split; [split; cbn [tasks total_tasks current_task_id fxsave_blocks]|split; [reflexivity|]].
  - eexists. split; [reflexivity|vm_compute; reflexivity].
  - unfold MAX_TASKS. lia.
  - lia.
  - vm_compute. reflexivity.
  - exact sample_string.
Qed.

Lemma malloc_correct_witness : exists s p s', sample_os = Ok s /\
  malloc 3 no_registers 100 s = Ok (Returned p s') /\ 0 < p.
Proof.
  assert (max_busy (D := line) < 3)%nat as Hm by (cbn; lia).
  destruct sample_os_wf as (s & Hs & Hw & _ & Hc & _).
  pose proof (malloc_correct 3 Hm no_registers 100 s Hw ltac:(rewrite Hc; exact boot_console_wf) ltac:(lia)) as [Hr _].
  assert ((s ← sample_os; r ← malloc 3 no_registers 100 s; Ok (match r with Returned _ _ => true | _ => false end))
    = Ok true) as Hok by (vm_compute; reflexivity).
  rewrite Hs in Hok. cbn [mbind outcome_bind] in Hok.
  destruct (malloc 3 no_registers 100 s) as [[p s'|]|] eqn:E; [|discriminate Hok..].
  exists s, p, s'. split; [exact Hs|]. split; [exact E|]. change (100 =? 0) with false in Hr.
  destruct Hr as (h & c & base & hdr & node & _ & _ & _ & _ & Hp & _). exact Hp.
Defined.

Lemma print_syscall_witness : exists s sc c', sample_os = Ok s /\
  _syscall1 3 no_registers _SYSCALL_PRINT 64 s = Ok (Returned 0 (OS (sch s) c' (user_memory s))) /\
  print (con_screen boot_console) [104; 105] = Ok sc /\ sent (uart_of (con_dev c')) = [104; 105; 10].
Proof.
  assert (max_busy (D := line) < 3)%nat as Hm by (cbn; lia).
  destruct sample_os_wf as (s & Hs & _ & _ & Hc & Ht).
  destruct (print_syscall 3 Hm no_registers 64 [104; 105] s) as (sc & c' & He & _ & Hp & _ & Hse).
  - rewrite Hc. exact boot_console_wf.
  - rewrite Hc. reflexivity.
  - exact Ht.
  - repeat constructor; done.
  - rewrite Hc in Hp, Hse. exists s, sc, c'. repeat split; assumption.
Defined.

(** A block of 24 bytes asked for at a multiple of 64. *)
Lemma aligned_alloc_swapped_witness : exists s p s', sample_os = Ok s /\
  aligned_alloc 3 no_registers 64 24 s = Ok (Returned p s') /\
  block_granted (heap_ (sch s)) (heap_ (sch s')) 64 24 READ_WRITE p /\ p `mod` 64 <> 0.
Proof.
  destruct sample_os_wf as (s & Hs & Hw & _).
  assert ((s ← sample_os; r ← aligned_alloc 3 no_registers 64 24 s; Ok (match r with Returned p _ => p mod 64 | _ => 0 end))
    = Ok 24) as Hok by (vm_compute; reflexivity).
  rewrite Hs in Hok. cbn [mbind outcome_bind] in Hok.
  destruct (aligned_alloc 3 no_registers 64 24 s) as [[p s'|]|] eqn:E; [|discriminate Hok..].
  exists s, p, s'. split; [exact Hs|]. split; [exact E|].
  split; [exact (aligned_alloc_swapped 3 no_registers 64 24 s p s' Hw ltac:(lia) ltac:(lia) ltac:(lia) E)|].
  injection Hok as ->. discriminate.
Defined.

Lemma exit_stops_kernel_witness : exists s e, sample_os = Ok s /\ exit 3 no_registers 0 s = Fail e.
Proof.
  destruct sample_os_wf as (s & Hs & _ & Hw & _).
  destruct (exit_stops_kernel 3 no_registers 0 s Hw) as [[e He] _]. exists s, e. split; assumption.
Defined.
