(* ===== verification/Firmware.v ===== *)
(** * kernel/cmos.cpp, kernel/acpi.cpp: the clock chip and the ACPI root table

    [cmos::init] switches the periodic interrupt of the clock chip on; what the
    chip does with its two ports is the class [Rtc].  [acpi::init] looks for the
    root table in the BIOS area and reports it; of the table only the checksum is
    used. *)
From S2P Require Import Prelude Memory Paging PageTables PageOps CString Stdio Printf TypedPorts Io Serial Vga Console Reports Dumps Pic.

#[local] Arguments wrap : simpl never.

(** ** CMOS *)

Definition CMOS_COMMAND : TypedPorts.port TypedPorts.write := TypedPorts.Port 0x70.
Definition CMOS_DATA : TypedPorts.port TypedPorts.readwrite := TypedPorts.Port 0x71.
Definition CMOS_NMI_DISABLE : Z := 0x80.
Definition RTC_SELECT_B : Z := 0x0B.
Definition RTC_SELECT_C : Z := 0x0C.
Definition RTC_ENABLE_INTERRUPT : Z := Z.shiftl 1 6.

(** [cmos::init]; the result is [is_initialized]. *)
Definition cmos_init {D} `{Ports D} : io D bool :=
  _ ← TypedPorts.outb CMOS_COMMAND (Z.lor CMOS_NMI_DISABLE RTC_SELECT_B);
  value ← TypedPorts.inb CMOS_DATA;
  _ ← TypedPorts.outb CMOS_COMMAND (Z.lor CMOS_NMI_DISABLE RTC_SELECT_B);
  _ ← TypedPorts.outb CMOS_DATA (Z.lor value RTC_ENABLE_INTERRUPT);
  _ ← TypedPorts.outb CMOS_COMMAND (Z.lor CMOS_NMI_DISABLE RTC_SELECT_C);
  _ ← TypedPorts.inb CMOS_DATA;
  _ ← unmask_irq CMOS_RTC;
  mret true.

(** The clock chip: a register is selected through the command port, whose top bit
    holds back non-maskable interrupts, and read or written through the data port;
    after an access nothing is known about the selection, and reading register C
    clears it.  The interrupt controllers have ports of their own. *)
Class Rtc (D : Type) `{Hp : Ports D} `{Hc : !Pic8259 D} := {
  rtc_reg : D -> Z -> Z;
  rtc_selected : D -> Z;
  nmi_disabled : D -> bool;
  rtc_byte d r : 0 <= rtc_reg d r < 256;
  rtc_select v d : 0 <= v < 256 -> let d' := port_out (TypedPorts.val CMOS_COMMAND) v d in
    rtc_selected d' = v `mod` 128 /\ nmi_disabled d' = Z.testbit v 7 /\ forall r, rtc_reg d' r = rtc_reg d r;
  rtc_read d : exists d', port_in (TypedPorts.val CMOS_DATA) d = (rtc_reg d (rtc_selected d), d') /\
    nmi_disabled d' = nmi_disabled d /\ master d' = master d /\ slave d' = slave d /\
    forall r, rtc_reg d' r = if (r =? rtc_selected d) && (r =? RTC_SELECT_C) then 0 else rtc_reg d r;
  rtc_write v d : 0 <= v < 256 -> rtc_selected d <> RTC_SELECT_C -> let d' := port_out (TypedPorts.val CMOS_DATA) v d in
    nmi_disabled d' = nmi_disabled d /\ forall r, rtc_reg d' r = if r =? rtc_selected d then v else rtc_reg d r;
  rtc_other_out p v d : p <> TypedPorts.val CMOS_COMMAND -> p <> TypedPorts.val CMOS_DATA ->
    nmi_disabled (port_out p v d) = nmi_disabled d /\ forall r, rtc_reg (port_out p v d) r = rtc_reg d r;
  rtc_other_in p d : p <> TypedPorts.val CMOS_DATA ->
    nmi_disabled (port_in p d).2 = nmi_disabled d /\ forall r, rtc_reg (port_in p d).2 r = rtc_reg d r
}.

Section cmos.
Context {D : Type} `{Rtc D}.

Lemma chips_out p v (d : D) : p = TypedPorts.val CMOS_COMMAND \/ p = TypedPorts.val CMOS_DATA ->
  master (port_out p v d) = master d /\ slave (port_out p v d) = slave d.
Proof. intros [->| ->]; split; [rewrite out_master|rewrite out_slave|rewrite out_master|rewrite out_slave]; done. Qed.

(** Unmasking a line leaves the clock chip alone. *)
Lemma unmask_rtc c (d : D) d' : unmask_irq c d = Ok (tt, d') ->
  nmi_disabled d' = nmi_disabled d /\ forall r, rtc_reg d' r = rtc_reg d r.
Proof.
  intros Hu. unfold unmask_irq, mbind, io_bind, inb in Hu.
  assert (irq_port c <> TypedPorts.val CMOS_COMMAND /\ irq_port c <> TypedPorts.val CMOS_DATA) as [Hn1 Hn2] by (unfold irq_port; case_if; done).
  pose proof (rtc_other_in (irq_port c) d Hn2) as [H1 H2].
  destruct (port_in (irq_port c) d) as [v d1] eqn:E. cbn [snd] in H1, H2.
  injection Hu as <-. destruct (rtc_other_out (irq_port c) (u8 (Z.land (u8 v) (Z.lnot (irq_bit c)))) d1 Hn1 Hn2) as [H3 H4].
  split; [congruence|]. intros r. by rewrite H4, H2.
Qed.

Lemma masked_chips c (d d' : D) : master d' = master d -> slave d' = slave d -> masked c d' = masked c d.
Proof. intros Hm Hs. unfold masked, chip_of. by rewrite Hm, Hs. Qed.

(** [cmos::init] sets the interrupt bit of register B and keeps its other bits and
    the other registers, acknowledges what was pending, and opens the line of the
    clock and no other; non-maskable interrupts are held back from then on. *)
Theorem cmos_init_enables (d : D) (Hd : idle d) :
  exists d', cmos_init d = Ok (true, d') /\ idle d' /\ base (master d') = base (master d) /\ base (slave d') = base (slave d) /\
    rtc_reg d' RTC_SELECT_B = Z.lor (rtc_reg d RTC_SELECT_B) RTC_ENABLE_INTERRUPT /\
    rtc_reg d' RTC_SELECT_C = 0 /\
    (forall r, r <> RTC_SELECT_B -> r <> RTC_SELECT_C -> rtc_reg d' r = rtc_reg d r) /\
    nmi_disabled d' = true /\
    forall c, masked c d' = if irq_val c =? irq_val CMOS_RTC then false else masked c d.
Proof.
  set (d1 := port_out (TypedPorts.val CMOS_COMMAND) (Z.lor CMOS_NMI_DISABLE RTC_SELECT_B) d).
  destruct (rtc_select (Z.lor CMOS_NMI_DISABLE RTC_SELECT_B) d ltac:(done)) as (Hs1 & _ & Hr1). fold d1 in Hs1, Hr1.
  change (Z.lor CMOS_NMI_DISABLE RTC_SELECT_B `mod` 128) with RTC_SELECT_B in Hs1.
  destruct (chips_out (TypedPorts.val CMOS_COMMAND) (Z.lor CMOS_NMI_DISABLE RTC_SELECT_B) d ltac:(by left)) as [Hm1 Hl1]. fold d1 in Hm1, Hl1.
  destruct (rtc_read d1) as (d2 & Hin2 & _ & Hm2 & Hl2 & Hr2). rewrite Hs1 in Hin2, Hr2.
  set (d3 := port_out (TypedPorts.val CMOS_COMMAND) (Z.lor CMOS_NMI_DISABLE RTC_SELECT_B) d2).
  destruct (rtc_select (Z.lor CMOS_NMI_DISABLE RTC_SELECT_B) d2 ltac:(done)) as (Hs3 & _ & Hr3). fold d3 in Hs3, Hr3.
  change (Z.lor CMOS_NMI_DISABLE RTC_SELECT_B `mod` 128) with RTC_SELECT_B in Hs3.
  destruct (chips_out (TypedPorts.val CMOS_COMMAND) (Z.lor CMOS_NMI_DISABLE RTC_SELECT_B) d2 ltac:(by left)) as [Hm3 Hl3]. fold d3 in Hm3, Hl3.
  set (v := Z.lor (rtc_reg d RTC_SELECT_B) RTC_ENABLE_INTERRUPT).
  assert (0 <= v < 256) as Hv.
  { unfold v. pose proof (rtc_byte d RTC_SELECT_B). change RTC_ENABLE_INTERRUPT with 64. split; [apply Z.lor_nonneg; lia|].
    apply (Z.log2_lt_cancel _ 256). rewrite Z.log2_lor by lia. change (Z.log2 256) with 8.
    apply Z.max_lub_lt; [|done]. destruct (Z.eq_dec (rtc_reg d RTC_SELECT_B) 0) as [->|]; [done|]. apply Z.log2_lt_pow2; lia. }
  set (d4 := port_out (TypedPorts.val CMOS_DATA) v d3).
  destruct (rtc_write v d3 Hv ltac:(by rewrite Hs3)) as [_ Hr4]. fold d4 in Hr4. rewrite Hs3 in Hr4.
  destruct (chips_out (TypedPorts.val CMOS_DATA) v d3 ltac:(by right)) as [Hm4 Hl4]. fold d4 in Hm4, Hl4.
  set (d5 := port_out (TypedPorts.val CMOS_COMMAND) (Z.lor CMOS_NMI_DISABLE RTC_SELECT_C) d4).
  destruct (rtc_select (Z.lor CMOS_NMI_DISABLE RTC_SELECT_C) d4 ltac:(done)) as (Hs5 & Hn5 & Hr5). fold d5 in Hs5, Hn5, Hr5.
  change (Z.lor CMOS_NMI_DISABLE RTC_SELECT_C `mod` 128) with RTC_SELECT_C in Hs5.
  destruct (chips_out (TypedPorts.val CMOS_COMMAND) (Z.lor CMOS_NMI_DISABLE RTC_SELECT_C) d4 ltac:(by left)) as [Hm5 Hl5]. fold d5 in Hm5, Hl5.
  destruct (rtc_read d5) as (d6 & Hin6 & Hn6 & Hm6 & Hl6 & Hr6). rewrite Hs5 in Hin6, Hr6.
  assert (master d6 = master d /\ slave d6 = slave d) as [Hmm Hss] by (split; congruence).
  assert (idle d6) as Hi6 by (unfold idle in *; by rewrite Hmm, Hss).
  destruct (unmask_irq_spec CMOS_RTC d6 Hi6) as (d7 & Hu & Hi7 & Hb1 & Hb2 & Hmask).
  destruct (unmask_rtc CMOS_RTC d6 d7 Hu) as [Hn7 Hr7].
  exists d7. split; [|split; [exact Hi7|split; [congruence|split; [congruence|]]]].
  { unfold cmos_init, TypedPorts.outb, TypedPorts.inb, outb, inb. cbn [mbind io_bind]. unfold mbind, io_bind. rewrite !(wrap_small 8) by (by vm_compute). fold d1.
    rewrite Hin2, Hr1. cbv iota. rewrite (wrap_small 8 (rtc_reg d RTC_SELECT_B)) by apply rtc_byte. fold v d3.
    rewrite (wrap_small 8 v) by lia. fold d4 d5. rewrite Hin6. unfold unmask_irq in *. by rewrite Hu. }
  assert (forall r, rtc_reg d7 r = if r =? RTC_SELECT_C then 0 else if r =? RTC_SELECT_B then v else rtc_reg d r) as Hr.
  { intros r. rewrite Hr7, Hr6, Hr5, Hr4, Hr3, Hr2, Hr1. destruct (r =? RTC_SELECT_C) eqn:E; [done|].
    rewrite !andb_false_r. done. }
  rewrite !Hr. split; [done|]. split; [done|]. split.
  { intros r H1 H2. rewrite Hr. apply Z.eqb_neq in H1, H2. by rewrite H1, H2. }
  split; [by rewrite Hn7, Hn6, Hn5|]. intros c. rewrite <- (masked_chips c d d6 Hmm Hss).
  apply Hmask.
Qed.
End cmos.

(** ** ACPI *)

(** [convert_to_linear_ptr] of a pointer whose two elements are [p0] and [p1]. *)
Definition convert_to_linear_ptr (p0 p1 : Z) : Z := u64 (u64 (s8 p1) + u64 (s8 p0) * 0x10).

(** The packed structure [RSDP]: where its fields lie, and its size. *)
Definition RSDP_CHECKSUM : Z := 8.
Definition RSDP_OEM_ID : Z := 9.
Definition RSDP_REVISION : Z := 25.
Definition RSDP_RSDT_ADDRESS : Z := 26.
Definition SIZEOF_RSDP : Z := 30.

(** [for (int i = 0; i < (int)sizeof(RSDP); ++i) sum += in[i];] *)
Fixpoint sum_loop (n : nat) (m : memory) (this i sum : Z) : outcome Z :=
  match n with
  | O => Ok sum
  | S n' => b ← load m (this + i); sum_loop n' m this (i + 1) (u32 (sum + b))
  end.
Definition rsdp_valid (m : memory) (this : Z) : outcome bool :=
  sum ← sum_loop (Z.to_nat SIZEOF_RSDP) m this 0 0; Ok (u8 sum =? 0).

Definition rsdp_area_start : Z := 0x000E0000.
Definition rsdp_area_end : Z := 0x00100000.
Definition rsdp_area_size : Z := rsdp_area_end - rsdp_area_start.

Definition load_u32 (m : memory) (a : Z) : outcome Z :=
  b0 ← load m a; b1 ← load m (a + 1); b2 ← load m (a + 2); b3 ← load m (a + 3);
  Ok (b0 + 256 * b1 + 65536 * b2 + 16777216 * b3).

(** The string a [%s] finds at an address. *)
Definition read_string (m : memory) (a : Z) : outcome (list Z) := n ← strlen m a; load_bytes m a (Z.to_nat n).

(** [acpi::init]; [needle] is the address of the literal it looks for and [buffer]
    that of its buffer of 17 characters on the stack. *)
Definition acpi_report {D} `{Ports D} (spins : nat) (m : memory) (rsdp buffer : Z) : io (console D) memory := fun c =>
  '(_, c) ← fprintf spins stderr (nul (chars "rsdp: %p" ++ newline)) [AWord rsdp] c;
  checksum ← load m (rsdp + RSDP_CHECKSUM);
  '(_, c) ← fprintf spins stderr (nul (9 :: chars "checksum: %d" ++ newline)) [AWord checksum] c;
  m ← strncpy m buffer (rsdp + RSDP_OEM_ID) 16;
  oem ← read_string m buffer;
  '(_, c) ← fprintf spins stderr (nul (9 :: chars "oem: %s" ++ newline)) [AStr oem] c;
  revision ← load m (rsdp + RSDP_REVISION);
  '(_, c) ← fprintf spins stderr (nul (9 :: chars "revision: %d" ++ newline)) [AWord revision] c;
  rsdt_address ← load_u32 m (rsdp + RSDP_RSDT_ADDRESS);
  '(_, c) ← fprintf spins stderr (nul (9 :: chars "rsdt addr: 0x%p" ++ newline)) [AWord rsdt_address] c;
  valid ← rsdp_valid m rsdp;
  '(_, c) ← fprintf spins stderr (nul (9 :: chars "valid: %s" ++ newline)) [AStr (chars (if valid : bool then "yes" else "no"))] c;
  Ok (m, c).
Definition acpi_init {D} `{Ports D} (spins : nat) (pt : paging) (m : memory) (needle buffer : Z) : io (console D) (paging * memory) := fun c =>
  '(_, pt) ← identity_map_page_range_into_kernel_space pt rsdp_area_start rsdp_area_size DEFAULT_ATTRS;
  rsdp ← memstr m rsdp_area_start needle rsdp_area_size;
  match rsdp with
  | Some rsdp => '(m, c) ← acpi_report spins m rsdp buffer c; Ok ((pt, m), c)
  | None => '(_, c) ← printf spins (nul (chars "rsdp: not found!" ++ newline)) [] c; Ok ((pt, m), c)
  end.

(** *** The checksum *)

Fixpoint bytes_at (m : memory) (a : Z) (l : list Z) : Prop :=
  match l with
  | [] => True
  | b :: l' => m !! a = Some b /\ bytes_at m (a + 1) l'
  end.

Fixpoint total (l : list Z) : Z := match l with [] => 0 | b :: l' => b + total l' end.

Lemma total_app l1 l2 : total (l1 ++ l2) = total l1 + total l2.
Proof. induction l1 as [|b l1 IH]; cbn [total app]; lia. Qed.

Lemma u8_u32 x : u8 (u32 x) = u8 x.
Proof. unfold wrap. symmetry. apply Znumtheory.Zmod_div_mod; [done|done|]. by exists (2 ^ 24). Qed.

Lemma sum_loop_spec l m this i sum : bytes_at m (this + i) l -> exists s, sum_loop (length l) m this i sum = Ok s /\ u8 s = u8 (sum + total l).
Proof.
  revert i sum. induction l as [|b l IH]; intros i sum Hl; cbn [sum_loop length total].
  { exists sum. split; [done|]. f_equal. lia. }
  destruct Hl as [Hb Hl]. rewrite (load_mapped _ _ _ Hb), bind_ok.
  destruct (IH (i + 1) (u32 (sum + b))) as (s & -> & Hs); [by rewrite Z.add_assoc|].
  exists s. split; [done|]. rewrite Hs. unfold wrap. rewrite <- (Zplus_mod_idemp_l (_ mod _)).
  pose proof (u8_u32 (sum + b)) as Hu. unfold wrap in Hu. rewrite Hu, Zplus_mod_idemp_l. f_equal. lia.
Qed.

(** [RSDP::valid] adds the thirty bytes from the table's start and accepts when
    their sum is a multiple of 256. *)
Theorem rsdp_valid_sum m this l (Hb : bytes_at m this l) (Hl : length l = Z.to_nat SIZEOF_RSDP) :
  rsdp_valid m this = Ok (total l `mod` 256 =? 0).
Proof.
  unfold rsdp_valid. destruct (sum_loop_spec l m this 0 0) as (s & Hs & Hu); [by rewrite Z.add_0_r|].
  rewrite <- Hl, Hs, bind_ok, Hu. done.
Qed.

(** The table itself has twenty bytes, and the standard has them sum to a multiple
    of 256; whether [valid] accepts a good table is decided by the ten bytes that
    happen to lie behind it. *)
Theorem rsdp_valid_reads_on m this table behind :
  bytes_at m this (table ++ behind) -> length table = 20%nat -> length behind = 10%nat -> total table `mod` 256 = 0 ->
  rsdp_valid m this = Ok (total behind `mod` 256 =? 0).
Proof.
  intros Hb Ht Hl Hz. unfold rsdp_valid. destruct (sum_loop_spec (table ++ behind) m this 0 0) as (s & Hs & Hu); [by rewrite Z.add_0_r|].
  change (Z.to_nat SIZEOF_RSDP) with (20 + 10)%nat. rewrite <- Ht, <- Hl, <- length_app, Hs, bind_ok, Hu.
  rewrite total_app. unfold wrap. change (2 ^ 8) with 256. rewrite Z.add_0_l, <- Zplus_mod_idemp_l, Hz. done.
Qed.

Lemma rsdp_valid_reads_on_witness :
  rsdp_valid (list_to_map (zip (seqZ 0xE0000 30) (replicate 20 0 ++ [1] ++ replicate 9 0))) 0xE0000 = Ok false.
Proof.
  apply (rsdp_valid_reads_on _ 0xE0000 (replicate 20 0) ([1] ++ replicate 9 0)); [|done..].
  repeat (split; [by vm_compute|]). done.
Defined.

(** *** The segment pointer *)

(** [convert_to_linear_ptr] takes one byte for the segment and one for the offset,
    where the BIOS has a word for each, and extends their signs: it is segment times
    sixteen plus offset for a segment byte below 128, and lands at the top of the
    address space for one above. *)
Theorem linear_ptr_of_bytes p0 p1 : 0 <= p0 < 256 -> 0 <= p1 < 16 ->
  convert_to_linear_ptr p0 p1 = if p0 <? 128 then 16 * p0 + p1 else 2 ^ 64 + 16 * (p0 - 256) + p1.
Proof.
  intros H0 H1. unfold convert_to_linear_ptr. rewrite (swrap_small 8 p1) by lia.
  rewrite (wrap_small 64 p1) by lia. destruct (Z.ltb_spec p0 128).
  - rewrite (swrap_small 8 p0) by lia. rewrite (wrap_small 64 p0) by lia. rewrite wrap_small; lia.
  - assert (s8 p0 = p0 - 256) as ->.
    { unfold swrap. change (2 ^ (8 - 1)) with 128. change (2 ^ 8) with 256.
      replace (p0 + 128) with (p0 - 128 + 1 * 256) by lia. rewrite Z_mod_plus_full, Z.mod_small; lia. }
    unfold wrap. rewrite (Zplus_mod p1), Zmult_mod_idemp_l, <- Zplus_mod.
    replace (p1 + (p0 - 256) * 16) with (2 ^ 64 + 16 * (p0 - 256) + p1 + (-1) * 2 ^ 64) by lia.
    rewrite Z_mod_plus_full, Z.mod_small; lia.
Qed.

(** *** The report *)

(** [strncpy] of a string that ends within the limit. *)
Lemma strncpy_loop_spec fuel m dst src n i l :
  cstring m (src + i) l -> mapped m (dst + i) (zlen l + 1) -> i + zlen l < n ->
  dst + i + zlen l + 1 <= src + i \/ src + i + zlen l + 1 <= dst + i -> (length l < fuel)%nat ->
  exists m', strncpy_loop fuel m dst src n i = Ok m' /\ cstring m' (dst + i) l /\
    forall x, ~ (dst + i <= x < dst + i + zlen l + 1) -> m' !! x = m !! x.
Proof.
  revert fuel m i. induction l as [|b l IH]; intros fuel m i Hs Hm Hn Hov Hf;
    destruct fuel as [|f]; cbn in Hf; try lia; cbn [strncpy_loop].
  - zlen_nil. replace (i <? n) with true by lia. cbn in Hs. rewrite (load_mapped _ _ _ Hs), bind_ok.
    rewrite store_mapped by (rewrite <- (Z.add_0_r (dst + i)); apply Hm; lia).
    rewrite bind_ok, (load_mapped _ (src + i) 0) by (by rewrite lookup_insert_ne by lia).
    rewrite bind_ok. eexists. split; [done|]. split; [apply lookup_insert_eq|].
    intros x Hx. change (zlen (@nil Z)) with 0 in Hx. by rewrite lookup_insert_ne by lia.
  - rewrite zlen_cons in *. pose proof (zlen_nonneg l). replace (i <? n) with true by lia.
    destruct Hs as (Hb & Hne & Hs). rewrite (load_mapped _ _ _ Hb), bind_ok.
    rewrite store_mapped by (rewrite <- (Z.add_0_r (dst + i)); apply Hm; lia).
    rewrite bind_ok, (load_mapped _ (src + i) b) by (by rewrite lookup_insert_ne by lia).
    rewrite bind_ok. apply Z.eqb_neq in Hne as Hne'. rewrite Hne'.
    destruct (IH f (<[dst + i := b]> m) (i + 1)) as (m' & Hm' & Hs' & Hx').
    + rewrite Z.add_assoc. eapply cstring_frame; [|exact Hs]. intros x Hx. by rewrite lookup_insert_ne by lia.
    + intros k Hk. rewrite lookup_insert. case_decide; [eauto|].
      replace (dst + (i + 1) + k) with (dst + i + (1 + k)) by lia. apply Hm. lia.
    + lia.
    + lia.
    + lia.
    + exists m'. split; [done|]. split.
      * split_and!; [|done|by rewrite <- Z.add_assoc]. rewrite Hx' by lia. apply lookup_insert_eq.
      * intros x Hx. rewrite Hx' by lia. by rewrite lookup_insert_ne by lia.
Qed.

Lemma load_string m a l : cstring m a l -> load_bytes m a (length l) = Ok l.
Proof.
  revert a. induction l as [|b l IH]; intros a Hs; cbn [load_bytes length]; [done|].
  destruct Hs as (Hb & _ & Hs). by rewrite (load_mapped _ _ _ Hb), bind_ok, (IH _ Hs), bind_ok.
Qed.

Lemma read_string_spec m a l : cstring m a l -> read_string m a = Ok l.
Proof.
  intros Hs. unfold read_string. rewrite (strlen_spec _ _ _ Hs), bind_ok. unfold zlen. rewrite Nat2Z.id. by apply load_string.
Qed.

Lemma bytes_at_app m a l1 l2 : bytes_at m a (l1 ++ l2) <-> bytes_at m a l1 /\ bytes_at m (a + zlen l1) l2.
Proof.
  revert a. induction l1 as [|b l1 IH]; intros a; cbn [bytes_at app].
  - zlen_nil. rewrite Z.add_0_r. tauto.
  - rewrite IH, zlen_cons. replace (a + (1 + zlen l1)) with (a + 1 + zlen l1) by lia. tauto.
Qed.

Lemma bytes_at_frame m m' a l : (forall x, a <= x < a + zlen l -> m' !! x = m !! x) -> bytes_at m a l -> bytes_at m' a l.
Proof.
  revert a. induction l as [|b l IH]; intros a Hx Hs; cbn [bytes_at] in *; [done|].
  rewrite zlen_cons in Hx. pose proof (zlen_nonneg l). destruct Hs as [Hb Hs].
  split; [rewrite Hx; [done|lia]|]. apply IH; [|done]. intros x Hr. apply Hx. lia.
Qed.

Lemma load_u32_spec m a b0 b1 b2 b3 : bytes_at m a [b0; b1; b2; b3] ->
  load_u32 m a = Ok (b0 + 256 * b1 + 65536 * b2 + 16777216 * b3).
Proof.
  intros (H0 & H1 & H2 & H3 & _). unfold load_u32.
  replace (a + 2) with (a + 1 + 1) by lia. replace (a + 3) with (a + 1 + 1 + 1) by lia.
  by rewrite (load_mapped _ _ _ H0), bind_ok, (load_mapped _ _ _ H1), bind_ok, (load_mapped _ _ _ H2), bind_ok, (load_mapped _ _ _ H3), bind_ok.
Qed.

Definition report_pieces (rsdp checksum : Z) (oem : list Z) (revision rsdt_address : Z) (valid : bool) : list (list piece) :=
  [[Text (chars "rsdp: "); Ptr rsdp; Text newline];
   [Text (9 :: chars "checksum: "); Dec false none checksum; Text newline];
   [Text (9 :: chars "oem: "); Str oem; Text newline];
   [Text (9 :: chars "revision: "); Dec false none revision; Text newline];
   [Text (9 :: chars "rsdt addr: 0x"); Ptr rsdt_address; Text newline];
   [Text (9 :: chars "valid: "); Str (chars (if valid then "yes" else "no")); Text newline]].

Lemma report_fits rsdp checksum oem revision rsdt_address valid : nonzero oem -> Forall is_byte oem -> zlen oem < 16 ->
  Forall prints_whole (report_pieces rsdp checksum oem revision rsdt_address valid).
Proof.
  intros Hn Hb Hl. pose proof (signed_none_ok checksum). pose proof (signed_none_ok revision).
  pose proof (ptr_length rsdp). pose proof (ptr_length rsdt_address). pose proof (dec_length checksum ltac:(done)).
  pose proof (dec_length revision ltac:(done)).
  unfold report_pieces. repeat apply Forall_cons_2; try apply Forall_nil_2; (split; [|split]);
    try (unfold PRINTF_BUFFER_SIZE; pieces_length); try (repeat constructor; done);
    destruct valid; first [by apply Z.ltb_lt; vm_compute|repeat constructor; done].
Qed.

Section report.
Context {D : Type} `{Uart16550 D} (spins : nat).
Hypothesis enough : (max_busy < spins)%nat.

(** One print of the report. *)
Lemma fprintf_step fmt args ps (c : console D) :
  prints_whole ps -> nul (format_of ps) = fmt -> args_of ps = args -> Console.wf c ->
  exists c', fprintf spins stderr fmt args c = Ok (0, c') /\ Console.wf c' /\ line_of c' = line_of c ++ (u8 <$> rendering ps).
Proof. intros (? & ? & ?) <- <- Hw. by apply (vfprintf_pieces spins enough stderr ps c Hw). Qed.

Ltac report_line F Hw c' Hw' L' :=
  match goal with |- context [fprintf spins stderr ?fmt ?args ?c] =>
    let E := fresh in destruct (fprintf_step fmt args _ c F eq_refl eq_refl Hw) as (c' & E & Hw' & L'); rewrite E, bind_ok; clear E
  end.

(** A table as it lies in memory. *)
Definition table_bytes (sig : list Z) (checksum : Z) (oem pad : list Z) (revision b0 b1 b2 b3 : Z) : list Z :=
  sig ++ [checksum] ++ (oem ++ 0 :: pad) ++ [revision; b0; b1; b2; b3].

Lemma string_at m a l r : bytes_at m a (l ++ 0 :: r) -> nonzero l -> cstring m a l.
Proof.
  revert a. induction l as [|b l IH]; intros a Hb Hn; cbn [app bytes_at cstring] in *; [apply Hb|].
  apply Forall_cons in Hn as [Hn0 Hn]. destruct Hb as [Hb Hl]. split; [done|]. split; [done|]. by apply IH.
Qed.

Lemma table_fields m rsdp sig checksum oem pad revision b0 b1 b2 b3 :
  bytes_at m rsdp (table_bytes sig checksum oem pad revision b0 b1 b2 b3) ->
  length sig = 8%nat -> length (oem ++ 0 :: pad) = 16%nat ->
  m !! (rsdp + 8) = Some checksum /\ bytes_at m (rsdp + 9) (oem ++ 0 :: pad) /\ bytes_at m (rsdp + 25) [revision; b0; b1; b2; b3].
Proof.
  intros Ht Hsig Hoem. unfold table_bytes in Ht.
  apply bytes_at_app in Ht as [_ Ht]. apply bytes_at_app in Ht as [[Hc _] Ht]. apply bytes_at_app in Ht as [Ho Hr].
  rewrite zlen_cons in Hr, Ho. change (zlen (@nil Z)) with 0 in Hr, Ho.
  assert (zlen sig = 8) as E1 by (unfold zlen; lia). assert (zlen (oem ++ 0 :: pad) = 16) as E2 by (unfold zlen; lia).
  rewrite E1 in *. rewrite E2 in Hr. replace (rsdp + 8 + (1 + 0)) with (rsdp + 9) in * by lia.
  split; [exact Hc|]. split; [done|]. by replace (rsdp + 25) with (rsdp + 9 + 16) by lia.
Qed.

(** [acpi::init] on a table whose manufacturer's name ends within its field: the
    report shows each field as it lies in memory, and the verdict of [valid]. *)
Theorem acpi_report_shows m rsdp buffer sig checksum oem pad revision b0 b1 b2 b3 (c : console D) :
  let table := table_bytes sig checksum oem pad revision b0 b1 b2 b3 in
  Console.wf c -> bytes_at m rsdp table -> length sig = 8%nat -> length (oem ++ 0 :: pad) = 16%nat ->
  nonzero oem -> Forall is_byte oem -> mapped m buffer 17 -> buffer + 17 <= rsdp \/ rsdp + SIZEOF_RSDP <= buffer ->
  exists m' c', acpi_report spins m rsdp buffer c = Ok (m', c') /\ Console.wf c' /\ bytes_at m' rsdp table /\
    line_of c' = line_of c ++ (u8 <$> concat (rendering <$> report_pieces rsdp checksum oem revision
      (b0 + 256 * b1 + 65536 * b2 + 16777216 * b3) (total table `mod` 256 =? 0))).
Proof.
  set (addr := b0 + 256 * b1 + 65536 * b2 + 16777216 * b3). intros table Hw Hb Hsig Hoem Hnz Hby Hmap Hdis.
  assert (length table = 30%nat) as Hlen by (unfold table, table_bytes; rewrite length_app, length_app, length_app, Hsig, Hoem; done).
  assert (zlen oem < 16) as Hlo by (rewrite length_app in Hoem; cbn in Hoem; unfold zlen; lia).
  destruct (table_fields _ _ _ _ _ _ _ _ _ _ _ Hb Hsig Hoem) as (Hc & Ho & _).
  destruct (strncpy_loop_spec (fuel_of m) m buffer (rsdp + 9) 16 0 oem) as (m' & Hcpy & Hstr & Hframe).
  { rewrite Z.add_0_r. by apply (string_at _ _ _ pad). }
  { intros i Hi. rewrite Z.add_0_r. apply Hmap. lia. }
  { lia. }
  { unfold SIZEOF_RSDP in Hdis. lia. }
  { by apply (cstring_fuel m (rsdp + 9)), (string_at _ _ _ pad). }
  rewrite Z.add_0_r in Hstr.
  assert (bytes_at m' rsdp table) as Hb'.
  { eapply bytes_at_frame; [|exact Hb]. intros x Hx. apply Hframe. unfold zlen in *. rewrite Hlen in Hx.
    unfold SIZEOF_RSDP in Hdis. lia. }
  destruct (table_fields _ _ _ _ _ _ _ _ _ _ _ Hb' Hsig Hoem) as (_ & _ & Hr & Ha).
  replace (rsdp + 25 + 1) with (rsdp + 26) in Ha by lia. apply load_u32_spec in Ha. fold addr in Ha.
  assert (rsdp_valid m' rsdp = Ok (total table `mod` 256 =? 0)) as Hv.
  { unfold rsdp_valid. destruct (sum_loop_spec table m' rsdp 0 0) as (s & Hs & Hu); [by rewrite Z.add_0_r|].
    rewrite Hlen in Hs. change (Z.to_nat SIZEOF_RSDP) with 30%nat. by rewrite Hs, bind_ok, Hu. }
  set (ok := total table `mod` 256 =? 0) in *.
  pose proof (report_fits rsdp checksum oem revision addr ok Hnz Hby Hlo) as Hfit. unfold report_pieces in *.
  rewrite !Forall_cons in Hfit. destruct Hfit as (F1 & F2 & F3 & F4 & F5 & F6 & _).
  exists m'. unfold acpi_report, RSDP_CHECKSUM, RSDP_OEM_ID, RSDP_REVISION, RSDP_RSDT_ADDRESS.
  report_line F1 Hw c1 Hw1 L1.
  rewrite (load_mapped _ _ _ Hc), bind_ok.
  report_line F2 Hw1 c2 Hw2 L2.
  unfold strncpy. rewrite Hcpy, bind_ok, (read_string_spec _ _ _ Hstr), bind_ok.
  report_line F3 Hw2 c3 Hw3 L3.
  rewrite (load_mapped _ _ _ Hr), bind_ok.
  report_line F4 Hw3 c4 Hw4 L4.
  rewrite Ha, bind_ok.
  report_line F5 Hw4 c5 Hw5 L5.
  rewrite Hv, bind_ok.
  report_line F6 Hw5 c6 Hw6 L6.
  exists c6. split; [done|]. split; [done|]. split; [done|].
  cbn [fmap list_fmap concat]. rewrite !fmap_app, L6, L5, L4, L3, L2, L1, <- !app_assoc, app_nil_r. done.
Qed.

(** [acpi::init] keeps the tree invariant of the page tables, and says so when there
    is no table. *)
Theorem acpi_init_keeps_tables pt m needle buffer (c : console D) pt' m' c' :
  Console.wf c -> PageTables.wf pt -> acpi_init spins pt m needle buffer c = Ok ((pt', m'), c') ->
  PageTables.wf pt' /\
  (memstr m rsdp_area_start needle rsdp_area_size = Ok None ->
     m' = m /\ Console.wf c' /\ line_of c' = line_of c ++ chars "rsdp: not found!" ++ [10]).
Proof.
  intros Hw Hp Hi. unfold acpi_init in Hi. apply bind_Ok in Hi as ([v pt1] & Hm & Hi).
  destruct (identity_map_range_Ok _ _ _ _ _ _ Hp Hm) as [[Hp1 _] _]. apply bind_Ok in Hi as (r & Hr & Hi). destruct r as [r|].
  - apply bind_Ok in Hi as ([m1 c1] & _ & Hi). injection Hi as -> -> ->. split; [done|]. intros E. congruence.
  - destruct (vfprintf_pieces spins enough stdout [Text (chars "rsdp: not found!" ++ newline)] c Hw) as (c1 & E & Hw1 & L);
      [done|repeat constructor; done|repeat constructor; done|by vm_compute|].
    unfold printf in Hi. change (nul (chars "rsdp: not found!" ++ newline)) with (nul (format_of [Text (chars "rsdp: not found!" ++ newline)])) in Hi.
    change (@nil arg) with (args_of [Text (chars "rsdp: not found!" ++ newline)]) in Hi.
    rewrite E, bind_ok in Hi. injection Hi as -> -> ->. split; [done|]. intros _. split; [done|]. split; [done|]. rewrite L. by f_equal.
Qed.
End report.
