(* ===== verification/Startup.v ===== *)
(** * kernel/main.cpp: the start of the kernel

    [kmain] up to the drivers, on one machine that has the serial line, the
    interrupt controllers and the clock chip side by side.  Boot.v has what it does
    to the memory; here it runs with its devices and its messages. *)
From S2P Require Import Prelude Util Memory Paging PageTables PagingInit PageOps Pma Vma Alloc Scheduler Crc32 LowMemory Stdio Printf Io Pic Serial Vga Console Timing Descriptors Reports Boot Dumps HeapMessages Syscalls Firmware.

#[local] Arguments wrap : simpl never.

(** ** Definitions *)

(** Addresses of the linker: the tables, and the routines behind the gates. *)
Record addresses := Addresses { gdt_addr : Z; tss_addr : Z; idt_addr : Z; routine : handler -> Z }.

Section startup.
Context {D : Type} `{Ports D} (spins : nat).

(** [gdt::init] and [idt::init] with their messages; the results are the tables. *)
Definition gdt_init (a : addresses) : io (console D) (list Z) :=
  _ ← printf spins (nul (chars "gdt: initialized at 0x%p" ++ newline)) [AWord (gdt_addr a)];
  mret (gdt (tss_addr a)).
Definition idt_init_at (a : addresses) : io (console D) (list Z) :=
  t ← on_dev (idt_init (routine a));
  _ ← printf spins (nul (chars "idt: initialized at 0x%p" ++ newline)) [AWord (idt_addr a)];
  mret t.

(** [memory::early_init], which dumps the map it has sorted. *)
Definition memory_early_init (boot_map : list memory_map_entry) (n : Z) : io (console D) memory_state :=
  mm ← io_lift (Memory.early_init boot_map n);
  _ ← dump_memory_map spins mm;
  mret mm.

(** [low_memory::init] *)
Definition low_memory_init (start end_ : Z) : io (console D) low_memory :=
  low ← io_lift (LowMemory.init start end_);
  _ ← fprintf spins stderr (nul (chars "Low memory allocator init : %lx bytes at 0x%p - 0x%p" ++ newline))
        [AWord (u64 (end_ - start)); AWord start; AWord end_];
  mret low.

(** The line of [enable_kernel_page_protection] about a segment. *)
Definition print_segment (pt : paging) (fmt : list Z) (start end_ : Z) : io (console D) unit :=
  p ← io_lift (get_physical_address pt start);
  q ← io_lift (get_physical_address pt end_);
  _ ← printf spins (nul fmt) [AWord start; AWord end_; AWord p; AWord q];
  mret tt.

Definition text_format : list Z := chars "Paging init: .text : 0x%p - 0x%p (0x%lx - 0x%lx) = EXEC | READ" ++ newline.
Definition rodata_format : list Z := chars "Paging init: .rodata : 0x%p - 0x%p (0x%lx - 0x%lx) = READ" ++ newline.
Definition data_format : list Z := chars "Paging init: .data : 0x%p - 0x%p (0x%lx - 0x%lx) = READ | WRITE" ++ newline.
Definition bss_format : list Z := chars "Paging init: .bss : 0x%p - 0x%p (0x%lx - 0x%lx) = READ | WRITE" ++ newline.
Definition stack_format : list Z := chars "Paging init: stack: 0x%p - 0x%p (0x%lx - 0x%lx) = READ | WRITE" ++ newline.

(** [paging::enable_kernel_page_protection] with its lines. *)
Definition page_protection (p : processor) (pt : paging) (g : segments) (stack : Z) : io (console D) (processor * paging) :=
  '(p, pt) ← io_lift (enable_kernel_page_protection p pt g stack);
  _ ← print_segment pt text_format (text_start g) (text_end g);
  _ ← print_segment pt rodata_format (rodata_start g) (rodata_end g);
  _ ← print_segment pt data_format (data_start g) (data_end g);
  _ ← print_segment pt bss_format (bss_start g) (bss_end g);
  _ ← printf spins (nul stack_format)
        [AWord (u64 (stack - KERNEL_STACK_SIZE)); AWord stack;
         AWord (u64 (stack - KERNEL_STACK_SIZE - KERNEL_VMA_OFFSET)); AWord (u64 (stack - KERNEL_VMA_OFFSET))];
  _ ← libc_puts spins (chars "Paging init: all kernel pages now protected");
  mret (p, pt).

(** [memory::finish_init] with the message of [vma::init] and the dump of its list. *)
Definition memory_finish (pt : paging) (mm : memory_state) (page : list free_node) : io (console D) heap :=
  '(pm, pt) ← io_lift (Pma.early_init pt mm);
  '(vm, pm, pt) ← io_lift (Vma.init pm pt page);
  _ ← libc_puts spins (chars "vma: initialized");
  _ ← dump_free_list spins vm;
  io_lift (Alloc.init (Heap pm vm pt 0 ∅ ∅ [])).

(** [kmain] up to its integrity check. *)
Definition kmain_start (boot : boot_info) (i : image) (a : addresses) : io (console D) (list Z * list Z * heap * low_memory * processor) :=
  _ ← serial_init spins;
  g ← gdt_init a;
  t ← idt_init_at a;
  mm ← memory_early_init (boot_map i) (num_memory_map_entries boot);
  let pt := Paging.early_init (static_layout i) in
  low ← low_memory_init (bi_avail_low_mem_start boot) (bi_avail_low_mem_end boot);
  computed_crc32 ← io_lift (image_crc32 boot (low_bytes (loaded i)));
  '(p, pt) ← page_protection (loaded i) pt (kernel_segments i) (kernel_stack_base boot);
  h ← memory_finish pt mm (garbage i);
  h ← io_lift (paging_finish_init h);
  _ ← fprintf spins stderr (nul (chars "kernel crc=0x%x, size=%x" ++ newline)) [AWord computed_crc32; AWord (kernel_image_size boot)];
  _ ← io_assert (kernel_expected_crc32 boot =? computed_crc32) "kernel integrity check failed!";
  mret (g, t, h, low, p).

(** The canaries: what lies at the beginning and the end of the image. *)
Record canaries := Canaries { CANARY_BEGIN : list Z; CANARY_END : list Z }.

Definition with_paging (h : heap) (pt : paging) : heap := Heap (h_pma h) (h_vma h) pt (first h) (nodes h) (words h) (said h).

(** From the check to the tasks: the screen, the ACPI table, the canaries and the
    clock chip.  [needle] and [buffer] are the addresses [acpi::init] works with; the
    last result is [cmos::initialized()]. *)
Definition kmain_devices (m : gmap Z Z) (needle buffer : Z) (k : canaries) (h : heap) : io (console D) (heap * gmap Z Z * bool) :=
  pt ← vga_init (h_paging h);
  '(pt, m) ← acpi_init spins pt m needle buffer;
  _ ← io_assert (bool_decide (CANARY_BEGIN k = nul (chars "KERNEL START"))) "CANARY_BEGIN";
  _ ← io_assert (bool_decide (CANARY_END k = nul (chars "KERNEL END"))) "CANARY_END";
  initialized ← on_dev cmos_init;
  mret (with_paging h pt, m, initialized).

(** The variables of scheduler.cpp before [scheduler::init]. *)
Definition initial_sched {H} (h : H) : sched H := Sched None 1 0 [] zero_fxsave h ∅.

(** The scheduler and its timer, on any heap; the heap reports the two arrays. *)
Definition kmain_tasks {H} `{KernelHeap H} (h : H) (initialized : bool) : io (console D) (sched H) :=
  s ← io_lift (Scheduler.init (initial_sched h) initialized);
  _ ← print_news spins h (heap_ s);
  _ ← libc_puts spins (chars "scheduler: initialized");
  _ ← on_dev init_pit;
  _ ← libc_puts spins (chars "timer:     initialized");
  mret s.

(** [kmain] before its tasks, and up to its drivers: the tables, the low memory, the
    scheduler with the kernel's heap, and the rest of the memory. *)
Definition kmain_before_tasks (boot : boot_info) (i : image) (a : addresses) (m : gmap Z Z) (needle buffer : Z) (k : canaries) :
    io (console D) (list Z * list Z * low_memory * processor * heap * gmap Z Z * bool) :=
  '(g, t, h, low, p) ← kmain_start boot i a;
  '(h, m, initialized) ← kmain_devices m needle buffer k h;
  mret (g, t, low, p, h, m, initialized).
Definition kmain (boot : boot_info) (i : image) (a : addresses) (m : gmap Z Z) (needle buffer : Z) (k : canaries) :
    io (console D) (list Z * list Z * low_memory * processor * sched heap * gmap Z Z) :=
  '(g, t, low, p, h, m, initialized) ← kmain_before_tasks boot i a m needle buffer k;
  s ← kmain_tasks h initialized;
  mret (g, t, low, p, s, m).
End startup.

(** ** Chips beside each other *)

(** Each chip answers at its own ports only. *)
Class Board (D : Type) `{Hp : Ports D} `{Hu : !Uart16550 D} `{Hc : !Pic8259 D} `{Hr : !Rtc D} := {
  uart_out p v d : p < COM1 \/ COM1 + 8 <= p -> uart_of (port_out p v d) = uart_of d;
  uart_in p d : p < COM1 \/ COM1 + 8 <= p -> uart_of (port_in p d).2 = uart_of d;
  pic_in p d : master (port_in p d).2 = master d /\ slave (port_in p d).2 = slave d
}.

(** A program whose accesses keep a property. *)
Definition keeps {S A} (I : S -> Prop) (m : io S A) : Prop := forall s a s', I s -> m s = Ok (a, s') -> I s'.

Section keeps.
Context {S : Type} (I : S -> Prop).

Lemma keeps_bind {A B} (m : io S A) (f : A -> io S B) : keeps I m -> (forall a, keeps I (f a)) -> keeps I (m ≫= f).
Proof. intros Hm Hf s b s' Hs He. apply io_bind_Ok in He as (a & s1 & H1 & H2). eapply Hf; [|exact H2]. by eapply Hm. Qed.

Lemma keeps_ret {A} (a : A) : keeps I (mret a).
Proof. intros s b s' Hs [= _ <-]. done. Qed.

Lemma keeps_lift {A} (m : outcome A) : keeps I (io_lift m).
Proof. intros s b s' Hs He. unfold io_lift in He. destruct m; [|done]. by injection He as _ <-. Qed.
End keeps.

Create HintDb keeps.
#[export] Hint Resolve keeps_bind keeps_ret keeps_lift : keeps.

Section ports.
Context {D : Type} `{Ports D} (I : D -> Prop) (own : Z -> Prop).
Hypothesis keeps_out : forall p v d, own p -> I d -> I (port_out p v d).
Hypothesis keeps_in : forall p d, own p -> I d -> I (port_in p d).2.

Lemma keeps_outb p v : own p -> keeps I (outb p v).
Proof. intros Ho d a d' Hd [= _ <-]. by apply keeps_out. Qed.

Lemma keeps_inb p : own p -> keeps I (inb p).
Proof. intros Ho d a d' Hd He. unfold inb in He. pose proof (keeps_in p d Ho Hd). destruct (port_in p d). by injection He as _ <-. Qed.
End ports.

(** The dump of a free list prints, and does nothing else. *)
Section dump.
Context {D : Type} `{Ports D} (spins : nat).

Lemma fprintf_eq f fmt args : fprintf (D := D) spins f fmt args = vfprintf spins f (Some fmt) args.
Proof. reflexivity. Qed.

Lemma dump_nodes_inv fuel l i (c : console D) a c' : dump_nodes spins fuel l (Some i) c = Ok (a, c') ->
  exists fuel' n r c1, vfprintf spins stderr (Some (nul (chars "-- node: %p - %p (%zx)" ++ newline)))
      [AWord (fn_base n); AWord (u64 (fn_base n + fn_size n - 1)); AWord (fn_size n)] c = Ok (r, c1) /\
    (fuel' < fuel)%nat /\ dump_nodes spins fuel' l (fn_next n) c1 = Ok (a, c').
Proof.
  destruct fuel as [|fuel]; intros He; [discriminate He|].
  change (dump_nodes spins (S fuel) l (Some i) c) with (n ← aget l i;
   '(_, c1) ← fprintf spins stderr (nul (chars "-- node: %p - %p (%zx)" ++ newline))
     [AWord (fn_base n); AWord (u64 (fn_base n + fn_size n - 1)); AWord (fn_size n)] c;
   dump_nodes spins fuel l (fn_next n) c1) in He.
  apply bind_Ok in He as (n & _ & He). apply bind_Ok in He as ([r c1] & Hp & He). exists fuel, n, r, c1.
  split; [by rewrite fprintf_eq in Hp|]. split; [lia|exact He].
Qed.

Lemma dump_nodes_ends fuel l (c : console D) a c' : dump_nodes spins fuel l None c = Ok (a, c') -> c' = c.
Proof. destruct fuel; intros He; by injection He as _ <-. Qed.

Lemma dump_nodes_kept (P : console D -> Prop) : (forall f fmt args, keeps P (vfprintf spins f fmt args)) ->
  forall fuel l p, keeps P (dump_nodes spins fuel l p).
Proof.
  intros Hp fuel. induction fuel as [fuel IH] using lt_wf_ind. intros l [i|] c a c' Hc He; [|by apply dump_nodes_ends in He as ->].
  apply dump_nodes_inv in He as (fuel' & n & r & c1 & Hf & Hlt & He). apply (IH fuel' Hlt l _ _ _ _ (Hp _ _ _ _ _ _ Hc Hf) He).
Qed.

Lemma dump_list_kept (P : console D -> Prop) v : (forall f fmt args, keeps P (vfprintf spins f fmt args)) ->
  keeps P (dump_free_list spins v).
Proof.
  intros Hp c a c' Hc He. unfold dump_free_list in He. apply bind_Ok in He as ([r c1] & H1 & He). rewrite fprintf_eq in H1.
  exact (dump_nodes_kept P Hp _ _ _ _ _ _ (Hp _ _ _ _ _ _ Hc H1) He).
Qed.

End dump.

(** Printing accesses the serial line only. *)
Section printing.
Context {D : Type} `{Ports D} (I : D -> Prop) (spins : nat).
Hypothesis keeps_out : forall p v d, COM1 <= p < COM1 + 8 -> I d -> I (port_out p v d).
Hypothesis keeps_in : forall p d, COM1 <= p < COM1 + 8 -> I d -> I (port_in p d).2.

Definition dev_keeps {A} (m : io (console D) A) : Prop := keeps (fun c => I (con_dev c)) m.

Lemma send_keeps b : keeps I (send spins COM1 b).
Proof.
  assert (forall n, keeps I (wait_for_transmitter n)) as Hw.
  { induction n as [|n IH]; cbn [wait_for_transmitter]; [apply keeps_lift|]. apply keeps_bind; [|by intros []; [apply keeps_ret|]].
    unfold transmit_ready. apply keeps_bind; [|intros; apply keeps_ret]. by apply (keeps_inb I _ keeps_in). }
  unfold send. apply keeps_bind; [done|]. intros _. by apply (keeps_outb I _ keeps_out).
Qed.

Lemma init_port_keeps : keeps I (init_port COM1).
Proof. unfold init_port. repeat (apply keeps_bind; [by apply (keeps_outb I _ keeps_out)|intros _]). by apply (keeps_outb I _ keeps_out). Qed.

Lemma dev_keeps_on_dev {A} (m : io D A) : keeps I m -> dev_keeps (on_dev m).
Proof.
  intros Hm c a c' Hc He. unfold on_dev in He. apply bind_Ok in He as ([b d] & He & E). injection E as _ <-.
  by apply (Hm _ _ _ Hc He).
Qed.

Lemma debug_print_keeps t : dev_keeps (debug_print spins t).
Proof.
  apply keeps_bind; [|intros; apply keeps_ret]. apply dev_keeps_on_dev. cbn [debug_puts].
  apply keeps_bind; [|intros; apply keeps_ret]. induction t as [|b t IH]; cbn [send_text]; [apply keeps_ret|].
  apply keeps_bind; [apply send_keeps|done].
Qed.

Lemma vga_print_keeps t : dev_keeps (vga_print t).
Proof.
  intros c a c' Hc He. unfold vga_print, on_screen in He. destruct (vga_initialized c); [|by injection He as _ <-].
  apply bind_Ok in He as (s & _ & He). by injection He as _ <-.
Qed.

Lemma fputs_keeps t f : dev_keeps (fputs spins t f).
Proof. destruct f; cbn [fputs]; repeat (apply keeps_bind; [apply vga_print_keeps || apply debug_print_keeps|intros _]); apply keeps_ret. Qed.

Lemma libc_puts_keeps t : dev_keeps (libc_puts spins t).
Proof. unfold libc_puts. do 2 (apply keeps_bind; [apply fputs_keeps|intros _]). apply keeps_ret. Qed.

Lemma vfprintf_keeps f fmt args : dev_keeps (vfprintf spins f fmt args).
Proof.
  intros c a c' Hc He. unfold vfprintf in He. apply bind_Ok in He as ([[n b] w] & _ & He).
  destruct f; [| |done]; apply bind_Ok in He as (t & _ & He); by eapply (fputs_keeps t); [|exact He].
Qed.

Lemma print_messages_keeps l : dev_keeps (print_messages spins l).
Proof.
  induction l as [|t l IH]; cbn [print_messages]; [apply keeps_ret|]. apply keeps_bind; [apply vfprintf_keeps|done].
Qed.

Lemma dump_keeps m : dev_keeps (dump_memory_map spins m).
Proof.
  unfold dump_memory_map. generalize (Z.to_nat (g_num_of_memory_map_entries m)) as n, 0 as i. induction n as [|n IH]; intros i c a c' Hc He; cbn [dump_entries] in He.
  - by injection He as _ <-.
  - apply bind_Ok in He as (e & _ & He). apply bind_Ok in He as ([r c1] & Hp & He).
    unfold printf in Hp. eapply (IH (i + 1) c1); [|exact He]. by eapply vfprintf_keeps; [exact Hc|].
Qed.

End printing.

(** Nothing is printed to a screen that is not there. *)
Definition no_screen {D} (s : screen) (c : console D) : Prop := vga_initialized c = false /\ con_screen c = s.

Section no_screen.
Context {D : Type} `{Ports D} (spins : nat) (s : screen).

Lemma fputs_no_screen t f : keeps (no_screen s) (fputs spins t f).
Proof.
  assert (keeps (no_screen s) (debug_print (D := D) spins t)) as Hd.
  { apply keeps_bind; [|intros; apply keeps_ret]. intros c a c' Hc He. unfold on_dev in He.
    apply bind_Ok in He as ([b d] & _ & E). by injection E as _ <-. }
  assert (keeps (no_screen s) (vga_print (D := D) t)) as Hv.
  { intros c a c' [Hc Hs] He. unfold vga_print in He. rewrite Hc in He. by injection He as _ <-. }
  destruct f; cbn [fputs]; repeat (apply keeps_bind; [done|intros _]); apply keeps_ret.
Qed.

Lemma vfprintf_no_screen f fmt args : keeps (no_screen s) (vfprintf (D := D) spins f fmt args).
Proof.
  intros c a c' Hc He. unfold vfprintf in He. apply bind_Ok in He as ([[n b] w] & _ & He).
  destruct f; [| |done]; apply bind_Ok in He as (t & _ & He); by eapply (fputs_no_screen t); [|exact He].
Qed.

Lemma dump_no_screen m : keeps (no_screen s) (dump_memory_map (D := D) spins m).
Proof.
  unfold dump_memory_map. generalize (Z.to_nat (g_num_of_memory_map_entries m)) as n, 0 as i. induction n as [|n IH]; intros i c a c' Hc He; cbn [dump_entries] in He.
  - by injection He as _ <-.
  - apply bind_Ok in He as (e & _ & He). apply bind_Ok in He as ([r c1] & Hp & He).
    unfold printf in Hp. eapply (IH (i + 1) c1); [|exact He]. by eapply vfprintf_no_screen; [exact Hc|].
Qed.

End no_screen.

(** ** The texts *)

Definition at_pieces (head : list Z) (a : Z) : list piece := [Text head; Ptr a; Text newline].
Definition gdt_pieces (a : Z) : list piece := at_pieces (chars "gdt: initialized at 0x") a.
Definition idt_pieces (a : Z) : list piece := at_pieces (chars "idt: initialized at 0x") a.
Definition low_pieces (start end_ : Z) : list piece :=
  [Text (chars "Low memory allocator init : "); Hex false false long_int (u64 (end_ - start)); Text (chars " bytes at 0x");
   Ptr start; Text (chars " - 0x"); Ptr end_; Text newline].
Definition crc_pieces (crc size : Z) : list piece :=
  [Text (chars "kernel crc=0x"); Hex false false none crc; Text (chars ", size="); Hex false false none size; Text newline].

(** A line about a segment: addresses, and where they lead. *)
Definition range_pieces (head tail : list Z) (start end_ p q : Z) : list piece :=
  [Text head; Ptr start; Text (chars " - 0x"); Ptr end_; Text (chars " (0x"); Hex false false long_int p; Text (chars " - 0x");
   Hex false false long_int q; Text tail].

Lemma at_fits head a : Forall plain head -> zlen head <= 32 -> prints_whole (at_pieces head a).
Proof.
  intros Hp Hl. pose proof (ptr_length a). split; [|split].
  - repeat constructor; done.
  - repeat constructor; done.
  - unfold at_pieces, PRINTF_BUFFER_SIZE, rendering. cbn [fmap list_fmap concat]. rewrite !zlen_app. cbn [rendered] in *.
    change (zlen newline) with 1. zlen_nil. lia.
Qed.

Lemma low_fits start end_ : prints_whole (low_pieces start end_).
Proof.
  pose proof (ptr_length start). pose proof (ptr_length end_). pose proof (hex_length false (u64 (end_ - start)) long_int).
  split; [repeat constructor; done|split; [repeat constructor; done|]]. unfold low_pieces, PRINTF_BUFFER_SIZE. pieces_length.
Qed.

Lemma crc_fits crc size : prints_whole (crc_pieces crc size).
Proof.
  pose proof (hex_length false crc none). pose proof (hex_length false size none).
  split; [repeat constructor; done|split; [repeat constructor; done|]]. unfold crc_pieces, PRINTF_BUFFER_SIZE. pieces_length.
Qed.

Lemma range_fits head tail start end_ p q : Forall plain head -> Forall plain tail -> zlen head <= 32 -> zlen tail <= 32 ->
  prints_whole (range_pieces head tail start end_ p q).
Proof.
  intros Hh Ht Hlh Hlt. pose proof (ptr_length start). pose proof (ptr_length end_).
  pose proof (hex_length false p long_int). pose proof (hex_length false q long_int).
  split; [repeat constructor; done|split; [repeat constructor; done|]].
  unfold range_pieces, PRINTF_BUFFER_SIZE, rendering. cbn [fmap list_fmap concat]. rewrite !zlen_app. cbn [rendered] in *.
  change (zlen (chars " - 0x")) with 5. change (zlen (chars " (0x")) with 4. zlen_nil. lia.
Qed.

(** ** What a stretch of the start does *)

Definition same_chips {D} `{Hp : Ports D} `{!Pic8259 D} `{!Rtc D} (d d' : D) : Prop :=
  master d' = master d /\ slave d' = slave d /\ nmi_disabled d' = nmi_disabled d /\ forall r, rtc_reg d' r = rtc_reg d r.

Section log.
Context {D : Type} `{Board D} (spins : nat).
Hypothesis enough : (max_busy < spins)%nat.

(** The text [t] has been printed, and nothing else has happened. *)
Record logged (t : list Z) (c c' : console D) : Prop := Logged {
  log_wf : Console.wf c';
  log_shows : shows true t c c';
  log_chips : same_chips (con_dev c) (con_dev c')
}.

Lemma same_chips_out d0 p v (d : D) : COM1 <= p < COM1 + 8 -> same_chips d0 d -> same_chips d0 (port_out p v d).
Proof.
  intros Hp0 (H1 & H2 & H3 & H4). change COM1 with 0x3F8 in Hp0.
  assert (p <> TypedPorts.val CMOS_COMMAND /\ p <> TypedPorts.val CMOS_DATA) as [Hn1 Hn2] by (cbn; lia).
  destruct (rtc_other_out p v d Hn1 Hn2) as [H5 H6]. split; [|split; [|split]].
  - rewrite out_master. replace (p =? PIC1_COMMAND) with false by (symmetry; apply Z.eqb_neq; unfold PIC1_COMMAND; lia).
    by replace (p =? PIC1_DATA) with false by (symmetry; apply Z.eqb_neq; unfold PIC1_DATA; lia).
  - rewrite out_slave. replace (p =? PIC2_COMMAND) with false by (symmetry; apply Z.eqb_neq; unfold PIC2_COMMAND; lia).
    by replace (p =? PIC2_DATA) with false by (symmetry; apply Z.eqb_neq; unfold PIC2_DATA; lia).
  - congruence.
  - intros r. by rewrite H6.
Qed.

Lemma same_chips_in d0 p (d : D) : COM1 <= p < COM1 + 8 -> same_chips d0 d -> same_chips d0 (port_in p d).2.
Proof.
  intros Hp0 (H1 & H2 & H3 & H4). change COM1 with 0x3F8 in Hp0.
  assert (p <> TypedPorts.val CMOS_DATA) as Hn2 by (cbn; lia).
  destruct (rtc_other_in p d Hn2) as [H5 H6]. destruct (pic_in p d) as [H7 H8].
  split; [congruence|]. split; [congruence|]. split; [congruence|]. intros r. by rewrite H6.
Qed.

Lemma same_chips_refl (d : D) : same_chips d d.
Proof. by repeat split. Qed.

Lemma same_chips_trans (d1 d2 d3 : D) : same_chips d1 d2 -> same_chips d2 d3 -> same_chips d1 d3.
Proof. intros (A1 & A2 & A3 & A4) (B1 & B2 & B3 & B4). split_and!; try congruence. Qed.

Lemma shows_trans t1 t2 (c1 c2 c3 : console D) : shows true t1 c1 c2 -> shows true t2 c2 c3 -> shows true (t1 ++ t2) c1 c3.
Proof.
  intros (V1 & L1 & S1) (V2 & L2 & S2). split; [congruence|]. split; [by rewrite L2, L1, fmap_app, app_assoc|].
  rewrite !andb_true_r in *. rewrite V1 in S2. destruct (vga_initialized c1); [|congruence]. by rewrite print_app, S1.
Qed.

Lemma logged_trans t1 t2 (c1 c2 c3 : console D) : logged t1 c1 c2 -> logged t2 c2 c3 -> logged (t1 ++ t2) c1 c3.
Proof. intros [W1 S1 C1] [W2 S2 C2]. split; [done|by eapply shows_trans|by eapply same_chips_trans]. Qed.

Lemma kept_chips {A} (m : io (console D) A) c a c' : (forall d0, dev_keeps (same_chips d0) m) -> m c = Ok (a, c') ->
  same_chips (con_dev c) (con_dev c').
Proof. intros Hk He. eapply Hk; [apply same_chips_refl|exact He]. Qed.

Lemma keeps_chips_printf d0 f fmt args : dev_keeps (same_chips d0) (vfprintf (D := D) spins f fmt args).
Proof. apply vfprintf_keeps; [apply same_chips_out|apply same_chips_in]. Qed.
Lemma keeps_chips_puts d0 t : dev_keeps (same_chips d0) (libc_puts (D := D) spins t).
Proof. apply libc_puts_keeps; [apply same_chips_out|apply same_chips_in]. Qed.

(** A print, to [stdout] or before there is a screen. *)
Lemma print_logged f fmt args ps (c : console D) :
  prints_whole ps -> nul (format_of ps) = fmt -> args_of ps = args -> Console.wf c ->
  f = stdout \/ f = stderr /\ vga_initialized c = false ->
  exists c', vfprintf spins f (Some fmt) args c = Ok (0, c') /\ logged (rendering ps) c c'.
Proof.
  intros (Hok & Hnn & Hfit) <- <- Hw Hf.
  destruct (vfprintf_shows spins enough f ps c Hw ltac:(by destruct Hf as [->|[-> _]]) Hok Hnn Hfit) as (c' & He & Hw' & Hs).
  exists c'. split; [exact He|]. split; [done| |by eapply kept_chips; [intros; apply keeps_chips_printf|exact He]].
  destruct Hf as [->|[-> Hv]]; [done|]. destruct Hs as (V & L & S). rewrite andb_false_r in S.
  split; [done|]. split; [done|]. by rewrite Hv.
Qed.

Lemma puts_logged t (c : console D) : Console.wf c ->
  exists c', libc_puts spins t c = Ok (0, c') /\ logged (t ++ [10]) c c'.
Proof.
  intros Hw. destruct (libc_puts_spec spins enough t c Hw) as (c1 & c' & He & Hw' & (V1 & _ & S1 & L1) & (V2 & _ & S2 & L2)).
  exists c'. split; [exact He|]. split; [done| |by eapply kept_chips; [intros; apply keeps_chips_puts|exact He]].
  eapply shows_trans; by split.
Qed.

(** The address a page table leads to. *)
Definition phys (pt : paging) (a : Z) : Z := match get_physical_address pt a with Ok p => p | Fail _ => 0 end.

Definition segment_log (pt : paging) (head tail : list Z) (start end_ : Z) : list Z :=
  rendering (range_pieces head tail start end_ (phys pt start) (phys pt end_)).

Lemma print_segment_logged pt fmt head tail start end_ (c : console D) :
  nul fmt = nul (format_of (range_pieces head tail start end_ (phys pt start) (phys pt end_))) ->
  Forall plain head -> Forall plain tail -> zlen head <= 32 -> zlen tail <= 32 ->
  (exists p, get_physical_address pt start = Ok p) -> (exists q, get_physical_address pt end_ = Ok q) -> Console.wf c ->
  exists c', print_segment spins pt fmt start end_ c = Ok (tt, c') /\ logged (segment_log pt head tail start end_) c c'.
Proof.
  intros Hf Hh Ht Hlh Hlt [p Hgp] [q Hgq] Hw. unfold print_segment.
  assert (phys pt start = p) as E1 by (unfold phys; by rewrite Hgp). assert (phys pt end_ = q) as E2 by (unfold phys; by rewrite Hgq).
  rewrite Hgp, lift_Ok, Hgq, lift_Ok. unfold segment_log. rewrite E1, E2 in *.
  destruct (print_logged stdout (nul fmt) [AWord start; AWord end_; AWord p; AWord q] (range_pieces head tail start end_ p q) c)
    as (c' & He & Hl); [by apply range_fits|done|done|done|by left|].
  exists c'. split; [|exact Hl]. unfold printf. by rewrite (io_bind_step _ _ _ _ _ He).
Qed.

Definition protection_log (pt : paging) (g : segments) (stack : Z) : list Z :=
  segment_log pt (chars "Paging init: .text : 0x") (chars ") = EXEC | READ" ++ newline) (text_start g) (text_end g) ++
  segment_log pt (chars "Paging init: .rodata : 0x") (chars ") = READ" ++ newline) (rodata_start g) (rodata_end g) ++
  segment_log pt (chars "Paging init: .data : 0x") (chars ") = READ | WRITE" ++ newline) (data_start g) (data_end g) ++
  segment_log pt (chars "Paging init: .bss : 0x") (chars ") = READ | WRITE" ++ newline) (bss_start g) (bss_end g) ++
  rendering (range_pieces (chars "Paging init: stack: 0x") (chars ") = READ | WRITE" ++ newline)
    (u64 (stack - KERNEL_STACK_SIZE)) stack (u64 (stack - KERNEL_STACK_SIZE - KERNEL_VMA_OFFSET)) (u64 (stack - KERNEL_VMA_OFFSET))) ++
  chars "Paging init: all kernel pages now protected" ++ newline.

Lemma translated (pt : paging) l ps : translate_all pt l = Ok ps -> Forall (fun a => exists p, get_physical_address pt a = Ok p) l.
Proof.
  revert ps. induction l as [|a l IH]; intros ps He; [constructor|]. cbn [translate_all] in He.
  apply bind_Ok in He as (p & Hgp & He). apply bind_Ok in He as (qs & Hgq & _). constructor; [by exists p|by eapply IH].
Qed.

Lemma protection_translates pt g stack pt' : protect_kernel_pages pt g stack = Ok pt' ->
  Forall (fun a => exists p, get_physical_address pt' a = Ok p)
    [text_start g; text_end g; rodata_start g; rodata_end g; data_start g; data_end g; bss_start g; bss_end g].
Proof.
  unfold protect_kernel_pages. intros He.
  do 4 (apply bind_Ok in He as (? & _ & He)). apply bind_Ok in He as (u & _ & He).
  do 2 (apply bind_Ok in He as (? & _ & He)). apply bind_Ok in He as (ps & Hgp & He). injection He as <-. by eapply translated.
Qed.

Lemma page_protection_logged p pt g stack p' pt' (c : console D) :
  enable_kernel_page_protection p pt g stack = Ok (p', pt') -> Console.wf c ->
  exists c', page_protection spins p pt g stack c = Ok ((p', pt'), c') /\ logged (protection_log pt' g stack) c c'.
Proof.
  intros He Hw. unfold page_protection. rewrite He, lift_Ok.
  unfold enable_kernel_page_protection in He. apply bind_Ok in He as (pt1 & He & E). injection E as <- ->.
  pose proof (protection_translates _ _ _ _ He) as Ht. rewrite !Forall_cons in Ht.
  destruct Ht as (T1 & T2 & T3 & T4 & T5 & T6 & T7 & T8 & _).
  destruct (print_segment_logged pt' text_format (chars "Paging init: .text : 0x") (chars ") = EXEC | READ" ++ newline) (text_start g) (text_end g) c)
    as (c1 & E1 & L1); [reflexivity|repeat constructor; done|repeat constructor; done|done|done|done|done|done|]. rewrite (io_bind_step _ _ _ _ _ E1).
  destruct (print_segment_logged pt' rodata_format (chars "Paging init: .rodata : 0x") (chars ") = READ" ++ newline) (rodata_start g) (rodata_end g) c1)
    as (c2 & E2 & L2); [reflexivity|repeat constructor; done|repeat constructor; done|done|done|done|done|apply L1|]. rewrite (io_bind_step _ _ _ _ _ E2).
  destruct (print_segment_logged pt' data_format (chars "Paging init: .data : 0x") (chars ") = READ | WRITE" ++ newline) (data_start g) (data_end g) c2)
    as (c3 & E3 & L3); [reflexivity|repeat constructor; done|repeat constructor; done|done|done|done|done|apply L2|]. rewrite (io_bind_step _ _ _ _ _ E3).
  destruct (print_segment_logged pt' bss_format (chars "Paging init: .bss : 0x") (chars ") = READ | WRITE" ++ newline) (bss_start g) (bss_end g) c3)
    as (c4 & E4 & L4); [reflexivity|repeat constructor; done|repeat constructor; done|done|done|done|done|apply L3|]. rewrite (io_bind_step _ _ _ _ _ E4).
  set (a1 := u64 (stack - KERNEL_STACK_SIZE)). set (a2 := u64 (stack - KERNEL_STACK_SIZE - KERNEL_VMA_OFFSET)). set (a3 := u64 (stack - KERNEL_VMA_OFFSET)).
  destruct (print_logged stdout (nul stack_format) [AWord a1; AWord stack; AWord a2; AWord a3]
    (range_pieces (chars "Paging init: stack: 0x") (chars ") = READ | WRITE" ++ newline) a1 stack a2 a3) c4)
    as (c5 & E5 & L5); [apply range_fits; [repeat constructor; done|repeat constructor; done|done|done]|reflexivity|reflexivity|apply L4|by left|].
  unfold printf. rewrite (io_bind_step _ _ _ _ _ E5).
  destruct (puts_logged (chars "Paging init: all kernel pages now protected") c5 (log_wf _ _ _ L5)) as (c6 & E6 & L6).
  rewrite (io_bind_step _ _ _ _ _ E6). exists c6. split; [done|]. unfold protection_log.
  eapply logged_trans; [exact L1|]. eapply logged_trans; [exact L2|]. eapply logged_trans; [exact L3|].
  eapply logged_trans; [exact L4|]. eapply logged_trans; [exact L5|exact L6].
Qed.

(** *** The console before and after [serial::init] *)

Definition fresh_console (c : console D) : Prop :=
  Vga.wf (con_screen c) /\ (exists front, printf_buffer c = front ++ [0] /\ zlen front = PRINTF_BUFFER_SIZE - 1) /\
  vga_initialized c = false.

Lemma serial_init_logged (c : console D) : fresh_console c ->
  exists c', serial_init spins c = Ok (true, c') /\ logged (chars "serial: initialized" ++ newline) c c'.
Proof.
  intros (Hs & Hb & Hv). destruct (serial_init_announces spins enough c Hs Hb) as (c' & He & Hw & Hv' & Hsc & Hl).
  exists c'. split; [exact He|]. split; [done| |].
  - split; [done|]. split; [done|]. rewrite Hv. by apply Hsc.
  - eapply kept_chips; [|exact He]. intros d0. unfold serial_init. apply keeps_bind.
    { apply dev_keeps_on_dev, init_port_keeps, same_chips_out. }
    intros _. apply keeps_bind; [apply keeps_chips_puts|]. intros _. apply keeps_ret.
Qed.

Lemma gdt_init_logged a (c : console D) : Console.wf c ->
  exists c', gdt_init spins a c = Ok (gdt (tss_addr a), c') /\ logged (rendering (gdt_pieces (gdt_addr a))) c c'.
Proof.
  intros Hw. destruct (print_logged stdout (nul (chars "gdt: initialized at 0x%p" ++ newline)) [AWord (gdt_addr a)] (gdt_pieces (gdt_addr a)) c)
    as (c' & He & Hl); [apply at_fits; [repeat constructor; done|done]|reflexivity|reflexivity|done|by left|].
  exists c'. split; [|exact Hl]. unfold gdt_init, printf. by rewrite (io_bind_step _ _ _ _ _ He).
Qed.

(** Programs that leave the serial line alone. *)
Lemma keeps_uart_out u p v : p < COM1 \/ COM1 + 8 <= p -> keeps (fun d => uart_of (D := D) d = u) (outb p v).
Proof. apply (keeps_outb _ (fun p => p < COM1 \/ COM1 + 8 <= p)). intros q w d Hq Hd. by rewrite uart_out. Qed.
Lemma keeps_uart_in u p : p < COM1 \/ COM1 + 8 <= p -> keeps (fun d => uart_of (D := D) d = u) (inb p).
Proof. apply (keeps_inb _ (fun p => p < COM1 \/ COM1 + 8 <= p)). intros q d Hq Hd. by rewrite uart_in. Qed.

Ltac other_port := first [left; by vm_compute|right; by vm_compute].
Ltac uart_kept := repeat (apply keeps_bind; [first [apply keeps_uart_out; other_port|apply keeps_uart_in; other_port]|intros ?]);
  first [apply keeps_uart_out; other_port|apply keeps_uart_in; other_port|apply keeps_ret|idtac].

Lemma unmask_keeps_uart u code : keeps (fun d => uart_of (D := D) d = u) (unmask_irq code).
Proof.
  unfold unmask_irq, irq_port. case_if; uart_kept.
Qed.

Lemma remap_keeps_uart u : keeps (fun d => uart_of (D := D) d = u) remap_interrupts.
Proof. unfold remap_interrupts, wait. uart_kept. Qed.

Lemma cmos_keeps_uart u : keeps (fun d => uart_of (D := D) d = u) cmos_init.
Proof. unfold cmos_init, TypedPorts.outb, TypedPorts.inb. uart_kept. apply keeps_bind; [apply unmask_keeps_uart|]. intros _. apply keeps_ret. Qed.

Lemma pit_keeps_uart u : keeps (fun d => uart_of (D := D) d = u) init_pit.
Proof. unfold init_pit. uart_kept. Qed.

(** A step on the devices other than the serial line. *)
Lemma dev_step {A} (m : io D A) c (a : A) d : Console.wf c -> m (con_dev c) = Ok (a, d) ->
  (forall u, keeps (fun d => uart_of d = u) m) ->
  exists c', on_dev m c = Ok (a, c') /\ Console.wf c' /\ con_dev c' = d /\ vga_initialized c' = vga_initialized c /\
    con_screen c' = con_screen c /\ line_of c' = line_of c.
Proof.
  intros Hw He Hk. exists (Console (con_screen c) (vga_initialized c) (printf_buffer c) d).
  assert (uart_of d = uart_of (con_dev c)) as Hd by (by eapply (Hk _ (con_dev c))).
  split; [unfold on_dev; by rewrite He|]. split; [split; [apply Hw..|]; cbn [con_dev]; rewrite Hd; apply Hw|].
  split; [done|]. split; [done|]. split; [done|]. unfold line_of. cbn [con_dev]. by rewrite Hd.
Qed.

(** *** The memory map *)

Lemma transform_length {X} (f : X -> X * bool) l : length (transform f l) = length l.
Proof. induction l as [|y l IH]; [done|]. simpl. destruct (f y) as [? []]; simpl; lia. Qed.

Lemma early_init_count boot_map n mm : 0 <= n -> Memory.early_init boot_map n = Ok mm ->
  g_num_of_memory_map_entries mm = n /\ n <= zlen (g_memory_map mm).
Proof.
  intros Hn He. assert (0 <= n < MAX_MEMORY_MAP_ENTRIES /\ (Z.to_nat n <= length boot_map)%nat) as [Hn' Hl].
  { unfold Memory.early_init in He. apply bind_Ok in He as (u & Ha & He). apply assert_Ok in Ha. bool_to_prop.
    destruct (_ <=? length boot_map)%nat eqn:E; [|done]. apply Nat.leb_le in E. lia. }
  destruct (early_init_sorts boot_map n Hn' Hl) as (sorted & Hperm & _ & E). rewrite E in He. injection He as <-.
  assert (n = zlen sorted) as Hs.
  { apply Permutation_length in Hperm. unfold zlen. rewrite Hperm, length_take_le by done. lia. }
  rewrite (mark_unusable_app _ _ _ _ _ Hs). rewrite mark_unusable_app by (unfold zlen in *; by rewrite transform_length).
  split; [done|]. cbn [g_memory_map]. rewrite zlen_app. unfold zlen in *. rewrite !transform_length. lia.
Qed.

Definition map_log (mm : memory_state) : list Z :=
  entry_texts (take (Z.to_nat (g_num_of_memory_map_entries mm)) (g_memory_map mm)) 0.

Lemma memory_early_init_logged boot_map n mm (c : console D) : 0 <= n -> Memory.early_init boot_map n = Ok mm ->
  Console.wf c -> vga_initialized c = false ->
  exists c', memory_early_init spins boot_map n c = Ok (mm, c') /\ logged (map_log mm) c c'.
Proof.
  intros Hn He Hw Hv. destruct (early_init_count _ _ _ Hn He) as [E1 E2].
  destruct (dump_memory_map_prints spins enough mm c Hw ltac:(lia)) as (c' & Hd & Hw' & Hl).
  exists c'. split; [unfold memory_early_init; by rewrite He, lift_Ok, (io_bind_step _ _ _ _ _ Hd)|].
  split; [done| |].
  - destruct (dump_no_screen spins (con_screen c) mm c tt c' (conj Hv eq_refl) Hd) as [Hv' Hs'].
    split; [congruence|]. split; [exact Hl|]. by rewrite Hv.
  - eapply kept_chips; [|exact Hd]. intros d0. apply dump_keeps; [apply same_chips_out|apply same_chips_in].
Qed.

Lemma low_memory_init_logged start end_ low (c : console D) : LowMemory.init start end_ = Ok low -> Console.wf c -> vga_initialized c = false ->
  exists c', low_memory_init spins start end_ c = Ok (low, c') /\ logged (rendering (low_pieces start end_)) c c'.
Proof.
  intros He Hw Hv.
  destruct (print_logged stderr (nul (chars "Low memory allocator init : %lx bytes at 0x%p - 0x%p" ++ newline))
    [AWord (u64 (end_ - start)); AWord start; AWord end_] (low_pieces start end_) c) as (c' & E & L);
    [apply low_fits|reflexivity|reflexivity|done|by right|].
  exists c'. split; [|exact L]. unfold low_memory_init, fprintf. by rewrite He, lift_Ok, (io_bind_step _ _ _ _ _ E).
Qed.

Lemma dump_list_logged v l (c : console D) : list_of v l -> Console.wf c -> vga_initialized c = false ->
  exists c', dump_free_list spins v c = Ok (tt, c') /\ logged (nodes_text l) c c'.
Proof.
  intros Hl Hw Hv. destruct (dump_list_spec spins enough v l c Hw Hl) as (c' & Hd & Hw' & Hlog).
  exists c'. split; [exact Hd|]. split; [done| |].
  - destruct (dump_list_kept spins _ v (vfprintf_no_screen spins (con_screen c)) c tt c' (conj Hv eq_refl) Hd) as [Hv' Hs'].
    split; [congruence|]. split; [exact Hlog|]. by rewrite Hv.
  - eapply kept_chips; [|exact Hd]. intros d0. apply dump_list_kept. apply keeps_chips_printf.
Qed.

(** The free list [vma::init] leaves, which the dump shows. *)
Definition first_free_list (pt : paging) (mm : memory_state) (page : list free_node) : list node :=
  match ('(pm, pt) ← Pma.early_init pt mm; Vma.init pm pt page) with
  | Ok (vm, _, _) => live vm
  | Fail _ => []
  end.

Definition memory_log (pt : paging) (mm : memory_state) (page : list free_node) : list Z :=
  (chars "vma: initialized" ++ newline) ++ nodes_text (first_free_list pt mm page).

Lemma memory_finish_logged pt mm page (c : console D) : zlen page = NODES_PER_PAGE -> Console.wf c -> vga_initialized c = false ->
  match memory_finish_init pt mm page with
  | Fail e => memory_finish spins pt mm page c = Fail e
  | Ok h => exists c', memory_finish spins pt mm page c = Ok (h, c') /\ logged (memory_log pt mm page) c c'
  end.
Proof.
  intros Hpage Hw Hv. unfold memory_finish, memory_finish_init, memory_log, first_free_list.
  destruct (Pma.early_init pt mm) as [[pm pt1]|e]; [|done]. rewrite lift_Ok, !bind_ok.
  destruct (Vma.init pm pt1 page) as [[[vm pm2] pt2]|e] eqn:Ev; [|done]. rewrite lift_Ok, bind_ok.
  destruct (puts_logged (chars "vma: initialized") c Hw) as (c1 & E1 & L1). rewrite (io_bind_step _ _ _ _ _ E1).
  assert (vga_initialized c1 = false) as V1 by (destruct L1 as [_ [? _] _]; congruence).
  assert (exists l, list_of vm l) as [l Hl].
  { unfold Vma.init in Ev. apply bind_Ok in Ev as ([p pm1] & _ & Ev). apply bind_Ok in Ev as ([ptr pt0] & _ & Ev).
    apply bind_Ok in Ev as (s & Hs & Ev). injection Ev as <- <- <-. by eapply init_list_ordered. }
  destruct (dump_list_logged vm l c1 Hl (log_wf _ _ _ L1) V1) as (c2 & E2 & L2). rewrite (io_bind_step _ _ _ _ _ E2).
  unfold io_lift. destruct (Alloc.init _) as [h|e]; [|done].
  exists c2. split; [done|]. rewrite (live_list_of _ _ Hl). by eapply logged_trans.
Qed.

(** ** The start and its log *)

(** What [kmain] prints up to its integrity check, given the sorted memory map and
    the page tables after the protection of the kernel's pages. *)
Definition boot_log (boot : boot_info) (i : image) (a : addresses) (mm : memory_state) (pt : paging) (crc : Z) : list Z :=
  (chars "serial: initialized" ++ newline) ++
  rendering (gdt_pieces (gdt_addr a)) ++
  rendering (idt_pieces (idt_addr a)) ++
  map_log mm ++
  rendering (low_pieces (bi_avail_low_mem_start boot) (bi_avail_low_mem_end boot)) ++
  protection_log pt (kernel_segments i) (kernel_stack_base boot) ++
  memory_log pt mm (garbage i) ++
  rendering (crc_pieces crc (kernel_image_size boot)).

(** The interrupt controllers after [idt::init] on the chips of [d]. *)
Definition remapped (d d' : D) : Prop :=
  idle d' /\ base (master d') = 0x20 /\ base (slave d') = 0x28 /\
  forall c, masked c d' = if irq_val c =? irq_val CASCADE then false else masked c d.

Lemma remapped_chips (d d1 d2 : D) : remapped d d1 -> same_chips d1 d2 -> remapped d d2.
Proof.
  intros ((H1 & H2 & H3 & H4) & Hb1 & Hb2 & Hm) (E1 & E2 & _). unfold remapped, idle. rewrite E1, E2.
  split; [done|]. split; [done|]. split; [done|]. intros c. rewrite <- Hm. by apply masked_chips.
Qed.

Lemma idt_init_logged a (c : console D) : Console.wf c -> idle (con_dev c) ->
  exists c', idt_init_at spins a c = Ok (idt (routine a), c') /\ Console.wf c' /\ shows true (rendering (idt_pieces (idt_addr a))) c c' /\
    remapped (con_dev c) (con_dev c').
Proof.
  intros Hw Hi. destruct (remap_interrupts_spec (con_dev c) Hi) as (d & Hd & Hrest).
  assert (idt_init (routine a) (con_dev c) = Ok (idt (routine a), d)) as Hi1 by (unfold idt_init; by rewrite (io_bind_step _ _ _ _ _ Hd)).
  destruct (dev_step (idt_init (routine a)) c _ d Hw Hi1) as (c1 & E1 & Hw1 & Hd1 & Hv1 & Hs1 & Hl1).
  { intros u. unfold idt_init. apply keeps_bind; [apply remap_keeps_uart|]. intros _. apply keeps_ret. }
  destruct (print_logged stdout (nul (chars "idt: initialized at 0x%p" ++ newline)) [AWord (idt_addr a)] (idt_pieces (idt_addr a)) c1)
    as (c2 & E2 & [Hw2 (V2 & L2 & S2) C2]); [apply at_fits; [repeat constructor; done|done]|reflexivity|reflexivity|done|by left|].
  exists c2. split; [unfold idt_init_at, printf; by rewrite (io_bind_step _ _ _ _ _ E1), (io_bind_step _ _ _ _ _ E2)|].
  split; [done|]. split.
  - unfold shows. rewrite <- Hv1, <- Hl1, <- Hs1. by split.
  - eapply remapped_chips; [|exact C2]. rewrite Hd1. exact Hrest.
Qed.

(** The console with the line and the tables ready. *)
Lemma tables_logged a (c : console D) : fresh_console c -> idle (con_dev c) ->
  exists c', (forall B (f : list Z -> list Z -> io (console D) B),
      (serial_init spins ≫= fun _ => gdt_init spins a ≫= fun g => idt_init_at spins a ≫= f g) c = f (gdt (tss_addr a)) (idt (routine a)) c') /\
    Console.wf c' /\ vga_initialized c' = false /\ remapped (con_dev c) (con_dev c') /\
    shows true ((chars "serial: initialized" ++ newline) ++ rendering (gdt_pieces (gdt_addr a)) ++ rendering (idt_pieces (idt_addr a))) c c'.
Proof.
  intros Hfresh Hi. assert (vga_initialized c = false) as Hv by apply Hfresh.
  destruct (serial_init_logged c Hfresh) as (c1 & E1 & L1). destruct (gdt_init_logged a c1 (log_wf _ _ _ L1)) as (c2 & E2 & L2).
  pose proof (logged_trans _ _ _ _ _ L1 L2) as [W2 S2 C2].
  destruct (idt_init_logged a c2 W2) as (c3 & E3 & W3 & S3 & R3).
  { destruct Hi as (H1 & H2 & H3 & H4), C2 as (M2 & S2' & _). unfold idle. by rewrite M2, S2'. }
  pose proof (shows_trans _ _ _ _ _ S2 S3) as S13. exists c3. split.
  { intros B f. by rewrite (io_bind_step _ _ _ _ _ E1), (io_bind_step _ _ _ _ _ E2), (io_bind_step _ _ _ _ _ E3). }
  split; [done|]. split; [destruct S13; congruence|]. rewrite <- app_assoc in S13. split; [|exact S13].
  destruct R3 as (A1 & A2 & A3 & A4), C2 as (M2 & N2 & _). split; [done|]. split; [done|]. split; [done|].
  intros k. rewrite A4. by rewrite (masked_chips k (con_dev c) (con_dev c2)).
Qed.

(** [kmain] up to its integrity check does to the memory what Boot.v says and
    nothing stops it that does not stop those operations; the chips end remapped,
    and the serial line has carried the log. *)
Lemma kmain_start_refines boot i a (c : console D) :
  fresh_console c -> idle (con_dev c) -> 0 <= num_memory_map_entries boot -> zlen (garbage i) = NODES_PER_PAGE ->
  match kmain_memory boot i with
  | Fail e => kmain_start spins boot i a c = Fail e
  | Ok (h, low, p) => exists mm pt crc c',
      Memory.early_init (boot_map i) (num_memory_map_entries boot) = Ok mm /\
      enable_kernel_page_protection (loaded i) (Paging.early_init (static_layout i)) (kernel_segments i) (kernel_stack_base boot) = Ok (p, pt) /\
      image_crc32 boot (low_bytes (loaded i)) = Ok crc /\
      kmain_start spins boot i a c = Ok ((gdt (tss_addr a), idt (routine a), h, low, p), c') /\
      Console.wf c' /\ shows true (boot_log boot i a mm pt crc) c c' /\ remapped (con_dev c) (con_dev c')
  end.
Proof.
  intros Hfresh Hi Hn Hpage. destruct (tables_logged a c Hfresh Hi) as (c3 & E3 & W3 & V3 & R13 & S13).
  unfold kmain_memory, kmain_start. rewrite E3.
  destruct (Memory.early_init (boot_map i) (num_memory_map_entries boot)) as [mm|e] eqn:Em;
    [|unfold memory_early_init; by rewrite bind_assoc, Em, lift_Fail].
  destruct (memory_early_init_logged _ _ mm c3 Hn Em W3 V3) as (c4 & E4 & L4). rewrite (io_bind_step _ _ _ _ _ E4), bind_ok.
  assert (vga_initialized c4 = false) as V4 by (destruct L4 as [_ [? _] _]; congruence).
  destruct (LowMemory.init (bi_avail_low_mem_start boot) (bi_avail_low_mem_end boot)) as [low|e] eqn:El;
    [|unfold low_memory_init; by rewrite bind_assoc, El, lift_Fail].
  destruct (low_memory_init_logged _ _ low c4 El (log_wf _ _ _ L4) V4) as (c5 & E5 & L5). rewrite (io_bind_step _ _ _ _ _ E5), bind_ok.
  destruct (image_crc32 boot _) as [crc|e] eqn:Ec; [|done]. rewrite lift_Ok, bind_ok.
  destruct (enable_kernel_page_protection _ _ _ _) as [[p pt]|e] eqn:Ep; [|unfold page_protection; by rewrite bind_assoc, Ep, lift_Fail].
  destruct (page_protection_logged _ _ _ _ p pt c5 Ep (log_wf _ _ _ L5)) as (c6 & E6 & L6). rewrite (io_bind_step _ _ _ _ _ E6), bind_ok.
  pose proof (logged_trans _ _ _ _ _ L4 (logged_trans _ _ _ _ _ L5 L6)) as L46.
  assert (vga_initialized c6 = false) as V6 by (destruct L46 as [_ [? _] _]; congruence).
  pose proof (memory_finish_logged pt mm (garbage i) c6 Hpage (log_wf _ _ _ L6) V6) as Hf.
  destruct (memory_finish_init pt mm (garbage i)) as [h1|e]; [|by apply io_bind_fail].
  destruct Hf as (c7 & E7 & L7). rewrite (io_bind_step _ _ _ _ _ E7), bind_ok.
  destruct (paging_finish_init h1) as [h|e] eqn:Eg; [|done]. rewrite lift_Ok, bind_ok.
  pose proof (logged_trans _ _ _ _ _ L4 (logged_trans _ _ _ _ _ L5 (logged_trans _ _ _ _ _ L6 L7))) as L47.
  assert (vga_initialized c7 = false) as V7 by (destruct L47 as [_ [? _] _]; congruence).
  destruct (print_logged stderr (nul (chars "kernel crc=0x%x, size=%x" ++ newline)) [AWord crc; AWord (kernel_image_size boot)]
    (crc_pieces crc (kernel_image_size boot)) c7) as (c8 & E8 & L8);
    [apply crc_fits|reflexivity|reflexivity|apply L7|by right|].
  unfold fprintf. rewrite (io_bind_step _ _ _ _ _ E8). unfold io_assert.
  destruct (assert_ (kernel_expected_crc32 boot =? crc) "kernel integrity check failed!") as [u|e] eqn:Ea; [|done].
  rewrite lift_Ok, bind_ok. pose proof (logged_trans _ _ _ _ _ L47 L8) as [W8 S8 C8].
  exists mm, pt, crc, c8. split; [done|]. split; [done|]. split; [done|]. split; [done|]. split; [done|]. split.
  - pose proof (shows_trans _ _ _ _ _ S13 S8) as S. unfold boot_log. rewrite <- !app_assoc in *. exact S.
  - by eapply remapped_chips.
Qed.

(** *** The devices *)

Definition same_rtc (d d' : D) : Prop := nmi_disabled d' = nmi_disabled d /\ forall r, rtc_reg d' r = rtc_reg d r.

Lemma pit_keeps_rtc d0 : keeps (same_rtc d0) (init_pit (D := D)).
Proof.
  set (own := fun p => p <> TypedPorts.val CMOS_COMMAND /\ p <> TypedPorts.val CMOS_DATA).
  assert (forall p v, own p -> keeps (same_rtc d0) (outb p v)) as Ho.
  { intros p v. apply (keeps_outb _ own). intros q w d [H1 H2] [Hn Hrr]. destruct (rtc_other_out q w d H1 H2) as [H3 H4].
    split; [congruence|]. intros r. by rewrite H4. }
  assert (forall p, own p -> keeps (same_rtc d0) (inb p)) as Hin.
  { intros p. apply (keeps_inb _ own). intros q d [_ H2] [Hn Hrr]. destruct (rtc_other_in q d H2) as [H3 H4].
    split; [congruence|]. intros r. by rewrite H4. }
  unfold init_pit. repeat (apply keeps_bind; [by apply Ho|intros _]). apply keeps_bind; [by apply Hin|]. intros v. by apply Ho.
Qed.

Lemma init_pit_spec (d : D) : idle d ->
  exists d', init_pit d = Ok (tt, d') /\ idle d' /\ base (master d') = base (master d) /\ base (slave d') = base (slave d) /\
    same_rtc d d' /\ forall k, masked k d' = if irq_val k =? irq_val PIT then false else masked k d.
Proof.
  intros Hi. assert (exists d1, init_pit d = unmask_irq PIT d1 /\ master d1 = master d /\ slave d1 = slave d) as (d1 & He & Hm & Hs).
  { unfold init_pit. repeat (rewrite (io_bind_step (outb _ _) _ _ tt _ eq_refl)). eexists. split; [reflexivity|].
    rewrite !out_master, !out_slave. by split. }
  assert (idle d1) as Hi1 by (unfold idle; by rewrite Hm, Hs).
  destruct (unmask_irq_spec PIT d1 Hi1) as (d2 & Hum & Hi2 & Hb1 & Hb2 & Hmask). rewrite Hum in He.
  exists d2. split; [exact He|]. split; [done|]. split; [congruence|]. split; [congruence|].
  split; [by eapply (pit_keeps_rtc d d); [split|exact He]|]. intros k. rewrite Hmask.
  by rewrite (masked_chips k d d1).
Qed.

(** The memory operations between the check and the tasks. *)
Definition devices_memory (k : canaries) (h : heap) : outcome heap :=
  '(_, pt) ← identity_map_page_range_into_kernel_space (h_paging h) VGA_MEMORY_BASE_ADDRESS (SCREEN_HEIGHT * SCREEN_WIDTH * SIZEOF_CELL) DEFAULT_ATTRS;
  '(_, pt) ← identity_map_page_range_into_kernel_space pt rsdp_area_start rsdp_area_size DEFAULT_ATTRS;
  _ ← assert_ (bool_decide (CANARY_BEGIN k = nul (chars "KERNEL START"))) "CANARY_BEGIN";
  _ ← assert_ (bool_decide (CANARY_END k = nul (chars "KERNEL END"))) "CANARY_END";
  Ok (with_paging h pt).

(** What [acpi::init] says on the line and shows on the screen, and the memory it
    leaves: the area has no signature, or a table whose manufacturer's name ends
    within its field, away from the buffer. *)
Inductive acpi_says (m : gmap Z Z) (needle buffer : Z) : list Z -> list Z -> gmap Z Z -> Prop :=
  | acpi_absent : CString.memstr m rsdp_area_start needle rsdp_area_size = Ok None ->
      acpi_says m needle buffer (chars "rsdp: not found!" ++ newline) (chars "rsdp: not found!" ++ newline) m
  | acpi_present rsdp sig checksum oem pad revision b0 b1 b2 b3 m' :
      let table := table_bytes sig checksum oem pad revision b0 b1 b2 b3 in
      CString.memstr m rsdp_area_start needle rsdp_area_size = Ok (Some rsdp) ->
      bytes_at m rsdp table -> length sig = 8%nat -> length (oem ++ 0 :: pad) = 16%nat -> nonzero oem -> Forall is_byte oem ->
      CString.mapped m buffer 17 -> buffer + 17 <= rsdp \/ rsdp + SIZEOF_RSDP <= buffer ->
      CString.strncpy m buffer (rsdp + RSDP_OEM_ID) 16 = Ok m' ->
      acpi_says m needle buffer (concat (rendering <$> report_pieces rsdp checksum oem revision
        (b0 + 256 * b1 + 65536 * b2 + 16777216 * b3) (total table `mod` 256 =? 0))) [] m'.
Definition task_log : list Z := (chars "scheduler: initialized" ++ newline) ++ chars "timer:     initialized" ++ newline.

Definition blank_screen : screen := Screen (replicate 2000 blank) (Cursor 0 0).

(** The clock chip interrupts, its other registers as found but for what was
    pending, and non-maskable interrupts are held back. *)
Definition rtc_started (d d' : D) : Prop :=
  rtc_reg d' RTC_SELECT_B = Z.lor (rtc_reg d RTC_SELECT_B) RTC_ENABLE_INTERRUPT /\ rtc_reg d' RTC_SELECT_C = 0 /\
  (forall r, r <> RTC_SELECT_B -> r <> RTC_SELECT_C -> rtc_reg d' r = rtc_reg d r) /\ nmi_disabled d' = true.

Lemma vga_init_runs pt pt' v (c : console D) : Console.wf c ->
  identity_map_page_range_into_kernel_space pt VGA_MEMORY_BASE_ADDRESS (SCREEN_HEIGHT * SCREEN_WIDTH * SIZEOF_CELL) DEFAULT_ATTRS = Ok (v, pt') ->
  vga_init pt c = Ok (pt', Console blank_screen true (printf_buffer c) (con_dev c)).
Proof. intros Hw Hm. unfold vga_init. rewrite Hm, bind_ok, clear_Ok by apply (wf_screen c Hw). done. Qed.

Lemma shows_told t (c c' : console D) : Console.wf c' -> shows true t c c' -> told t t c c'.
Proof. intros Hw (V & L & S). split; [done..|]. by rewrite andb_true_r in S. Qed.

Lemma stderr_keeps_screen s fmt args (c : console D) r c' : vfprintf spins stderr fmt args c = Ok (r, c') ->
  vga_initialized c = true /\ con_screen c = s -> vga_initialized c' = true /\ con_screen c' = s.
Proof.
  intros He Hsame. unfold vfprintf in He. apply bind_Ok in He as ([[n b] w] & _ & He). apply bind_Ok in He as (t & _ & He).
  cbn [fputs] in He. apply io_bind_Ok in He as (u & c1 & H1 & H2). injection H2 as _ <-.
  unfold debug_print in H1. apply io_bind_Ok in H1 as (u2 & c2 & H1 & H2). injection H2 as _ <-.
  unfold on_dev in H1. apply bind_Ok in H1 as ([b2 d] & _ & E). by injection E as _ <-.
Qed.

Lemma blank_screen_wf : Vga.wf blank_screen.
Proof. by split. Qed.

#[local] Opaque blank_screen.

Lemma report_keeps_chips d0 m rsdp buffer : dev_keeps (same_chips d0) (acpi_report (D := D) spins m rsdp buffer).
Proof.
  intros c a c' Hsame He. unfold acpi_report, fprintf in He.
  repeat first
    [apply bind_Ok in He as ([? ?] & Hq & He); pose proof (keeps_chips_printf d0 _ _ _ _ _ _ Hsame Hq) as Hk; clear Hsame Hq; rename Hk into Hsame
    |apply bind_Ok in He as (? & _ & He)].
  by injection He as _ <-.
Qed.

Lemma report_keeps_screen s m rsdp buffer (c : console D) m' c' : vga_initialized c = true -> con_screen c = s ->
  acpi_report spins m rsdp buffer c = Ok (m', c') -> vga_initialized c' = true /\ con_screen c' = s.
Proof.
  intros Hv Hs He. pose proof (conj Hv Hs) as Hsame. clear Hv Hs.
  unfold acpi_report, fprintf in He.
  repeat first
    [apply bind_Ok in He as ([? ?] & Hq & He); pose proof (stderr_keeps_screen s _ _ _ _ _ Hq Hsame) as Hk; clear Hsame Hq; rename Hk into Hsame
    |apply bind_Ok in He as (? & _ & He)].
  by injection He as _ <-.
Qed.

Lemma acpi_init_says pt pt' v m needle buffer t shown m' (c : console D) : Console.wf c -> vga_initialized c = true ->
  identity_map_page_range_into_kernel_space pt rsdp_area_start rsdp_area_size DEFAULT_ATTRS = Ok (v, pt') ->
  acpi_says m needle buffer t shown m' ->
  exists c', acpi_init spins pt m needle buffer c = Ok ((pt', m'), c') /\ told t shown c c' /\ same_chips (con_dev c) (con_dev c').
Proof.
  intros Hw Hv Hm Hs. destruct Hs as [Hn|rsdp sig checksum oem pad revision b0 b1 b2 b3 m' table Hn Hb Hsig Hoem Hnz Hby Hmap Hdis Hcpy].
  - destruct (print_logged stdout (nul (chars "rsdp: not found!" ++ newline)) [] [Text (chars "rsdp: not found!" ++ newline)] c)
      as (c' & E & [W (V & L & S) C]); [split; [repeat constructor; done|split; [repeat constructor; done|by vm_compute]]|reflexivity|reflexivity|done|by left|].
    exists c'. split; [unfold acpi_init, printf; by rewrite Hm, bind_ok, Hn, bind_ok, E, bind_ok|]. split; [|done].
    split; [done|done|exact L|]. rewrite Hv in *. exact S.
  - destruct (acpi_report_shows spins enough m rsdp buffer sig checksum oem pad revision b0 b1 b2 b3 c Hw Hb Hsig Hoem Hnz Hby Hmap Hdis)
      as (m1 & c' & E & W & _ & L).
    assert (m1 = m') as ->.
    { unfold acpi_report in E. apply bind_Ok in E as ([? ?] & _ & E). apply bind_Ok in E as (? & _ & E).
      apply bind_Ok in E as ([? ?] & _ & E). rewrite Hcpy, bind_ok in E. apply bind_Ok in E as (? & _ & E).
      apply bind_Ok in E as ([? ?] & _ & E). apply bind_Ok in E as (? & _ & E). apply bind_Ok in E as ([? ?] & _ & E).
      apply bind_Ok in E as (? & _ & E). apply bind_Ok in E as ([? ?] & _ & E). apply bind_Ok in E as (? & _ & E).
      apply bind_Ok in E as ([? ?] & _ & E). by injection E. }
    exists c'. split; [unfold acpi_init; by rewrite Hm, bind_ok, Hn, bind_ok, E, bind_ok|].
    destruct (report_keeps_screen (con_screen c) m rsdp buffer c m' c' Hv eq_refl E) as [V S].
    split; [|by eapply (report_keeps_chips (con_dev c) m rsdp buffer c m' c'); [apply same_chips_refl|]].
    split; [done|congruence|exact L|]. rewrite Hv, S. by destruct (con_screen c).
Qed.

(** One line has been opened and the controllers are as found otherwise. *)
Definition opened (code : irq) (d d' : D) : Prop :=
  idle d' /\ base (master d') = base (master d) /\ base (slave d') = base (slave d) /\
  forall l, masked l d' = if irq_val l =? irq_val code then false else masked l d.

Lemma opened_after code (d d1 d2 : D) : same_chips d d1 -> opened code d1 d2 -> opened code d d2.
Proof.
  intros (M & P & _) (Hi & H1 & H2 & Hm). split; [done|]. split; [congruence|]. split; [congruence|].
  intros l. rewrite Hm. by rewrite (masked_chips l d d1).
Qed.

Lemma opened_before code (d d1 d2 : D) : opened code d d1 -> same_chips d1 d2 -> opened code d d2.
Proof.
  intros (Hi & H1 & H2 & Hm) (M & P & _). split; [unfold idle in *; by rewrite M, P|]. split; [congruence|]. split; [congruence|].
  intros l. rewrite <- Hm. by apply masked_chips.
Qed.

(** The two steps on the chips; nothing is printed. *)
Lemma cmos_stage (c : console D) : Console.wf c -> idle (con_dev c) ->
  exists c', on_dev cmos_init c = Ok (true, c') /\ Console.wf c' /\ shows true [] c c' /\
    opened CMOS_RTC (con_dev c) (con_dev c') /\ rtc_started (con_dev c) (con_dev c').
Proof.
  intros Hw Hi. destruct (cmos_init_enables (con_dev c) Hi) as (d & E & Hi' & H1 & H2 & R1 & R2 & R3 & R4 & Hm).
  destruct (dev_step cmos_init c true d Hw E cmos_keeps_uart) as (c' & E' & W & Dv & V & S & N).
  exists c'. split; [exact E'|]. split; [done|]. rewrite Dv. split; [|by split].
  split; [done|]. split; [by rewrite app_nil_r|]. rewrite S. by destruct (vga_initialized c && true).
Qed.

Lemma pit_stage (c : console D) : Console.wf c -> idle (con_dev c) ->
  exists c', on_dev init_pit c = Ok (tt, c') /\ Console.wf c' /\ shows true [] c c' /\
    opened PIT (con_dev c) (con_dev c') /\ same_rtc (con_dev c) (con_dev c').
Proof.
  intros Hw Hi. destruct (init_pit_spec (con_dev c) Hi) as (d & E & Hi' & H1 & H2 & Hs & Hm).
  destruct (dev_step init_pit c tt d Hw E pit_keeps_uart) as (c' & E' & W & Dv & V & S & N).
  exists c'. split; [exact E'|]. split; [done|]. rewrite Dv. split; [|by split].
  split; [done|]. split; [by rewrite app_nil_r|]. rewrite S. by destruct (vga_initialized c && true).
Qed.

Lemma kmain_devices_refines m needle buffer t shown m' k h (c : console D) : Console.wf c -> idle (con_dev c) ->
  acpi_says m needle buffer t shown m' ->
  match devices_memory k h with
  | Fail e => kmain_devices spins m needle buffer k h c = Fail e
  | Ok h' => exists c', kmain_devices spins m needle buffer k h c = Ok ((h', m', true), c') /\
      told t shown (Console blank_screen true (printf_buffer c) (con_dev c)) c' /\
      opened CMOS_RTC (con_dev c) (con_dev c') /\ rtc_started (con_dev c) (con_dev c')
  end.
Proof.
  intros Hw Hi Hn. unfold devices_memory, kmain_devices.
  destruct (identity_map_page_range_into_kernel_space (h_paging h) _ _ _) as [[v1 pt1]|e] eqn:E1;
    [|unfold vga_init, mbind, io_bind; by rewrite E1].
  rewrite (io_bind_step _ _ _ _ _ (vga_init_runs _ _ _ c Hw E1)), bind_ok.
  set (c1 := Console blank_screen true (printf_buffer c) (con_dev c)).
  assert (Console.wf c1) as Hw1 by (split; [exact blank_screen_wf|apply Hw|apply Hw]).
  destruct (identity_map_page_range_into_kernel_space pt1 _ _ _) as [[v2 pt2]|e] eqn:E2;
    [|unfold acpi_init, mbind, io_bind; by rewrite E2].
  destruct (acpi_init_says pt1 pt2 v2 m needle buffer t shown m' c1 Hw1 eq_refl E2 Hn) as (c2 & Ea & T2 & C2).
  pose proof (told_wf _ _ _ _ T2) as W2.
  rewrite (io_bind_step _ _ _ _ _ Ea), bind_ok. unfold io_assert.
  destruct (assert_ (bool_decide (CANARY_BEGIN k = _)) _) as [u1|e]; [|done]. rewrite lift_Ok, bind_ok.
  destruct (assert_ (bool_decide (CANARY_END k = _)) _) as [u2|e]; [|done]. rewrite lift_Ok, bind_ok.
  assert (idle (con_dev c2)) as Hi2 by (destruct C2 as (M2 & P2 & _); unfold idle; by rewrite M2, P2).
  destruct (cmos_stage c2 W2 Hi2) as (c3 & E3 & W3 & S3 & O3 & R3). rewrite (io_bind_step _ _ _ _ _ E3).
  exists c3. split; [done|]. split.
  - pose proof (told_trans _ _ _ _ _ _ _ T2 (shows_told _ _ _ W3 S3)) as T. by rewrite !app_nil_r in T.
  - split; [by eapply opened_after|]. destruct C2 as (_ & _ & N & Q), R3 as (A1 & A2 & A3 & A4).
    split; [by rewrite A1, Q|]. split; [done|]. split; [|done]. intros r H1 H2. by rewrite A3, Q.
Qed.

(** The tasks' part stops where [scheduler::init] does; otherwise the heap has
    reported its two arrays on the line and the timer runs. *)
Theorem kmain_tasks_refines {H'} `{!KernelHeap H'} (h : H') (c : console D) : Console.wf c -> idle (con_dev c) ->
  match Scheduler.init (initial_sched h) true with
  | Fail e => kmain_tasks spins h true c = Fail e
  | Ok s => exists c', kmain_tasks spins h true c = Ok (s, c') /\ told (messages_text (news h (heap_ s)) ++ task_log) task_log c c' /\
      opened PIT (con_dev c) (con_dev c') /\ same_rtc (con_dev c) (con_dev c')
  end.
Proof.
  intros Hw Hi. unfold kmain_tasks. destruct (Scheduler.init _ true) as [s|e] eqn:Es; [|done]. rewrite lift_Ok.
  destruct (print_messages_told spins enough (news h (heap_ s)) c) as (c3 & E3 & T3);
    [by apply says_news; apply scheduler_init_says in Es|done|].
  assert (same_chips (con_dev c) (con_dev c3)) as C3.
  { eapply kept_chips; [|exact E3]. intros d0. apply print_messages_keeps; [apply same_chips_out|apply same_chips_in]. }
  unfold print_news. rewrite (io_bind_step _ _ _ _ _ E3).
  destruct (puts_logged (chars "scheduler: initialized") c3 (told_wf _ _ _ _ T3)) as (c4 & E4 & [W4 S4 C4']). rewrite (io_bind_step _ _ _ _ _ E4).
  pose proof (same_chips_trans _ _ _ C3 C4') as C4.
  assert (idle (con_dev c4)) as Hi4 by (destruct C4 as (M4 & P4 & _); unfold idle; by rewrite M4, P4).
  destruct (pit_stage c4 W4 Hi4) as (c5 & E5 & W5 & S5 & O5 & R5). rewrite (io_bind_step _ _ _ _ _ E5).
  destruct (puts_logged (chars "timer:     initialized") c5 W5) as (c6 & E6 & [W6 S6 C6]). rewrite (io_bind_step _ _ _ _ _ E6).
  exists c6. split; [done|]. split.
  - exact (told_trans _ _ _ _ _ _ _ T3 (shows_told _ _ _ W6 (shows_trans _ _ _ _ _ S4 (shows_trans _ _ _ _ _ S5 S6)))).
  - split; [by eapply opened_before; [eapply opened_after|]|].
    destruct C4 as (_ & _ & N4 & Q4), R5 as [N5 Q5], C6 as (_ & _ & N6 & Q6).
    split; [congruence|]. intros r. by rewrite Q6, Q5, Q4.
Qed.

(** [C9] [kmain] up to its tasks refines its memory operations: it stops exactly
    where they stop, with the same fault, and otherwise ends with their heap and
    registers; whatever state the line was found in, the log of the start has been
    sent, complete and in order; what is printed to [stdout] after [vga::init] is on
    the screen; interrupts arrive from vector 0x20 on, exactly the lines of the
    cascade and the clock chip have been opened, and the clock chip interrupts.  The
    BIOS area has no ACPI table, or one whose manufacturer's name ends within its
    field ([acpi_says]): then its report is on the line. *)
Theorem kmain_boots boot i a m needle buffer t shown m' k (c : console D)
    (Hfresh : fresh_console c) (Hidle : idle (con_dev c)) (Hentries : 0 <= num_memory_map_entries boot)
    (Hpage : zlen (garbage i) = NODES_PER_PAGE)
    (Hacpi : acpi_says m needle buffer t shown m') :
  match ('(h, low, p) ← kmain_memory boot i; h' ← devices_memory k h; Ok (low, p, h')) with
  | Fail e => kmain_before_tasks spins boot i a m needle buffer k c = Fail e
  | Ok (low, p, h) => exists mm pt crc c',
      Memory.early_init (boot_map i) (num_memory_map_entries boot) = Ok mm /\
      enable_kernel_page_protection (loaded i) (Paging.early_init (static_layout i)) (kernel_segments i) (kernel_stack_base boot) = Ok (p, pt) /\
      image_crc32 boot (low_bytes (loaded i)) = Ok crc /\
      kmain_before_tasks spins boot i a m needle buffer k c = Ok ((gdt (tss_addr a), idt (routine a), low, p, h, m', true), c') /\
      Console.wf c' /\ line_of c' = line_of c ++ (u8 <$> boot_log boot i a mm pt crc ++ t) /\
      vga_initialized c' = true /\ print blank_screen shown = Ok (con_screen c') /\
      idle (con_dev c') /\ base (master (con_dev c')) = 0x20 /\ base (slave (con_dev c')) = 0x28 /\
      rtc_reg (con_dev c') RTC_SELECT_C = 0 /\ Z.testbit (rtc_reg (con_dev c') RTC_SELECT_B) 6 = true /\
      forall l, masked l (con_dev c') =
        if (irq_val l =? irq_val CASCADE) || (irq_val l =? irq_val CMOS_RTC) then false else masked l (con_dev c)
  end.
Proof.
  unfold kmain_before_tasks. pose proof (kmain_start_refines boot i a c Hfresh Hidle Hentries Hpage) as Hs.
  destruct (kmain_memory boot i) as [[[h low] p]|e]; [|by apply io_bind_fail].
  destruct Hs as (mm & pt & crc & c1 & Em & Ep & Ec & Es & W1 & (V1 & L1 & _) & (Hi1 & Hb1 & Hb2 & Hm1)).
  rewrite (io_bind_step _ _ _ _ _ Es), bind_ok.
  pose proof (kmain_devices_refines m needle buffer t shown m' k h c1 W1 Hi1 Hacpi) as Hd.
  destruct (devices_memory k h) as [h'|e]; [|by apply io_bind_fail].
  destruct Hd as (c2 & Ed & [W2 V2 L2 S2] & (Hi2 & Hb3 & Hb4 & Hm2) & (R1 & R2 & _)). rewrite bind_ok.
  exists mm, pt, crc, c2. rewrite (io_bind_step _ _ _ _ _ Ed).
  do 3 (split; [done|]). split; [done|]. split; [done|].
  split; [rewrite fmap_app, app_assoc, <- L1; exact L2|]. split; [done|]. split; [exact S2|].
  split; [done|]. split; [congruence|]. split; [congruence|]. split; [done|]. split.
  - rewrite R1, Z.lor_spec. change (Z.testbit RTC_ENABLE_INTERRUPT 6) with true. apply orb_true_r.
  - intros l. rewrite Hm2, Hm1. by destruct (irq_val l =? irq_val CMOS_RTC), (irq_val l =? irq_val CASCADE).
Qed.
End log.

(** ** A machine *)

Record clock_chip := ClockChip { registers : gmap Z Z; selection : Z; no_nmi : bool }.
Record pc := Pc { pc_line : line; pc_chips : two_chips; pc_clock : clock_chip }.

Definition clock_reg (k : clock_chip) (r : Z) : Z := u8 (default 0 (registers k !! r)).
Definition clock_in (k : clock_chip) : Z * clock_chip :=
  (clock_reg k (selection k),
   if selection k =? RTC_SELECT_C then ClockChip (<[RTC_SELECT_C := 0]> (registers k)) (selection k) (no_nmi k) else k).
Definition clock_out (p v : Z) (k : clock_chip) : clock_chip :=
  if p =? TypedPorts.val CMOS_COMMAND then ClockChip (registers k) (v `mod` 128) (Z.testbit v 7)
  else if p =? TypedPorts.val CMOS_DATA then ClockChip (<[selection k := v]> (registers k)) (selection k) (no_nmi k) else k.

#[export] Instance pc_ports : Ports pc := {
  port_in p d :=
    let '(l, line') := port_in p (pc_line d) in
    let '(v, chips') := port_in p (pc_chips d) in
    let '(r, clock') := if p =? TypedPorts.val CMOS_DATA then clock_in (pc_clock d) else (v, pc_clock d) in
    (if p =? COM1 + 5 then l else r, Pc line' chips' clock');
  port_out p v d := Pc (port_out p v (pc_line d)) (port_out p v (pc_chips d)) (clock_out p v (pc_clock d))
}.

#[export] Instance pc_uart : Uart16550 pc.
Proof.
  refine {| uart_of d := uart_of (pc_line d); busy d := busy (pc_line d); max_busy := max_busy (D := line) |}.
  - intros d. apply busy_bound.
  - intros i v d Hi Hv Hb. exact (write_register i v (pc_line d) Hi Hv Hb).
  - intros d. destruct (read_line_status (pc_line d)) as (v & l & Hr & Hv & Ht & Hu & Hn).
    cbn [port_in pc_ports]. rewrite Hr. change (COM1 + 5 =? TypedPorts.val CMOS_DATA) with false. cbv iota.
    destruct (port_in (COM1 + 5) (pc_chips d)) as [w chips]. rewrite Z.eqb_refl. by eexists _, _.
Defined.

#[export] Instance pc_pic : Pic8259 pc.
Proof.
  refine {| master d := master (pc_chips d); slave d := slave (pc_chips d) |}.
  - intros d. destruct (read_master (pc_chips d)) as (k & Hr & Hm & Hs). cbn [port_in pc_ports]. rewrite Hr.
    destruct (port_in PIC1_DATA (pc_line d)) as [w l]. change (PIC1_DATA =? TypedPorts.val CMOS_DATA) with false.
    change (PIC1_DATA =? COM1 + 5) with false. cbv iota. by eexists.
  - intros d. destruct (read_slave (pc_chips d)) as (k & Hr & Hm & Hs). cbn [port_in pc_ports]. rewrite Hr.
    destruct (port_in PIC2_DATA (pc_line d)) as [w l]. change (PIC2_DATA =? TypedPorts.val CMOS_DATA) with false.
    change (PIC2_DATA =? COM1 + 5) with false. cbv iota. by eexists.
  - intros p v d. exact (out_master p v (pc_chips d)).
  - intros p v d. exact (out_slave p v (pc_chips d)).
Defined.

Lemma clock_reg_byte k r : 0 <= clock_reg k r < 256.
Proof. apply wrap_range. lia. Qed.

Lemma pc_clock_out p v (d : pc) : pc_clock (port_out p v d) = clock_out p v (pc_clock d).
Proof. done. Qed.

Lemma pc_clock_in p (d : pc) : p <> TypedPorts.val CMOS_DATA -> pc_clock (port_in p d).2 = pc_clock d.
Proof.
  intros Hp. cbn [port_in pc_ports]. destruct (port_in p (pc_line d)), (port_in p (pc_chips d)).
  apply Z.eqb_neq in Hp as ->. done.
Qed.

#[export] Instance pc_rtc : Rtc pc.
Proof.
  refine {| rtc_reg d r := clock_reg (pc_clock d) r; rtc_selected d := selection (pc_clock d); nmi_disabled d := no_nmi (pc_clock d) |}.
  - intros d r. apply clock_reg_byte.
  - intros v d Hv d'. by split.
  - intros d. cbn [port_in pc_ports]. destruct (port_in _ (pc_line d)) as [w l] eqn:El.
    change (TypedPorts.val CMOS_DATA =? TypedPorts.val CMOS_DATA) with true. change (TypedPorts.val CMOS_DATA =? COM1 + 5) with false. cbv iota.
    eexists. split; [reflexivity|]. cbn [pc_clock master slave pc_pic pc_chips]. split; [by case_match|]. split; [done|]. split; [done|].
    intros r. unfold clock_reg. destruct (selection (pc_clock d) =? RTC_SELECT_C) eqn:E; cbn [registers].
    + bool_to_prop. rewrite E, andb_diag. destruct (Z.eqb_spec r RTC_SELECT_C) as [->|]; [by rewrite lookup_insert_eq|by rewrite lookup_insert_ne].
    + destruct (Z.eqb_spec r (selection (pc_clock d))) as [->|]; [by rewrite E|done].
  - intros v d Hv Hn d'. split; [done|]. intros r. unfold d', clock_reg. rewrite pc_clock_out.
    change (clock_out (TypedPorts.val CMOS_DATA) v (pc_clock d)) with (ClockChip (<[selection (pc_clock d) := v]> (registers (pc_clock d))) (selection (pc_clock d)) (no_nmi (pc_clock d))).
    cbn [registers]. destruct (Z.eqb_spec r (selection (pc_clock d))) as [->|]; [rewrite lookup_insert_eq; by apply wrap_small|by rewrite lookup_insert_ne].
  - intros p v d H1 H2. rewrite pc_clock_out. unfold clock_out. apply Z.eqb_neq in H1 as ->, H2 as ->. done.
  - intros p d H1. by rewrite pc_clock_in.
Defined.

#[export] Instance pc_board : Board pc.
Proof.
  split.
  - intros p v d Hp. cbn [uart_of pc_uart port_out pc_ports pc_line line_uart16550 line_ports].
    destruct ((COM1 <=? p) && (p <? COM1 + 5)) eqn:E; [|done]. apply andb_true_iff in E as [? ?]. bool_to_prop. lia.
  - intros p d Hp. cbn [uart_of pc_uart port_in pc_ports].
    destruct (port_in p (pc_line d)) as [w l] eqn:El, (port_in p (pc_chips d)) as [v k].
    assert (l = pc_line d) as ->.
    { cbn [port_in line_ports] in El. destruct (Z.eqb_spec p (COM1 + 5)); [lia|]. by injection El. }
    by destruct (if p =? TypedPorts.val CMOS_DATA then _ else _).
  - intros p d. cbn [master slave pc_pic port_in pc_ports].
    destruct (port_in p (pc_line d)) as [w l]. destruct (port_in p (pc_chips d)) as [v k] eqn:Ek.
    assert (k = pc_chips d) as -> by (cbn [port_in two_chips_ports] in Ek; by injection Ek).
    by destruct (if p =? TypedPorts.val CMOS_DATA then _ else _).
Defined.

(** A machine as the boot loader leaves it: the divisor swapped in at the serial
    line, every interrupt of the second controller masked, no ACPI table. *)
Definition sample_machine : console pc :=
  Console (Screen (replicate 2000 0) (Cursor 0 0)) false (replicate 512 0)
    (Pc (Line (Uart 0x83 1 0 0 1 []) (true, true)) (TwoChips (Chip 0xB8 0x08 0) (Chip 0xFF 0x70 0)) (ClockChip {[0x0B := 2]} 0 false)).
Definition sample_addresses : addresses := Addresses 0xFFFFFFFF80116000 0xFFFFFFFF80116100 0xFFFFFFFF80117000 sample_address.
Definition sample_bios : gmap Z Z :=
  CString.zeroed_block rsdp_area_start rsdp_area_size ∪ list_to_map (zip (seqZ 0x5000 9) (nul (chars "RSD PTR "))).
Definition sample_canaries : canaries := Canaries (nul (chars "KERNEL START")) (nul (chars "KERNEL END")).

(** A byte that does not occur is not found. *)
Lemma memchr_absent k m a ch : (forall i, 0 <= i < Z.of_nat k -> exists b, m !! (a + i) = Some b /\ b <> ch) ->
  CString.memchr_loop k m a ch = Ok None.
Proof.
  revert a. induction k as [|k IH]; intros a Hb; [done|]. cbn [CString.memchr_loop].
  destruct (Hb 0 ltac:(lia)) as (b & Hl & Hne). rewrite Z.add_0_r in Hl. rewrite (CString.load_mapped _ _ _ Hl), bind_ok.
  apply Z.eqb_neq in Hne as ->. apply IH. intros i Hi. rewrite <- Z.add_assoc. apply Hb. lia.
Qed.

Lemma sample_needle : CString.cstring sample_bios 0x5000 (chars "RSD PTR ").
Proof.
  assert (forall x b, 0x5000 <= x < 0x6000 -> (list_to_map (zip (seqZ 0x5000 9) (nul (chars "RSD PTR "))) : gmap Z Z) !! x = Some b -> sample_bios !! x = Some b) as Hl.
  { intros x b Hx Hb. unfold sample_bios. rewrite lookup_union_r; [done|].
    rewrite CString.zeroed_block_lookup, decide_False; [done|]. unfold rsdp_area_start. lia. }
  do 8 (split; [apply Hl; [done|by vm_compute]|split; [done|]]). apply Hl; [done|by vm_compute].
Qed.

Lemma sample_area i : 0 <= i < rsdp_area_size -> sample_bios !! (rsdp_area_start + i) = Some 0.
Proof. intros Hi. unfold sample_bios. apply lookup_union_Some_l. rewrite CString.zeroed_block_lookup, decide_True; [done|lia]. Qed.

(** The search for a table in an area without the first letter of its signature. *)
Lemma memstr_absent m src needle c t count : CString.cstring m needle (c :: t) -> u8 c = c -> zlen (c :: t) < count ->
  (forall i, 0 <= i < count -> exists b, m !! (src + i) = Some b /\ b <> c) -> CString.memstr m src needle count = Ok None.
Proof.
  intros Hs Hc Hl Ha. unfold CString.memstr. rewrite (CString.strlen_spec _ _ _ Hs), bind_ok. pose proof (zlen_nonneg (c :: t)).
  destruct (Z.to_nat count) as [|n] eqn:En; [lia|]. cbn [CString.memstr_loop].
  replace (src + zlen (c :: t) <? src + count) with true by lia.
  destruct Hs as (Hn & _). rewrite (CString.load_mapped _ _ _ Hn), bind_ok.
  unfold CString.memchr. rewrite Hc, memchr_absent; [done|]. intros i Hi. apply Ha. lia.
Qed.

Lemma sample_no_table : CString.memstr sample_bios rsdp_area_start 0x5000 rsdp_area_size = Ok None.
Proof.
  apply (memstr_absent _ _ _ 82 (chars "SD PTR ")); [exact sample_needle|done|done|].
  intros i Hi. exists 0. split; [by apply sample_area|done].
Qed.

Lemma sample_machine_starts : is_ok ('(h, low, p) ← kmain_memory (sample_boot_info 2250458971) sample_image;
  h' ← devices_memory sample_canaries h; Ok (low, p, h')) = true.
Proof. vm_compute. reflexivity. Qed.

Lemma sample_fresh : fresh_console sample_machine /\ idle (con_dev sample_machine).
Proof. split; [|by repeat split]. split; [by repeat split|]. split; [|done]. by exists (replicate 511 0). Qed.

Lemma kmain_boots_witness : exists r c',
  kmain_before_tasks 3 (sample_boot_info 2250458971) sample_image sample_addresses sample_bios 0x5000 0x6000 sample_canaries sample_machine = Ok (r, c') /\
  masked CMOS_RTC (con_dev c') = false /\ masked PIT (con_dev c') = masked PIT (con_dev sample_machine).
Proof.
  destruct sample_fresh as [Hf Hi].
  pose proof (kmain_boots 3 (le_n 3) (sample_boot_info 2250458971) sample_image sample_addresses sample_bios 0x5000 0x6000 _ _ _ sample_canaries
    sample_machine Hf Hi ltac:(done) eq_refl (acpi_absent sample_bios 0x5000 0x6000 sample_no_table)) as Hb.
  pose proof sample_machine_starts as Hok.
  destruct ('(h, low, p) ← kmain_memory (sample_boot_info 2250458971) sample_image; h' ← devices_memory sample_canaries h; Ok (low, p, h')) as [[[low p] h]|e];
    [|discriminate Hok].
  destruct Hb as (mm & pt & crc & c' & _ & _ & _ & He & _ & _ & _ & _ & _ & _ & _ & _ & _ & Hm).
  exists (gdt (tss_addr sample_addresses), idt (routine sample_addresses), low, p, h, sample_bios, true), c'.
  split; [exact He|]. split; [apply (Hm CMOS_RTC)|apply (Hm PIT)].
Defined.

(** A BIOS area that begins with a table of the maker "TYG". *)
Definition table_bios : gmap Z Z :=
  list_to_map (zip (seqZ rsdp_area_start 30) (table_bytes (chars "RSD PTR ") 0xC3 (chars "TYG") (replicate 12 0) 0 0x10 0x20 0 0)) ∪
  list_to_map (zip (seqZ 0x5000 9) (nul (chars "RSD PTR "))) ∪ CString.zeroed_block 0x6000 17.

Lemma table_bios_says : exists t m', acpi_says table_bios 0x5000 0x6000 t [] m'.
Proof.
  eexists _, _. eapply (acpi_present _ _ _ rsdp_area_start (chars "RSD PTR ") 0xC3 (chars "TYG") (replicate 12 0) 0 0x10 0x20 0 0).
  - vm_compute. reflexivity.
  - repeat (split; [by vm_compute|]). done.
  - done.
  - done.
  - repeat constructor; done.
  - repeat constructor; done.
  - intros i Hi. unfold table_bios. exists 0. rewrite lookup_union_r.
    + rewrite CString.zeroed_block_lookup, decide_True; [done|lia].
    + apply lookup_union_None. split; apply not_elem_of_list_to_map_1; rewrite fst_zip by (by vm_compute);
        rewrite elem_of_seqZ; unfold rsdp_area_start; lia.
  - left. by vm_compute.
  - vm_compute. reflexivity.
Qed.

(** On that machine the start goes no further: the arrays of the scheduler need more
    pages than one word of the page map has below its 32nd bit, where
    [find_first]'s shift of an [int] is undefined. *)
Lemma sample_tasks : ('(h, low, _) ← kmain_memory (sample_boot_info 2250458971) sample_image; h' ← devices_memory sample_canaries h;
  s ← Scheduler.init (initial_sched h') true; Ok (total_tasks s)) = Fail (Undefined "int shift out of range").
Proof. vm_compute. reflexivity. Qed.

Theorem scheduler_start_undefined :
  kmain 3 (sample_boot_info 2250458971) sample_image sample_addresses sample_bios 0x5000 0x6000 sample_canaries sample_machine =
    Fail (Undefined "int shift out of range").
Proof.
  destruct sample_fresh as [Hf Hi]. unfold kmain, kmain_before_tasks.
  pose proof (kmain_start_refines 3 (le_n 3) (sample_boot_info 2250458971) sample_image sample_addresses sample_machine Hf Hi ltac:(done) eq_refl) as Hs.
  pose proof sample_tasks as Ht.
  destruct (kmain_memory (sample_boot_info 2250458971) sample_image) as [[[h low] p]|e];
    [|rewrite bind_fail in Ht; injection Ht as ->; by do 2 apply io_bind_fail].
  destruct Hs as (mm & pt & crc & c1 & _ & _ & _ & Es & W1 & _ & (Hi1 & _)). rewrite bind_ok in Ht.
  etransitivity; [apply bind_assoc|]. etransitivity; [apply (io_bind_step _ _ _ _ _ Es)|].
  pose proof (kmain_devices_refines 3 (le_n 3) sample_bios 0x5000 0x6000 _ _ _ sample_canaries h c1 W1 Hi1 (acpi_absent sample_bios 0x5000 0x6000 sample_no_table)) as Hd.
  destruct (devices_memory sample_canaries h) as [h'|e]; [|rewrite bind_fail in Ht; injection Ht as ->; unfold mbind, io_bind; by rewrite Hd].
  destruct Hd as (c2 & Ed & [W2 _ _ _] & (Hi2 & _) & _). rewrite bind_ok in Ht.
  etransitivity; [apply bind_assoc|]. etransitivity; [apply (io_bind_step _ _ _ _ _ Ed)|]. etransitivity; [apply ret_bind|].
  pose proof (kmain_tasks_refines 3 (le_n 3) h' c2 W2 Hi2) as Hk.
  destruct (Scheduler.init (initial_sched h') true) as [s|e]; [done|]. rewrite bind_fail in Ht. injection Ht as ->. by apply io_bind_fail.
Qed.
