(* ===== verification/Drivers.v ===== *)
(** * kernel/main.cpp: the drivers

    The rest of [kmain] behind the timer: the floppy drive, the file system, the
    keyboard and task switching, on a console whose machine has the drive next to
    the serial line.  Every read of the drive announces itself on the line, and so
    does every block taken from the heap. *)
From S2P Require Import Prelude Util Memory Paging LowMemory Alloc Scheduler Interrupts Stdio Printf Io Pic Serial Vga Console Dma Floppy Filesystem FloppyDisk Reports Boot Dumps HeapMessages Syscalls Firmware Startup.

#[local] Arguments wrap : simpl never.

(** ** Definitions *)

(** The message [read_floppy] ends with. *)
Definition status_text (st : floppy_status) : list Z :=
  match st with
  | ok => chars " OK"
  | end_of_cylinder => chars " FAILED: end of cylinder (tried to access sector beyond final sector of track)"
  | data_error => chars " FAILED: data failed crc check"
  | overrun_underrun => chars " FAILED: did not receive DMA service within the required time interval; data underrun/overrun"
  | no_data => chars " FAILED: could not find the specified sector"
  | not_writable => chars " FAILED: media write-protected"
  | missing_address_mark => chars " FAILED: missing address mark"
  | error_unknown => chars " FAILED: unknown error"
  end ++ newline.

Definition reading_format : list Z := chars "reading %d sector(s) from lba %d (%d C, %d H, %d S) to %p... ".

Definition search_format : list Z := chars "searching for '%s'" ++ newline ++ chars "not found:    '%s'" ++ newline.

Section drivers.
Context {H : Type} `{KernelHeap H} {D : Type} `{FloppyMachine D} (spins : nat) (fresh : Z -> list Z).

(** [read_floppy] to the block at [buffer], with its messages. *)
Definition read_floppy_to (dr : driver) (buffer lba sector_count : Z) : io (console D) (floppy_status * list Z) :=
  let '(Chs c h s) := lba_to_chs lba in
  _ ← fprintf spins stderr (nul reading_format)
        [AWord sector_count; AWord lba; AWord c; AWord h; AWord s; AWord buffer];
  '(st, bytes) ← on_dev (read_floppy spins dr lba sector_count);
  _ ← fprintf spins stderr (nul (status_text st)) [];
  mret (st, bytes).

(** [read_floppy_or_fail] to that block, as a device of the file system. *)
Definition console_floppy (dr : driver) (buffer : Z) : BlockDevice (console D) := {|
  read_sectors lba n :=
    '(st, bytes) ← read_floppy_to dr buffer lba n;
    match st with
    | ok => mret bytes
    | _ => io_lift (Fail (Panic "error reading floppy!"))
    end
|}.

(** A block from the heap, which the tasks share, with the heap's lines about it. *)
Definition take_block (n align : Z) (k : cpu H) : outcome (Z * cpu H) :=
  let s := scheduling k in
  '(p, h) ← kalloc (heap_ s) n align;
  Ok (p, Cpu (flags k) (task_switching_enabled k) (no_scheduler_tick k)
    (Sched (tasks s) (total_tasks s) (current_task_id s) (fxsave_blocks s) (temp_fxsave s) h (stack_words s))).
Definition cpu_heap (k : cpu H) : H := heap_ (scheduling k).
Definition kernel_block (n align : Z) (k : cpu H) : io (console D) (Z * cpu H) :=
  '(p, k') ← io_lift (take_block n align k);
  _ ← print_news spins (cpu_heap k) (cpu_heap k');
  mret (p, k').

(** [resolve_path] with the message about every entry it passes over; the name is
    printed from the entry on, to the next NUL. *)
Definition not_found (dir fragment : list Z) (i : Z) : io (console D) unit :=
  name ← io_lift (text_of (drop (Z.to_nat (i * SIZEOF_ENTRY)) dir));
  _ ← fprintf spins stderr (nul search_format) [AStr fragment; AStr name];
  mret tt.

Fixpoint search_loop (fuel : nat) (dir : list Z) (directory_size : Z) (path fragment : list Z) (rest directory i : Z) :
    io (console D) (option directory_entry) :=
  if directory_size <=? i then mret None
  else
    match fuel with
    | O => io_lift (Fail Diverges)
    | S f =>
        entry ← io_lift (entry_at dir (directory + i));
        if strncmp_equal file_full_name_size (short_file_full_name entry) fragment then
          c ← io_lift (char_at path rest);
          if c =? 0 then
            _ ← io_assert (Z.land (attributes entry) DIRECTORY =? 0) "file should not be a directory!";
            mret (Some entry)
          else
            _ ← io_assert (negb (Z.land (attributes entry) DIRECTORY =? 0)) "path fragment not directory!";
            '(fragment', rest') ← io_lift (read_next_fragment path rest);
            search_loop f dir directory_size path fragment' rest' (directory + i) 1
        else
          _ ← not_found dir fragment (directory + i);
          search_loop f dir directory_size path fragment rest directory (i + 1)
    end.

Definition search_path (s : fs) (path : list Z) : io (console D) (option directory_entry) :=
  dir ← io_lift (of_option (AssertFailed "can't resolve path before root dir is populated!") (root_dir s));
  b ← io_lift (of_option (AssertFailed "can't resolve path before bios param block is populated!") (bpb s));
  c ← io_lift (char_at path 0);
  _ ← io_assert (c =? 47) "path null or not rooted!";
  '(fragment, rest) ← io_lift (read_next_fragment path 1);
  search_loop (S (length dir)) dir (num_of_directory_entries b) path fragment rest 0 0.

(** [fs::init] with its blocks and messages. *)
Definition fs_init (dr : driver) (k : cpu H) : io (console D) (fs * cpu H) :=
  '(bpb_block, k) ← kernel_block SIZEOF_BPB 1 k;
  s1 ← read_boot_param_block (H := console_floppy dr bpb_block) fresh;
  b ← io_lift (of_option (AssertFailed "bios param block must be populated before root directory!") (bpb s1));
  '(root_block, k) ← kernel_block (SIZEOF_ENTRY * num_of_directory_entries b) 1 k;
  s2 ← read_root_directory (H := console_floppy dr root_block) fresh s1;
  '(_, k) ← kernel_block (2 * BYTES_PER_SECTOR) 1 k;
  let s3 := Fs (bpb s2) (root_dir s2) (Some (fresh (2 * BYTES_PER_SECTOR))) in
  _ ← libc_puts spins (chars "fs: initialized");
  kernel ← search_path s3 kernel_path;
  e ← io_lift (of_option (AssertFailed "couldn't get kernel file!") kernel);
  _ ← fprintf spins stderr (nul (chars "kernel size: %uB" ++ newline)) [AWord (size e)];
  mret (s3, k).

(** [keyboard::init]: the dispatching task and the interrupt line. *)
Definition schedule_dispatcher (exit_addr dispatch_key_events : Z) (k : cpu H) : outcome (cpu H) :=
  '(_, s) ← schedule_kernel_task (scheduling k) exit_addr dispatch_key_events 0;
  Ok (Cpu (flags k) (task_switching_enabled k) (no_scheduler_tick k) s).
Definition keyboard_init (exit_addr dispatch_key_events : Z) (k : cpu H) : io (console D) (cpu H) :=
  k' ← io_lift (schedule_dispatcher exit_addr dispatch_key_events k);
  _ ← print_news spins (cpu_heap k) (cpu_heap k');
  _ ← on_dev (unmask_irq KEYBOARD);
  mret k'.

(** [kmain] behind the timer; [elf::init] does nothing.  [m] is the low memory, [pt]
    the page tables. *)
Definition kmain_drivers (drive_number : Z) (low : low_memory) (m : gmap Z Z) (pt : paging)
    (exit_addr dispatch_key_events : Z) (k : cpu H) : io (console D) (driver * low_memory * gmap Z Z * fs * cpu H) :=
  '(dr, low, m) ← on_dev (init_floppy_driver spins drive_number low m pt);
  _ ← libc_puts spins (chars "floppy:    initialized");
  '(s, k) ← fs_init dr k;
  k ← keyboard_init exit_addr dispatch_key_events k;
  '(_, k) ← io_lift (enable_task_switch k);
  mret (dr, low, m, s, k).
End drivers.

(** ** What the drive does to the serial line *)

(** The drive's programs keep what its ports, its interrupt flag and time keep. *)
Section kept.
Context {D : Type} `{Hmachine : FloppyMachine D} (spins : nat) (I : D -> Prop) (own : Z -> Prop).
Hypothesis keeps_write : forall p v d, own p -> I d -> I (port_out p v d).
Hypothesis keeps_read : forall p d, own p -> I d -> I (port_in p d).2.
Hypothesis keeps_poll : forall d, I d -> I (poll_disk_interrupt d).2.
Hypothesis keeps_time : forall us d, I d -> I (let_time_pass us d).
Hypothesis own_drive : forall p, p ∈ [MAIN_STATUS_REGISTER; DATA_FIFO; DIGITAL_OUTPUT_REGISTER;
  CONFIGURATION_CONTROL_REGISTER; PIC1_DATA; PIC2_DATA] ++ dma_ports -> own p.

Ltac own_port := first [assumption|apply own_drive; solve [repeat first [apply list_elem_of_here|apply list_elem_of_further]]].
Ltac kept_step := lazymatch goal with
  | |- keeps _ (outb _ _) => apply (keeps_outb I own keeps_write); own_port
  | |- keeps _ (inb _) => apply (keeps_inb I own keeps_read); own_port
  | |- keeps _ (mret _) => apply keeps_ret
  | |- keeps _ (io_lift _) => apply keeps_lift
  | |- keeps _ (io_assert _ _) => apply keeps_lift
  | |- keeps _ (mbind _ _) => apply keeps_bind; [|intros ?]
  | |- keeps _ (if ?b then _ else _) => destruct b
  | |- keeps _ (let '(_, _) := ?p in _) => destruct p
  | |- keeps _ (let _ := _ in _) => cbv zeta
  end.
Ltac kept := repeat first [assumption|kept_step].

Lemma poll_kept : keeps I (fun d => Ok (poll_disk_interrupt d)).
Proof. intros d b d' Hd He. pose proof (keeps_poll d Hd) as Hk. injection He as He. by rewrite He in Hk. Qed.

Lemma spin_kept n cond : keeps I cond -> keeps I (spin_until n cond).
Proof. intros Hc. induction n as [|n IH]; cbn [spin_until]; kept. Qed.

Lemma fifo_kept : keeps I (wait_til_fifo_ready spins).
Proof. apply spin_kept. kept. Qed.

Lemma mask_port_own code : own (irq_port code).
Proof. unfold irq_port. case_if; own_port. Qed.

Lemma interrupt_kept : keeps I (wait_for_disk_interrupt spins).
Proof.
  unfold wait_for_disk_interrupt, irq_is_masked.
  pose proof (mask_port_own FLOPPY). kept. apply spin_kept, poll_kept.
Qed.

Lemma parameters_kept ps : keeps I (issue_parameters spins ps).
Proof.
  pose proof fifo_kept. induction ps as [|p ps IH]; cbn [issue_parameters]; unfold issue_parameter_command; kept.
Qed.

Lemma results_kept left : forall result i, keeps I (read_results left result i).
Proof. induction left as [|left IH]; intros result i; cbn [read_results]; kept; apply IH. Qed.

Lemma command_kept n command want result ps : keeps I (issue_loop spins n command want result ps).
Proof.
  pose proof fifo_kept. pose proof (parameters_kept ps). pose proof results_kept. pose proof interrupt_kept.
  revert result. induction n as [|n IH]; intros result; cbn [issue_loop]; unfold try_command; kept; by auto.
Qed.

Lemma with_result_kept command result ps : keeps I (issue_command_with_result spins command result ps).
Proof. apply command_kept. Qed.
Lemma without_result_kept command ps : keeps I (issue_command spins command ps).
Proof. unfold issue_command. kept. apply command_kept. Qed.

Lemma unmask_kept code : keeps I (unmask_irq code).
Proof. pose proof (mask_port_own code). unfold unmask_irq. kept. Qed.

Lemma time_kept us : keeps I (busy_sleep us).
Proof. intros d a d' Hd He. injection He as _ <-. by apply keeps_time. Qed.

Lemma read_floppy_kept dr lba n : keeps I (read_floppy spins dr lba n).
Proof.
  assert (forall a l, keeps I (copy_from a l)) as Hcopy by (intros addr l d b d' Hd He; by injection He as _ <-).
  unfold read_floppy, prepare_transfer. destruct (lba_to_chs lba) as [c h s_]. kept; [apply with_result_kept|].
  case_match; kept. apply Hcopy.
Qed.

Lemma start_kept drive_number low m pt : keeps I (init_floppy_driver spins drive_number low m pt).
Proof.
  pose proof with_result_kept. pose proof without_result_kept. pose proof unmask_kept. pose proof time_kept. pose proof interrupt_kept.
  unfold init_floppy_driver. kept; by auto.
Qed.
End kept.

(** ** A drive next to a serial line *)

(** The line's ports do not reach the drive, nor the drive's anything of the line. *)
Class DriverBoard (D : Type) `{Hdrive : FloppyDrive D} `{!Uart16550 D} := {
  line_out p v d : COM1 <= p < COM1 + 8 -> phase (port_out p v d) = phase d /\ alike d (port_out p v d);
  line_in p d : COM1 <= p < COM1 + 8 -> phase (port_in p d).2 = phase d /\ alike d (port_in p d).2;
  drive_out p v d : p < COM1 \/ COM1 + 8 <= p -> uart_of (port_out p v d) = uart_of d;
  drive_in p d : p < COM1 \/ COM1 + 8 <= p -> uart_of (port_in p d).2 = uart_of d;
  drive_poll d : uart_of (poll_disk_interrupt d).2 = uart_of d;
  drive_time us d : uart_of (let_time_pass us d) = uart_of d
}.

(** ** The texts *)

Definition reading_pieces (buffer lba n : Z) : list piece :=
  let '(Chs c h s) := lba_to_chs lba in
  [Text (chars "reading "); Dec false none n; Text (chars " sector(s) from lba "); Dec false none lba; Text (chars " (");
   Dec false none c; Text (chars " C, "); Dec false none h; Text (chars " H, "); Dec false none s; Text (chars " S) to ");
   Ptr buffer; Text (chars "... ")].
Definition kernel_pieces (n : Z) : list piece := [Text (chars "kernel size: "); Udec false none n; Text (chars "B" ++ newline)].

Lemma reading_fits buffer lba n : prints_whole (reading_pieces buffer lba n).
Proof.
  unfold reading_pieces. destruct (lba_to_chs lba) as [c h s].
  pose proof (dec_length n (signed_none_ok n)). pose proof (dec_length lba (signed_none_ok lba)). pose proof (dec_length c (signed_none_ok c)).
  pose proof (dec_length h (signed_none_ok h)). pose proof (dec_length s (signed_none_ok s)). pose proof (ptr_length buffer).
  split; [repeat constructor; by try apply signed_none_ok|split; [repeat constructor; done|]]. unfold PRINTF_BUFFER_SIZE. pieces_length.
Qed.

Lemma kernel_fits n : prints_whole (kernel_pieces n).
Proof.
  pose proof (udec_length n). split; [repeat constructor; done|split; [repeat constructor; done|]].
  unfold PRINTF_BUFFER_SIZE, kernel_pieces. pieces_length.
Qed.

Lemma status_fits st : prints_whole [Text (status_text st)].
Proof. by destruct st; (split; [repeat constructor; done|split; [repeat constructor; done|]]). Qed.

(** What a read that succeeds says, and what the drivers show on the screen. *)
Definition reading_text (buffer lba n : Z) : list Z := rendering (reading_pieces buffer lba n) ++ status_text ok.

(** Names that can be printed: the first [n] entries' end within the block, and not
    late. *)
Definition printable (name : list Z) : bool := forallb (fun c => (0 <=? c) && (c <? 256)) name && (zlen name <=? 400).
Definition readable (n : Z) (dir : list Z) : Prop := forall i, 0 <= i < n ->
  exists name, text_of (drop (Z.to_nat (i * SIZEOF_ENTRY)) dir) = Ok name /\ printable name = true.

(** The entries passed over in search of [fragment]. *)
Definition search_pieces (fragment name : list Z) : list piece :=
  [Text (chars "searching for '"); Str fragment; Text (chars "'" ++ newline ++ chars "not found:    '"); Str name; Text (chars "'" ++ newline)].
Lemma search_fits fragment name : printable fragment = true -> nonzero fragment -> zlen fragment <= 11 ->
  printable name = true -> nonzero name -> prints_whole (search_pieces fragment name).
Proof.
  assert (forall t, printable t = true -> Forall is_byte t /\ zlen t <= 400) as Hp.
  { intros t Ht. apply andb_true_iff in Ht as [Hb Hl]. split; [|by apply Z.leb_le].
    rewrite forallb_forall in Hb. apply Forall_forall. intros c Hc%list_elem_of_In%Hb. unfold is_byte. lia. }
  intros [Hf _]%Hp Hfn Hfl [Hb Hbl]%Hp Hbn. split; [repeat constructor; done|split; [repeat constructor; done|]].
  unfold PRINTF_BUFFER_SIZE, search_pieces. pieces_length.
Qed.

Lemma text_of_nonzero b t : text_of b = Ok t -> nonzero t.
Proof.
  revert t. induction b as [|c b IH]; intros t He; [done|]. cbn [text_of] in He. destruct (Z.eqb_spec c 0) as [->|Hc].
  - injection He as <-. constructor.
  - apply bind_Ok in He as (t' & Ht & He). injection He as <-. constructor; [done|by apply IH].
Qed.

Definition name_text (dir : list Z) (i : Z) : list Z :=
  match text_of (drop (Z.to_nat (i * SIZEOF_ENTRY)) dir) with Ok name => name | Fail _ => [] end.
Fixpoint search_text (fuel : nat) (dir : list Z) (directory_size : Z) (fragment : list Z) (i : Z) : list Z :=
  match fuel with
  | O => []
  | S f =>
      if directory_size <=? i then []
      else
        match entry_at dir i with
        | Ok entry =>
            if strncmp_equal file_full_name_size (short_file_full_name entry) fragment then []
            else rendering (search_pieces fragment (name_text dir i)) ++ search_text f dir directory_size fragment (i + 1)
        | Fail _ => []
        end
  end.
Definition kernel_fragment : list Z := chars "KERNEL     ".
Definition kernel_search (b : bios_parameter_block) (dir : list Z) : list Z :=
  search_text (S (length dir)) dir (num_of_directory_entries b) kernel_fragment 0.

Definition drivers_screen : list Z := (chars "floppy:    initialized" ++ newline) ++ chars "fs: initialized" ++ newline.

(** ** One step after another *)

Section steps.
Context {D : Type} `{Hstart : FloppyStart D} `{!Uart16550 D} `{!DriverBoard D} (spins : nat).
Hypothesis enough : (max_busy < S spins)%nat.

(** Nothing of the drive has changed. *)
Definition calm (d d' : D) : Prop := phase d' = phase d /\ alike d d'.

Lemma calm_trans (d1 d2 d3 : D) : calm d1 d2 -> calm d2 d3 -> calm d1 d3.
Proof. intros [P1 A1] [P2 A2]. split; [congruence|by eapply alike_trans]. Qed.

(** What the steps with a ready drive keep: its readiness, the disk, and the masks of
    the interrupts. *)
Definition serving (dr : driver) (d d' : D) : Prop := ready dr d' /\ same_sectors d d' /\ pic_same d d'.

Lemma serving_trans dr (d1 d2 d3 : D) : serving dr d1 d2 -> serving dr d2 d3 -> serving dr d1 d3.
Proof.
  intros (R1 & S1 & P1) (R2 & S2 & P2). split; [done|]. split; [intros k; by rewrite S2, S1|by eapply pic_same_trans].
Qed.

Lemma calm_serves dr (d d' : D) : ready dr d -> calm d d' -> serving dr d d'.
Proof.
  intros [Hb Hi Hm Hp] [P A]. pose proof (alike_pic _ _ A) as Hs. split; [|split; [exact (proj2 (alike_drive _ _ A))|done]].
  split; [done|by eapply pic_same_idle|by rewrite (pic_same_masked d d')|congruence].
Qed.

Lemma printing_calm {A} (m : io (console D) A) c a c' : (forall d0, dev_keeps (calm d0) m) -> m c = Ok (a, c') ->
  calm (con_dev c) (con_dev c').
Proof. intros Hk He. eapply Hk; [|exact He]. split; [done|apply alike_refl]. Qed.

Lemma calm_out d0 p v (d : D) : COM1 <= p < COM1 + 8 -> calm d0 d -> calm d0 (port_out p v d).
Proof. intros Hp Hc. eapply calm_trans; [exact Hc|by apply line_out]. Qed.
Lemma calm_in d0 p (d : D) : COM1 <= p < COM1 + 8 -> calm d0 d -> calm d0 (port_in p d).2.
Proof. intros Hp Hc. eapply calm_trans; [exact Hc|by apply line_in]. Qed.

(** A line to [stderr], and one to [stdout]. *)
Lemma stderr_told ps fmt args (c : console D) : prints_whole ps -> nul (format_of ps) = fmt -> args_of ps = args -> Console.wf c ->
  exists c', fprintf (S spins) stderr fmt args c = Ok (0, c') /\ told (rendering ps) [] c c' /\ calm (con_dev c) (con_dev c').
Proof.
  intros Hps Hfmt Hargs Hw. destruct (fprintf_told (S spins) enough ps fmt args c Hps Hfmt Hargs Hw) as (c' & He & T).
  exists c'. split; [exact He|]. split; [exact T|].
  eapply printing_calm; [|exact He]. intros d0. apply vfprintf_keeps; [apply calm_out|apply calm_in].
Qed.

Lemma stdout_told t (c : console D) : Console.wf c ->
  exists c', libc_puts (S spins) t c = Ok (0, c') /\ told (t ++ newline) (t ++ newline) c c' /\ calm (con_dev c) (con_dev c').
Proof.
  intros Hw. destruct (puts_told (S spins) enough t c Hw) as (c' & He & T). exists c'. split; [exact He|]. split; [exact T|].
  eapply printing_calm; [|exact He]. intros d0. apply libc_puts_keeps; [apply calm_out|apply calm_in].
Qed.

(** The heap's lines. *)
Lemma news_told {M} `{KernelHeap M} (h h' : M) (c : console D) : says h h' -> Console.wf c ->
  exists c', print_news (S spins) h h' c = Ok (tt, c') /\ told (messages_text (news h h')) [] c c' /\ calm (con_dev c) (con_dev c').
Proof.
  intros Hs Hw. destruct (print_messages_told (S spins) enough (news h h') c (says_news _ _ Hs) Hw) as (c' & He & T).
  exists c'. split; [exact He|]. split; [exact T|].
  eapply printing_calm; [|exact He]. intros d0. apply print_messages_keeps; [apply calm_out|apply calm_in].
Qed.

(** An error reported with a disk like this one's. *)
Lemma reported_same dr lba n (d d' : D) : same_sectors d d' -> read_reported dr lba n d' -> read_reported dr lba n d.
Proof.
  intros Hs (st0 & st1 & bytes & d1 & He & Hs1 & Hrest). exists st0, st1, bytes, d1. split; [done|].
  split; [intros k; by rewrite Hs1, Hs|done].
Qed.

Lemma entries_size b : 0 < root_count b <= 16 -> 0 <= SIZEOF_ENTRY * num_of_directory_entries b < 2 ^ 63.
Proof. unfold root_count, BYTES_PER_SECTOR. zdiv. Qed.

(** A step of the drive. *)
Lemma drive_step {A} (m : io D A) c (a : A) d : Console.wf c -> m (con_dev c) = Ok (a, d) ->
  (forall u, keeps (fun d => uart_of d = u) m) -> exists c', on_dev m c = Ok (a, c') /\ told [] [] c c' /\ con_dev c' = d.
Proof.
  intros Hw He Hk. destruct (dev_step m c a d Hw He Hk) as (c' & E & W & Hd & V & S_ & L).
  exists c'. split; [done|]. split; [|done]. split; [done|done|by rewrite L, app_nil_r|]. rewrite S_. by destruct (vga_initialized c).
Qed.

Definition off_line (p : Z) : Prop := p < COM1 \/ COM1 + 8 <= p.

Lemma off_line_ports p : p ∈ [MAIN_STATUS_REGISTER; DATA_FIFO; DIGITAL_OUTPUT_REGISTER;
  CONFIGURATION_CONTROL_REGISTER; PIC1_DATA; PIC2_DATA] ++ dma_ports -> off_line p.
Proof.
  assert (Forall off_line ([MAIN_STATUS_REGISTER; DATA_FIFO; DIGITAL_OUTPUT_REGISTER;
    CONFIGURATION_CONTROL_REGISTER; PIC1_DATA; PIC2_DATA] ++ dma_ports)) as Hall.
  { repeat (constructor; [by first [left; reflexivity|right; vm_compute; discriminate]|]). constructor. }
  rewrite Forall_forall in Hall. apply Hall.
Qed.

Lemma uart_after u : (forall p v (d : D), off_line p -> uart_of d = u -> uart_of (port_out p v d) = u) /\
  (forall p (d : D), off_line p -> uart_of d = u -> uart_of (port_in p d).2 = u) /\
  (forall d : D, uart_of d = u -> uart_of (poll_disk_interrupt d).2 = u) /\
  (forall us (d : D), uart_of d = u -> uart_of (let_time_pass us d) = u).
Proof. split_and!; intros; by rewrite ?drive_out, ?drive_in, ?drive_poll, ?drive_time. Qed.

(** A read of the drive with its messages, unless the drive reports an error. *)
Lemma read_told dr buffer lba n (c : console D) : Console.wf c -> ready dr (con_dev c) ->
  0 <= lba -> 0 < n <= 16 -> lba + n <= 2880 ->
  (exists c', read_sectors (BlockDevice := console_floppy (S spins) dr buffer) lba n c =
      Ok (concat (drive_sector (con_dev c) <$> seqZ lba n), c') /\
    told (reading_text buffer lba n) [] c c' /\ serving dr (con_dev c) (con_dev c')) \/
  (read_sectors (BlockDevice := console_floppy (S spins) dr buffer) lba n c = Fail (Panic "error reading floppy!") /\
    read_reported dr lba n (con_dev c)).
Proof.
  intros Hw Hr Hl Hn Hm.
  destruct (lba_to_chs lba) as [cy h s] eqn:Ea.
  destruct (stderr_told (reading_pieces buffer lba n) (nul reading_format) [AWord n; AWord lba; AWord cy; AWord h; AWord s; AWord buffer] c)
    as (c1 & E1 & T1 & C1); [apply reading_fits|unfold reading_pieces; by rewrite Ea|unfold reading_pieces; by rewrite Ea|done|].
  pose proof (calm_serves dr _ _ Hr C1) as V1.
  destruct (read_cases spins dr lba n (con_dev c1)) as (st & bytes & d2 & E2 & R2 & S2 & P2 & Hst); [apply V1|done..|].
  destruct (drive_step (read_floppy (S spins) dr lba n) c1 (st, bytes) d2) as (c2 & E2' & T2 & D2); [apply T1|exact E2| |].
  { intros u. destruct (uart_after u) as (W1 & W2 & W3 & W4). by apply (read_floppy_kept _ _ off_line W1 W2 W3 off_line_ports). }
  destruct (stderr_told [Text (status_text st)] (nul (status_text st)) [] c2) as (c3 & E3 & T3 & C3);
    [apply status_fits|by destruct st|reflexivity|apply T2|].
  assert (serving dr (con_dev c1) (con_dev c2)) as V2 by (by rewrite D2).
  cbn [read_sectors console_floppy]. unfold read_floppy_to. rewrite Ea, bind_assoc, (io_bind_step _ _ _ _ _ E1), bind_assoc, (io_bind_step _ _ _ _ _ E2').
  rewrite bind_assoc, (io_bind_step _ _ _ _ _ E3), ret_bind. destruct Hst as [[-> ->]|[Hne Hrep]].
  - left. exists c3. split; [|split].
    + unfold mret, io_ret. do 3 f_equal. apply list_fmap_ext. intros i k _. apply V1.
    + unfold reading_text. change (status_text ok) with (rendering [Text (status_text ok)]).
      pose proof (told_trans _ _ _ _ _ _ _ T1 (told_trans _ _ _ _ _ _ _ T2 T3)) as T. exact T.
    + eapply serving_trans; [exact V1|]. eapply serving_trans; [exact V2|]. apply calm_serves; [apply V2|exact C3].
  - right. split; [by destruct st|]. by eapply reported_same; [apply V1|].
Qed.

(** *** The file system *)

Context {M : Type} `{KernelHeap M} (fresh : Z -> list Z).

Definition heap_text (k k' : cpu M) : list Z := messages_text (news (cpu_heap k) (cpu_heap k')).

Lemma block_told n align k (c : console D) : 0 <= n < 2 ^ 63 -> Console.wf c ->
  match take_block n align k with
  | Fail e => kernel_block (S spins) n align k c = Fail e
  | Ok (p, k') => exists c', kernel_block (S spins) n align k c = Ok ((p, k'), c') /\
      told (heap_text k k') [] c c' /\ calm (con_dev c) (con_dev c')
  end.
Proof.
  intros Hn Hw. unfold kernel_block. destruct (take_block n align k) as [[p k']|e] eqn:Et; [|done]. rewrite lift_Ok.
  destruct (news_told (cpu_heap k) (cpu_heap k') c) as (c' & E & T & C); [|done|].
  { unfold take_block in Et. apply bind_Ok in Et as ([q h] & Ha & Et). injection Et as _ <-. by eapply kalloc_says. }
  exists c'. by rewrite (io_bind_step _ _ _ _ _ E).
Qed.

(** What [fs_init] comes to on a disk: the tables, the blocks taken from the heap, and
    what it says on the line. *)
Definition fs_start (sectors : Z -> list Z) (k : cpu M) : outcome (fs * cpu M * list Z) :=
  '(bpb_block, k1) ← take_block SIZEOF_BPB 1 k;
  b ← boot_block fresh (sectors 0);
  '(dir_block, k2) ← take_block (SIZEOF_ENTRY * num_of_directory_entries b) 1 k1;
  dir ← root_block fresh b (concat (sectors <$> seqZ (root_sector b) (root_count b)));
  '(_, k3) ← take_block (2 * BYTES_PER_SECTOR) 1 k2;
  let s := Fs (Some b) (Some dir) (Some (fresh (2 * BYTES_PER_SECTOR))) in
  kernel ← resolve_path s kernel_path;
  e ← of_option (AssertFailed "couldn't get kernel file!") kernel;
  Ok (s, k3, heap_text k k1 ++ reading_text bpb_block 0 1 ++ heap_text k1 k2 ++ reading_text dir_block (root_sector b) (root_count b) ++
    heap_text k2 k3 ++ (chars "fs: initialized" ++ newline) ++ kernel_search b dir ++ rendering (kernel_pieces (size e))).

(** Its tables are those of the volume. *)
Lemma fs_start_volume sectors k s k' t : fs_start sectors k = Ok (s, k', t) -> volume fresh sectors = Ok s.
Proof.
  unfold fs_start, volume. intros He. apply bind_Ok in He as ([p1 k1] & _ & He). apply bind_Ok in He as (b & -> & He).
  apply bind_Ok in He as ([p2 k2] & _ & He). apply bind_Ok in He as (dir & Hd & He). apply bind_Ok in He as ([p3 k3] & _ & He).
  rewrite bind_ok, Hd, bind_ok. cbv zeta in He |- *. apply bind_Ok in He as ([e|] & -> & He); [|done].
  by injection He as <- _ _.
Qed.

(** A search whose fragment is the path's last. *)
Lemma search_told path fragment dir ds fuel : printable fragment = true -> nonzero fragment -> zlen fragment <= 11 -> readable ds dir ->
  forall i (c : console D), 0 <= i -> Console.wf c ->
  match resolve_loop fuel dir ds path fragment (zlen path) 0 i with
  | Fail e => search_loop (S spins) fuel dir ds path fragment (zlen path) 0 i c = Fail e
  | Ok o => exists c', search_loop (S spins) fuel dir ds path fragment (zlen path) 0 i c = Ok (o, c') /\
      told (search_text fuel dir ds fragment i) [] c c' /\ calm (con_dev c) (con_dev c')
  end.
Proof.
  intros Hf Hfn Hfl Hdir. induction fuel as [|fuel IH]; intros i c Hi Hw; cbn [resolve_loop search_loop search_text]; (destruct (ds <=? i) eqn:Eds;
    [exists c; split; [done|]; split; [by apply told_refl|split; [done|apply alike_refl]]|]); [done|]. apply Z.leb_gt in Eds.
  rewrite Z.add_0_l. destruct (entry_at dir i) as [entry|e] eqn:Ee; [|done]. rewrite lift_Ok, bind_ok.
  assert (char_at path (zlen path) = Ok 0) as Hend by (unfold char_at; by rewrite Z.eqb_refl).
  destruct (strncmp_equal _ _ fragment).
  - rewrite Hend, lift_Ok, bind_ok, Z.eqb_refl. unfold io_assert. destruct (Z.land (attributes entry) DIRECTORY =? 0); [|done].
    cbn [assert_]. rewrite lift_Ok, bind_ok. exists c. split; [done|]. split; [by apply told_refl|split; [done|apply alike_refl]].
  - destruct (Hdir i ltac:(lia)) as (name & Hn & Hb).
    destruct (stderr_told (search_pieces fragment name) (nul search_format) [AStr fragment; AStr name] c) as (c1 & E1 & T1 & C1);
      [apply search_fits; [done|done|done|done|by eapply text_of_nonzero]|reflexivity|reflexivity|done|].
    specialize (IH (i + 1) c1 ltac:(lia) (told_wf _ _ _ _ T1)). unfold name_text. rewrite Hn.
    unfold not_found. rewrite Hn, bind_assoc, lift_Ok, bind_assoc, (io_bind_step _ _ _ _ _ E1), ret_bind.
    destruct (resolve_loop fuel dir ds path fragment (zlen path) 0 (i + 1)) as [o|e]; [|done].
    destruct IH as (c2 & E2 & T2 & C2). exists c2. split; [done|]. split; [|by eapply calm_trans].
    exact (told_trans _ _ _ _ _ _ _ T1 T2).
Qed.

Lemma kernel_search_told b dir f (c : console D) : readable (num_of_directory_entries b) dir -> Console.wf c ->
  match resolve_path (Fs (Some b) (Some dir) f) kernel_path with
  | Fail e => search_path (S spins) (Fs (Some b) (Some dir) f) kernel_path c = Fail e
  | Ok o => exists c', search_path (S spins) (Fs (Some b) (Some dir) f) kernel_path c = Ok (o, c') /\
      told (kernel_search b dir) [] c c' /\ calm (con_dev c) (con_dev c')
  end.
Proof.
  intros Hdir Hw. assert (read_next_fragment kernel_path 1 = Ok (kernel_fragment, zlen kernel_path)) as Hf by reflexivity.
  unfold resolve_path, search_path. cbn [root_dir bpb of_option]. rewrite !lift_Ok, !bind_ok.
  change (char_at kernel_path 0) with (Ok 47 : outcome Z). rewrite lift_Ok, bind_ok, Hf. unfold io_assert. cbn [Z.eqb Pos.eqb assert_].
  rewrite !lift_Ok, !bind_ok. apply search_told; [done|repeat constructor; done|done|done|done|done].
Qed.

(** The drive has reported an error for the boot sector or for the root directory the
    boot sector tells of. *)
Definition start_fault (dr : driver) (d : D) : Prop :=
  read_reported dr 0 1 d \/ exists b, boot_block fresh (drive_sector d 0) = Ok b /\ read_reported dr (root_sector b) (root_count b) d.

Lemma start_fault_same dr (d d' : D) : same_sectors d d' -> start_fault dr d' -> start_fault dr d.
Proof.
  intros Hs [Hf|(b & Hb & Hf)]; [left|right; exists b; rewrite <- (Hs 0); split; [done|]]; by eapply reported_same.
Qed.

Lemma fs_init_told dr k sectors (c : console D) : Console.wf c -> ready dr (con_dev c) ->
  (forall j, drive_sector (con_dev c) j = sectors j) ->
  (forall b, boot_block fresh (sectors 0) = Ok b -> root_ok b /\ forall dir,
     root_block fresh b (concat (sectors <$> seqZ (root_sector b) (root_count b))) = Ok dir -> readable (num_of_directory_entries b) dir) ->
  match fs_start sectors k with
  | Fail e => fs_init (S spins) fresh dr k c = Fail e
  | Ok (s, k', t) => exists c', fs_init (S spins) fresh dr k c = Ok ((s, k'), c') /\
      told t (chars "fs: initialized" ++ newline) c c' /\ serving dr (con_dev c) (con_dev c')
  end \/
  (fs_init (S spins) fresh dr k c = Fail (Panic "error reading floppy!") /\ start_fault dr (con_dev c)).
Proof.
  intros Hw Hr Hsec Hroot. unfold fs_start, fs_init.
  pose proof (block_told SIZEOF_BPB 1 k c ltac:(unfold SIZEOF_BPB; lia) Hw) as B1.
  destruct (take_block SIZEOF_BPB 1 k) as [[p1 k1]|e]; [|left; by apply io_bind_fail].
  destruct B1 as (a1 & Ea1 & Ta1 & Ca1). rewrite bind_ok, (io_bind_step _ _ _ _ _ Ea1). pose proof (calm_serves dr _ _ Hr Ca1) as Va1.
  destruct (read_told dr p1 0 1 a1 (told_wf _ _ _ _ Ta1) (proj1 Va1) ltac:(lia) ltac:(lia) ltac:(lia)) as [(c1 & E1 & T1 & V1)|[E1 F1]].
  2: { right. split; [by do 2 apply io_bind_fail|]. left. eapply reported_same; [apply Va1|done]. }
  assert (serving dr (con_dev c) (con_dev c1)) as W1 by (by eapply serving_trans).
  rewrite concat_one, (proj1 (proj2 Va1) 0), Hsec in E1.
  pose proof (read_boot_param_block_step (H := console_floppy (S spins) dr p1) fresh a1 _ c1 E1) as B.
  destruct (boot_block fresh (sectors 0)) as [b|e] eqn:Eb; [|left; by apply io_bind_fail]. rewrite bind_ok in B. rewrite bind_ok, (io_bind_step _ _ _ _ _ B).
  cbn [bpb of_option]. rewrite lift_Ok. destruct (Hroot b eq_refl) as [(R1 & R2 & R3) Hdir].
  pose proof (block_told (SIZEOF_ENTRY * num_of_directory_entries b) 1 k1 c1 (entries_size b R2) (told_wf _ _ _ _ T1)) as B2.
  destruct (take_block (SIZEOF_ENTRY * _) 1 k1) as [[p2 k2]|e]; [|left; by apply io_bind_fail].
  destruct B2 as (a2 & Ea2 & Ta2 & Ca2). rewrite bind_ok, (io_bind_step _ _ _ _ _ Ea2).
  assert (serving dr (con_dev c) (con_dev a2)) as Va2 by (eapply serving_trans; [exact W1|]; apply calm_serves; [apply W1|exact Ca2]).
  destruct (read_told dr p2 (root_sector b) (root_count b) a2 (told_wf _ _ _ _ Ta2) (proj1 Va2) R1 R2 R3) as [(c2 & E2 & T2 & V2)|[E2 F2]].
  2: { right. split; [|right; exists b; rewrite Hsec; split; [done|]; eapply reported_same; [apply Va2|done]].
       apply io_bind_fail. unfold read_root_directory. cbn [bpb of_option]. rewrite lift_Ok. by apply io_bind_fail. }
  left. pose proof (read_root_directory_step (H := console_floppy (S spins) dr p2) fresh b a2 _ c2 E2) as R.
  assert (drive_sector (con_dev a2) <$> seqZ (root_sector b) (root_count b) = sectors <$> seqZ (root_sector b) (root_count b)) as Hs
    by (apply list_fmap_ext; intros i j _; rewrite <- Hsec; apply Va2). rewrite Hs in R.
  destruct (root_block fresh b _) as [dir|e]; [|by apply io_bind_fail]. rewrite bind_ok in R. rewrite bind_ok, (io_bind_step _ _ _ _ _ R).
  pose proof (block_told (2 * BYTES_PER_SECTOR) 1 k2 c2 ltac:(unfold BYTES_PER_SECTOR; lia) (told_wf _ _ _ _ T2)) as B3.
  destruct (take_block (2 * _) 1 k2) as [[p3 k3]|e]; [|by apply io_bind_fail]. destruct B3 as (a3 & Ea3 & Ta3 & Ca3).
  rewrite bind_ok, (io_bind_step _ _ _ _ _ Ea3). cbn [bpb root_dir]. cbv zeta.
  destruct (stdout_told (chars "fs: initialized") a3 (told_wf _ _ _ _ Ta3)) as (c3 & E3 & T3 & C3). rewrite (io_bind_step _ _ _ _ _ E3).
  pose proof (kernel_search_told b dir (Some (fresh (2 * BYTES_PER_SECTOR))) c3 (Hdir dir eq_refl) (told_wf _ _ _ _ T3)) as Hk.
  destruct (resolve_path _ kernel_path) as [o|e]; [|by apply io_bind_fail]. destruct Hk as (c4 & E4 & T4 & C4).
  rewrite bind_ok, (io_bind_step _ _ _ _ _ E4). destruct o as [e|]; [|done]. cbn [of_option]. rewrite lift_Ok, bind_ok.
  destruct (stderr_told (kernel_pieces (size e)) (nul (chars "kernel size: %uB" ++ newline)) [AWord (size e)] c4)
    as (c5 & E5 & T5 & C5); [apply kernel_fits|reflexivity|reflexivity|apply T4|].
  exists c5. rewrite (io_bind_step _ _ _ _ _ E5). split; [done|]. split.
  - exact (told_trans _ _ _ _ _ _ _ Ta1 (told_trans _ _ _ _ _ _ _ T1 (told_trans _ _ _ _ _ _ _ Ta2 (told_trans _ _ _ _ _ _ _ T2
      (told_trans _ _ _ _ _ _ _ Ta3 (told_trans _ _ _ _ _ _ _ T3 (told_trans _ _ _ _ _ _ _ T4 T5))))))).
  - assert (serving dr (con_dev c) (con_dev c2)) as V12 by (by eapply serving_trans).
    eapply serving_trans; [exact V12|]. apply calm_serves; [apply V12|].
    eapply calm_trans; [exact Ca3|]. eapply calm_trans; [exact C3|by eapply calm_trans].
Qed.

(** *** The drivers *)

(** What the drivers come to: the file system, and the processor with the dispatcher
    scheduled and task switching on. *)
Definition drivers_start (sectors : Z -> list Z) (exit_addr dispatch_key_events : Z) (k : cpu M) : outcome (fs * cpu M * list Z) :=
  '(s, k1, t) ← fs_start sectors k;
  k2 ← schedule_dispatcher exit_addr dispatch_key_events k1;
  '(_, k3) ← enable_task_switch k2;
  Ok (s, k3, t ++ heap_text k1 k2).

(** The drive comes up and says so. *)
Lemma floppy_told drive_number low m pt dr low' m' (c : console D) d : Console.wf c ->
  init_floppy_driver (S spins) drive_number low m pt (con_dev c) = Ok ((dr, low', m'), d) -> ready dr d ->
  exists c', (forall B (k : driver * low_memory * gmap Z Z -> io (console D) B),
      ('(dr, low, m) ← on_dev (init_floppy_driver (S spins) drive_number low m pt);
       _ ← libc_puts (S spins) (chars "floppy:    initialized"); k (dr, low, m)) c = k (dr, low', m') c') /\
    told (chars "floppy:    initialized" ++ newline) (chars "floppy:    initialized" ++ newline) c c' /\ serving dr d (con_dev c').
Proof.
  intros Hw He Hr. destruct (drive_step (init_floppy_driver (S spins) drive_number low m pt) c (dr, low', m') d Hw He) as (c1 & E1 & T1 & D1).
  { intros u. destruct (uart_after u) as (W1 & W2 & W3 & W4). by apply (start_kept _ _ off_line W1 W2 W3 W4 off_line_ports). }
  destruct (stdout_told (chars "floppy:    initialized") c1 (told_wf _ _ _ _ T1)) as (c2 & E2 & T2 & C2).
  exists c2. split; [|split].
  - intros B k. by rewrite (io_bind_step _ _ _ _ _ E1), (io_bind_step _ _ _ _ _ E2).
  - exact (told_trans _ _ _ _ _ _ _ T1 T2).
  - rewrite D1 in C2. by apply calm_serves.
Qed.

Lemma dispatcher_says exit_addr dispatch_key_events (k k' : cpu M) : schedule_dispatcher exit_addr dispatch_key_events k = Ok k' ->
  says (cpu_heap k) (cpu_heap k').
Proof.
  unfold schedule_dispatcher. intros He. apply bind_Ok in He as ([id s'] & Hs & He). injection He as <-.
  by eapply schedule_task_says.
Qed.

(** The keyboard's interrupt line is opened. *)
Lemma keyboard_told dr (c : console D) : Console.wf c -> ready dr (con_dev c) ->
  exists c', on_dev (unmask_irq KEYBOARD) c = Ok (tt, c') /\ told [] [] c c' /\ ready dr (con_dev c') /\
    same_sectors (con_dev c) (con_dev c') /\
    forall l, masked l (con_dev c') = if irq_val l =? irq_val KEYBOARD then false else masked l (con_dev c).
Proof.
  intros Hw [Hb Hi Hm Hp]. destruct (unmask_line KEYBOARD (con_dev c) eq_refl Hi) as (d & E & I & P & S_ & L).
  destruct (drive_step (unmask_irq KEYBOARD) c tt d Hw E) as (c' & E' & T & Hd).
  { intros u. destruct (uart_after u) as (W1 & W2 & W3 & W4). by apply (unmask_kept _ off_line W1 W2 off_line_ports). }
  exists c'. rewrite Hd. split; [done|]. split; [done|]. split; [|done]. split; [done|done|by rewrite L|congruence].
Qed.

(** [C34] [kmain] behind the timer brings the drivers up, or stops where the memory and
    the disk make it stop: the drive answers and is ready, the file system has the
    tables of the disk's volume, read through the drive, the dispatching task waits
    and task switching is on; exactly the floppy's and the keyboard's interrupt lines
    have been opened, and the line and the screen show what was read and started, on
    the line with the heap's messages about the blocks and the stack taken.  Apart
    from that it stops only if the controller answers the read command for the boot
    sector, or for the root directory the boot sector tells of, by an error in its
    status bytes: then with the panic of [read_floppy_or_fail].

    The drive is one that starts as [FloppyStart] says: it answers VERSION by 0x90 and
    LOCK by 0x10, ends the reset by an interrupt, and a seek by SENSE INTERRUPT; the
    serial line has its own ports, and the DMA buffer lies in one 64 KiB page. *)
Theorem drivers_come_up drive_number low m pt buf low' m' exit_addr dispatch_key_events (k : cpu M) (c : console D)
    (Hw : Console.wf c) (Hi : idle (con_dev c)) (Hp : phase (con_dev c) = FIdle) (Hd : 0 <= drive_number < 4)
    (Hlow : allocate low m FLOPPY_BUFFER_SIZE 1 = Ok (buf, low', m'))
    (Hphys : get_physical_address pt buf = Ok buf) (Hbuf : 0 < buf < 2 ^ 24) (Hpage : buf `mod` 65536 + 512 * 16 <= 65536)
    (Hroot : forall b, boot_block fresh (drive_sector (con_dev c) 0) = Ok b -> root_ok b /\ forall dir,
       root_block fresh b (concat (drive_sector (con_dev c) <$> seqZ (root_sector b) (root_count b))) = Ok dir -> readable (num_of_directory_entries b) dir) :
  let dr := Driver drive_number (Buffer buf FLOPPY_BUFFER_SIZE) in
  match drivers_start (drive_sector (con_dev c)) exit_addr dispatch_key_events k with
  | Fail e => kmain_drivers (S spins) fresh drive_number low m pt exit_addr dispatch_key_events k c = Fail e
  | Ok (s, k', t) => exists c',
      kmain_drivers (S spins) fresh drive_number low m pt exit_addr dispatch_key_events k c = Ok ((dr, low', m', s, k'), c') /\
      told ((chars "floppy:    initialized" ++ newline) ++ t) drivers_screen c c' /\
      ready dr (con_dev c') /\ same_sectors (con_dev c) (con_dev c') /\ volume fresh (drive_sector (con_dev c)) = Ok s /\
      task_switching_enabled k' = true /\ enabled (flags k') = true /\
      forall l, masked l (con_dev c') =
        if (irq_val l =? irq_val FLOPPY) || (irq_val l =? irq_val KEYBOARD) then false else masked l (con_dev c)
  end \/
  (kmain_drivers (S spins) fresh drive_number low m pt exit_addr dispatch_key_events k c = Fail (Panic "error reading floppy!") /\
    start_fault dr (con_dev c)).
Proof.
  cbv zeta. destruct (init_floppy_driver_ready spins drive_number low m pt buf low' m' (con_dev c) Hi Hp Hd Hlow Hphys Hbuf)
    as (d & Ed & _ & _ & Sd & Ld & Rd). specialize (Rd Hpage). set (dr := Driver drive_number (Buffer buf FLOPPY_BUFFER_SIZE)) in *.
  destruct (floppy_told drive_number low m pt dr low' m' c d Hw Ed Rd) as (c1 & E1 & T1 & V1).
  assert (same_sectors (con_dev c) (con_dev c1)) as Hs1 by (intros j; destruct V1 as (_ & S1 & _); by rewrite S1, Sd).
  assert (Hrun : kmain_drivers (S spins) fresh drive_number low m pt exit_addr dispatch_key_events k c =
    ('(s, k) ← fs_init (S spins) fresh dr k; k ← keyboard_init (S spins) exit_addr dispatch_key_events k;
     '(_, k) ← io_lift (enable_task_switch k); mret (dr, low', m', s, k)) c1).
  { unfold kmain_drivers. exact (E1 _ (fun '(dr, low, m) => '(s, k) ← fs_init (S spins) fresh dr k;
      k ← keyboard_init (S spins) exit_addr dispatch_key_events k; '(_, k) ← io_lift (enable_task_switch k); mret (dr, low, m, s, k))). }
  rewrite Hrun. unfold drivers_start.
  destruct (fs_init_told dr k _ c1 (told_wf _ _ _ _ T1) (proj1 V1) Hs1 Hroot) as [Hf|[Hf Hfault]]; [left|right].
  2: { split; [by apply io_bind_fail|]. by eapply start_fault_same. }
  destruct (fs_start (drive_sector (con_dev c)) k) as [[[s k1] t]|e] eqn:Efs; [|by apply io_bind_fail].
  destruct Hf as (c2 & E2 & T2 & V2). rewrite bind_ok, (io_bind_step _ _ _ _ _ E2). unfold keyboard_init. rewrite bind_assoc.
  destruct (schedule_dispatcher exit_addr dispatch_key_events k1) as [k2|e] eqn:Es; [|done]. rewrite lift_Ok, bind_ok, bind_assoc.
  destruct (news_told (cpu_heap k1) (cpu_heap k2) c2 (dispatcher_says _ _ _ _ Es) (told_wf _ _ _ _ T2)) as (a & Ea & Ta & Ca).
  rewrite (io_bind_step _ _ _ _ _ Ea), bind_assoc. pose proof (calm_serves dr _ _ (proj1 V2) Ca) as Va.
  destruct (keyboard_told dr a (told_wf _ _ _ _ Ta) (proj1 Va)) as (c3 & E3 & T3 & R3 & S3 & L3). rewrite (io_bind_step _ _ _ _ _ E3), ret_bind.
  exists c3. split; [reflexivity|]. split; [|split; [exact R3|]].
  - pose proof (told_trans _ _ _ _ _ _ _ T1 (told_trans _ _ _ _ _ _ _ T2 (told_trans _ _ _ _ _ _ _ Ta T3))) as T. by rewrite !app_nil_r in T.
  - destruct V1 as (_ & S1 & P1), V2 as (_ & S2 & P2), Va as (_ & Sa & Pa). split; [intros j; by rewrite S3, Sa, S2, S1, Sd|].
    split; [by eapply fs_start_volume|]. split; [done|]. split; [apply enabled_enable|].
    intros l. rewrite L3, (pic_same_masked _ _ l Pa), (pic_same_masked _ _ l P2), (pic_same_masked _ _ l P1), Ld.
    by destruct (irq_val l =? irq_val FLOPPY), (irq_val l =? irq_val KEYBOARD).
Qed.

End steps.

(** ** A machine *)

(** The drive of FloppyDisk.v and the line of Serial.v on one bus. *)
Record bus := Bus { bus_line : line; bus_drive : drive_pc false }.

Definition on_line (p : Z) : bool := (COM1 <=? p) && (p <? COM1 + 8).

#[export] Instance bus_ports : Ports bus := {
  port_in p b :=
    let '(v, l) := port_in p (bus_line b) in
    let '(w, d) := port_in p (bus_drive b) in
    if on_line p then (v, Bus l (bus_drive b)) else (w, Bus (bus_line b) d);
  port_out p v b :=
    if on_line p then Bus (port_out p v (bus_line b)) (bus_drive b) else Bus (bus_line b) (port_out p v (bus_drive b))
}.

Lemma bus_in_line p (b : bus) : on_line p = true ->
  port_in p b = ((port_in p (bus_line b)).1, Bus (port_in p (bus_line b)).2 (bus_drive b)).
Proof. intros Hp. cbn [port_in bus_ports]. rewrite Hp. by destruct (port_in p (bus_line b)), (port_in p (bus_drive b)). Qed.

Lemma bus_in_drive p (b : bus) : on_line p = false ->
  port_in p b = ((port_in p (bus_drive b)).1, Bus (bus_line b) (port_in p (bus_drive b)).2).
Proof. intros Hp. cbn [port_in bus_ports]. rewrite Hp. by destruct (port_in p (bus_line b)), (port_in p (bus_drive b)). Qed.

Lemma bus_out_line p v (b : bus) : on_line p = true -> port_out p v b = Bus (port_out p v (bus_line b)) (bus_drive b).
Proof. intros Hp. cbn [port_out bus_ports]. by rewrite Hp. Qed.

Lemma bus_out_drive p v (b : bus) : on_line p = false -> port_out p v b = Bus (bus_line b) (port_out p v (bus_drive b)).
Proof. intros Hp. cbn [port_out bus_ports]. by rewrite Hp. Qed.

Lemma line_on_line p : COM1 <= p < COM1 + 8 -> on_line p = true.
Proof. intros [H1%Z.leb_le H2%Z.ltb_lt]. unfold on_line. by rewrite H1, H2. Qed.
Lemma drive_off_line p : p < COM1 \/ COM1 + 8 <= p -> on_line p = false.
Proof. intros Hp. unfold on_line. apply andb_false_iff. rewrite Z.leb_gt, Z.ltb_ge. lia. Qed.

#[export] Instance bus_uart : Uart16550 bus.
Proof.
  refine {| uart_of b := uart_of (bus_line b); Serial.busy b := Serial.busy (bus_line b); max_busy := max_busy (D := line) |}.
  - intros b. apply busy_bound.
  - intros i v b Hi Hv Hb. rewrite bus_out_line by (apply line_on_line; lia). by apply write_register.
  - intros b. destruct (read_line_status (bus_line b)) as (v & l & Hr & Hs). rewrite bus_in_line by done. rewrite Hr. by eexists _, _.
Defined.

#[export] Instance bus_pic : Pic8259 bus.
Proof.
  refine {| master b := master (bus_drive b); slave b := slave (bus_drive b) |}.
  - intros b. destruct (read_master (bus_drive b)) as (d & Hr & Hs). rewrite bus_in_drive by done. rewrite Hr. by eexists.
  - intros b. destruct (read_slave (bus_drive b)) as (d & Hr & Hs). rewrite bus_in_drive by done. rewrite Hr. by eexists.
  - intros p v b. destruct (on_line p) eqn:E; [|rewrite bus_out_drive by done; apply out_master].
    rewrite bus_out_line by done. unfold on_line in E. apply andb_true_iff in E as [E1%Z.leb_le E2]. change COM1 with 0x3F8 in E1.
    replace (p =? PIC1_COMMAND) with false by (symmetry; apply Z.eqb_neq; unfold PIC1_COMMAND; lia).
    by replace (p =? PIC1_DATA) with false by (symmetry; apply Z.eqb_neq; unfold PIC1_DATA; lia).
  - intros p v b. destruct (on_line p) eqn:E; [|rewrite bus_out_drive by done; apply out_slave].
    rewrite bus_out_line by done. unfold on_line in E. apply andb_true_iff in E as [E1%Z.leb_le E2]. change COM1 with 0x3F8 in E1.
    replace (p =? PIC2_COMMAND) with false by (symmetry; apply Z.eqb_neq; unfold PIC2_COMMAND; lia).
    by replace (p =? PIC2_DATA) with false by (symmetry; apply Z.eqb_neq; unfold PIC2_DATA; lia).
Defined.

#[export] Instance bus_machine : FloppyMachine bus := {
  poll_disk_interrupt b := let '(v, d) := poll_disk_interrupt (bus_drive b) in (v, Bus (bus_line b) d);
  physical_bytes a n b := physical_bytes a n (bus_drive b);
  let_time_pass us b := Bus (bus_line b) (let_time_pass us (bus_drive b))
}.

Definition bus_alike (b b' : bus) : Prop := alike (bus_drive b) (bus_drive b').

Lemma bus_still b b' : still_by bus_alike b b' <-> still_by alike (bus_drive b) (bus_drive b').
Proof. done. Qed.

#[export] Instance bus_controller : FloppyController bus.
Proof.
  refine {| phase b := phase (bus_drive b); params_of := params_of (D := drive_pc false);
    executes cmd bytes b := executes cmd bytes (bus_drive b); alike := bus_alike |}.
  - intros b. apply alike_refl.
  - intros b1 b2 b3. apply alike_trans.
  - intros b b' A. exact (alike_pic _ _ A).
  - intros cmd bytes b. apply executed_bytes.
  - intros cmd bytes b b' He Hs. by eapply executes_still.
  - intros b. destruct (read_status (bus_drive b)) as (v & d & Hr & Hs). rewrite bus_in_drive by done. rewrite Hr. by eexists _, _.
  - intros b v sent Hv Hp. rewrite bus_out_drive by done. exact (write_byte (bus_drive b) v sent Hv Hp).
  - intros b cmd v bytes Hp Hv. destruct (read_byte (bus_drive b) cmd v bytes Hp Hv) as (d & Hr & Hs).
    rewrite bus_in_drive by done. rewrite Hr. by eexists.
  - intros b cmd bytes Hp Ht. destruct (interrupt_arrived (bus_drive b) cmd bytes Hp Ht) as (d & Hr & Hs).
    cbn [poll_disk_interrupt bus_machine]. rewrite Hr. by eexists.
  - intros b. rewrite bus_in_drive by done. exact (read_mask (bus_drive b)).
Defined.

#[export] Instance bus_floppy : FloppyDrive bus.
Proof.
  refine {| dma_of b := dma_of (bus_drive b); drive_sector b := drive_sector (bus_drive b) |}.
  - intros b. exact (drive_sector_size (bus_drive b)).
  - intros a n b. exact (memory_size a n (bus_drive b)).
  - intros a k n b. exact (memory_prefix a k n (bus_drive b)).
  - intros p v b Hp. rewrite bus_out_drive; [exact (dma_out p v (bus_drive b) Hp)|].
    apply drive_off_line, off_line_ports, elem_of_app. by right.
  - intros b b'. exact (alike_drive (bus_drive b) (bus_drive b')).
  - exact (read_takes (D := drive_pc false)).
  - intros ps bytes b. exact (read_gives ps bytes (bus_drive b)).
  - intros h dn c s st0 bytes b k. exact (read_transfers h dn c s st0 bytes (bus_drive b) k).
Defined.

#[export] Instance bus_start : FloppyStart bus.
Proof.
  split.
  - exact (start_params (D := drive_pc false)).
  - intros bytes b. exact (version_gives bytes (bus_drive b)).
  - intros bytes b. exact (lock_gives bytes (bus_drive b)).
  - intros ps bytes b. exact (configure_gives ps bytes (bus_drive b)).
  - intros ps bytes b. exact (specify_gives ps bytes (bus_drive b)).
  - intros ps bytes b. exact (recalibrate_gives ps bytes (bus_drive b)).
  - intros bytes b. exact (sense_length bytes (bus_drive b)).
  - intros ps st0 bytes b1 b. exact (sense_gives ps st0 bytes (bus_drive b1) (bus_drive b)).
  - intros p v b Hp. rewrite bus_out_drive by (by destruct Hp as [->| ->]). exact (control_out p v (bus_drive b) Hp).
  - intros b. rewrite bus_in_drive by done. exact (control_in (bus_drive b)).
  - intros us b. exact (time_passes us (bus_drive b)).
  - intros v b. rewrite bus_out_drive by done. exact (mask_out v (bus_drive b)).
  - intros v us b b' Hq. destruct (reset_interrupts v us (bus_drive b) (bus_drive b')) as (d & Hr & Hs); [exact Hq|].
    cbn [poll_disk_interrupt bus_machine]. rewrite Hr. by eexists.
Defined.

#[export] Instance bus_board : DriverBoard bus.
Proof.
  split.
  - intros p v b Hp. rewrite bus_out_line by (by apply line_on_line). split; [done|exact (alike_refl (bus_drive b))].
  - intros p b Hp. rewrite bus_in_line by (by apply line_on_line). split; [done|exact (alike_refl (bus_drive b))].
  - intros p v b Hp. by rewrite bus_out_drive by (by apply drive_off_line).
  - intros p b Hp. by rewrite bus_in_drive by (by apply drive_off_line).
  - intros b. cbn [poll_disk_interrupt bus_machine]. by destruct (poll_disk_interrupt (bus_drive b)).
  - done.
Defined.

(** A name has no NUL: the message about an entry prints its attributes, and what
    follows them up to the first zero, as part of it. *)
Theorem name_runs_on : name_text kernel_entry 0 = chars "KERNEL     " ++ [attributes (entry_of kernel_entry 0)].
Proof. reflexivity. Qed.

(** *** The machine after the timer *)

Definition timer_console : console bus :=
  Console (Screen (replicate 2000 0) (Cursor 0 0)) true (replicate 512 0) (Bus (Line (Uart 3 3 0 0 0x0B []) (true, true)) (sample_drive false)).

(** A scheduler that has started, and the heap as [memory::finish_init] leaves it. *)
Definition timer_heap : heap :=
  match kmain_memory (sample_boot_info 2250458971) sample_image with Ok (h, _, _) => h | Fail _ => full_node_page end.
Definition timer_cpu : cpu heap :=
  Cpu 0x202 false false
    (match Scheduler.init Scheduler.idle true with
     | Ok s => Sched (tasks s) (total_tasks s) (current_task_id s) (fxsave_blocks s) (temp_fxsave s) timer_heap (stack_words s)
     | Fail _ => initial_sched timer_heap
     end).

Lemma timer_wf : Console.wf timer_console.
Proof. split; [by repeat split|by exists (replicate 511 0)|done]. Qed.

Lemma sample_bpb_root : root_ok sample_bpb.
Proof. unfold root_ok. split; [by vm_compute|]. split; [split; by vm_compute|by vm_compute]. Qed.

Lemma timer_bpb : boot_block heap_block (drive_sector (con_dev timer_console) 0) = Ok sample_bpb.
Proof. vm_compute. reflexivity. Qed.

Lemma readable_check n dir :
  forallb (fun i => match text_of (drop (Z.to_nat (i * SIZEOF_ENTRY)) dir) with Ok name => printable name | Fail _ => false end) (seqZ 0 n) = true ->
  readable n dir.
Proof.
  intros Hall i Hi. rewrite forallb_forall in Hall. specialize (Hall i ltac:(apply list_elem_of_In, elem_of_seqZ; lia)).
  destruct (text_of _) as [name|]; [by exists name|done].
Qed.

Definition sample_dir : outcome (list Z) :=
  root_block heap_block sample_bpb
    (concat (drive_sector (con_dev timer_console) <$> seqZ (root_sector sample_bpb) (root_count sample_bpb))).

Lemma sample_dir_readable dir : sample_dir = Ok dir -> readable (num_of_directory_entries sample_bpb) dir.
Proof.
  intros Hd. apply readable_check. assert (match sample_dir with Ok dir => forallb (fun i => match text_of (drop (Z.to_nat (i * SIZEOF_ENTRY)) dir) with
    Ok name => printable name | Fail _ => false end) (seqZ 0 (num_of_directory_entries sample_bpb)) | Fail _ => false end = true) as Hc
    by (vm_compute; reflexivity). by rewrite Hd in Hc.
Qed.

Lemma timer_root b : boot_block heap_block (drive_sector (con_dev timer_console) 0) = Ok b -> root_ok b /\ forall dir,
  root_block heap_block b (concat (drive_sector (con_dev timer_console) <$> seqZ (root_sector b) (root_count b))) = Ok dir ->
  readable (num_of_directory_entries b) dir.
Proof.
  rewrite timer_bpb. pose proof sample_bpb_root as Hr. pose proof sample_dir_readable as Hd. unfold sample_dir in Hd. revert Hr Hd.
  generalize sample_bpb. by intros b0 Hr Hd [= <-].
Qed.

Lemma timer_idle : idle (con_dev timer_console).
Proof. split_and!; by vm_compute. Qed.
(** The emulated drive goes on past the end of a cylinder: it reports no errors. *)
Lemma bus_reports_nothing dr lba n (b : bus) : read_reported dr lba n b -> False.
Proof. intros (st0 & st1 & bytes & b' & [He _] & _ & _ & Hne). apply Hne. by injection He as -> -> _. Qed.

Lemma bus_starts_without_fault fresh dr (b : bus) : start_fault fresh dr b -> False.
Proof. intros [Hf|(b' & _ & Hf)]; by apply bus_reports_nothing in Hf. Qed.

Definition first_line : list Z := chars "allocating 62 bytes with 1 alignment" ++ newline.
Lemma timer_text : match drivers_start heap_block (drive_sector (con_dev timer_console)) 0xE417 0x1234 timer_cpu with
  | Ok (_, _, t) => bool_decide (take (length first_line) t = first_line)
  | Fail _ => false
  end = true.
Proof. vm_compute. reflexivity. Qed.

Lemma drivers_come_up_witness : exists s k' t m' c',
  drivers_start heap_block (drive_sector (con_dev timer_console)) 0xE417 0x1234 timer_cpu = Ok (s, k', t) /\
  take (length first_line) t = first_line /\
  kmain_drivers 3 heap_block 0 FloppyDisk.sample_low FloppyDisk.sample_memory (Paging.early_init PagingInit.sample_layout) 0xE417 0x1234 timer_cpu timer_console =
    Ok ((sample_driver, LowMemory 0x60000 0x70000, m', s, k'), c') /\
  told ((chars "floppy:    initialized" ++ newline) ++ t) drivers_screen timer_console c' /\
  masked FLOPPY (con_dev c') = false /\ masked KEYBOARD (con_dev c') = false /\ task_switching_enabled k' = true.
Proof.
  destruct sample_allocates as [m' Hm].
  assert (get_physical_address (Paging.early_init PagingInit.sample_layout) 0x50000 = Ok 0x50000) as Hphys by (vm_compute; reflexivity).
  pose proof (drivers_come_up 2 (le_n 3) heap_block 0 FloppyDisk.sample_low FloppyDisk.sample_memory (Paging.early_init PagingInit.sample_layout) 0x50000
    (LowMemory 0x60000 0x70000) m' 0xE417 0x1234 timer_cpu timer_console timer_wf timer_idle eq_refl ltac:(lia) Hm Hphys ltac:(lia)
    ltac:(vm_compute; discriminate) timer_root) as Hd.
  cbv zeta in Hd. destruct Hd as [Hd|[_ Hf]]; [|case (bus_starts_without_fault _ _ _ Hf)].
  pose proof timer_text as Hok.
  destruct (drivers_start heap_block (drive_sector (con_dev timer_console)) 0xE417 0x1234 timer_cpu) as [[[s k'] t]|e]; [|discriminate Hok].
  destruct Hd as (c' & Hr & Ht & _ & _ & _ & Hk & _ & Hl). exists s, k', t, m', c'. split; [done|].
  split; [by apply bool_decide_eq_true in Hok|]. split; [exact Hr|]. split; [exact Ht|].
  split; [apply (Hl FLOPPY)|]. split; [apply (Hl KEYBOARD)|exact Hk].
Defined.
