(* ===== verification/KList.v ===== *)
(** * kernel/util/list.h: the singly linked list

    [kstd::list] over an allocator that gives fresh nodes.  [push_back] looks for
    the last node with the member [head] itself as its cursor, so the list forgets
    the nodes in front; and the comparison with the end iterator is constant, so
    no iteration enters its body. *)
From S2P Require Import Prelude.

Section klist.
Context {T : Type}.

Record node := Node { data : T; next : Z }.

(** The nodes by address; null is 0. *)
Record klist := KList { head : Z; store : gmap Z node }.

Definition empty_list : klist := KList 0 ∅.

Definition node_at (l : klist) (a : Z) : outcome node := of_option (Undefined "not a node") (store l !! a).

(** [while (head->next) head = head->next;] *)
Fixpoint move_head (fuel : nat) (l : klist) : outcome klist :=
  match fuel with
  | O => Fail Diverges
  | S f =>
      n ← node_at l (head l);
      if next n =? 0 then Ok l else move_head f (KList (next n) (store l))
  end.

(** [new_node] is what the allocator returns. *)
Definition push_back (l : klist) (value : T) (new_node : Z) : outcome klist :=
  if head l =? 0 then Ok (KList new_node (<[new_node := Node value 0]> (store l)))
  else
    l1 ← move_head (S (base.size (store l))) l;
    let st := <[new_node := Node value 0]> (store l1) in
    n ← of_option (Undefined "not a node") (st !! head l1);
    Ok (KList (head l1) (<[head l1 := Node (data n) new_node]> st)).

(** The destructor: the nodes it gives back, in order. *)
Fixpoint destroy_loop (fuel : nat) (l : klist) (curr : Z) : outcome (list Z) :=
  if curr =? 0 then Ok []
  else
    match fuel with
    | O => Fail Diverges
    | S f => n ← node_at l curr; r ← destroy_loop f l (next n); Ok (curr :: r)
    end.

Definition destroy (l : klist) : outcome (list Z) := destroy_loop (S (base.size (store l))) l (head l).

(** *** Iteration *)

Inductive iterator := At (inner : Z) | End.

Definition begin (l : klist) : iterator := At (head l).
Definition end_ (l : klist) : iterator := End.

(** [operator!=] *)
Definition differs (lhs rhs : iterator) : bool :=
  match lhs, rhs with
  | At a, At b => negb (a =? b)
  | End, End => true
  | _, _ => false
  end.

(** [for (auto &x : list) body(x)]: the elements the body sees. *)
Fixpoint for_each (fuel : nat) (l : klist) (it : iterator) : outcome (list T) :=
  if differs it (end_ l) then
    match fuel, it with
    | S f, At a => n ← node_at l a; r ← for_each f l (At (next n)); Ok (data n :: r)
    | _, _ => Fail Diverges
    end
  else Ok [].

(** ** What is left of the list *)

Fixpoint push_all (l : klist) (vs : list (T * Z)) : outcome klist :=
  match vs with
  | [] => Ok l
  | (v, a) :: vs' => l' ← push_back l v a; push_all l' vs'
  end.

(** The addresses and values reachable from [head]: at most two. *)
Inductive shape (l : klist) : list (T * Z) -> Prop :=
| shape_nil : head l = 0 -> shape l []
| shape_one v a : head l = a -> a <> 0 -> store l !! a = Some (Node v 0) -> shape l [(v, a)]
| shape_two v a w b : head l = a -> a <> 0 -> b <> 0 -> a <> b -> store l !! a = Some (Node v b) ->
    store l !! b = Some (Node w 0) -> shape l [(v, a); (w, b)].

Lemma shape_size l vs : shape l vs -> (length vs <= base.size (store l))%nat.
Proof.
  intros Hs. inversion Hs as [|v a Hh Ha Hl|v a w b Hh Ha Hb Hne Hl Hl']; subst; cbn [length].
  - lia.
  - destruct (base.size (store l)) eqn:E; [|lia]. apply map_size_empty_iff in E. rewrite E in Hl. done.
  - assert (base.size (delete (head l) (store l)) <> 0%nat) as Hd.
    { intros E. apply map_size_empty_iff in E. assert (delete (head l) (store l) !! b = Some (Node w 0)) as Hx
        by (by rewrite lookup_delete_ne). by rewrite E in Hx. }
    rewrite map_size_delete, Hl in Hd. cbn in Hd. lia.
Qed.

(** The last two elements of a list, the value pushed last among them. *)
Definition last_two {A} (l : list A) : list A := drop (length l - 2) l.

Lemma push_shape l vs v a : shape l vs -> a <> 0 -> store l !! a = None ->
  exists l', push_back l v a = Ok l' /\ shape l' (last_two (vs ++ [(v, a)])) /\
    (forall b, b <> a -> store l !! b = None -> store l' !! b = None).
Proof.
  intros Hs Ha Hf. pose proof (shape_size l vs Hs) as Hsz. unfold push_back.
  inversion Hs as [Hh|w b Hh Hb Hl|w b x c Hh Hb Hc Hne Hl Hl']; subst.
  - rewrite Hh. cbn. eexists. split; [done|]. split.
    + apply shape_one; cbn; [done..|]. by rewrite lookup_insert_eq.
    + intros b Hb Hn. cbn. by rewrite lookup_insert_ne.
  - assert (head l =? 0 = false) as -> by lia. cbn [move_head]. unfold node_at. rewrite Hl.
    cbn [of_option mbind outcome_bind next]. change (0 =? 0) with true. cbn [mbind outcome_bind].
    assert (head l <> a) as Hna by congruence.
    rewrite lookup_insert_ne, Hl by done. cbn [of_option mbind outcome_bind data]. eexists. split; [done|]. split.
    + apply shape_two; cbn [head store]; try done; [by rewrite lookup_insert_eq|].
      by rewrite lookup_insert_ne, lookup_insert_eq.
    + intros b Hb' Hn. cbn [store]. rewrite !lookup_insert_ne; congruence.
  - assert (head l =? 0 = false) as -> by lia. cbn [length] in Hsz.
    destruct (base.size (store l)) as [|n]; [lia|]. cbn [move_head]. unfold node_at. rewrite Hl.
    cbn [of_option mbind outcome_bind next]. assert (c =? 0 = false) as -> by lia.
    cbn [head store]. rewrite Hl'. cbn [of_option mbind outcome_bind next]. change (0 =? 0) with true.
    cbn [mbind outcome_bind head store]. assert (c <> a) as Hca by congruence.
    rewrite lookup_insert_ne, Hl' by done. cbn [of_option mbind outcome_bind data]. eexists. split; [done|]. split.
    + apply shape_two; cbn [head store]; try done; [by rewrite lookup_insert_eq|].
      by rewrite lookup_insert_ne, lookup_insert_eq.
    + intros b Hb' Hn. cbn [store]. rewrite !lookup_insert_ne; congruence.
Qed.

Lemma last_two_app {A} (l : list A) v : last_two (last_two l ++ [v]) = last_two (l ++ [v]).
Proof.
  unfold last_two. rewrite !length_app, length_drop. cbn [length].
  destruct (decide (length l <= 2)%nat) as [Hl|Hl].
  - replace (length l - 2)%nat with 0%nat by lia. by rewrite drop_0, Nat.sub_0_r.
  - rewrite !drop_app, !drop_drop, !length_drop. f_equal; f_equal; lia.
Qed.

Lemma push_all_shape vs l pre : NoDup vs.*2 -> Forall (fun a => a <> 0) vs.*2 -> shape l (last_two pre) ->
  Forall (fun p => store l !! p.2 = None) vs ->
  exists l', push_all l vs = Ok l' /\ shape l' (last_two (pre ++ vs)).
Proof.
  revert l pre. induction vs as [|[v a] vs IH]; intros l pre Hnd Hnz Hs Hf; cbn [push_all].
  - exists l. by rewrite app_nil_r.
  - rewrite fmap_cons in Hnd, Hnz. apply NoDup_cons in Hnd as [Hni Hnd].
    apply Forall_cons in Hnz as [Ha Hnz]. apply Forall_cons in Hf as [Hfa Hf]. cbn [snd] in *.
    destruct (push_shape l _ v a Hs Ha Hfa) as (l1 & -> & Hs1 & Hk). cbn [mbind outcome_bind].
    rewrite last_two_app in Hs1. destruct (IH l1 (pre ++ [(v, a)]) Hnd Hnz Hs1) as (l' & Hp & Hs').
    + apply Forall_forall. intros p Hp. rewrite Forall_forall in Hf. apply Hk; [|by apply (Hf p)].
      intros Hpa. apply Hni. rewrite <- Hpa. by apply list_elem_of_fmap_2.
    + exists l'. split; [done|]. by rewrite <- app_assoc in Hs'.
Qed.

Lemma shape_destroy l vs : shape l vs -> destroy l = Ok vs.*2.
Proof.
  intros Hs. pose proof (shape_size _ _ Hs) as Hsz. unfold destroy.
  inversion Hs as [Hh|w b Hh Hb Hl'|w b x c Hh Hb Hc Hne Hl1 Hl2]; subst vs; rewrite Hh; [done|..].
  - cbn [destroy_loop]. assert (b =? 0 = false) as -> by lia. unfold node_at. rewrite Hl'.
    cbn [of_option mbind outcome_bind next]. by destruct (base.size (store l)).
  - cbn [length] in Hsz. destruct (base.size (store l)) as [|[|n]]; [lia..|].
    cbn [destroy_loop]. assert (b =? 0 = false) as -> by lia. unfold node_at. rewrite Hl1.
    cbn [of_option mbind outcome_bind next]. assert (c =? 0 = false) as -> by lia. by rewrite Hl2.
Qed.

Lemma shape_data l vs p : shape l vs -> p ∈ vs -> exists n, store l !! p.2 = Some n /\ data n = p.1.
Proof.
  intros Hs Hp. inversion Hs; subst vs; repeat (apply elem_of_cons in Hp as [->|Hp]; [by eexists|]);
    by apply elem_of_nil in Hp.
Qed.

(** A [kstd::list] keeps the last two elements: whatever is pushed, in nodes
    of its own each, every [push_back] succeeds, but afterwards only the nodes of
    the last two values are reachable, the destructor gives back these and no
    others, and a [for] loop over the list never enters its body. *)
Theorem list_keeps_last_two (vs : list (T * Z)) :
  NoDup vs.*2 -> Forall (fun a => a <> 0) vs.*2 ->
  exists l, push_all empty_list vs = Ok l /\ destroy l = Ok (last_two vs).*2 /\
    (forall p, p ∈ last_two vs -> exists n, store l !! p.2 = Some n /\ data n = p.1) /\
    forall fuel, for_each fuel l (begin l) = Ok [].
Proof.
  intros Hnd Hnz.
  destruct (push_all_shape vs empty_list [] Hnd Hnz (shape_nil empty_list eq_refl)) as (l & Hl & Hs).
  { apply Forall_forall. intros. apply lookup_empty. }
  exists l. split; [done|]. split; [by apply shape_destroy|]. split; [intros p; by apply shape_data|by intros []].
Qed.
End klist.

Lemma list_keeps_last_two_witness : exists l : klist (T := Z),
  push_all empty_list [(5, 16); (6, 32); (7, 48)] = Ok l /\ destroy l = Ok [32; 48].
Proof.
  destruct (list_keeps_last_two [(5, 16); (6, 32); (7, 48)]) as (l & Hl & Hd & _).
  - apply (bool_decide_unpack _). vm_compute. exact I.
  - repeat constructor; done.
  - exists l. split; assumption.
Defined.
