(* ===== verification/UniquePtr.v ===== *)
(** * libadt/unique_ptr.h, kernel/util/unique_ptr.h: owned pointers

    A [unique_ptr] owns the block it points at.  Objects live in slots, a program
    is a sequence of constructions, moves, resets, releases and destructions of
    them, and the calls of the deleter are recorded. *)
From S2P Require Import Prelude Scheduler.

(** [storage]; null is 0. *)
Record unique_ptr := UniquePtr { storage : Z }.

Definition default_unique_ptr : unique_ptr := UniquePtr 0.
Definition from_data (data : Z) : unique_ptr := UniquePtr data.

(** [std::swap(storage, other.storage)] with the new object's null. *)
Definition swap (a b : unique_ptr) : unique_ptr * unique_ptr := (UniquePtr (storage b), UniquePtr (storage a)).
Definition move (other : unique_ptr) : unique_ptr * unique_ptr := swap default_unique_ptr other.

(** The assignment swaps, and then reaches its end without a [return]. *)
Definition move_assign (self other : unique_ptr) : outcome (unique_ptr * unique_ptr) :=
  let _ := swap self other in Fail (Undefined "no return value").

Definition as_bool (p : unique_ptr) : bool := negb (storage p =? 0).
Definition get (p : unique_ptr) : Z := storage p.
Definition release (p : unique_ptr) : Z * unique_ptr := (storage p, UniquePtr 0).

Section deleter.
Context {D : Type} (deleter : D -> Z -> outcome D).

(** The deleter is called whether or not there is a block. *)
Definition reset (d : D) (p : unique_ptr) : outcome (unique_ptr * D) :=
  d' ← deleter d (storage p); Ok (UniquePtr 0, d').

Definition destroy (d : D) (p : unique_ptr) : outcome D := '(_, d') ← reset d p; Ok d'.
End deleter.

(** [standard_deleter]: [alloc::free], which ignores the alignment. *)
Definition standard_deleter {H} `{KernelHeap H} (h : H) (data : Z) : outcome H := kfree h data.

(** ** Programs over owned pointers *)

Inductive op :=
| New (i : nat) (data : Z)        (* unique_ptr i(data) *)
| MoveTo (i j : nat)              (* unique_ptr i(std::move(j)) *)
| Reset (i : nat)
| Release (i : nat)
| Destroy (i : nat).

Record trace := Trace {
  slots : gmap nat unique_ptr;    (* the live objects *)
  made : list Z;                  (* blocks given to constructors *)
  deleted : list Z;               (* arguments of the deleter *)
  released : list Z               (* results of release *)
}.

(** The deleter that records. *)
Definition record_deleter (d : list Z) (p : Z) : outcome (list Z) := Ok (p :: d).

(** An object that does not live cannot be used, and a slot in use not built on. *)
Definition step (t : trace) (o : op) : outcome trace :=
  let object i := of_option (Undefined "object is not alive") (slots t !! i) in
  let vacant i := assert_ (bool_decide (slots t !! i = None)) "slot is in use" in
  match o with
  | New i data =>
      _ ← vacant i;
      Ok (Trace (<[i := from_data data]> (slots t)) (data :: made t) (deleted t) (released t))
  | MoveTo i j =>
      _ ← vacant i; p ← object j;
      let '(p', other) := move p in
      Ok (Trace (<[i := p']> (<[j := other]> (slots t))) (made t) (deleted t) (released t))
  | Reset i =>
      p ← object i; '(p', d) ← reset record_deleter (deleted t) p;
      Ok (Trace (<[i := p']> (slots t)) (made t) d (released t))
  | Release i =>
      p ← object i; let '(r, p') := release p in
      Ok (Trace (<[i := p']> (slots t)) (made t) (deleted t) (r :: released t))
  | Destroy i =>
      p ← object i; d ← destroy record_deleter (deleted t) p;
      Ok (Trace (delete i (slots t)) (made t) d (released t))
  end.

Fixpoint run (t : trace) (l : list op) : outcome trace :=
  match l with
  | [] => Ok t
  | o :: l' => t' ← step t o; run t' l'
  end.

Definition start : trace := Trace ∅ [] [] [].

(** ** Every block is given back once *)

Definition blocks (l : list Z) : list Z := filter (fun p => p <> 0) l.
Definition held (m : gmap nat unique_ptr) : list Z := blocks ((fun kv => storage kv.2) <$> map_to_list m).

#[export] Instance blocks_proper : Proper ((≡ₚ) ==> (≡ₚ)) blocks.
Proof. intros l l' H. unfold blocks. by rewrite H. Qed.

Lemma blocks_cons p l : blocks (p :: l) = blocks [p] ++ blocks l.
Proof. unfold blocks. rewrite !filter_cons, filter_nil. by case_decide. Qed.

Lemma held_insert m i p : m !! i = None -> held (<[i := p]> m) ≡ₚ blocks [storage p] ++ held m.
Proof.
  intros Hi. unfold held. rewrite map_to_list_insert by done. rewrite fmap_cons. by rewrite blocks_cons.
Qed.

Lemma held_delete m i p : m !! i = Some p -> held m ≡ₚ blocks [storage p] ++ held (delete i m).
Proof.
  intros Hi. rewrite <- (insert_id m i p Hi) at 1. rewrite <- insert_delete_eq.
  apply held_insert, lookup_delete_eq.
Qed.

Lemma held_update m i p q : m !! i = Some p -> blocks [storage p] ++ held (<[i := q]> m) ≡ₚ blocks [storage q] ++ held m.
Proof.
  intros Hi. rewrite (held_delete m i p Hi), <- insert_delete_eq, (held_insert _ i q) by apply lookup_delete_eq.
  by rewrite !app_assoc, (Permutation_app_comm (blocks [storage p])).
Qed.

(** Blocks are conserved: what was made is held, deleted or released. *)
Definition conserved (t : trace) : Prop :=
  blocks (deleted t) ++ blocks (released t) ++ held (slots t) ≡ₚ blocks (made t).

Lemma held_null m i p : m !! i = Some p -> blocks [storage p] ++ held (<[i := UniquePtr 0]> m) ≡ₚ held m.
Proof. intros Hi. by rewrite (held_update m i p _ Hi). Qed.

Lemma step_conserves t o t' : conserved t -> step t o = Ok t' -> conserved t'.
Proof.
  intros Hc Hs. unfold conserved in *. destruct o as [i data|i j|i|i|i]; cbn [step] in Hs.
  - apply bind_Ok in Hs as ([] & Hv & Hs). injection Hs as <-. apply assert_Ok in Hv. cbn [slots made deleted released].
    rewrite held_insert by (by apply bool_decide_eq_true in Hv). rewrite (blocks_cons data (made t)), <- Hc. solve_Permutation.
  - apply bind_Ok in Hs as ([] & Hv & Hs). apply bind_Ok in Hs as (p & Hp & Hs). injection Hs as <-.
    apply assert_Ok in Hv. apply bool_decide_eq_true in Hv. apply of_option_Ok in Hp. cbn [slots made deleted released].
    rewrite held_insert by (rewrite lookup_insert_ne; congruence). by rewrite (held_null _ _ _ Hp).
  - apply bind_Ok in Hs as (p & Hp & Hs). injection Hs as <-. apply of_option_Ok in Hp. cbn [slots made deleted released].
    rewrite (blocks_cons (storage p) _), <- Hc, <- (held_null _ _ _ Hp). solve_Permutation.
  - apply bind_Ok in Hs as (p & Hp & Hs). injection Hs as <-. apply of_option_Ok in Hp. cbn [slots made deleted released].
    rewrite (blocks_cons (storage p) _), <- Hc, <- (held_null _ _ _ Hp). solve_Permutation.
  - apply bind_Ok in Hs as (p & Hp & Hs). injection Hs as <-. apply of_option_Ok in Hp. cbn [slots made deleted released].
    rewrite (blocks_cons (storage p) _), <- Hc, (held_delete _ _ _ Hp). solve_Permutation.
Qed.

Lemma run_conserves l t t' : conserved t -> run t l = Ok t' -> conserved t'.
Proof.
  revert t. induction l as [|o l IH]; intros t Hc Hr; cbn [run] in Hr; [by inv_ok|].
  apply bind_Ok in Hr as (t1 & Hs & Hr). apply (IH t1); [by eapply step_conserves|done].
Qed.

(** [C37] Ownership: whatever a program does with its pointers, and however often it
    moves them, as long as it constructs from distinct blocks no block is deleted
    twice, none is both deleted and released, and at the end, when no object lives
    any more, every block has been deleted or handed out by [release].  The
    deleter does get null pointers, for objects that own nothing. *)
Theorem owned_blocks_freed_once l t (Hr : run start l = Ok t) (Hd : NoDup (blocks (made t))) :
  NoDup (blocks (deleted t) ++ blocks (released t)) /\
  (slots t = ∅ -> forall p, p <> 0 -> p ∈ made t <-> p ∈ deleted t \/ p ∈ released t).
Proof.
  assert (conserved t) as Hc by (apply (run_conserves l start t); [exact (Permutation_refl [])|exact Hr]). unfold conserved in Hc.
  rewrite <- Hc, app_assoc in Hd. split; [by apply NoDup_app in Hd as (Hd & _)|].
  intros He p Hp. rewrite He in Hc. change (held ∅) with (@nil Z) in Hc. rewrite app_nil_r in Hc.
  assert (forall l, p ∈ l <-> p ∈ blocks l) as Hb by (intros; unfold blocks; rewrite list_elem_of_filter; tauto).
  rewrite (Hb (made t)), <- Hc, elem_of_app, <- !Hb. done.
Qed.

Lemma owned_blocks_freed_once_witness : exists t,
  run start [New 0 16; New 1 32; MoveTo 2 0; Release 1; Destroy 0; Destroy 1; Destroy 2] = Ok t /\
  slots t = ∅ /\ deleted t = [16; 0; 0] /\ (32 ∈ deleted t \/ 32 ∈ released t).
Proof.
  eexists. split; [reflexivity|]. split; [reflexivity|]. split; [reflexivity|].
  refine (proj1 (proj2 (owned_blocks_freed_once
    [New 0 16; New 1 32; MoveTo 2 0; Release 1; Destroy 0; Destroy 1; Destroy 2] _ eq_refl _) eq_refl 32 _) _).
  - apply (bool_decide_unpack _). vm_compute. exact I.
  - discriminate.
  - left.
Defined.
