(* ===== verification/SmallString.v ===== *)
(** * libadt/small_string.h, kernel/util/allocator.h: strings with a small buffer

    A short string lies in the object, a longer one in a block of the allocator.
    Memory is that of CString.v; the allocator [Alloc] is a class. *)
From S2P Require Import Prelude CString.

#[local] Arguments wrap : simpl never.

(** The template parameter [Alloc]: a null pointer, or bytes nobody uses yet. *)
Class ByteAllocator := {
  allocate : memory -> Z -> Z * memory;
  allocate_null m n d m' : allocate m n = (d, m') -> d = 0 -> m' = m;
  allocate_block m n d m' : allocate m n = (d, m') -> d <> 0 ->
    mapped m' d n /\ (forall x, d <= x < d + n -> m !! x = None) /\ forall x b, m !! x = Some b -> m' !! x = Some b
}.

Section small_string.
Context `{ByteAllocator}.

(** [kstd::allocator<Alloc>::alloc_array_of] of elements of [sizeof_T] bytes. *)
Definition alloc_array_of (sizeof_T : Z) (m : memory) (n : Z) : Z * memory := allocate m (u64 (sizeof_T * n)).

(** The union [storage]: its active member. *)
Inductive storage := Small (small : list Z) | Big (big : Z).
Record string_storage := StringStorage { data : storage; count : Z; is_small : bool }.
Definition size (s : string_storage) : Z := count s.

(** The two constructors; [SmallSize] bytes fit into the object. *)
Definition small_storage (SmallSize : Z) (m : memory) (src n : Z) : outcome string_storage :=
  if n <=? SmallSize then bs ← load_bytes m src (Z.to_nat n); Ok (StringStorage (Small bs) (u32 n) true)
  else Fail OutOfBounds.
Definition big_storage (m : memory) (src buffer n : Z) : outcome (string_storage * memory) :=
  m' ← memcpy m buffer src n; Ok (StringStorage (Big buffer) (u32 n) false, m').

(** [string_storage<0>], whose constructor leaves [count] as it is initialised. *)
Definition storage_0 (m : memory) (src buffer n : Z) : outcome (Z * Z * memory) :=
  m' ← memcpy m buffer src n; Ok (buffer, 0, m').

(** [string_base<Alloc, N>::make] *)
Definition make (N : Z) (m : memory) (data n : Z) : outcome (option string_storage * memory) :=
  if n <? N then s ← small_storage N m data n; Ok (Some s, m)
  else
    let '(d, m) := alloc_array_of 1 m n in
    if d =? 0 then Ok (None, m)
    else '(s, m) ← big_storage m data d n; Ok (Some s, m).

(** The characters of a string. *)
Definition text (m : memory) (s : string_storage) : outcome (list Z) :=
  match data s with
  | Small bs => Ok bs
  | Big d => load_bytes m d (Z.to_nat (count s))
  end.

Lemma load_bytes_agree m m' a b n : mapped m a (Z.of_nat n) ->
  (forall i, 0 <= i < Z.of_nat n -> m' !! (b + i) = m !! (a + i)) -> load_bytes m' b n = load_bytes m a n.
Proof.
  revert a b. induction n as [|n IH]; intros a b Hm Hx; cbn [load_bytes]; [done|].
  destruct (mapped_cons m a (Z.of_nat (S n)) ltac:(lia) Hm) as [[v Hv] Hm'].
  replace (Z.of_nat (S n) - 1) with (Z.of_nat n) in Hm' by lia.
  assert (m' !! b = Some v) as Hb by (rewrite <- Hv, <- (Z.add_0_r a), <- (Z.add_0_r b); apply Hx; lia).
  rewrite (load_mapped _ _ _ Hv), (load_mapped _ _ _ Hb). cbn [mbind outcome_bind].
  rewrite (IH (a + 1) (b + 1) Hm'); [done|]. intros i Hi. rewrite <- !Z.add_assoc. apply Hx. lia.
Qed.

(** [make] of [n] characters that can be read: below [N] the string lies in the
    object, otherwise in a block of its own or there is none; nothing that was
    mapped changes, the string has the characters it was made of, and it says so. *)
Theorem make_keeps_text N m src n : 0 <= n < 2 ^ 32 -> mapped m src n ->
  exists r m', make N m src n = Ok (r, m') /\ (forall x b, m !! x = Some b -> m' !! x = Some b) /\
    match r with
    | Some s => size s = n /\ is_small s = (n <? N) /\ text m' s = load_bytes m src (Z.to_nat n)
    | None => N <= n
    end.
Proof.
  intros Hn Hm. unfold make. destruct (n <? N) eqn:E; bool_to_prop.
  - unfold small_storage. replace (n <=? N) with true by lia.
    destruct (load_bytes_spec (Z.to_nat n) m src) as (bs & Hbs & _); [by rewrite Z2Nat.id by lia|].
    rewrite Hbs. cbn [mbind outcome_bind]. eexists _, _. split; [done|]. split; [done|]. unfold size. cbn [count is_small text data].
    split; [apply wrap_small; lia|]. by split.
  - unfold alloc_array_of. rewrite wrap_small by lia. rewrite Z.mul_1_l. destruct (allocate m n) as [d m1] eqn:Ea.
    destruct (d =? 0) eqn:E0; bool_to_prop.
    { eexists _, _. split; [done|]. rewrite (allocate_null _ _ _ _ Ea E0). by split. }
    destruct (allocate_block _ _ _ _ Ea E0) as (Hd & Hf & Hk).
    assert (mapped m1 src n) as Hs by (intros i Hi; destruct (Hm i Hi) as [b Hb]; eauto).
    destruct (memcpy_spec m1 d src n) as (m2 & Hc & Hx); [lia|done|done| |].
    { destruct (Z.le_gt_cases d src); [by left|]. right. destruct (Z.le_gt_cases (src + n) d); [done|]. exfalso.
      destruct (Hm (d - src) ltac:(lia)) as [b Hb]. rewrite Hf in Hb by lia. done. }
    unfold big_storage. rewrite Hc. cbn [mbind outcome_bind]. eexists _, _. split; [done|]. split.
    + intros x b Hb. rewrite Hx. case_decide as Hr; [|eauto]. rewrite Hf in Hb by lia. done.
    + unfold size. cbn [count is_small text data]. split; [apply wrap_small; lia|]. split; [done|].
      rewrite wrap_small by lia. apply load_bytes_agree; [by rewrite Z2Nat.id by lia|].
      intros i Hi. rewrite Hx, decide_True by lia. replace (src + (d + i - d)) with (src + i) by lia.
      destruct (Hm i ltac:(lia)) as [b Hb]. by rewrite (Hk _ _ Hb), Hb.
Qed.

(** The length is kept in 32 bits: a string of 2^32 characters or more is stored
    whole but has the length modulo 2^32. *)
Theorem long_string_truncated N m src n s m' : 2 ^ 32 <= n < 2 ^ 64 -> make N m src n = Ok (Some s, m') ->
  size s = n `mod` 2 ^ 32 /\ size s < n.
Proof.
  intros Hn He. assert (count s = u32 n) as Hc.
  { unfold make in He. case_if.
    - unfold small_storage in He. case_if; [|done]. apply bind_Ok in He as (s' & He & E2). apply bind_Ok in He as (bs & _ & He).
      injection E2 as <- _. by injection He as <-.
    - destruct (alloc_array_of 1 m n) as [d m1]. case_if; [done|]. apply bind_Ok in He as ([s' m2] & He & E2).
      apply bind_Ok in He as (m3 & _ & He). injection E2 as <- _. by injection He as <- _. }
  unfold size. rewrite Hc. split; [done|]. pose proof (wrap_range 32 n ltac:(lia)). lia.
Qed.

(** The specialisation without a small buffer does not record a length. *)
Theorem storage_0_has_no_size m src buffer n d c m' : storage_0 m src buffer n = Ok (d, c, m') -> c = 0.
Proof. unfold storage_0. intros He. apply bind_Ok in He as (m1 & _ & He). by injection He as _ <- _. Qed.

(** [alloc_array_of] multiplies in 64 bits: an array too large for the address space
    gets a block that is too small instead of a null pointer. *)
Theorem array_size_wraps sizeof_T m n : 0 <= n -> 0 < sizeof_T -> 2 ^ 64 <= sizeof_T * n ->
  exists k, alloc_array_of sizeof_T m n = allocate m k /\ 0 <= k < sizeof_T * n.
Proof. intros Hn Hs Hw. exists (u64 (sizeof_T * n)). split; [done|]. pose proof (wrap_range 64 (sizeof_T * n) ltac:(lia)). lia. Qed.
End small_string.

(** An allocator with room for everything: it hands out zeroed bytes above all
    others. *)
Definition bump_allocate (m : memory) (n : Z) : Z * memory :=
  (next_block m, if next_block m =? 0 then m else m ∪ zeroed_block (next_block m) n).

Lemma bump_null m n d m' : bump_allocate m n = (d, m') -> d = 0 -> m' = m.
Proof. intros [= <- <-] Hd. by rewrite Hd. Qed.

Lemma bump_block m n d m' : bump_allocate m n = (d, m') -> d <> 0 ->
  mapped m' d n /\ (forall x, d <= x < d + n -> m !! x = None) /\ forall x b, m !! x = Some b -> m' !! x = Some b.
Proof.
  intros [= <- <-] Hd. apply Z.eqb_neq in Hd as ->.
  assert (forall x, next_block m <= x -> m !! x = None) as Hn.
  { intros x Hx. destruct (m !! x) eqn:E; [|done]. apply below_next_block in E. lia. }
  split; [|split].
  - intros i Hi. rewrite lookup_union_r by (apply Hn; lia). rewrite zeroed_block_lookup, decide_True by lia. eauto.
  - intros x Hx. apply Hn. lia.
  - intros x b Hx. by apply lookup_union_Some_l.
Qed.

#[export] Instance bump_bytes : ByteAllocator := {
  allocate := bump_allocate; allocate_null := bump_null; allocate_block := bump_block
}.

Example make_nine : ('(r, _) ← make 8 (zeroed_block 1 9) 1 9; Ok (option_map size r)) = Ok (Some 9).
Proof. by vm_compute. Qed.
